(* ===== verification/_CoqProject ===== *)
-Q . S2P
Prelude.v
Cstring.v
DList.v
Common.v
Htable.v
State.v
Posix.v
Platform.v
Location.v
Device.v
Heap.v
Compat.v
PosixDevice.v
SerialPosix.v
HidLinux.v
Monitor.v
MonitorSpec.v
World.v
Discovery.v
Lifetime.v
Session.v
MonitorLinux.v
MonitorLinuxSpec.v
SessionLinux.v
Win32.v
DeviceWin32.v
SerialWin32.v
HidWin32.v
PlatformDarwin.v
CoreFoundation.v
HidDarwin.v
HidDarwinSpec.v
UsbDarwin.v
MonitorDarwin.v
UsbDarwinSpec.v
MonitorDarwinSpec.v
MonitorDarwinLife.v
SessionDarwin.v
Examples.v
ExamplesLinux.v
UsbWin32.v
UsbWin32Spec.v
EnumWin32.v
EnumWin32Spec.v
MonitorWin32.v
MonitorWin32Spec.v
