(* ===== verification/Prelude.v ===== *)
(** * libhs, verified

    libhs (sources under src/) enumerates, watches and opens HID and serial
    devices on Linux, Windows and macOS. Every component is a C file with a
    variant per system; this development models them as they are written and
    proves what they promise.

    ** How the code is modelled

    A C function is a command [M (st W) A] (this file): it takes the state
    and gives a value and a new state, or a [fault] (an access to memory that
    is not allocated, a failed [assert], a signed overflow, an index out of an
    array, a division by zero), or runs out of the fuel that bounds its loops.
    A theorem of the form "... = Done ..." therefore says that the function
    returns and does nothing undefined. [wp] is the weakest precondition of a
    command and [wp_step] executes one step of it.

    The state [st W] (State) has the world [W], the static variables of
    src/common.c, and the memory: the objects at their addresses, with a
    finite map per field for the nodes of the intrusive lists and tables, so
    that a freed object has no fields. Components with objects of their own
    extend it ([dst] of HidDarwin, [mst] of MonitorDarwin, [enum_state] of
    EnumWin32, [nst] of MonitorWin32), and [zoom] lifts a command to the larger state. Integers are
    Z with the wrap-around of their width written out. The systems are classes
    over [W]: [Posix] and [TermiosApi], [Udev], [Win32], [Cfgmgr] and
    [Win32Window], [Mach], [CoreFoundation], [IOKit], [IORegistry] and
    [IONotification], [Allocator] and [Console] hold the calls, as
    functions of the world; what a theorem assumes of a call is a named
    hypothesis ([poll_documented], [pipe_documented], [registry_documented], ...),
    and each has an instance that satisfies it, on which the witnesses run.
    Fuel: a loop over a structure takes its size, and a restarted system call
    the number of signals still to come plus one; the theorems ask for that
    much and no more.

    Threads: the two handles with a thread of their own (src/hid_darwin.c) and
    the monitor of Windows share lists under a mutex. A critical section is one
    command, which faults when the mutex is not free; the write to the pipe
    that follows a section is a command of its own. The theorems are about
    every sequence of these steps ([hid_run], [turn]), so about every
    interleaving of the threads. A wait or a join that nothing would end is
    the fault [Deadlock].

    ** The files

    - Prelude: commands, machine integers, chains of pointers, automation.
    - Cstring, Compat: [strtoul], [sscanf("%u")], decimal printing, and
      src/compat.c: strrpbrk, stpcpy, asprintf and vasprintf.
    - DList: src/list.h. [dlist] relates a ring of nodes to a list; the
      operations are those of lists, and the loop macro visits the nodes in
      order even when the body removes the current one.
    - Common: src/common.c. Errors, log and masks.
    - Htable: src/htable.c and src/htable.h. [htable_rep] relates the array and
      its rings to buckets; the operations are those of buckets.
    - State, Device: struct hs_device, references and handles (src/device.c).
    - Heap: allocation of blocks, [strdup].
    - Monitor, MonitorSpec: src/monitor.c. The specification is a list of
      callbacks and a finite map from keys and interfaces to devices; each
      operation, and each run of operations, refines it. Also creation,
      release, and three defects shown by computation.
    - Posix, Platform: the calls of POSIX; src/platform.c and
      src/platform_posix.c (clock, timeouts, descriptor sets, hs_poll, the
      version of the kernel).
    - PosixDevice, SerialPosix: src/device_posix.c and src/serial_posix.c.
    - HidLinux: src/hid_linux.c. The parser of report descriptors is correct on
      every balanced descriptor and safe on every array; reads give a report
      with its ID first for every version of the kernel.
    - Discovery: what the discovery of devices shares on every system: a new
      device, the memory it adds, the result of a callback, and how callbacks
      that keep their hands off the registry behave.
    - World: what a command does to a part of the world ([alters], [steady]) and
      to a count of its resources ([counts]).
    - Lifetime: [owns], a monitor, its devices and callbacks and every block
      they have, over the memory before it: what creation gives, the registry
      keeps and release takes back, on every system.
    - Session: what a program does with a monitor. [Discovery] is the interface of
      the discovery of a system, [Promises] what it owes to a program; a session
      over any discovery that keeps its promises leaves nothing behind.
    - MonitorLinux, MonitorLinuxSpec: src/monitor_linux.c over libudev. A
      device holds what udev says; an enumeration frees what it allocates;
      hs_monitor_new fails without a trace; hs_monitor_refresh does what the
      waiting events say, in order, up to the first callback that objects.
    - SessionLinux: the discovery of Linux keeps the promises of Session: no
      memory, descriptor or object of libudev is left behind.
    - Examples, ExamplesLinux: the programs of src/examples/ over [Discovery].
      Their callbacks only print; monitor_devices ends when RETURN is pressed or
      something fails, and on Linux leaves nothing behind. Both are run, with
      what they print.
    - Win32, DeviceWin32, SerialWin32, HidWin32: src/platform_win32.c,
      src/device_win32.c, src/serial_win32.c, src/hid_win32.c. Messages lose
      their line ends and nothing else; hs_poll gives the object that is
      signaled. Opening and closing are balanced; serial reads are a stream;
      HID reads are messages.
    - UsbWin32, UsbWin32Spec: the first half of src/monitor_win32.c, paths,
      identifiers, strings and locations. An identifier survives the trip
      through the path of its interface; the location of a device is its path
      of ports in the tree of the configuration manager.
    - EnumWin32, EnumWin32Spec: src/monitor_win32.c from read_hid_properties to
      hs_enumerate. A device holds what the system says or nothing is left of
      it; an enumeration frees what it allocates.
    - MonitorWin32, MonitorWin32Spec: src/monitor_win32.c, the thread, the
      queue of notifications and hs_monitor_refresh. No notification is lost
      or reordered by a refresh, and the event is set while one waits; what
      hs_monitor_new does lose is shown by computation.
    - PlatformDarwin: the clock and hs_poll of src/platform_darwin.c, which
      gives the first descriptor that select leaves in its set.
    - HidDarwin, HidDarwinSpec: src/hid_darwin.c. The callbacks and the readers
      implement a bounded queue, in order, whose readiness is never lost;
      opening gives everything back on an error, closing always.
    - Location: the string of a location, and the order of its ports, which
      src/monitor_win32.c and src/monitor_darwin.c build alike.
    - CoreFoundation: references and numbers, shared by the files for macOS.
    - UsbDarwin, UsbDarwinSpec: the first half of src/monitor_darwin.c, the
      properties of the I/O Registry, locations and process_darwin_device. A
      device holds what the registry says or nothing is left of it; every
      reference to an object of the kernel is released.
    - MonitorDarwin, MonitorDarwinSpec: src/monitor_darwin.c, iterators, the
      controllers, hs_enumerate and the monitor. An enumeration is balanced; a
      refresh makes the calls of the messages in order, up to the first that
      fails, each with its effect on the registry; the removal of a session
      with more than 15 digits removes nothing.
    - MonitorDarwinLife, SessionDarwin: what hs_monitor_new takes of the kernel,
      iterators, ports and a kqueue, and that hs_monitor_free gives it back; the
      discovery of macOS keeps the promises of Session.

    A definition keeps the name of the function it models; the parts of a long
    function have definitions of their own next to it.

    ** What is not modelled

    The cleanup thread of device_win32.c (Windows XP) is a definition whose
    start is a call of the system. The messages that reach the window of a
    monitor and the reports that reach a run loop are arguments; those that
    reach the ports of a monitor of macOS are a script of the world. The lock
    of the list of controllers of macOS is not modelled: its critical section
    is one step. [printf] formats are rendered by the definitions
    that log. The shift of a byte of 128 or more by 24 in
    hid_linux.c, a signed overflow in C, is modelled with the wrap-around that
    the compilers the library supports give it. Of the constructors and
    destructors (_HS_INIT, _HS_EXIT), those that only look up an address
    (device_win32.c) or make and delete a lock (monitor_win32.c) are left out.
    The macros of util.h are part of the definitions that use them. *)

From Stdlib Require Export ZArith Lia.
From stdpp Require Export strings numbers base gmap list.

#[global] Open Scope Z_scope.

(** * Outcomes and the state monad *)

(** Why an execution has no C-level result: an access to memory that is not
    allocated (NULL and freed cells included), a failed [assert], a signed
    overflow, an access outside an array, a division by zero, or a wait that
    nothing ends. *)
Inductive fault : Type :=
  | BadAccess
  | AssertFailed
  | SignedOverflow
  | OutOfBounds
  | DivisionByZero
  | Deadlock.

(** An execution returns, is undefined (with the reason), or runs out of the
    fuel that bounds the loops of the model. *)
Inductive outcome (A : Type) : Type :=
  | Done (a : A)
  | Fault (f : fault)
  | OutOfFuel.
Arguments Done {A} a.
Arguments Fault {A} f.
Arguments OutOfFuel {A}.

#[global] Instance fault_eq_dec : EqDecision fault.
Proof. solve_decision. Defined.

(** Stateful, fallible code over a state [S]. *)
Definition M (S A : Type) : Type := S -> outcome (A * S).

Definition ret {S A} (a : A) : M S A := fun s => Done (a, s).

Definition bind {S A B} (m : M S A) (k : A -> M S B) : M S B :=
  fun s =>
    match m s with
    | Done (a, s') => k a s'
    | Fault f => Fault f
    | OutOfFuel => OutOfFuel
    end.

Definition fail {S A} (f : fault) : M S A := fun _ => Fault f.
Definition out_of_fuel {S A} : M S A := fun _ => OutOfFuel.
Definition get {S} : M S S := fun s => Done (s, s).
Definition put {S} (s : S) : M S unit := fun _ => Done (tt, s).
Definition modify {S} (f : S -> S) : M S unit := fun s => Done (tt, f s).

(** C's [assert]. *)
Definition assert_ {S} (b : bool) : M S unit :=
  if b then ret tt else fail AssertFailed.

Declare Scope hs_scope.
Delimit Scope hs_scope with hs.
#[global] Open Scope hs_scope.

Notation "'let*' x ':=' c 'in' k" := (bind c (fun x => k))
  (at level 10, x pattern, c at level 99, k at level 200,
   format "'let*'  x  ':='  c  'in' '//' k") : hs_scope.
Notation "c1 ';;;' c2" := (bind c1 (fun _ => c2))
  (at level 110, right associativity, format "c1 ';;;' '//' c2") : hs_scope.

(** A part [T] of a larger state [S]: the components of the library are
    written over their own part and lifted with [zoom]. *)
Class Has (T S : Type) := {
  part : S -> T;
  with_part : T -> S -> S;
  part_with : forall t s, part (with_part t s) = t;
  with_with : forall t t' s, with_part t (with_part t' s) = with_part t s;
  with_same : forall s, with_part (part s) s = s
}.

#[export] Instance Has_refl (S : Type) : Has S S | 10.
Proof.
  refine {| part := fun s => s; with_part := fun t _ => t |}; done.
Defined.

Definition zoom {T S A} `{Has T S} (m : M T A) : M S A :=
  fun s =>
    match m (part s) with
    | Done (a, t) => Done (a, with_part t s)
    | Fault f => Fault f
    | OutOfFuel => OutOfFuel
    end.

(** * Total correctness *)

(** [wp m Q s]: from [s], [m] returns (no fault, enough fuel) in a result and
    a state that satisfy [Q]. *)
Definition wp {S A} (m : M S A) (Q : A -> S -> Prop) (s : S) : Prop :=
  match m s with
  | Done (a, s') => Q a s'
  | _ => False
  end.

Section Wp.
Context {S : Type}.
Implicit Types s : S.

Lemma wp_ret {A} (a : A) (Q : A -> S -> Prop) s : Q a s -> wp (ret a) Q s.
Proof. done. Qed.

Lemma wp_bind {A B} (m : M S A) (k : A -> M S B) (Q : B -> S -> Prop) s :
  wp m (fun a s' => wp (k a) Q s') s -> wp (bind m k) Q s.
Proof. unfold wp, bind. by destruct (m s) as [[]| |]. Qed.

Lemma wp_unbind {A B} (m : M S A) (k : A -> M S B) (Q : B -> S -> Prop) s :
  wp (bind m k) Q s -> wp m (fun a s' => wp (k a) Q s') s.
Proof. unfold wp, bind. by destruct (m s) as [[]| |]. Qed.

(** A statement of two steps is one step. *)
Lemma wp_assoc {A B C} (m : M S A) (f : M S B) (k : M S C) (Q : C -> S -> Prop) s :
  wp (bind (bind m (fun _ => f)) (fun _ => k)) Q s ->
  wp (bind m (fun _ => bind f (fun _ => k))) Q s.
Proof. unfold wp, bind. by destruct (m s) as [[]| |]. Qed.

Lemma wp_mono {A} (m : M S A) (P Q : A -> S -> Prop) s :
  wp m P s -> (forall a s', P a s' -> Q a s') -> wp m Q s.
Proof. unfold wp. destruct (m s) as [[]| |]; eauto. Qed.

Lemma wp_inv {A} (m : M S A) (Q : A -> S -> Prop) s :
  wp m Q s -> exists a s', m s = Done (a, s') /\ Q a s'.
Proof. unfold wp. destruct (m s) as [[a s']| |]; naive_solver. Qed.

Lemma wp_intro {A} (m : M S A) (Q : A -> S -> Prop) s a s' :
  m s = Done (a, s') -> Q a s' -> wp m Q s.
Proof. unfold wp. by intros ->. Qed.

Lemma wp_inv_pair {A B} (m : M S (A * B)) (Q : A -> B -> S -> Prop) s :
  wp m (fun ab s' => Q ab.1 ab.2 s') s ->
  exists a b s', m s = Done ((a, b), s') /\ Q a b s'.
Proof. intros ([a b] & s' & E & HQ)%wp_inv. eauto. Qed.

Lemma wp_eq {A} (m : M S A) s a s' :
  wp m (fun b t => b = a /\ t = s') s -> m s = Done (a, s').
Proof. intros (b & t & -> & -> & ->)%wp_inv. done. Qed.

Lemma wp_get (Q : S -> S -> Prop) s : Q s s -> wp get Q s.
Proof. done. Qed.

Lemma wp_put (Q : unit -> S -> Prop) s s' : Q tt s' -> wp (put s') Q s.
Proof. done. Qed.

Lemma wp_modify (f : S -> S) (Q : unit -> S -> Prop) s :
  Q tt (f s) -> wp (modify f) Q s.
Proof. done. Qed.

Lemma wp_assert (b : bool) (Q : unit -> S -> Prop) s :
  b = true -> Q tt s -> wp (assert_ b) Q s.
Proof. by intros ->. Qed.

Lemma wp_zoom {T A} `{Has T S} (m : M T A) (Q : A -> S -> Prop) s :
  wp m (fun a t => Q a (with_part t s)) (part s) -> wp (zoom m) Q s.
Proof. unfold wp, zoom. by destruct (m (part s)) as [[]| |]. Qed.
End Wp.

Create HintDb wp discriminated.
#[export] Hint Resolve wp_ret wp_get wp_put wp_modify wp_assert : wp.

(** One step of symbolic execution. *)
Ltac wp_step :=
  lazymatch goal with
  | |- wp (bind _ _) _ _ => apply wp_bind
  | |- wp (ret _) _ _ => apply wp_ret
  | |- wp get _ _ => apply wp_get
  | |- wp (put _) _ _ => apply wp_put
  | |- wp (modify _) _ _ => apply wp_modify
  | |- wp (assert_ _) _ _ => apply wp_assert
  | |- wp (zoom _) _ _ => apply wp_zoom
  end.
(** Linear arithmetic with division and remainder. *)
Ltac zdiv := Z.to_euclidean_division_equations; lia.

Ltac wp_steps := repeat (wp_step; cbn beta).

(** * Machine integers *)

Definition u8 (z : Z) : Z := z mod 2 ^ 8.
Definition u16 (z : Z) : Z := z mod 2 ^ 16.
Definition u32 (z : Z) : Z := z mod 2 ^ 32.
Definition u64 (z : Z) : Z := z mod 2 ^ 64.
(** Conversion to a 32-bit [int]: two's complement, as every compiler the
    library supports defines it. *)
Definition i32 (z : Z) : Z := (z + 2 ^ 31) mod 2 ^ 32 - 2 ^ 31.

Definition INT_MAX : Z := 2 ^ 31 - 1.
Definition UINT8_MAX : Z := 255.

Lemma u8_bound z : 0 <= u8 z < 2 ^ 8.
Proof. apply Z.mod_pos_bound. lia. Qed.
Lemma u16_bound z : 0 <= u16 z < 2 ^ 16.
Proof. apply Z.mod_pos_bound. lia. Qed.
Lemma u32_bound z : 0 <= u32 z < 2 ^ 32.
Proof. apply Z.mod_pos_bound. lia. Qed.
Lemma u64_bound z : 0 <= u64 z < 2 ^ 64.
Proof. apply Z.mod_pos_bound. lia. Qed.
Lemma u32_small z : 0 <= z < 2 ^ 32 -> u32 z = z.
Proof. apply Z.mod_small. Qed.
Lemma u64_small z : 0 <= z < 2 ^ 64 -> u64 z = z.
Proof. apply Z.mod_small. Qed.
Lemma u16_small z : 0 <= z < 2 ^ 16 -> u16 z = z.
Proof. apply Z.mod_small. Qed.
Lemma u8_small z : 0 <= z < 2 ^ 8 -> u8 z = z.
Proof. apply Z.mod_small. Qed.
Lemma i32_small z : - 2 ^ 31 <= z < 2 ^ 31 -> i32 z = z.
Proof. intros H. unfold i32. rewrite Z.mod_small; lia. Qed.

Lemma Zeqb_decide (x y : Z) : (x =? y) = bool_decide (x = y).
Proof. case_bool_decide; lia. Qed.

Create HintDb cint discriminated.
Create Rewrite HintDb cint.
#[export] Hint Resolve u8_bound u16_bound u32_bound u64_bound : cint.
#[export] Hint Rewrite u8_small u16_small u32_small u64_small i32_small
  using lia : cint.

(** * Pointers and pointer chains *)

(** Pointers are integers, [NULL] is 0. A field of a structure is a finite map
    from the address of the structure to the value of the field, so that a
    store to one field leaves the others alone. *)
Abbreviation ptr := Z (only parsing).
Definition NULL : ptr := 0.

(** The head of a list of pointers, or [d]. *)
Definition hdp (d : ptr) (l : list ptr) : ptr :=
  match l with [] => d | x :: _ => x end.

(** The last element of a list of pointers, or [d]. *)
Fixpoint lastp (d : ptr) (l : list ptr) : ptr :=
  match l with [] => d | x :: l' => lastp x l' end.

(** [chain nx a xs b]: following the field [nx] from [a] visits [xs] in order
    and arrives at [b]. *)
Fixpoint chain (nx : gmap ptr ptr) (a : ptr) (xs : list ptr) (b : ptr) : Prop :=
  match xs with
  | [] => nx !! a = Some b
  | x :: xs' => nx !! a = Some x /\ chain nx x xs' b
  end.

Lemma NoDup_mid {A} (h : A) xs n ys :
  NoDup (h :: xs ++ n :: ys) -> (n ∉ h :: xs ++ ys) /\ NoDup (h :: xs ++ ys).
Proof.
  rewrite <- Permutation_middle, (Permutation_swap n h (xs ++ ys)).
  apply NoDup_cons.
Qed.

Lemma NoDup_snoc {A} (l : list A) x : NoDup l -> x ∉ l -> NoDup (l ++ [x]).
Proof. intros Hl Hx. rewrite <- Permutation_cons_append. by apply NoDup_cons. Qed.

Lemma Forall2_impl_in {A B} (P Q : A -> B -> Prop) l k :
  Forall2 P l k -> (forall x y, x ∈ l -> P x y -> Q x y) -> Forall2 Q l k.
Proof.
  induction 1 as [|x y l k Hxy _ IH]; intros HPQ; constructor; [apply HPQ; [set_solver|done]|].
  apply IH. intros x' y' Hx'. apply HPQ. set_solver.
Qed.

(** Lists of lists: the buckets of a hash table. *)
Section Concat.
Context {A : Type}.
Implicit Types (ls : list (list A)) (x y : list A) (p : A).

Lemma elem_of_concat ls p : p ∈ concat ls <-> exists i x, ls !! i = Some x /\ p ∈ x.
Proof.
  rewrite list_elem_of_In, in_concat. split.
  - intros (x & Hx & Hp). apply list_elem_of_In, list_elem_of_lookup in Hx as [i Hi].
    exists i, x. by rewrite list_elem_of_In.
  - intros (i & x & Hi & Hp). exists x. rewrite <- !list_elem_of_In.
    split; [|done]. by eapply list_elem_of_lookup_2.
Qed.

Lemma concat_middle ls i x : ls !! i = Some x ->
  concat ls = concat (take i ls) ++ x ++ concat (drop (S i) ls).
Proof.
  intros Hi. rewrite <- (take_drop_middle ls i x Hi) at 1.
  by rewrite concat_app.
Qed.

Lemma concat_insert ls i x y : ls !! i = Some x ->
  concat (<[i:=y]> ls) = concat (take i ls) ++ y ++ concat (drop (S i) ls).
Proof.
  intros Hi. assert (i < length ls)%nat as Hlt by (by eapply lookup_lt_Some).
  rewrite (concat_middle _ i y) by (by apply list_lookup_insert_eq).
  by rewrite take_insert_ge, drop_insert_lt by lia.
Qed.

Lemma NoDup_concat_lookup ls i x : NoDup (concat ls) -> ls !! i = Some x -> NoDup x.
Proof.
  intros Hnd Hi. rewrite (concat_middle _ _ _ Hi) in Hnd.
  apply NoDup_app in Hnd as (_ & _ & Hnd). by apply NoDup_app in Hnd as (? & _).
Qed.

Lemma NoDup_concat_disjoint ls i j x y p :
  NoDup (concat ls) -> ls !! i = Some x -> ls !! j = Some y -> p ∈ x -> p ∈ y -> i = j.
Proof.
  revert i j. induction ls as [|z ls IH]; intros i j; [done|]. simpl.
  rewrite NoDup_app. intros (_ & Hd & Hnd) Hi Hj Hx Hy.
  destruct i as [|i], j as [|j]; simplify_eq/=; [done| | |].
  - destruct (Hd p Hx). apply elem_of_concat. eauto.
  - destruct (Hd p Hy). apply elem_of_concat. eauto.
  - f_equal. eauto.
Qed.

Lemma NoDup_concat_insert ls i x y :
  NoDup (concat ls) -> ls !! i = Some x -> NoDup y ->
  (forall p, p ∈ y -> p ∈ x \/ p ∉ concat ls) -> NoDup (concat (<[i:=y]> ls)).
Proof.
  intros Hnd Hi Hy Hin. rewrite (concat_insert _ _ _ _ Hi).
  rewrite (concat_middle _ _ _ Hi) in Hnd, Hin.
  rewrite !NoDup_app in *. destruct Hnd as (H1 & H2 & H3 & H4 & H5).
  split_and!; try done.
  - intros p Hp [Hp'|Hp']%elem_of_app; [|set_solver].
    destruct (Hin p Hp') as [?|?]; set_solver.
  - intros p Hp Hp'. destruct (Hin p Hp) as [?|?]; set_solver.
Qed.
End Concat.

Lemma elem_ne {A} (x y : A) (l : list A) : x ∈ l -> y ∉ l -> x <> y.
Proof. by intros Hx Hy ->. Qed.

(** A store never frees a cell. *)
Lemma is_Some_insert {K V} `{Countable K} (m : gmap K V) (i j : K) (v : V) :
  is_Some (m !! i) -> is_Some (<[j:=v]> m !! i).
Proof. rewrite lookup_insert_is_Some'. auto. Qed.
#[export] Hint Resolve is_Some_insert mk_is_Some : core.

Section Chain.
Implicit Types (nx : gmap ptr ptr) (a b d n p x : ptr) (xs ys : list ptr).

Lemma lastp_app d xs ys : lastp d (xs ++ ys) = lastp (lastp d xs) ys.
Proof. revert d. induction xs as [|x xs IH]; intros d; simpl; auto. Qed.

Lemma lastp_snoc d xs x : lastp d (xs ++ [x]) = x.
Proof. by rewrite lastp_app. Qed.

Lemma hdp_app d xs ys : hdp d (xs ++ ys) = hdp (hdp d ys) xs.
Proof. by destruct xs. Qed.

Lemma hdp_reverse d xs : hdp d (reverse xs) = lastp d xs.
Proof.
  induction xs as [|x xs _] using rev_ind; [done|].
  by rewrite reverse_snoc, lastp_snoc.
Qed.

Lemma lastp_reverse d xs : lastp d (reverse xs) = hdp d xs.
Proof. by rewrite <- hdp_reverse, reverse_involutive. Qed.

Lemma lastp_elem d xs : lastp d xs ∈ d :: xs.
Proof.
  revert d. induction xs as [|x xs IH]; intros d; simpl; [set_solver|].
  specialize (IH x). set_solver.
Qed.

Lemma hdp_elem d xs : hdp d xs ∈ d :: xs.
Proof. destruct xs; set_solver. Qed.

(** The link that leaves the prefix [xs]. *)
Lemma chain_link nx a xs ys b :
  chain nx a (xs ++ ys) b -> nx !! lastp a xs = Some (hdp b ys).
Proof.
  revert a. induction xs as [|x xs IH]; intros a; simpl.
  - destruct ys; simpl; tauto.
  - intros [_ H]. by apply IH.
Qed.

Lemma chain_app nx a xs y ys b :
  chain nx a (xs ++ y :: ys) b <-> chain nx a xs y /\ chain nx y ys b.
Proof.
  revert a. induction xs as [|x xs IH]; intros a; simpl; [done|].
  rewrite IH. tauto.
Qed.

Lemma chain_frame nx a xs b p v :
  p ∉ a :: xs -> chain (<[p:=v]> nx) a xs b <-> chain nx a xs b.
Proof.
  revert a. induction xs as [|x xs IH]; intros a Hp; simpl.
  - rewrite lookup_insert_ne by set_solver. done.
  - rewrite lookup_insert_ne by set_solver. rewrite IH by set_solver. done.
Qed.

Lemma chain_delete nx a xs b p :
  p ∉ a :: xs -> chain (delete p nx) a xs b <-> chain nx a xs b.
Proof.
  revert a. induction xs as [|x xs IH]; intros a Hp; simpl.
  - rewrite lookup_delete_ne by set_solver. done.
  - rewrite lookup_delete_ne by set_solver. rewrite IH by set_solver. done.
Qed.

Lemma chain_same nx nx' a xs b :
  (forall p, p ∈ a :: xs -> nx' !! p = nx !! p) ->
  chain nx a xs b -> chain nx' a xs b.
Proof.
  revert a. induction xs as [|x xs IH]; intros a Hp; simpl.
  - by rewrite Hp by set_solver.
  - rewrite Hp by set_solver. intros [? ?]. split; [done|].
    apply IH; [set_solver|done].
Qed.

(** Redirecting the last link of a chain. *)
Lemma chain_retarget nx a xs b c :
  NoDup (a :: xs) -> chain nx a xs b ->
  chain (<[lastp a xs := c]> nx) a xs c.
Proof.
  revert a. induction xs as [|x xs IH]; intros a Hnd; simpl.
  - intros _. by rewrite lookup_insert_eq.
  - intros [Ha H]. apply NoDup_cons in Hnd as [Hni Hnd].
    rewrite lookup_insert_ne; [split; auto|].
    intros Heq. apply Hni. rewrite <- Heq. apply lastp_elem.
Qed.

Lemma chain_dom nx a xs b x :
  chain nx a xs b -> x ∈ a :: xs -> is_Some (nx !! x).
Proof.
  revert a. induction xs as [|y xs IH]; intros a; simpl.
  - intros H Hx. apply list_elem_of_singleton in Hx as ->. eauto.
  - intros [Ha H] [->|Hx]%elem_of_cons; eauto.
Qed.

(** A chain that leaves [a] for [b] visits [b] first when [b] heads it. *)
Lemma chain_fun nx a xs b ys :
  chain nx a xs b -> chain nx a ys b -> NoDup (a :: xs) -> NoDup (a :: ys) ->
  b ∉ xs -> b ∉ ys -> xs = ys.
Proof.
  revert a ys. induction xs as [|x xs IH]; intros a [|y ys]; simpl; [done| | |].
  - intros H1 [H2 _]. set_solver.
  - intros [H1 _] H2. set_solver.
  - intros [H1 C1] [H2 C2] N1 N2 B1 B2. simplify_eq.
    apply NoDup_cons in N1 as [_ N1]. apply NoDup_cons in N2 as [_ N2].
    f_equal. eapply IH; eauto; set_solver.
Qed.

(** Every node of a ring has a predecessor. *)
Lemma chain_pred nx a xs b x : chain nx a xs b -> x ∈ xs \/ x = b ->
  exists p, nx !! p = Some x.
Proof.
  revert a. induction xs as [|y xs IH]; intros a; simpl.
  - intros H [Hx|Hx]; [set_solver|subst x; eauto].
  - intros [H1 H2] [Hx|Hx]; [|eauto]. apply elem_of_cons in Hx as [->|Hx]; eauto.
Qed.

Lemma chain_insert nx a xs ys b n :
  NoDup (a :: xs ++ ys) -> n ∉ a :: xs ++ ys -> chain nx a (xs ++ ys) b ->
  chain (<[n := hdp b ys]> (<[lastp a xs := n]> nx)) a (xs ++ n :: ys) b.
Proof.
  intros Hnd Hn Hc. apply chain_app.
  assert (Hl : lastp a xs ∈ a :: xs) by apply lastp_elem.
  split.
  - apply chain_frame; [set_solver|].
    apply chain_retarget with (b := hdp b ys).
    + rewrite app_comm_cons in Hnd. apply NoDup_app in Hnd. tauto.
    + destruct ys as [|y ys]; [by rewrite app_nil_r in Hc|].
      by apply chain_app in Hc as [? _].
  - destruct ys as [|y ys]; simpl.
    + by rewrite lookup_insert_eq.
    + rewrite lookup_insert_eq. split; [done|].
      apply chain_app in Hc as [_ Hc].
      rewrite app_comm_cons in Hnd. apply NoDup_app in Hnd as (_ & Hd & _).
      apply chain_frame; [set_solver|]. apply chain_frame; [|done].
      intros Hin. by apply (Hd (lastp a xs)).
Qed.

Lemma chain_remove nx a xs n ys b :
  NoDup (a :: xs ++ n :: ys) -> chain nx a (xs ++ n :: ys) b ->
  chain (<[lastp a xs := hdp b ys]> nx) a (xs ++ ys) b.
Proof.
  intros Hnd [Hc1 Hc2]%chain_app.
  rewrite app_comm_cons in Hnd. apply NoDup_app in Hnd as (Hnd & Hd & _).
  pose proof (chain_retarget _ _ _ _ (hdp b ys) Hnd Hc1) as Hc.
  destruct ys as [|y ys]; [by rewrite app_nil_r|].
  apply chain_app. split; [done|].
  destruct Hc2 as [_ Hc2]. apply chain_frame; [|done].
  intros Hin. apply (Hd (lastp a xs)); [apply lastp_elem|set_solver].
Qed.

(** Moving the nodes [ys] of another chain between [xs] and [zs]. *)
Lemma chain_splice nx a xs ys zs b f c :
  NoDup ((a :: xs ++ zs) ++ f :: ys) -> ys <> [] ->
  chain nx a (xs ++ zs) b -> chain nx f ys c ->
  chain (<[lastp f ys := hdp b zs]> (<[lastp a xs := hdp f ys]> nx))
    a (xs ++ ys ++ zs) b.
Proof.
  intros Hnd Hys Hc Hcf. destruct ys as [|y ys]; [done|]. simpl in *.
  destruct Hcf as [_ Hcf].
  pose proof (lastp_elem a xs) as Hl. pose proof (lastp_elem y ys) as Hl'.
  change (NoDup ((a :: xs ++ zs) ++ [f] ++ y :: ys)) in Hnd.
  apply NoDup_app in Hnd as (Hnd1 & Hd & Hnd2).
  apply NoDup_app in Hnd2 as (_ & _ & Hnd2).
  rewrite app_comm_cons in Hnd1. pose proof Hnd1 as (Hndx & Hdx & _)%NoDup_app.
  assert (Hxs : forall p, p ∈ a :: xs -> p ∉ y :: ys).
  { intros p Hp. specialize (Hd p). set_solver. }
  assert (Hzs : forall p, p ∈ zs -> p ∉ y :: ys).
  { intros p Hp. specialize (Hd p). set_solver. }
  apply chain_app. split.
  - apply chain_frame; [naive_solver|].
    apply chain_retarget with (hdp b zs); [done|].
    destruct zs; [by rewrite app_nil_r in Hc|by apply chain_app in Hc as [? _]].
  - assert (Hy : chain (<[lastp y ys:=hdp b zs]> (<[lastp a xs:=y]> nx)) y ys
                   (hdp b zs)).
    { apply chain_retarget with c; [done|]. apply chain_frame; naive_solver. }
    destruct zs as [|z zs]; [by rewrite app_nil_r|].
    apply chain_app. split; [done|]. apply chain_app in Hc as [_ Hc].
    apply chain_frame; [naive_solver|]. apply chain_frame; [naive_solver|done].
Qed.
End Chain.

(** * Loops *)

(** How the body of a C loop ends. *)
Inductive flow (R : Type) : Type :=
  | Next
  | Break
  | Return (r : R).
Arguments Next {R}.
Arguments Break {R}.
Arguments Return {R} r.

(** The nodes [todo] of a ring headed by [h] that are still to be visited: the
    links from the first of them on are intact and lead back to [h]. *)
Definition rest (nx : gmap ptr ptr) (h : ptr) (todo : list ptr) : Prop :=
  (h ∉ todo) /\ is_Some (nx !! h) /\
  match todo with
  | [] => True
  | x :: xs => chain nx x xs h
  end.

Lemma rest_chain nx a seen todo h :
  h ∉ todo -> is_Some (nx !! h) -> chain nx a (seen ++ todo) h -> rest nx h todo.
Proof.
  intros Hh Hs Hc. split; [done|split; [done|]]. destruct todo as [|x xs]; [done|].
  by apply chain_app in Hc as [_ Hc].
Qed.

Lemma rest_ring nx h xs : NoDup (h :: xs) -> chain nx h xs h -> rest nx h xs.
Proof.
  intros Hnd Hc. apply NoDup_cons in Hnd as [Hh _].
  apply rest_chain with h []; [done| |done].
  eapply chain_dom; [exact Hc|set_solver].
Qed.

Lemma rest_next nx h todo : rest nx h todo ->
  nx !! hdp h todo = Some (hdp h (tail todo)) \/ (todo = [] /\ is_Some (nx !! h)).
Proof.
  intros (_ & Hs & Hc). destruct todo as [|x xs]; [by right|]. left.
  by apply (chain_link nx x [] xs h).
Qed.

Lemma rest_frame nx h todo p v :
  p ∉ todo -> rest nx h todo -> rest (<[p:=v]> nx) h todo.
Proof.
  intros Hp (Hh & Hs & Hc). split; [done|split; [by apply is_Some_insert|]].
  destruct todo as [|x xs]; [done|]. by apply chain_frame.
Qed.

Lemma rest_delete nx h todo p :
  p ∉ todo -> p <> h -> rest nx h todo -> rest (delete p nx) h todo.
Proof.
  intros Hp Hph (Hh & Hs & Hc). split; [done|split; [by rewrite lookup_delete_ne|]].
  destruct todo as [|x xs]; [done|]. by apply chain_delete.
Qed.

(** The loop shared by the [foreach] macros of list.h and htable.h:
    [for (...; cur != head; cur = next, next = cur->next) body], started after
    the initialisation of [cur] and [next]. The expression [head] is evaluated
    at each test. The result is the node the loop stopped at and how. *)
Section RingLoop.
Context {S R : Type}.
Variable head : M S ptr.
Variable load : ptr -> M S ptr.
Variable body : ptr -> M S (flow R).

Fixpoint ring_loop (fuel : nat) (cur next : ptr) : M S (ptr * flow R) :=
  match fuel with
  | O => out_of_fuel
  | Datatypes.S fuel =>
      let* h := head in
      if cur =? h then ret (cur, Next)
      else
        let* r := body cur in
        match r with
        | Next =>
            let* next' := load next in
            ring_loop fuel next next'
        | _ => ret (cur, r)
        end
  end.

(** Its rule. [Inv todo s]: the nodes [todo] are still to be visited. The body
    may unlink or free the node it is given, not the ones to come. *)
Variable nx : S -> gmap ptr ptr.
Variable h : ptr.
Variable Inv : list ptr -> S -> Prop.
Variable Q : ptr * flow R -> S -> Prop.
Hypothesis load_ok : forall p v s, nx s !! p = Some v -> load p s = Done (v, s).
Hypothesis Inv_rest : forall todo s, Inv todo s -> rest (nx s) h todo.
Hypothesis Inv_head : forall todo s, Inv todo s -> head s = Done (h, s).
Hypothesis body_ok : forall cur todo s,
  Inv (cur :: todo) s ->
  wp (body cur) (fun r s' =>
    match r with
    | Next => Inv todo s'
    | _ => Q (cur, r) s'
    end) s.
Hypothesis Inv_done : forall s, Inv [] s -> Q (h, Next) s.

Lemma wp_ring_loop fuel todo next s :
  Inv todo s -> (length todo < fuel)%nat ->
  (todo <> [] -> next = hdp h (tail todo)) ->
  wp (ring_loop fuel (hdp h todo) next) Q s.
Proof.
  revert todo next s. induction fuel as [|fuel IH]; intros todo next s HI Hf Hn;
    [lia|]. simpl. wp_step. eapply wp_intro; [by eapply Inv_head|].
  destruct todo as [|cur todo]; simpl in *.
  { rewrite Z.eqb_refl. wp_step. by apply Inv_done. }
  assert (cur <> h) as ->%Z.eqb_neq.
  { destruct (Inv_rest _ _ HI) as [Hh _]. set_solver. }
  wp_step. eapply wp_mono; [by apply body_ok|]. intros [| |r] s' HQ; [|done..].
  rewrite Hn by done. wp_step.
  destruct (rest_next _ _ _ (Inv_rest _ _ HQ)) as [Hnx|[-> [v Hv]]].
  - eapply wp_intro; [by apply load_ok|]. apply IH; [done|lia|done].
  - eapply wp_intro; [by apply load_ok|]. apply (IH []); [done|simpl; lia|done].
Qed.
End RingLoop.
