(* ===== verification/Cstring.v ===== *)
(** The string functions of C the library uses: decimal printing ([%u]),
    [strtoul], [sscanf] of [%u] fields, and the replacements of
    src/src/compat.c. A C string is a [string] without the final NUL. *)

From Stdlib Require Import Ascii.
From S2P Require Import Prelude.

(** * Characters *)

Definition code (c : Ascii.ascii) : Z := Z.of_N (Ascii.N_of_ascii c).
Definition chr (n : Z) : Ascii.ascii := Ascii.ascii_of_N (Z.to_N n).

(** The value of a digit in a base up to 36. *)
Definition digit_val (c : Ascii.ascii) : Z :=
  let n := code c in
  if (48 <=? n) && (n <=? 57) then n - 48
  else if (65 <=? n) && (n <=? 90) then n - 55
  else if (97 <=? n) && (n <=? 122) then n - 87
  else 36.

Definition is_digit (base : Z) (c : Ascii.ascii) : bool := digit_val c <? base.

(** [isspace] in the C locale. *)
Definition is_space (c : Ascii.ascii) : bool :=
  let n := code c in (n =? 32) || ((9 <=? n) && (n <=? 13)).

Fixpoint skip_spaces (s : string) : string :=
  match s with
  | String c s' => if is_space c then skip_spaces s' else s
  | EmptyString => s
  end.

(** * Reading numbers *)

(** The digits at the front of [s] added to [acc], and what follows. *)
Fixpoint scan_digits (base acc : Z) (s : string) : Z * string :=
  match s with
  | String c s' =>
      if is_digit base c then scan_digits base (acc * base + digit_val c) s' else (acc, s)
  | EmptyString => (acc, s)
  end.

Definition starts_digit (base : Z) (s : string) : bool :=
  match s with String c _ => is_digit base c | EmptyString => false end.

(** The sign: true for a minus. *)
Definition scan_sign (s : string) : bool * string :=
  match s with
  | String c s' => if code c =? 45 then (true, s') else if code c =? 43 then (false, s') else (false, s)
  | EmptyString => (false, s)
  end.

Definition ULONG_MAX : Z := 2 ^ 64 - 1.

(** The prefix [strtoul] accepts in base 16. *)
Definition skip_0x (base : Z) (s : string) : string :=
  match s with
  | String c0 (String cx s') =>
      if (base =? 16) && (code c0 =? 48) && ((code cx =? 120) || (code cx =? 88))
         && starts_digit base s'
      then s' else s
  | _ => s
  end.

(** [strtoul(s, NULL, base)]: the value, and whether [errno] is set (ERANGE). *)
Definition strtoul (base : Z) (s : string) : Z * bool :=
  let '(neg, s) := scan_sign (skip_spaces s) in
  let s := skip_0x base s in
  if starts_digit base s then
    let v := (scan_digits base 0 s).1 in
    if ULONG_MAX <? v then (ULONG_MAX, true)
    else ((if neg : bool then u64 (- v) else v), false)
  else (0, false).

(** One [%u] conversion of [sscanf]: the stored value and what follows. *)
Definition scan_u (s : string) : option (Z * string) :=
  let '(neg, s) := scan_sign (skip_spaces s) in
  if starts_digit 10 s then
    let '(v, s') := scan_digits 10 0 s in
    let v := Z.min v ULONG_MAX in
    Some (u32 (if neg : bool then u64 (- v) else v), s')
  else None.

(** [sscanf(s, "%u.%u...", ...)] with [n] fields: the fields stored. *)
Fixpoint sscanf_u (n : nat) (s : string) : list Z :=
  match n with
  | O => []
  | S n =>
      match scan_u s with
      | None => []
      | Some (v, String c s') => if code c =? 46 then v :: sscanf_u n s' else [v]
      | Some (v, EmptyString) => [v]
      end
  end.

(** * Printing numbers *)

Definition digit_chr (d : Z) : Ascii.ascii := chr (if d <? 10 then 48 + d else 55 + d).

(** The digits of [n] in front of [acc]. *)
Fixpoint print_digits (base : Z) (fuel : nat) (n : Z) (acc : string) : string :=
  match fuel with
  | O => acc
  | S fuel =>
      let acc := String (digit_chr (n mod base)) acc in
      if n <? base then acc else print_digits base fuel (n / base) acc
  end.

(** "%u" and "%X" of a non-negative number. *)
Definition print_u (n : Z) : string := print_digits 10 (S (Z.to_nat (Z.log2 n))) n "".
Definition print_X (n : Z) : string := print_digits 16 (S (Z.to_nat (Z.log2 n))) n "".
(** "%0<w>u" and "%0<w>X" *)
Fixpoint zeros (n : nat) : string :=
  match n with O => "" | S n => String "0"%char (zeros n) end.
Definition pad0 (w : nat) (s : string) : string := zeros (w - String.length s) +:+ s.
(** "%x": as "%X" with lower-case digits. *)
Definition lower (c : Ascii.ascii) : Ascii.ascii :=
  if (65 <=? code c) && (code c <=? 90) then chr (code c + 32) else c.
Fixpoint string_map (f : Ascii.ascii -> Ascii.ascii) (s : string) : string :=
  match s with
  | EmptyString => EmptyString
  | String c s => String (f c) (string_map f s)
  end.
Definition print_x (n : Z) : string := string_map lower (print_X n).

(** * compat.c *)

(** The characters of [accept]: the inner loop of [strrpbrk]. *)
Fixpoint accepts (accept : string) (c : Ascii.ascii) : bool :=
  match accept with
  | EmptyString => false
  | String a accept => if Ascii.eqb a c then true else accepts accept c
  end.

(** [strrpbrk]: the outer loop walks down from the end; the result is the
    offset of the character, or [None] for NULL. *)
Fixpoint strrpbrk_loop (s accept : string) (i : nat) : option nat :=
  match i with
  | O => None
  | S i =>
      match String.get i s with
      | Some c => if accepts accept c then Some i else strrpbrk_loop s accept i
      | None => strrpbrk_loop s accept i
      end
  end.
Definition strrpbrk (s accept : string) : option nat :=
  strrpbrk_loop s accept (String.length s).

(** * Lemmas *)

Lemma digit_chr_val base d : 0 <= d < base -> base <= 16 -> digit_val (digit_chr d) = d.
Proof.
  intros Hd Hb. assert (d ∈ seqZ 0 16) as Hin by (apply elem_of_seqZ; lia).
  clear Hd. revert d Hin. apply Forall_forall. repeat constructor.
Qed.

Lemma digit_chr_is base d : 0 <= d < base -> base <= 16 -> is_digit base (digit_chr d) = true.
Proof. intros Hd Hb. unfold is_digit. rewrite (digit_chr_val base) by done. lia. Qed.

(** Reading back what was printed. *)
Lemma scan_print_digits base fuel n acc a :
  2 <= base <= 16 -> 0 <= n -> n < base ^ Z.of_nat fuel ->
  exists k, 0 <= k /\
    scan_digits base a (print_digits base fuel n acc) = scan_digits base (a * base ^ k + n) acc.
Proof.
  intros Hb. revert n acc. induction fuel as [|fuel IH]; intros n acc Hn Hf.
  - exists 0. cbn in *. assert (n = 0) as -> by lia. split; [done|]. f_equal. lia.
  - rewrite Nat2Z.inj_succ, Z.pow_succ_r in Hf by lia. cbn [print_digits].
    pose proof (Z.mod_pos_bound n base ltac:(lia)).
    assert (Hstep : forall a', scan_digits base a' (String (digit_chr (n mod base)) acc) =
              scan_digits base (a' * base + n mod base) acc).
    { intros a'. cbn [scan_digits]. rewrite digit_chr_is, (digit_chr_val base) by lia. done. }
    destruct (Z.ltb_spec n base) as [Hlt|Hge].
    + exists 1. split; [lia|]. rewrite Hstep, Z.mod_small, Z.pow_1_r by lia. done.
    + destruct (IH (n / base) (String (digit_chr (n mod base)) acc)) as (k & Hk & E).
      * apply Z.div_pos; lia.
      * apply Z.div_lt_upper_bound; lia.
      * exists (k + 1). split; [lia|]. rewrite E, Hstep. f_equal.
        rewrite Z.pow_add_r, Z.pow_1_r by lia.
        pose proof (Z.div_mod n base ltac:(lia)). lia.
Qed.

Lemma log2_fuel base n : 2 <= base -> 0 <= n ->
  n < base ^ Z.of_nat (S (Z.to_nat (Z.log2 n))).
Proof.
  intros Hb Hn. rewrite Nat2Z.inj_succ, Z2Nat.id by apply Z.log2_nonneg.
  destruct (Z.eq_dec n 0) as [->|].
  - apply Z.pow_pos_nonneg; cbn; lia.
  - pose proof (Z.log2_spec n ltac:(lia)) as [_ H].
    eapply Z.lt_le_trans; [exact H|]. apply Z.pow_le_mono_l. pose proof (Z.log2_nonneg n). lia.
Qed.

Lemma print_digits_app base fuel n acc rest :
  print_digits base fuel n acc +:+ rest = print_digits base fuel n (acc +:+ rest).
Proof.
  revert n acc. induction fuel as [|fuel IH]; intros n acc; [done|]. cbn [print_digits].
  destruct (n <? base); [done|]. by rewrite IH.
Qed.

Lemma scan_stop base a s : starts_digit base s = false -> scan_digits base a s = (a, s).
Proof. destruct s; [done|]. cbn. by intros ->. Qed.

Lemma print_starts base fuel n acc : 2 <= base <= 16 -> 0 <= n -> fuel <> O ->
  starts_digit base (print_digits base fuel n acc) = true.
Proof.
  intros Hb. revert n acc. induction fuel as [|fuel IH]; intros n acc Hn Hf; [done|].
  cbn [print_digits]. pose proof (Z.mod_pos_bound n base ltac:(lia)).
  destruct (Z.ltb_spec n base); [by apply digit_chr_is; lia|].
  destruct fuel; [cbn; by apply digit_chr_is; lia|]. apply IH; [|done].
  apply Z.div_pos; lia.
Qed.

Lemma scan_print_u n rest : 0 <= n -> starts_digit 10 rest = false ->
  scan_digits 10 0 (print_u n +:+ rest) = (n, rest).
Proof.
  intros Hn Hr. unfold print_u. rewrite print_digits_app. change ("" +:+ rest) with rest.
  destruct (scan_print_digits 10 (S (Z.to_nat (Z.log2 n))) n rest 0)
    as (k & _ & ->); [lia|lia|by apply log2_fuel|].
  rewrite Z.mul_0_l, Z.add_0_l. by apply scan_stop.
Qed.

(** A digit is neither a space nor a sign. *)
Lemma digit_plain s : starts_digit 10 s = true ->
  skip_spaces s = s /\ scan_sign s = (false, s).
Proof.
  destruct s as [|c s]; [done|]. cbn. unfold is_digit, digit_val, is_space.
  intros H. set (n := code c) in *.
  assert (48 <= n <= 57) as Hn.
  { destruct (Z.leb_spec 48 n), (Z.leb_spec n 57); cbn in H; try lia.
    all: destruct ((65 <=? n) && (n <=? 90)) eqn:E1; [lia|].
    all: destruct ((97 <=? n) && (n <=? 122)) eqn:E2; lia. }
  assert ((n =? 32) || (9 <=? n) && (n <=? 13) = false) as -> by lia. cbn.
  assert (n =? 45 = false) as -> by lia. assert (n =? 43 = false) as -> by lia. done.
Qed.

(** [%u] reads back what [%u] printed. *)
Lemma scan_u_print n rest : 0 <= n < 2 ^ 32 -> starts_digit 10 rest = false ->
  scan_u (print_u n +:+ rest) = Some (n, rest).
Proof.
  intros Hn Hr. assert (Hs : starts_digit 10 (print_u n +:+ rest) = true).
  { unfold print_u. rewrite print_digits_app. apply print_starts; [lia|lia|done]. }
  unfold scan_u. destruct (digit_plain _ Hs) as [-> ->]. rewrite Hs.
  rewrite scan_print_u by (done || lia). unfold ULONG_MAX.
  rewrite Z.min_l by lia. by rewrite u32_small by lia.
Qed.

Lemma strtoul_print n rest : 0 <= n < 2 ^ 64 -> starts_digit 10 rest = false ->
  strtoul 10 (print_u n +:+ rest) = (n, false).
Proof.
  intros Hn Hr. assert (Hs : starts_digit 10 (print_u n +:+ rest) = true).
  { unfold print_u. rewrite print_digits_app. apply print_starts; [lia|lia|done]. }
  unfold strtoul. destruct (digit_plain _ Hs) as [-> ->].
  assert (Hx : forall s, skip_0x 10 s = s) by (by intros [|? [|? ?]]).
  rewrite Hx, Hs, scan_print_u by (done || lia). unfold ULONG_MAX. cbn [fst].
  rewrite (proj2 (Z.ltb_ge _ _)) by lia. done.
Qed.

(** Printing is injective, also in front of text that does not start with a
    digit. *)
Lemma print_u_inj n m r1 r2 : 0 <= n -> 0 <= m ->
  starts_digit 10 r1 = false -> starts_digit 10 r2 = false ->
  print_u n +:+ r1 = print_u m +:+ r2 -> n = m /\ r1 = r2.
Proof.
  intros Hn Hm H1 H2 E. pose proof (scan_print_u n r1 Hn H1) as E1.
  rewrite E, scan_print_u in E1 by done. by injection E1.
Qed.

Lemma sscanf_u_print n v rest : 0 <= v < 2 ^ 32 ->
  sscanf_u (S n) (print_u v +:+ String "."%char rest) = v :: sscanf_u n rest.
Proof. intros Hv. cbn [sscanf_u]. by rewrite scan_u_print. Qed.

Lemma sscanf_u_print_last n v rest : 0 <= v < 2 ^ 32 -> starts_digit 10 rest = false ->
  String.get 0 rest <> Some "."%char -> sscanf_u (S n) (print_u v +:+ rest) = [v].
Proof.
  intros Hv Hr Hdot. cbn [sscanf_u]. rewrite scan_u_print by done.
  destruct rest as [|c rest]; [done|]. destruct (Z.eqb_spec (code c) 46) as [E|]; [|done].
  exfalso. apply Hdot. cbn. f_equal. unfold code in E.
  rewrite <- (Ascii.ascii_N_embedding c). by replace (Ascii.N_of_ascii c) with 46%N by lia.
Qed.

(** * Properties *)

Lemma accepts_spec accept c : accepts accept c = true <->
  c ∈ String.list_ascii_of_string accept.
Proof.
  induction accept as [|a accept IH]; cbn; [set_solver|].
  destruct (Ascii.eqb_spec a c) as [->|Hne].
  - split; [left|done].
  - rewrite IH. rewrite elem_of_cons. naive_solver.
Qed.

(** [strrpbrk] terminates and finds the last character of the string that is
    in [accept]: the offset it returns holds one, and no later character is
    one; NULL means there is none at all. *)
Theorem strrpbrk_correct s accept :
  match strrpbrk s accept with
  | Some i =>
      (exists c, String.get i s = Some c /\ c ∈ String.list_ascii_of_string accept) /\
      (forall j c, (i < j)%nat -> String.get j s = Some c ->
         c ∉ String.list_ascii_of_string accept)
  | None =>
      forall j c, String.get j s = Some c -> c ∉ String.list_ascii_of_string accept
  end.
Proof.
  assert (Hlen : forall j c, String.get j s = Some c -> (j < String.length s)%nat).
  { clear. induction s as [|a s IH]; intros [|j] c H; cbn in *; try done; [lia|].
    apply IH in H. lia. }
  unfold strrpbrk.
  assert (H : forall n, (forall j c, (n <= j)%nat -> String.get j s = Some c ->
      c ∉ String.list_ascii_of_string accept) ->
    match strrpbrk_loop s accept n with
    | Some i =>
        (exists c, String.get i s = Some c /\ c ∈ String.list_ascii_of_string accept) /\
        (forall j c, (i < j)%nat -> String.get j s = Some c ->
           c ∉ String.list_ascii_of_string accept)
    | None =>
        forall j c, String.get j s = Some c -> c ∉ String.list_ascii_of_string accept
    end).
  { induction n as [|n IH]; intros Hn; cbn [strrpbrk_loop].
    - intros j c. apply Hn. lia.
    - destruct (String.get n s) as [c|] eqn:E.
      + destruct (accepts accept c) eqn:Ea.
        * split; [exists c; by rewrite <- accepts_spec|]. intros j c' Hj. apply Hn. lia.
        * apply IH. intros j c' Hj Hg. destruct (decide (j = n)) as [->|]; [|apply (Hn j); [lia|done]].
          rewrite E in Hg. injection Hg as <-. rewrite <- accepts_spec. by rewrite Ea.
      + apply IH. intros j c' Hj Hg. destruct (decide (j = n)) as [->|]; [congruence|].
        apply (Hn j); [lia|done]. }
  apply H. intros j c Hj Hg. apply Hlen in Hg. lia.
Qed.

(** * Lengths and concatenation *)

Lemma append_cons (c : ascii) (p s : string) : String c p +:+ s = String c (p +:+ s).
Proof. done. Qed.

Lemma str_length_app (p s : string) : String.length (p +:+ s) = (String.length p + String.length s)%nat.
Proof. induction p as [|c p IH]; [done|]. cbn. by rewrite <- IH. Qed.

Lemma str_app_assoc (p s g : string) : p +:+ s +:+ g = (p +:+ s) +:+ g.
Proof. induction p as [|c p IH]; [done|]. rewrite !append_cons. by rewrite IH. Qed.

Lemma str_app_nil (p : string) : p +:+ "" = p.
Proof. induction p as [|c p IH]; [done|]. rewrite append_cons. by rewrite IH. Qed.

Lemma print_digits_length base fuel n acc k :
  2 <= base -> 0 <= n < base ^ Z.of_nat (S k) ->
  (String.length (print_digits base fuel n acc) <= S k + String.length acc)%nat.
Proof.
  intros Hb. revert n acc k. induction fuel as [|fuel IH]; intros n acc k Hn; [cbn; lia|].
  cbn [print_digits]. destruct (Z.ltb_spec n base); [cbn; lia|]. destruct k as [|k].
  { change (Z.of_nat 1) with 1 in Hn. rewrite Z.pow_1_r in Hn. lia. }
  etrans; [apply (IH _ _ k)|cbn; lia]. rewrite Nat2Z.inj_succ, Z.pow_succ_r in Hn by lia.
  split; [apply Z.div_pos; lia|]. apply Z.div_lt_upper_bound; lia.
Qed.

Lemma print_digits_acc base fuel n acc :
  (String.length acc <= String.length (print_digits base fuel n acc))%nat.
Proof.
  revert n acc. induction fuel as [|fuel IH]; intros n acc; cbn [print_digits]; [done|].
  destruct (n <? base); [cbn; lia|]. etrans; [|apply IH]. cbn. lia.
Qed.

Lemma print_digits_length_ge base fuel n acc k :
  2 <= base -> base ^ Z.of_nat k <= n -> (k < fuel)%nat ->
  (S k + String.length acc <= String.length (print_digits base fuel n acc))%nat.
Proof.
  intros Hb. revert n acc k. induction fuel as [|fuel IH]; intros n acc k Hn Hk; [lia|].
  cbn [print_digits]. destruct k as [|k].
  { destruct (n <? base); [done|]. etrans; [|apply print_digits_acc]. done. }
  rewrite Nat2Z.inj_succ, Z.pow_succ_r in Hn by lia.
  assert (0 < base ^ Z.of_nat k) by (apply Z.pow_pos_nonneg; lia).
  rewrite (proj2 (Z.ltb_ge n base)) by nia.
  etrans; [|apply (IH _ _ k); [apply Z.div_le_lower_bound; lia|lia]]. cbn. lia.
Qed.

Lemma str_length_map f s : String.length (string_map f s) = String.length s.
Proof. induction s as [|c s IH]; [done|]. cbn. by rewrite IH. Qed.

(** The number of hexadecimal digits. *)
Lemma print_x_length w n : (1 <= w)%nat -> 0 <= n < 16 ^ Z.of_nat w ->
  (String.length (print_x n) <= w)%nat.
Proof.
  intros Hw Hn. unfold print_x. rewrite str_length_map. destruct w as [|w]; [lia|].
  etrans; [apply (print_digits_length _ _ _ _ w); [lia|done]|cbn; lia].
Qed.

Lemma print_x_length_ge k n : 16 ^ Z.of_nat k <= n -> (k < String.length (print_x n))%nat.
Proof.
  intros Hn. unfold print_x. rewrite str_length_map.
  assert (2 ^ Z.of_nat k <= 16 ^ Z.of_nat k) by (apply Z.pow_le_mono_l; lia).
  assert (0 < 2 ^ Z.of_nat k) by (apply Z.pow_pos_nonneg; lia).
  assert (Z.of_nat k <= Z.log2 n) by (apply Z.log2_le_pow2; lia).
  pose proof (print_digits_length_ge 16 (S (Z.to_nat (Z.log2 n))) n "" k ltac:(lia) Hn ltac:(lia)) as Hl.
  unfold print_X. cbn [String.length] in Hl. lia.
Qed.

Lemma substring_whole s : forall n, (String.length s <= n)%nat -> String.substring 0 n s = s.
Proof. induction s as [|c s IH]; intros [|n] Hn; cbn in *; try done; [lia|]. by rewrite IH by lia. Qed.

Lemma substring_length s : forall n, (String.length (String.substring 0 n s) <= n)%nat.
Proof. induction s as [|c s IH]; intros [|n]; cbn; try lia. specialize (IH n). lia. Qed.
