(* ===== verification/DList.v ===== *)
(** Intrusive circular doubly-linked lists: src/src/list.h.

    A [_hs_list_head] is a pair of fields [prev] and [next]; the memory of all
    list heads is [lmem], one finite map per field. Every function of the
    header is a command over that memory; [dlist] relates a ring of heads to
    the list of its nodes, and each function is shown to be the corresponding
    operation on lists. *)

From S2P Require Import Prelude.

Record lmem := LMem { l_prev : gmap ptr ptr; l_next : gmap ptr ptr }.

Definition load_prev (p : ptr) : M lmem ptr :=
  fun m => match l_prev m !! p with
           | Some v => Done (v, m)
           | None => Fault BadAccess
           end.
Definition load_next (p : ptr) : M lmem ptr :=
  fun m => match l_next m !! p with
           | Some v => Done (v, m)
           | None => Fault BadAccess
           end.
Definition store_prev (p v : ptr) : M lmem unit :=
  fun m => match l_prev m !! p with
           | Some _ => Done (tt, LMem (<[p:=v]> (l_prev m)) (l_next m))
           | None => Fault BadAccess
           end.
Definition store_next (p v : ptr) : M lmem unit :=
  fun m => match l_next m !! p with
           | Some _ => Done (tt, LMem (l_prev m) (<[p:=v]> (l_next m)))
           | None => Fault BadAccess
           end.

(** The cells of a head when the structure around it is allocated (zeroed, by
    [calloc]) and when it is freed. *)
Definition list_alloc (p : ptr) : M lmem unit :=
  modify (fun m => LMem (<[p:=NULL]> (l_prev m)) (<[p:=NULL]> (l_next m))).
Definition list_free (p : ptr) : M lmem unit :=
  modify (fun m => LMem (delete p (l_prev m)) (delete p (l_next m))).

(** * The functions of list.h *)

Definition _hs_list_init (list : ptr) : M lmem unit :=
  store_prev list list ;;;
  store_next list list.

Definition _hs_list_insert_internal (prev next head : ptr) : M lmem unit :=
  store_next prev head ;;;
  store_prev head prev ;;;
  store_prev next head ;;;
  store_next head next.

Definition _hs_list_add (list head : ptr) : M lmem unit :=
  let* next := load_next list in
  _hs_list_insert_internal list next head.

Definition _hs_list_add_tail (list head : ptr) : M lmem unit :=
  let* prev := load_prev list in
  _hs_list_insert_internal prev list head.

Definition _hs_list_remove (head : ptr) : M lmem unit :=
  let* prev := load_prev head in
  let* next := load_next head in
  store_next prev next ;;;
  let* next := load_next head in
  let* prev := load_prev head in
  store_prev next prev ;;;
  store_prev head NULL ;;;
  store_next head NULL.

Definition _hs_list_is_empty (head : ptr) : M lmem bool :=
  let* next := load_next head in
  ret (next =? head).

Definition _hs_list_is_singular (head : ptr) : M lmem bool :=
  let* next := load_next head in
  if next =? head then ret false
  else
    let* next := load_next head in
    let* prev := load_prev head in
    ret (next =? prev).

(** [_hs_list_get_first] and [_hs_list_get_last]; the nodes of the library's
    lists are the first field of their structure, so that [_hs_container_of]
    is the identity. *)
Definition _hs_list_get_first (head : ptr) : M lmem ptr :=
  let* e := _hs_list_is_empty head in
  if e : bool then ret NULL else load_next head.
Definition _hs_list_get_last (head : ptr) : M lmem ptr :=
  let* e := _hs_list_is_empty head in
  if e : bool then ret NULL else load_prev head.

Definition _hs_list_splice_internal (prev next head : ptr) : M lmem unit :=
  let* e := _hs_list_is_empty head in
  if e : bool then ret tt
  else
    let* first := load_next head in
    store_prev first prev ;;;
    let* first := load_next head in
    store_next prev first ;;;
    let* last := load_prev head in
    store_next last next ;;;
    let* last := load_prev head in
    store_prev next last ;;;
    _hs_list_init head.

Definition _hs_list_splice (list from : ptr) : M lmem unit :=
  let* next := load_next list in
  _hs_list_splice_internal list next from.

Definition _hs_list_splice_tail (list from : ptr) : M lmem unit :=
  let* prev := load_prev list in
  _hs_list_splice_internal prev list from.

(** The macro [_hs_list_foreach]: the successor is read before the body runs,
    and the expression [head] is evaluated wherever the macro repeats it. The
    result is [Some r] when the body leaves the function with [return r]. *)
Section Foreach.
Context {S R : Type} `{Has lmem S}.
Variable head : M S ptr.
Variable body : ptr -> M S (flow R).

Definition _hs_list_foreach (fuel : nat) : M S (option R) :=
  let* h := head in
  let* n := zoom (load_next h) in
  if n =? NULL then ret None
  else
    let* h := head in
    let* cur := zoom (load_next h) in
    let* next := zoom (load_next cur) in
    let* r := ring_loop head (fun p => zoom (load_next p)) body fuel cur next in
    match r.2 with
    | Return r => ret (Some r)
    | _ => ret None
    end.
End Foreach.

(** * The representation predicate *)

(** [dlist m h xs]: the ring headed by [h] holds the nodes [xs], in the order
    of the [next] fields. *)
Record dlist (m : lmem) (h : ptr) (xs : list ptr) : Prop := {
  dlist_nodup : NoDup (h :: xs);
  dlist_nonnull : NULL ∉ h :: xs;
  dlist_next : chain (l_next m) h xs h;
  dlist_prev : chain (l_prev m) h (reverse xs) h
}.

(** The memory outside [ps] is the same. *)
Definition lmem_same_outside (ps : list ptr) (m m' : lmem) : Prop :=
  forall p, p ∉ ps -> l_prev m' !! p = l_prev m !! p /\ l_next m' !! p = l_next m !! p.

Definition list_node (m : lmem) (p : ptr) : Prop :=
  is_Some (l_prev m !! p) /\ is_Some (l_next m !! p).

Section Access.
Implicit Types (m : lmem) (p v : ptr).

Lemma wp_load_prev (Q : ptr -> lmem -> Prop) m p v :
  l_prev m !! p = Some v -> Q v m -> wp (load_prev p) Q m.
Proof. unfold wp, load_prev. by intros ->. Qed.
Lemma wp_load_next (Q : ptr -> lmem -> Prop) m p v :
  l_next m !! p = Some v -> Q v m -> wp (load_next p) Q m.
Proof. unfold wp, load_next. by intros ->. Qed.
Lemma wp_store_prev (Q : unit -> lmem -> Prop) m p v :
  is_Some (l_prev m !! p) ->
  Q tt (LMem (<[p:=v]> (l_prev m)) (l_next m)) -> wp (store_prev p v) Q m.
Proof. unfold wp, store_prev. by intros [? ->]. Qed.
Lemma wp_store_next (Q : unit -> lmem -> Prop) m p v :
  is_Some (l_next m !! p) ->
  Q tt (LMem (l_prev m) (<[p:=v]> (l_next m))) -> wp (store_next p v) Q m.
Proof. unfold wp, store_next. by intros [? ->]. Qed.
End Access.

#[export] Hint Unfold lmem_same_outside list_node : core.

(** A cell of the memory after some stores. *)
Ltac solve_cell :=
  solve [cbn; rewrite ?lookup_insert_eq, ?lookup_insert_ne by done; eauto].

Ltac wp_list :=
  repeat (first
    [ wp_step
    | eapply wp_load_prev; [solve_cell|]
    | eapply wp_load_next; [solve_cell|]
    | apply wp_store_prev; [solve_cell|]
    | apply wp_store_next; [solve_cell|] ]; cbn [l_prev l_next]).

Section Dlist.
Implicit Types (m : lmem) (h n p : ptr) (xs ys : list ptr).

Lemma dlist_nodup_rev m h xs : dlist m h xs -> NoDup (h :: reverse xs).
Proof. intros [Hnd _ _ _]. by rewrite reverse_Permutation. Qed.

Lemma dlist_frame m m' h xs :
  (forall p, p ∈ h :: xs ->
     l_prev m' !! p = l_prev m !! p /\ l_next m' !! p = l_next m !! p) ->
  dlist m h xs -> dlist m' h xs.
Proof.
  intros Hsame [Hnd Hnn Hn Hp]. split; [done|done| |].
  - apply (chain_same (l_next m)); [|done]. intros p Hin. by apply Hsame.
  - apply (chain_same (l_prev m)); [|done]. intros p Hin. apply Hsame.
    set_solver.
Qed.

(** The links around a split point. *)
Lemma dlist_next_at m h xs ys :
  dlist m h (xs ++ ys) -> l_next m !! lastp h xs = Some (hdp h ys).
Proof. intros []. by eapply chain_link. Qed.

Lemma dlist_prev_at m h xs ys :
  dlist m h (xs ++ ys) -> l_prev m !! hdp h ys = Some (lastp h xs).
Proof.
  intros [_ _ _ Hp]. rewrite reverse_app in Hp. apply chain_link in Hp.
  by rewrite lastp_reverse, hdp_reverse in Hp.
Qed.

Lemma dlist_node m h xs p : dlist m h xs -> p ∈ h :: xs -> list_node m p.
Proof.
  intros [_ _ Hn Hp] Hin. split.
  - eapply chain_dom; [exact Hp|set_solver].
  - eapply chain_dom; [exact Hn|set_solver].
Qed.

Lemma dlist_head_next m h xs : dlist m h xs -> l_next m !! h = Some (hdp h xs).
Proof. apply (dlist_next_at m h [] xs). Qed.

Lemma dlist_head_prev m h xs : dlist m h xs -> l_prev m !! h = Some (lastp h xs).
Proof.
  intros H. rewrite <- (app_nil_r xs) in H. by apply dlist_prev_at in H.
Qed.

Lemma dlist_hdp_ne m h xs : dlist m h xs -> hdp h xs = h <-> xs = [].
Proof.
  intros [Hnd _ _ _]. destruct xs as [|x xs]; [done|]. simpl.
  apply NoDup_cons in Hnd as [Hni _]. set_solver.
Qed.
End Dlist.

(** * Each function is the list operation *)

Section Operations.
Implicit Types (m : lmem) (h n p : ptr) (xs ys : list ptr).

Lemma wp_list_init (Q : unit -> lmem -> Prop) m h :
  list_node m h -> h <> NULL ->
  (forall m', dlist m' h [] -> lmem_same_outside [h] m m' -> Q tt m') ->
  wp (_hs_list_init h) Q m.
Proof.
  intros [Hp Hn] Hnn HQ. unfold _hs_list_init. wp_list. apply HQ.
  - split; simpl; rewrite ?lookup_insert_eq; auto.
    + apply NoDup_singleton.
    + set_solver.
  - intros p Hp'. simpl. rewrite !lookup_insert_ne by set_solver. done.
Qed.

Lemma wp_list_insert_internal (Q : unit -> lmem -> Prop) m h xs ys n :
  dlist m h (xs ++ ys) -> list_node m n -> n ∉ h :: xs ++ ys -> n <> NULL ->
  (forall m', dlist m' h (xs ++ n :: ys) ->
     lmem_same_outside (n :: h :: xs ++ ys) m m' -> Q tt m') ->
  wp (_hs_list_insert_internal (lastp h xs) (hdp h ys) n) Q m.
Proof.
  intros Hd [Hnp Hnn] Hn Hnull HQ.
  pose proof (lastp_elem h xs) as Hl. pose proof (hdp_elem h ys) as Hf.
  assert (Hne1 : lastp h xs <> n) by (intros E; apply Hn; set_solver).
  assert (Hne2 : hdp h ys <> n) by (intros E; apply Hn; set_solver).
  pose proof (dlist_next_at _ _ _ _ Hd) as Hlk.
  pose proof (dlist_prev_at _ _ _ _ Hd) as Hpk.
  unfold _hs_list_insert_internal. wp_list.
  pose proof (dlist_nodup_rev _ _ _ Hd) as Hndr. destruct Hd as [Hnd Hz Hcn Hcp].
  apply HQ; [split; cbn|].
  - rewrite <- (Permutation_middle xs ys n). apply NoDup_cons in Hnd as [??].
    apply NoDup_cons. split; [set_solver|]. apply NoDup_cons. set_solver.
  - set_solver.
  - by apply chain_insert.
  - rewrite insert_insert_ne by done.
    rewrite reverse_app, reverse_cons, <- app_assoc. simpl.
    rewrite <- hdp_reverse, <- (lastp_reverse h ys).
    rewrite reverse_app in Hcp, Hndr. apply chain_insert; [done| |done].
    set_solver.
  - intros p Hp. cbn. rewrite !lookup_insert_ne by set_solver. done.
Qed.

Lemma wp_list_add (Q : unit -> lmem -> Prop) m h xs n :
  dlist m h xs -> list_node m n -> n ∉ h :: xs -> n <> NULL ->
  (forall m', dlist m' h (n :: xs) ->
     lmem_same_outside (n :: h :: xs) m m' -> Q tt m') ->
  wp (_hs_list_add h n) Q m.
Proof.
  intros Hd Hnode Hn Hnn HQ. unfold _hs_list_add. wp_step.
  eapply wp_load_next; [by apply dlist_head_next|].
  by apply (wp_list_insert_internal Q m h [] xs n).
Qed.

Lemma wp_list_add_tail (Q : unit -> lmem -> Prop) m h xs n :
  dlist m h xs -> list_node m n -> n ∉ h :: xs -> n <> NULL ->
  (forall m', dlist m' h (xs ++ [n]) ->
     lmem_same_outside (n :: h :: xs) m m' -> Q tt m') ->
  wp (_hs_list_add_tail h n) Q m.
Proof.
  intros Hd Hnode Hn Hnn HQ. unfold _hs_list_add_tail. wp_step.
  eapply wp_load_prev; [by apply dlist_head_prev|].
  apply (wp_list_insert_internal Q m h xs [] n); rewrite ?app_nil_r; auto.
Qed.

Lemma wp_list_remove (Q : unit -> lmem -> Prop) m h xs n ys :
  dlist m h (xs ++ n :: ys) ->
  (forall m', dlist m' h (xs ++ ys) ->
     l_prev m' !! n = Some NULL -> l_next m' !! n = Some NULL ->
     lmem_same_outside (h :: xs ++ n :: ys) m m' -> Q tt m') ->
  wp (_hs_list_remove n) Q m.
Proof.
  intros Hd HQ.
  pose proof (lastp_elem h xs) as Hl. pose proof (hdp_elem h ys) as Hf.
  destruct (NoDup_mid _ _ _ _ (dlist_nodup _ _ _ Hd)) as [Hni Hnd].
  assert (Hne1 : lastp h xs <> n) by (intros E; apply Hni; set_solver).
  assert (Hne2 : hdp h ys <> n) by (intros E; apply Hni; set_solver).
  pose proof (dlist_prev_at m h xs (n :: ys) Hd) as Hp1. simpl in Hp1.
  pose proof (dlist_next_at m h xs (n :: ys) Hd) as Hp2.
  assert (Hd' := Hd). rewrite (app_assoc xs [n] ys : xs ++ n :: ys = _) in Hd'.
  pose proof (dlist_next_at _ _ _ _ Hd') as Hn1.
  pose proof (dlist_prev_at _ _ _ _ Hd') as Hn2. rewrite lastp_snoc in *.
  unfold _hs_list_remove. wp_list.
  pose proof (dlist_nodup_rev _ _ _ Hd) as Hndr.
  destruct Hd as [Hnd0 Hz Hcn Hcp]. apply HQ; cbn; [split; cbn| | |].
  - done.
  - set_solver.
  - apply chain_frame; [done|]. by apply chain_remove with n.
  - apply chain_frame; [set_solver|]. rewrite reverse_app.
    rewrite <- hdp_reverse, <- (lastp_reverse h ys).
    rewrite reverse_app, reverse_cons, <- app_assoc in Hcp, Hndr.
    by apply chain_remove with n.
  - by rewrite lookup_insert_eq.
  - by rewrite lookup_insert_eq.
  - intros p Hp. cbn. rewrite !lookup_insert_ne by set_solver. done.
Qed.

Lemma wp_list_is_empty (Q : bool -> lmem -> Prop) m h xs :
  dlist m h xs -> Q (bool_decide (xs = [])) m -> wp (_hs_list_is_empty h) Q m.
Proof.
  intros Hd HQ. unfold _hs_list_is_empty. wp_step.
  eapply wp_load_next; [by apply dlist_head_next|]. wp_step.
  by rewrite Zeqb_decide, (bool_decide_ext _ _ (dlist_hdp_ne _ _ _ Hd)).
Qed.

Lemma wp_list_is_singular (Q : bool -> lmem -> Prop) m h xs :
  dlist m h xs -> Q (bool_decide (length xs = 1%nat)) m ->
  wp (_hs_list_is_singular h) Q m.
Proof.
  intros Hd HQ. unfold _hs_list_is_singular. wp_step.
  eapply wp_load_next; [by apply dlist_head_next|].
  pose proof (dlist_hdp_ne _ _ _ Hd) as Hne.
  destruct (Z.eqb_spec (hdp h xs) h) as [E|E].
  - apply Hne in E as ->. by cbn.
  - cbn iota. wp_step. eapply wp_load_next; [by apply dlist_head_next|].
    wp_step. eapply wp_load_prev; [by apply dlist_head_prev|]. wp_step.
    replace (hdp h xs =? lastp h xs) with (bool_decide (length xs = 1%nat)); [done|].
    rewrite Zeqb_decide. apply bool_decide_ext.
    destruct xs as [|x [|y xs]]; [done|done|]. split; [done|]. simpl.
    intros E'. destruct Hd as [Hnd _ _ _]. apply NoDup_cons in Hnd as [_ Hnd].
    apply NoDup_cons in Hnd as [Hni _]. destruct Hni.
    rewrite E'. apply lastp_elem.
Qed.

(** The first and the last node, or [NULL]. *)
Lemma wp_list_get_first (Q : ptr -> lmem -> Prop) m h xs :
  dlist m h xs -> Q (hdp NULL xs) m -> wp (_hs_list_get_first h) Q m.
Proof.
  intros Hd HQ. unfold _hs_list_get_first. wp_step.
  eapply wp_list_is_empty; [done|]. case_bool_decide as E; subst; [done|].
  eapply wp_load_next; [by apply dlist_head_next|]. by destruct xs.
Qed.

Lemma wp_list_get_last (Q : ptr -> lmem -> Prop) m h xs :
  dlist m h xs -> Q (lastp NULL xs) m -> wp (_hs_list_get_last h) Q m.
Proof.
  intros Hd HQ. unfold _hs_list_get_last. wp_step.
  eapply wp_list_is_empty; [done|]. case_bool_decide as E; subst; [done|].
  eapply wp_load_prev; [by apply dlist_head_prev|]. by destruct xs.
Qed.
End Operations.

Section Splice.
Implicit Types (m : lmem) (h f n p : ptr) (xs ys zs : list ptr).

Lemma wp_list_splice_internal (Q : unit -> lmem -> Prop) m h f xs ys zs :
  dlist m h (xs ++ zs) -> dlist m f ys -> (h :: xs ++ zs) ## f :: ys ->
  (forall m', dlist m' h (xs ++ ys ++ zs) -> dlist m' f [] ->
     lmem_same_outside (h :: f :: xs ++ ys ++ zs) m m' -> Q tt m') ->
  wp (_hs_list_splice_internal (lastp h xs) (hdp h zs) f) Q m.
Proof.
  intros Hd Hf Hdj HQ. unfold _hs_list_splice_internal. wp_step.
  eapply wp_list_is_empty; [done|].
  case_bool_decide as E; cbn iota; [subst; apply HQ; [done|done|by intros p]|].
  assert (Hnode : forall p, p ∈ (h :: xs ++ zs) ++ f :: ys -> list_node m p).
  { intros p [Hp|Hp]%elem_of_app; [exact (dlist_node _ _ _ _ Hd Hp)|].
    exact (dlist_node _ _ _ _ Hf Hp). }
  pose proof (dlist_head_next _ _ _ Hf) as Hfn.
  pose proof (dlist_head_prev _ _ _ Hf) as Hfp.
  pose proof (lastp_elem h xs) as Hl. pose proof (hdp_elem h zs) as Hz.
  assert (hdp f ys ∈ ys /\ lastp f ys ∈ ys) as [Hy1 Hy2].
  { destruct ys as [|y ys]; [done|]. cbn [hdp lastp].
    split; [set_solver|apply lastp_elem]. }
  pose proof (dlist_nodup _ _ _ Hf) as Hndf. apply NoDup_cons in Hndf as [Hfy _].
  assert (lastp h xs <> f) by (eapply elem_ne; [exact Hl|set_solver]).
  assert (hdp h zs <> f) by (eapply elem_ne; [exact Hz|set_solver]).
  assert (hdp f ys <> f) by (by eapply elem_ne).
  assert (lastp f ys <> f) by (by eapply elem_ne).
  assert (hdp h zs <> hdp f ys) by (eapply elem_ne; [exact Hz|set_solver]).
  destruct (Hnode (lastp h xs)) as [_ ?]; [set_solver|].
  destruct (Hnode (lastp f ys)) as [_ ?]; [set_solver|].
  destruct (Hnode (hdp f ys)) as [? _]; [set_solver|].
  destruct (Hnode (hdp h zs)) as [? _]; [set_solver|].
  wp_list.
  pose proof (dlist_nodup_rev _ _ _ Hd) as Hndr.
  pose proof (dlist_nodup_rev _ _ _ Hf) as Hndfr.
  rewrite reverse_app in Hndr.
  destruct Hd as [Hnd Hnull Hcn Hcp], Hf as [Hnd' Hnull' Hcn' Hcp'].
  apply wp_list_init; [split; cbn; repeat apply is_Some_insert; eauto|set_solver|].
  intros m' Hf' Hsame.
  assert (Hh : forall p, p ∈ h :: xs ++ ys ++ zs -> p <> f) by set_solver.
  apply HQ; [split| |].
  - apply NoDup_cons in Hnd' as [_ Hnd']. rewrite (Permutation_app_comm ys zs), app_assoc.
    rewrite app_comm_cons. apply NoDup_app. set_solver.
  - set_solver.
  - eapply chain_same.
    { intros p Hp. apply (Hsame p). specialize (Hh p). set_solver. }
    cbn. eapply chain_splice; eauto. apply NoDup_app. set_solver.
  - eapply chain_same.
    { intros p Hp. apply (Hsame p). specialize (Hh p). set_solver. }
    cbn. rewrite insert_insert_ne by done. rewrite !reverse_app, <- app_assoc.
    rewrite <- (hdp_reverse f ys), <- (lastp_reverse f ys),
      <- (hdp_reverse h xs), <- (lastp_reverse h zs).
    rewrite reverse_app in Hcp.
    eapply chain_splice; eauto; [|by intros E'%(f_equal reverse); rewrite reverse_involutive in E'].
    apply NoDup_app. set_solver.
  - done.
  - intros p Hp. destruct (Hsame p) as [-> ->]; [set_solver|]. cbn.
    rewrite !lookup_insert_ne by set_solver. done.
Qed.

(** [_hs_list_splice] puts the nodes of [from] in front, in order, and
    leaves [from] empty. *)
Lemma wp_list_splice (Q : unit -> lmem -> Prop) m h f xs ys :
  dlist m h xs -> dlist m f ys -> (h :: xs) ## f :: ys ->
  (forall m', dlist m' h (ys ++ xs) -> dlist m' f [] ->
     lmem_same_outside (h :: f :: xs ++ ys) m m' -> Q tt m') ->
  wp (_hs_list_splice h f) Q m.
Proof.
  intros Hd Hf Hdj HQ. unfold _hs_list_splice. wp_step.
  eapply wp_load_next; [by apply dlist_head_next|].
  apply (wp_list_splice_internal Q m h f [] ys xs); auto.
  intros m' H1 H2 H3. apply HQ; auto. intros p Hp. apply H3. set_solver.
Qed.

Lemma wp_list_splice_tail (Q : unit -> lmem -> Prop) m h f xs ys :
  dlist m h xs -> dlist m f ys -> (h :: xs) ## f :: ys ->
  (forall m', dlist m' h (xs ++ ys) -> dlist m' f [] ->
     lmem_same_outside (h :: f :: xs ++ ys) m m' -> Q tt m') ->
  wp (_hs_list_splice_tail h f) Q m.
Proof.
  intros Hd Hf Hdj HQ. unfold _hs_list_splice_tail. wp_step.
  eapply wp_load_prev; [by apply dlist_head_prev|].
  apply (wp_list_splice_internal Q m h f xs ys []); rewrite ?app_nil_r; auto.
Qed.
End Splice.

(** * The loop rule of [_hs_list_foreach] *)

Section ForeachRule.
Context {S R : Type} `{Has lmem S}.
Variable head : M S ptr.
Variable body : ptr -> M S (flow R).
Variable h : ptr.
Variable Inv : list ptr -> S -> Prop.
Variable Q : option R -> S -> Prop.

(** [Inv todo s]: [todo] are the nodes still to be visited. *)
Hypothesis Inv_rest : forall todo s,
  Inv todo s -> rest (l_next (part s)) h todo.
Hypothesis Inv_head : forall todo s, Inv todo s -> head s = Done (h, s).
Hypothesis body_ok : forall cur todo s,
  Inv (cur :: todo) s ->
  wp (body cur) (fun r s' =>
    match r with
    | Next => Inv todo s'
    | Break => Q None s'
    | Return r => Q (Some r) s'
    end) s.
Hypothesis Inv_done : forall s, Inv [] s -> Q None s.

Lemma wp_list_foreach fuel xs s :
  Inv xs s -> dlist (part s) h xs -> (length xs < fuel)%nat ->
  wp (_hs_list_foreach head body fuel) Q s.
Proof.
  intros HI Hd Hf. unfold _hs_list_foreach. pose proof (Inv_head _ _ HI) as Hh.
  pose proof (dlist_head_next _ _ _ Hd) as Hn.
  wp_step. eapply wp_intro; [done|].
  wp_step. apply wp_zoom. eapply wp_load_next; [done|]. rewrite with_same.
  assert (hdp h xs <> NULL) as ->%Z.eqb_neq.
  { intros E. apply (dlist_nonnull _ _ _ Hd). rewrite <- E. apply hdp_elem. }
  wp_step. eapply wp_intro; [done|].
  wp_step. apply wp_zoom. eapply wp_load_next; [done|]. rewrite with_same.
  destruct (dlist_node _ _ _ (hdp h xs) Hd (hdp_elem _ _)) as [_ [next Hnext]].
  wp_step. apply wp_zoom. eapply wp_load_next; [done|]. rewrite with_same.
  wp_step. apply wp_ring_loop with (nx := fun s => l_next (part s)) (Inv := Inv);
    [|done|done| | |done|done|].
  - intros p v s' Hp. unfold zoom, load_next. by rewrite Hp, with_same.
  - intros cur todo s' HI'. eapply wp_mono; [by apply body_ok|].
    intros [| |r] s'' HQ; exact HQ.
  - intros s' HI'. by apply Inv_done.
  - intros Hxs. destruct xs as [|x xs]; [done|]. apply (dlist_next_at _ _ [x]) in Hd.
    simpl in *. congruence.
Qed.
End ForeachRule.

(** * Properties *)

(** The operations of the header on two lists, headed by [h] and [f]. *)
Inductive list_op :=
  | ListAdd (n : ptr)
  | ListAddTail (n : ptr)
  | ListRemove (n : ptr)
  | ListSplice
  | ListSpliceTail.

Definition list_exec (h f : ptr) (o : list_op) : M lmem unit :=
  match o with
  | ListAdd n => _hs_list_add h n
  | ListAddTail n => _hs_list_add_tail h n
  | ListRemove n => _hs_list_remove n
  | ListSplice => _hs_list_splice h f
  | ListSpliceTail => _hs_list_splice_tail h f
  end.

(** The same operations on lists; a node is added once. *)
Inductive list_step : list ptr * list ptr -> list_op -> list ptr * list ptr -> Prop :=
  | L_add xs ys n : list_step (xs, ys) (ListAdd n) (n :: xs, ys)
  | L_add_tail xs ys n : list_step (xs, ys) (ListAddTail n) (xs ++ [n], ys)
  | L_remove l1 n l2 ys : list_step (l1 ++ n :: l2, ys) (ListRemove n) (l1 ++ l2, ys)
  | L_splice xs ys : list_step (xs, ys) ListSplice (ys ++ xs, [])
  | L_splice_tail xs ys : list_step (xs, ys) ListSpliceTail (xs ++ ys, []).

(** Two disjoint rings. *)
Definition two_lists (m : lmem) (h f : ptr) (l : list ptr * list ptr) : Prop :=
  dlist m h l.1 /\ dlist m f l.2 /\ (h :: l.1) ## (f :: l.2).

(** The node an operation adds is allocated and in no list. *)
Definition list_ready (m : lmem) (h f : ptr) (l : list ptr * list ptr) (o : list_op) : Prop :=
  match o with
  | ListAdd n | ListAddTail n =>
      list_node m n /\ n <> NULL /\ (n ∉ (h :: l.1) ++ (f :: l.2))
  | _ => True
  end.

Lemma dlist_outside m m' ps h xs :
  lmem_same_outside ps m m' -> (h :: xs) ## ps -> dlist m h xs -> dlist m' h xs.
Proof. intros Hs Hd. apply dlist_frame. intros p Hp. apply Hs. set_solver. Qed.

(** C28: the functions of list.h are the operations on lists. On two disjoint
    rings, adding at either end, removing any node and splicing at either end
    return without fault, leave two disjoint rings with intact forward and
    backward links, and their contents are those of the list operation. *)
Theorem list_ops_refine m h f l o l' :
  two_lists m h f l -> list_ready m h f l o -> list_step l o l' ->
  exists m', list_exec h f o m = Done (tt, m') /\ two_lists m' h f l'.
Proof.
  intros (Hh & Hf & Hdj) Hr Hstep.
  assert (wp (list_exec h f o) (fun _ m' => two_lists m' h f l') m)
    as ([] & m' & E & H)%wp_inv; [|eauto].
  destruct Hstep as [xs ys n|xs ys n|l1 n l2 ys|xs ys|xs ys]; cbn in *.
  - destruct Hr as (Hn & Hnn & Hni).
    eapply wp_list_add; [done|done|set_solver|done|]. intros m' Hd Hs.
    split; [done|split; [|set_solver]]. eapply dlist_outside; [exact Hs| |done]. set_solver.
  - destruct Hr as (Hn & Hnn & Hni).
    eapply wp_list_add_tail; [done|done|set_solver|done|]. intros m' Hd Hs.
    split; [done|split; [|set_solver]]. eapply dlist_outside; [exact Hs| |done]. set_solver.
  - eapply wp_list_remove; [done|]. intros m' Hd _ _ Hs.
    split; [done|split; [|set_solver]]. eapply dlist_outside; [exact Hs| |done]. set_solver.
  - eapply wp_list_splice; [done|done|done|]. intros m' H1 H2 _.
    split; [done|split; [done|]]. pose proof (dlist_nodup _ _ _ Hf) as Hnd.
    apply NoDup_cons in Hnd as [? _]. set_solver.
  - eapply wp_list_splice_tail; [done|done|done|]. intros m' H1 H2 _.
    split; [done|split; [done|]]. pose proof (dlist_nodup _ _ _ Hf) as Hnd.
    apply NoDup_cons in Hnd as [? _]. set_solver.
Qed.

(** Two empty lists at 8 and 16, and a free node at 24. *)
Definition two_empty : lmem :=
  LMem {[8 := 8; 16 := 16; 24 := 0]} {[8 := 8; 16 := 16; 24 := 0]}.

Lemma dlist_empty m h : h <> NULL -> l_next m !! h = Some h -> l_prev m !! h = Some h ->
  dlist m h [].
Proof. intros. split; [apply NoDup_singleton|set_solver|done|done]. Qed.

Lemma list_ops_refine_witness :
  exists m', list_exec 8 16 (ListAdd 24) two_empty = Done (tt, m') /\
    two_lists m' 8 16 ([24], []).
Proof.
  apply (list_ops_refine two_empty 8 16 ([], []) (ListAdd 24) ([24], [])).
  - split; [|split]; [apply dlist_empty; [discriminate|reflexivity|reflexivity]..|set_solver].
  - split; [split; vm_compute; eexists; reflexivity|split; [discriminate|set_solver]].
  - constructor.
Defined.

(** The queries of list.h see the list: emptiness, having exactly one node,
    the first and the last node ([NULL] for the empty list). *)
Theorem list_queries_correct m h xs :
  dlist m h xs ->
  _hs_list_is_empty h m = Done (bool_decide (xs = []), m) /\
  _hs_list_is_singular h m = Done (bool_decide (length xs = 1%nat), m) /\
  _hs_list_get_first h m = Done (hdp NULL xs, m) /\
  _hs_list_get_last h m = Done (lastp NULL xs, m).
Proof.
  intros Hd. split_and!; apply wp_eq.
  - by eapply wp_list_is_empty.
  - by eapply wp_list_is_singular.
  - by eapply wp_list_get_first.
  - by eapply wp_list_get_last.
Qed.

Lemma list_queries_correct_witness :
  _hs_list_is_empty 8 two_empty = Done (true, two_empty) /\
  _hs_list_is_singular 8 two_empty = Done (false, two_empty) /\
  _hs_list_get_first 8 two_empty = Done (NULL, two_empty) /\
  _hs_list_get_last 8 two_empty = Done (NULL, two_empty).
Proof.
  apply (list_queries_correct two_empty 8 []).
  apply dlist_empty; [discriminate|reflexivity|reflexivity].
Defined.

(** A state that records the nodes visited. *)
#[export] Instance Has_fst {A B : Type} : Has A (A * B).
Proof. refine {| part := fst; with_part := fun a s => (a, s.2) |}; by try intros []. Defined.

Definition unlink_and_record (p : ptr) : M (lmem * list ptr) (flow unit) :=
  zoom (_hs_list_remove p) ;;;
  modify (fun s => (s.1, s.2 ++ [p])) ;;;
  ret Next.

(** [_hs_list_foreach] terminates and is safe against the removal of the
    current node: with one unit of fuel more than nodes, a loop that unlinks
    every node it is given visits all of them, in order, and leaves an empty
    list. *)
Theorem list_foreach_remove_all m h xs fuel :
  dlist m h xs -> (length xs < fuel)%nat ->
  exists m',
    _hs_list_foreach (ret h) unlink_and_record fuel (m, []) = Done (None, (m', xs)) /\
    dlist m' h [].
Proof.
  intros Hd Hf.
  assert (wp (_hs_list_foreach (ret h) unlink_and_record fuel)
            (fun r s => r = None /\ dlist s.1 h [] /\ s.2 = xs) (m, []))
    as (r & [m' ys] & E & -> & H1 & H2)%wp_inv; [|by exists m'; subst].
  apply wp_list_foreach with (h := h) (xs := xs)
    (Inv := fun todo s => dlist s.1 h todo /\ s.2 ++ todo = xs); try done.
  - intros todo s [Hd' _]. apply rest_ring; apply Hd'.
  - intros p todo [m1 ys] [Hd' <-]. cbn in *. unfold unlink_and_record. wp_steps.
    eapply (wp_list_remove _ _ _ []); [exact Hd'|]. intros m2 H _ _ _. wp_steps.
    split; [done|]. cbn. by rewrite <- app_assoc.
  - intros [m1 ys] [Hd' <-]. cbn in *. by rewrite app_nil_r.
Qed.

Lemma list_foreach_remove_all_witness :
  exists m',
    _hs_list_foreach (ret 8) unlink_and_record 1 (two_empty, []) = Done (None, (m', [])) /\
    dlist m' 8 [].
Proof.
  apply (list_foreach_remove_all two_empty 8 [] 1).
  - apply dlist_empty; [discriminate|reflexivity|reflexivity].
  - cbn. lia.
Defined.
