(* ===== verification/Common.v ===== *)
(** Errors, log messages and error masks: src/src/common.c and the error and
    log types of src/include/hs/common.h.

    The static variables of common.c are the record [common]; calls of a user
    log function and lines printed to stderr are recorded in it, oldest
    first. A message reaches this file formatted: the arguments of the
    [printf] format are rendered by the caller. *)

From S2P Require Import Prelude.

Definition HS_VERSION : Z := 900.
Definition HS_VERSION_STRING : string := "0.9.0".

Inductive hs_log_level := HS_LOG_DEBUG | HS_LOG_WARNING | HS_LOG_ERROR.

#[global] Instance hs_log_level_eq_dec : EqDecision hs_log_level.
Proof. solve_decision. Defined.

(** [hs_error_code] is an int for the library: any value can be passed. *)
Definition HS_ERROR_MEMORY : Z := -1.
Definition HS_ERROR_NOT_FOUND : Z := -2.
Definition HS_ERROR_ACCESS : Z := -3.
Definition HS_ERROR_IO : Z := -4.
Definition HS_ERROR_SYSTEM : Z := -5.
Definition HS_ERROR_INVALID : Z := -6.

Inductive log_func := default_handler_func | user_func (f : ptr).

Record log_call := LogCall {
  lc_func : ptr;
  lc_level : hs_log_level;
  lc_msg : string;
  lc_udata : ptr
}.

Record common := Common {
  handler : log_func;
  handler_udata : ptr;
  mask : list Z;
  mask_count : Z;
  user_log : list log_call;      (** calls of a user log function *)
  stderr_log : list string;      (** lines printed to stderr *)
  libhs_debug : bool             (** [getenv("LIBHS_DEBUG")] is not NULL *)
}.

Definition MASK_SIZE : Z := 32.

(** The static initialisers. *)
Definition common_init (debug : bool) : common :=
  Common default_handler_func NULL (replicate 32 0) 0 [] [] debug.

Definition hs_version : Z := HS_VERSION.
Definition hs_version_string : string := HS_VERSION_STRING.

Definition generic_message (err : Z) : string :=
  if 0 <=? err then "Success"
  else if err =? HS_ERROR_MEMORY then "Memory error"
  else if err =? HS_ERROR_NOT_FOUND then "Not found"
  else if err =? HS_ERROR_ACCESS then "Permission error"
  else if err =? HS_ERROR_IO then "I/O error"
  else if err =? HS_ERROR_SYSTEM then "System error"
  else if err =? HS_ERROR_INVALID then "Invalid data error"
  else "Unknown error".

Definition default_handler (level : hs_log_level) (msg : string) (udata : ptr)
    : M common unit :=
  modify (fun c =>
    if bool_decide (level = HS_LOG_DEBUG) && negb (libhs_debug c) then c
    else Common (handler c) (handler_udata c) (mask c) (mask_count c)
           (user_log c) (stderr_log c ++ [msg]) (libhs_debug c)).

Definition call_user_log (f : ptr) (level : hs_log_level) (msg : string)
    (udata : ptr) : M common unit :=
  modify (fun c =>
    Common (handler c) (handler_udata c) (mask c) (mask_count c)
      (user_log c ++ [LogCall f level msg udata]) (stderr_log c) (libhs_debug c)).

Definition hs_log_redirect (f udata : ptr) : M common unit :=
  modify (fun c =>
    if f =? NULL
    then Common default_handler_func NULL (mask c) (mask_count c)
           (user_log c) (stderr_log c) (libhs_debug c)
    else Common (user_func f) udata (mask c) (mask_count c)
           (user_log c) (stderr_log c) (libhs_debug c)).

Definition hs_error_mask (err : Z) : M common unit :=
  let* c := get in
  assert_ (mask_count c <? MASK_SIZE) ;;;
  put (Common (handler c) (handler_udata c)
         (<[Z.to_nat (mask_count c) := err]> (mask c)) (u32 (mask_count c + 1))
         (user_log c) (stderr_log c) (libhs_debug c)).

Definition hs_error_unmask : M common unit :=
  let* c := get in
  assert_ (negb (mask_count c =? 0)) ;;;
  put (Common (handler c) (handler_udata c) (mask c) (u32 (mask_count c - 1))
         (user_log c) (stderr_log c) (libhs_debug c)).

(** [char buf[512]] and [vsnprintf(buf, sizeof(buf), ...)]: at most 511 bytes
    of the message are kept. *)
Definition LOG_BUF : nat := 512.

Definition logv (level : hs_log_level) (msg : string) : M common unit :=
  let buf := String.substring 0 (LOG_BUF - 1) msg in
  let* c := get in
  match handler c with
  | default_handler_func => default_handler level buf (handler_udata c)
  | user_func f => call_user_log f level buf (handler_udata c)
  end.

Definition hs_log (level : hs_log_level) (msg : string) : M common unit :=
  logv level msg.

(** The codes the scan of [hs_error] looks at. *)
Definition active_masks (c : common) : list Z :=
  take (Z.to_nat (mask_count c)) (mask c).

Definition hs_error (err : Z) (fmt : option string) : M common Z :=
  let* c := get in
  if existsb (fun m => m =? err) (active_masks c) then ret err
  else
    match fmt with
    | Some msg => logv HS_LOG_ERROR msg
    | None => hs_log HS_LOG_ERROR (generic_message err)
    end ;;;
    ret err.

(** * Specification *)

Definition common_ok (c : common) : Prop :=
  length (mask c) = 32%nat /\ 0 <= mask_count c <= MASK_SIZE.

(** What a message adds to the state. *)
Definition logged (level : hs_log_level) (msg : string) (c : common) : common :=
  let buf := String.substring 0 511 msg in
  match handler c with
  | user_func f =>
      Common (handler c) (handler_udata c) (mask c) (mask_count c)
        (user_log c ++ [LogCall f level buf (handler_udata c)])
        (stderr_log c) (libhs_debug c)
  | default_handler_func =>
      if bool_decide (level = HS_LOG_DEBUG) && negb (libhs_debug c) then c
      else Common (handler c) (handler_udata c) (mask c) (mask_count c)
             (user_log c) (stderr_log c ++ [buf]) (libhs_debug c)
  end.

Lemma logv_logged level msg c : logv level msg c = Done (tt, logged level msg c).
Proof.
  unfold logv, logged, bind, get, default_handler, call_user_log, modify.
  cbn beta. destruct (handler c) eqn:E; rewrite ?E; [by case_match|done].
Qed.

Lemma hs_log_logged level msg c : hs_log level msg c = Done (tt, logged level msg c).
Proof. apply logv_logged. Qed.

(** The whole of [hs_error] as a function. *)
Definition errored (err : Z) (fmt : option string) (c : common) : common :=
  if existsb (fun m => m =? err) (active_masks c) then c
  else logged HS_LOG_ERROR (default (generic_message err) fmt) c.

Lemma hs_error_errored err fmt c :
  hs_error err fmt c = Done (err, errored err fmt c).
Proof.
  unfold hs_error, errored, bind, get. destruct (existsb _ _); [done|].
  destruct fmt; simpl; unfold hs_log; by rewrite logv_logged.
Qed.

Lemma wp_hs_log (Q : unit -> common -> Prop) level msg c :
  Q tt (logged level msg c) -> wp (hs_log level msg) Q c.
Proof. intros H. eapply wp_intro; [apply hs_log_logged|done]. Qed.

Lemma wp_hs_error (Q : Z -> common -> Prop) err fmt c :
  Q err (errored err fmt c) -> wp (hs_error err fmt) Q c.
Proof. intros H. eapply wp_intro; [apply hs_error_errored|done]. Qed.

Lemma logged_frame level msg c :
  mask (logged level msg c) = mask c /\
  mask_count (logged level msg c) = mask_count c /\
  handler (logged level msg c) = handler c.
Proof. unfold logged. destruct (handler c) eqn:?; [case_match|]; naive_solver. Qed.

Lemma logged_ok level msg c : common_ok c -> common_ok (logged level msg c).
Proof.
  unfold common_ok. destruct (logged_frame level msg c) as (-> & -> & _). done.
Qed.

Lemma errored_ok err fmt c : common_ok c -> common_ok (errored err fmt c).
Proof. unfold errored. destruct (existsb _ _); auto using logged_ok. Qed.

Lemma active_masks_errored err fmt c :
  active_masks (errored err fmt c) = active_masks c.
Proof.
  unfold errored. destruct (existsb _ _); [done|]. unfold active_masks.
  by destruct (logged_frame HS_LOG_ERROR (default (generic_message err) fmt) c)
    as (-> & -> & _).
Qed.

Create HintDb hs discriminated.
#[export] Hint Resolve logged_ok errored_ok : hs.

(** Pushing and popping a mask. *)
Definition pushed (e : Z) (c : common) : common :=
  Common (handler c) (handler_udata c) (<[Z.to_nat (mask_count c) := e]> (mask c))
    (mask_count c + 1) (user_log c) (stderr_log c) (libhs_debug c).

Lemma hs_error_mask_pushed e c :
  common_ok c -> mask_count c < MASK_SIZE ->
  hs_error_mask e c = Done (tt, pushed e c) /\ common_ok (pushed e c) /\
    active_masks (pushed e c) = active_masks c ++ [e].
Proof.
  intros [Hl Hc] Hlt. unfold MASK_SIZE in *.
  assert (u32 (mask_count c + 1) = mask_count c + 1) as Hu by (apply u32_small; lia).
  split; [|split].
  - unfold hs_error_mask, bind, get, put, assert_, MASK_SIZE.
    apply Z.ltb_lt in Hlt as ->. unfold ret, pushed. by rewrite Hu.
  - unfold common_ok, pushed, MASK_SIZE. simpl. rewrite length_insert. lia.
  - unfold active_masks, pushed. simpl.
    rewrite Z2Nat.inj_add, Nat.add_1_r by lia.
    erewrite take_S_r; [|apply list_lookup_insert_eq; lia].
    by rewrite take_insert_ge by lia.
Qed.

Definition popped (c : common) : common :=
  Common (handler c) (handler_udata c) (mask c) (mask_count c - 1)
    (user_log c) (stderr_log c) (libhs_debug c).

Lemma hs_error_unmask_popped c :
  common_ok c -> 0 < mask_count c ->
  hs_error_unmask c = Done (tt, popped c) /\ common_ok (popped c) /\
    active_masks (popped c) = take (Z.to_nat (mask_count c - 1)) (active_masks c).
Proof.
  intros [Hl Hc] Hlt. unfold MASK_SIZE in *.
  assert (u32 (mask_count c - 1) = mask_count c - 1) as Hu by (apply u32_small; lia).
  split; [|split].
  - unfold hs_error_unmask, bind, get, put, assert_.
    assert (mask_count c <> 0) as ->%Z.eqb_neq by lia. unfold ret, popped.
    simpl. by rewrite Hu.
  - unfold common_ok, popped, MASK_SIZE. simpl. lia.
  - unfold active_masks, popped. simpl. rewrite take_take. f_equal. lia.
Qed.

(** ** Properties *)

(** [hs_error] always returns the code it is given. When the code is in
    the mask stack nothing is logged and the state is unchanged; otherwise the
    current log function is called exactly once, at error level, with the
    message (the generic one when there is no format) cut to 511 bytes. *)
Theorem hs_error_correct err fmt c :
  exists c', hs_error err fmt c = Done (err, c') /\
    (((err ∈ active_masks c) /\ c' = c) \/
     ((err ∉ active_masks c) /\
      c' = logged HS_LOG_ERROR (default (generic_message err) fmt) c)).
Proof.
  exists (errored err fmt c). split; [apply hs_error_errored|]. unfold errored.
  destruct (existsb (fun m => m =? err) (active_masks c)) eqn:E; [left|right];
    (split; [|done]).
  - apply existsb_exists in E as (m & Hm & ->%Z.eqb_eq). by apply list_elem_of_In.
  - intros Hm%list_elem_of_In. apply not_true_iff_false in E. apply E.
    apply existsb_exists. exists err. by rewrite Z.eqb_refl.
Qed.

(** C38: masking is scoped. Between [hs_error_mask e] and [hs_error_unmask]
    the code [e] is not logged, every other code is treated as before, and
    after the pair the active masks are those of the start. *)
Theorem error_mask_scoped e err fmt c :
  common_ok c -> mask_count c < MASK_SIZE ->
  exists c',
    (hs_error_mask e ;;;
     let* r := hs_error err fmt in
     hs_error_unmask ;;; ret r) c = Done (err, c') /\
    common_ok c' /\ active_masks c' = active_masks c /\
    (err = e -> user_log c' = user_log c /\ stderr_log c' = stderr_log c) /\
    (err <> e -> user_log c' = user_log (errored err fmt c) /\
                 stderr_log c' = stderr_log (errored err fmt c)).
Proof.
  intros Hok Hlt. unfold MASK_SIZE in *. destruct (hs_error_mask_pushed e c Hok Hlt) as (E1 & Hok1 & Ha1).
  set (c1 := pushed e c) in *.
  pose proof (errored_ok err fmt c1 Hok1) as Hok2.
  pose proof (active_masks_errored err fmt c1) as Ha2.
  assert (Hcnt : mask_count (errored err fmt c1) = mask_count c + 1).
  { unfold errored. case_match; [done|].
    by destruct (logged_frame HS_LOG_ERROR (default (generic_message err) fmt) c1)
      as (_ & -> & _). }
  destruct Hok as [Hl Hc]. unfold MASK_SIZE in *.
  destruct (hs_error_unmask_popped _ Hok2) as (E3 & Hok3 & Ha3); [lia|].
  exists (popped (errored err fmt c1)). split; [|split; [done|split]].
  - unfold bind at 1. rewrite E1. unfold bind at 1. rewrite hs_error_errored.
    unfold bind. by rewrite E3.
  - rewrite Ha3, Ha2, Ha1, Hcnt. rewrite Z.add_simpl_r.
    rewrite take_app_le; [unfold active_masks; rewrite take_take; f_equal; lia|].
    unfold active_masks. rewrite length_take. lia.
  - unfold errored. rewrite Ha1, existsb_app. simpl. rewrite orb_false_r. split.
    + intros ->. rewrite Z.eqb_refl, orb_true_r. done.
    + intros Hne%not_eq_sym%Z.eqb_neq. rewrite Hne, orb_false_r.
      destruct (existsb (fun m => m =? err) (active_masks c)); [done|].
      unfold logged, c1, pushed. simpl.
      by destruct (handler c).
Qed.

Lemma error_mask_scoped_witness :
  let c := common_init false in
  exists c',
    (hs_error_mask HS_ERROR_IO ;;;
     let* r := hs_error HS_ERROR_NOT_FOUND None in
     hs_error_unmask ;;; ret r) c = Done (HS_ERROR_NOT_FOUND, c') /\
    stderr_log c' = ["Not found"].
Proof.
  intros c.
  destruct (error_mask_scoped HS_ERROR_IO HS_ERROR_NOT_FOUND None c)
    as (c' & E & _ & _ & _ & H).
  - split; vm_compute; split; congruence.
  - reflexivity.
  - exists c'. split; [exact E|]. destruct H as [_ H]; [discriminate|]. exact H.
Defined.
