(* ===== verification/Htable.v ===== *)
(** The intrusive hash table: src/src/htable.h and src/src/htable.c.

    The array of the table holds one pointer per bucket, and the address of an
    array cell is itself used as a node whose only field is [next]: every
    bucket is a ring through its own cell. [htable_rep] relates such a memory
    to the list of its buckets. *)

From S2P Require Import Prelude Common.

Record hmem := HMem { h_next : gmap ptr ptr; h_key : gmap ptr Z }.

Record _hs_htable := Htable { ht_size : Z; ht_heads : ptr }.

(** [sizeof(void * )] on the 64-bit targets. *)
Definition PTR_SIZE : Z := 8.

(** [&table->heads[i]] *)
Definition slot (t : _hs_htable) (i : Z) : ptr := ht_heads t + PTR_SIZE * i.

Definition load_hnext (p : ptr) : M hmem ptr :=
  fun m => match h_next m !! p with
           | Some v => Done (v, m)
           | None => Fault BadAccess
           end.
Definition load_hkey (p : ptr) : M hmem Z :=
  fun m => match h_key m !! p with
           | Some v => Done (v, m)
           | None => Fault BadAccess
           end.
Definition store_hnext (p v : ptr) : M hmem unit :=
  fun m => match h_next m !! p with
           | Some _ => Done (tt, HMem (<[p:=v]> (h_next m)) (h_key m))
           | None => Fault BadAccess
           end.
Definition store_hkey (p : ptr) (k : Z) : M hmem unit :=
  fun m => match h_key m !! p with
           | Some _ => Done (tt, HMem (h_next m) (<[p:=k]> (h_key m)))
           | None => Fault BadAccess
           end.

(** The cells of a node inside a structure allocated by [calloc], or freed. *)
Definition hnode_alloc (p : ptr) : M hmem unit :=
  modify (fun m => HMem (<[p:=NULL]> (h_next m)) (<[p:=0]> (h_key m))).
Definition hnode_free (p : ptr) : M hmem unit :=
  modify (fun m => HMem (delete p (h_next m)) (delete p (h_key m))).

(** The cells of an array of [n] pointers at [heads] (their content, which
    [malloc] leaves unspecified, is written before it is read). *)
Fixpoint heads_alloc (t : _hs_htable) (n : nat) : M hmem unit :=
  match n with
  | O => ret tt
  | S n =>
      heads_alloc t n ;;;
      modify (fun m => HMem (<[slot t (Z.of_nat n) := NULL]> (h_next m)) (h_key m))
  end.
Fixpoint heads_free (t : _hs_htable) (n : nat) : M hmem unit :=
  match n with
  | O => ret tt
  | S n =>
      heads_free t n ;;;
      modify (fun m => HMem (delete (slot t (Z.of_nat n)) (h_next m)) (h_key m))
  end.

(** * The functions *)

Definition _hs_htable_hash_step (hash : Z) (c : Ascii.ascii) : Z :=
  u32 (hash * 101 + Z.of_N (Ascii.N_of_ascii c)).

Fixpoint _hs_htable_hash_str_from (hash : Z) (s : string) : Z :=
  match s with
  | EmptyString => hash
  | String c s => _hs_htable_hash_str_from (_hs_htable_hash_step hash c) s
  end.

Definition _hs_htable_hash_str (s : string) : Z := _hs_htable_hash_str_from 0 s.

Definition _hs_htable_hash_ptr (p : ptr) : Z := u32 (Z.shiftr p 3).

Definition _hs_htable_get_head (t : _hs_htable) (key : Z) : M hmem ptr :=
  if ht_size t =? 0 then fail DivisionByZero
  else ret (slot t (key mod ht_size t)).

Definition _hs_htable_add (t : _hs_htable) (key : Z) (n : ptr) : M hmem unit :=
  let* head := _hs_htable_get_head t key in
  store_hkey n key ;;;
  let* next := load_hnext head in
  store_hnext n next ;;;
  store_hnext head n.

Definition _hs_htable_insert (prev n : ptr) : M hmem unit :=
  let* key := load_hkey prev in
  store_hkey n key ;;;
  let* next := load_hnext prev in
  store_hnext n next ;;;
  store_hnext prev n.

Fixpoint _hs_htable_remove_loop (head : ptr) (fuel : nat) (prev : ptr) : M hmem unit :=
  match fuel with
  | O => out_of_fuel
  | S fuel =>
      if prev =? head then ret tt
      else
        let* pn := load_hnext prev in
        if pn =? head then
          let* hn := load_hnext head in
          store_hnext prev hn ;;;
          store_hnext head NULL
        else _hs_htable_remove_loop head fuel pn
  end.

Definition _hs_htable_remove (fuel : nat) (head : ptr) : M hmem unit :=
  let* prev := load_hnext head in
  _hs_htable_remove_loop head fuel prev.

Fixpoint _hs_htable_clear_from (t : _hs_htable) (i : Z) (n : nat) : M hmem unit :=
  match n with
  | O => ret tt
  | S n =>
      store_hnext (slot t i) (slot t i) ;;;
      _hs_htable_clear_from t (i + 1) n
  end.

Definition _hs_htable_clear (t : _hs_htable) : M hmem unit :=
  _hs_htable_clear_from t 0 (Z.to_nat (ht_size t)).

(** [_hs_htable_init]: [heads] is the result of [malloc]; the second component
    is the table the function leaves. *)
Definition _hs_htable_init {S} `{Has hmem S} `{Has common S}
    (heads : ptr) (t : _hs_htable) (size : Z) : M S (Z * _hs_htable) :=
  if heads =? NULL then
    let* r := zoom (hs_error HS_ERROR_MEMORY None) in
    ret (r, Htable (ht_size t) NULL)
  else
    let t := Htable size heads in
    zoom (heads_alloc t (Z.to_nat size)) ;;;
    zoom (_hs_htable_clear t) ;;;
    ret (0, t).

(** [free(table->heads)] *)
Definition _hs_htable_release (t : _hs_htable) : M hmem unit :=
  heads_free t (Z.to_nat (ht_size t)).

(** * The foreach macros *)

Section Foreach.
Context {S R : Type} `{Has hmem S}.
(** The expression the macro repeats for [table]. *)
Variable table : M S _hs_htable.
Variable body : ptr -> M S (flow R).

(** The outer loop of [hs_htable_foreach]: [head] walks over the array and
    [cur] moves with it; after a [break] in the inner loop they differ and
    the test [cur == head] fails. *)
Fixpoint hs_htable_foreach_loop (fuel : nat) (head cur : ptr) : M S (option R) :=
  match fuel with
  | O => out_of_fuel
  | Datatypes.S fuel' =>
      if negb (cur =? head) then ret None
      else
        let* t := table in
        if head <? slot t (ht_size t) then
          let* cur := zoom (load_hnext cur) in
          let* next := zoom (load_hnext cur) in
          let* r := ring_loop (ret head) (fun p => zoom (load_hnext p)) body
                      fuel cur next in
          match r with
          | (_, Return r) => ret (Some r)
          | (cur, _) =>
              hs_htable_foreach_loop fuel' (head + PTR_SIZE) (cur + PTR_SIZE)
          end
        else ret None
  end.

Definition hs_htable_foreach (fuel : nat) : M S (option R) :=
  let* t := table in
  hs_htable_foreach_loop fuel (ht_heads t) (ht_heads t).

Variable k : Z.

Definition hs_htable_foreach_hash (fuel : nat) : M S (option R) :=
  let* t := table in
  if ht_size t =? 0 then ret None
  else
    let* t := table in
    let* head := zoom (_hs_htable_get_head t k) in
    let* cur := zoom (load_hnext head) in
    let* next := zoom (load_hnext cur) in
    let* r := ring_loop (ret head) (fun p => zoom (load_hnext p))
                (fun cur =>
                   let* key := zoom (load_hkey cur) in
                   if key =? k then body cur else ret Next)
                fuel cur next in
    match r.2 with
    | Return r => ret (Some r)
    | _ => ret None
    end.
End Foreach.

(** * Representation *)

(** The ring of bucket [i], its array cell included. *)
Definition ring (t : _hs_htable) (i : nat) (b : list ptr) : list ptr :=
  slot t (Z.of_nat i) :: b.
Definition rings (t : _hs_htable) (bs : list (list ptr)) : list (list ptr) :=
  imap (ring t) bs.

Record htable_rep (m : hmem) (t : _hs_htable) (bs : list (list ptr)) : Prop := {
  hr_size : ht_size t = Z.of_nat (length bs);
  hr_nodup : NoDup (concat (rings t bs));
  hr_nonnull : NULL ∉ concat bs;
  hr_ring : forall i b, bs !! i = Some b ->
    chain (h_next m) (slot t (Z.of_nat i)) b (slot t (Z.of_nat i));
  hr_key : forall i b n, bs !! i = Some b -> n ∈ b ->
    exists k, h_key m !! n = Some k /\ 0 <= k < 2 ^ 32 /\
              k mod ht_size t = Z.of_nat i
}.

(** The bucket of a key. *)
Definition bucket_of (t : _hs_htable) (key : Z) : nat :=
  Z.to_nat (key mod ht_size t).

Section Access.
Implicit Types (m : hmem) (p v k : Z).

Lemma wp_load_hnext (Q : ptr -> hmem -> Prop) m p v :
  h_next m !! p = Some v -> Q v m -> wp (load_hnext p) Q m.
Proof. unfold wp, load_hnext. by intros ->. Qed.
Lemma wp_load_hkey (Q : Z -> hmem -> Prop) m p v :
  h_key m !! p = Some v -> Q v m -> wp (load_hkey p) Q m.
Proof. unfold wp, load_hkey. by intros ->. Qed.
Lemma wp_store_hnext (Q : unit -> hmem -> Prop) m p v :
  is_Some (h_next m !! p) ->
  Q tt (HMem (<[p:=v]> (h_next m)) (h_key m)) -> wp (store_hnext p v) Q m.
Proof. unfold wp, store_hnext. by intros [? ->]. Qed.
Lemma wp_store_hkey (Q : unit -> hmem -> Prop) m p k :
  is_Some (h_key m !! p) ->
  Q tt (HMem (h_next m) (<[p:=k]> (h_key m))) -> wp (store_hkey p k) Q m.
Proof. unfold wp, store_hkey. by intros [? ->]. Qed.
End Access.

Ltac solve_hcell :=
  solve [cbn; rewrite ?lookup_insert_eq, ?lookup_insert_ne by done; eauto].
Ltac wp_htable :=
  repeat (first
    [ wp_step
    | eapply wp_load_hnext; [solve_hcell|]
    | eapply wp_load_hkey; [solve_hcell|]
    | apply wp_store_hnext; [solve_hcell|]
    | apply wp_store_hkey; [solve_hcell|] ]; cbn [h_next h_key]).

Section Rep.
Implicit Types (m : hmem) (t : _hs_htable) (b : list ptr) (bs : list (list ptr)).

Lemma rings_lookup t bs i b :
  bs !! i = Some b -> rings t bs !! i = Some (ring t i b).
Proof. intros Hi. unfold rings. by rewrite list_lookup_imap, Hi. Qed.

Lemma rings_insert t bs i b :
  rings t (<[i:=b]> bs) = <[i:=ring t i b]> (rings t bs).
Proof.
  unfold rings. apply list_eq. intros j.
  rewrite list_lookup_imap, !list_lookup_insert, length_imap, list_lookup_imap.
  case_decide as E; [destruct E as [-> _]|]; done.
Qed.

Lemma concat_rings t bs p :
  p ∈ concat (rings t bs) <->
  exists i b, bs !! i = Some b /\ p ∈ ring t i b.
Proof.
  rewrite elem_of_concat. split.
  - intros (i & x & Hi & Hp). unfold rings in Hi. rewrite list_lookup_imap in Hi.
    destruct (bs !! i) as [b|] eqn:E; simplify_eq/=. eauto.
  - intros (i & b & Hi & Hp). exists i, (ring t i b). by rewrite (rings_lookup _ _ _ b).
Qed.

(** Changing the ring of one bucket. *)
Lemma htable_rep_update m m' t bs i b b' :
  htable_rep m t bs -> bs !! i = Some b ->
  chain (h_next m') (slot t (Z.of_nat i)) b' (slot t (Z.of_nat i)) ->
  NoDup (ring t i b') ->
  (forall p, p ∈ b' -> p ∈ b \/ p ∉ concat (rings t bs)) -> NULL ∉ b' ->
  (forall p, p ∈ b' -> exists k, h_key m' !! p = Some k /\ 0 <= k < 2 ^ 32 /\
                                 k mod ht_size t = Z.of_nat i) ->
  (forall p, p ∉ ring t i (b ++ b') ->
     h_next m' !! p = h_next m !! p /\ h_key m' !! p = h_key m !! p) ->
  htable_rep m' t (<[i:=b']> bs).
Proof.
  intros [Hsz Hnd Hnn Hr Hk] Hi Hc Hndb Hin Hnull Hkey Hsame.
  assert (Hother : forall j c p, bs !! j = Some c -> j <> i -> p ∈ ring t j c ->
            h_next m' !! p = h_next m !! p /\ h_key m' !! p = h_key m !! p).
  { intros j c p Hj Hne Hp. apply Hsame.
    assert (p ∉ ring t i b) as Hpb.
    { intros Hpb. apply Hne. eapply NoDup_concat_disjoint;
        eauto using rings_lookup. }
    assert (p ∉ b') as Hpb'; [|unfold ring in *; set_solver].
    intros Hpb'. destruct (Hin p Hpb') as [?|Hno]; [unfold ring in *; set_solver|].
    apply Hno, concat_rings. eauto. }
  split.
  - by rewrite length_insert.
  - rewrite rings_insert. eapply NoDup_concat_insert; eauto using rings_lookup.
    intros p [->|Hp]%elem_of_cons; [unfold ring; set_solver|].
    destruct (Hin p Hp); [left; unfold ring; set_solver|by right].
  - rewrite (concat_insert _ _ _ _ Hi). rewrite (concat_middle _ _ _ Hi) in Hnn.
    set_solver.
  - intros j c. destruct (decide (j = i)) as [->|Hne].
    + rewrite list_lookup_insert_eq by (by eapply lookup_lt_Some).
      by intros [= <-].
    + rewrite list_lookup_insert_ne by done. intros Hj.
      apply (chain_same (h_next m)); [|by apply Hr]. intros p Hp.
      by apply (Hother j c p).
  - intros j c n. destruct (decide (j = i)) as [->|Hne].
    + rewrite list_lookup_insert_eq by (by eapply lookup_lt_Some).
      intros [= <-]. apply Hkey.
    + rewrite list_lookup_insert_ne by done. intros Hj Hn.
      destruct (Hother j c n Hj Hne) as [_ ->]; [unfold ring; set_solver|].
      by eapply Hk.
Qed.

(** Cells of other structures do not matter. *)
Lemma htable_rep_frame m m' t bs :
  (forall p, p ∈ concat (rings t bs) ->
     h_next m' !! p = h_next m !! p /\ h_key m' !! p = h_key m !! p) ->
  htable_rep m t bs -> htable_rep m' t bs.
Proof.
  intros Hsame [Hsz Hnd Hnn Hr Hk].
  assert (Hin : forall i b p, bs !! i = Some b -> p ∈ ring t i b ->
            h_next m' !! p = h_next m !! p /\ h_key m' !! p = h_key m !! p).
  { intros i b p Hi Hp. apply Hsame, concat_rings. eauto. }
  split; [done..| |].
  - intros i b Hi. apply (chain_same (h_next m)); [|by apply Hr].
    intros p Hp. by eapply Hin.
  - intros i b n Hi Hn. destruct (Hin i b n Hi) as [_ ->]; [unfold ring; set_solver|].
    by eapply Hk.
Qed.

Lemma htable_in_rings t bs p : p ∈ concat bs -> p ∈ concat (rings t bs).
Proof.
  rewrite elem_of_concat, concat_rings. intros (i & b & Hi & Hp).
  exists i, b. unfold ring. set_solver.
Qed.

Lemma htable_node m t bs i b p :
  htable_rep m t bs -> bs !! i = Some b -> p ∈ ring t i b ->
  is_Some (h_next m !! p).
Proof. intros [_ _ _ Hr _] Hi Hp. eapply chain_dom; [by apply Hr|done]. Qed.

Lemma htable_ring_nodup m t bs i b :
  htable_rep m t bs -> bs !! i = Some b -> NoDup (ring t i b).
Proof.
  intros [_ Hnd _ _ _] Hi. eapply NoDup_concat_lookup; eauto using rings_lookup.
Qed.

Lemma in_bucket_rest bs i b : bs !! i = Some b ->
  concat (drop i bs) = b ++ concat (drop (S i) bs).
Proof. intros Hi. by rewrite (drop_S _ _ _ Hi). Qed.

Lemma bucket_rest m t bs i b (seen todo : list ptr) :
  htable_rep m t bs -> bs !! i = Some b -> b = seen ++ todo ->
  rest (h_next m) (slot t (Z.of_nat i)) todo.
Proof.
  intros Hr Hi ->. pose proof (hr_ring _ _ _ Hr _ _ Hi) as Hc.
  pose proof (htable_ring_nodup _ _ _ _ _ Hr Hi) as Hnd.
  apply NoDup_cons in Hnd as [Hh _].
  apply rest_chain with (2 := chain_dom _ _ _ _ _ Hc (list_elem_of_here _ _)) (3 := Hc).
  set_solver.
Qed.

Lemma slot_not_node m t bs i : htable_rep m t bs -> (i < length bs)%nat ->
  slot t (Z.of_nat i) ∉ concat bs.
Proof.
  intros Hr Hi Hin. apply elem_of_concat in Hin as (j & b & Hj & Hin).
  apply lookup_lt_is_Some in Hi as [c Hi].
  assert (i = j) as ->.
  { eapply (NoDup_concat_disjoint _ i j); [exact (hr_nodup _ _ _ Hr)|
      by apply rings_lookup|by apply rings_lookup| |by right]. left. }
  pose proof (htable_ring_nodup _ _ _ _ _ Hr Hj) as Hnd.
  by apply NoDup_cons in Hnd as [? _].
Qed.

(** A node nobody points to is in no ring. *)
Lemma unlinked_fresh m t bs p : htable_rep m t bs ->
  (forall q, h_next m !! q <> Some p) -> p ∉ concat (rings t bs).
Proof.
  intros Hr Hq Hin. apply concat_rings in Hin as (i & b & Hi & Hin).
  destruct (chain_pred _ _ _ _ p (hr_ring _ _ _ Hr _ _ Hi)) as [q Hq'].
  - apply elem_of_cons in Hin as [->|Hin]; auto.
  - by apply (Hq q).
Qed.

(** A key has a bucket in a table that is not empty. *)
Lemma bucket_lookup m t bs key :
  htable_rep m t bs -> 0 < ht_size t ->
  exists b, bs !! bucket_of t key = Some b /\
            Z.of_nat (bucket_of t key) = key mod ht_size t.
Proof.
  intros [Hsz _ _ _ _] Hpos. unfold bucket_of.
  pose proof (Z.mod_pos_bound key (ht_size t) Hpos).
  destruct (lookup_lt_is_Some_2 bs (Z.to_nat (key mod ht_size t))) as [b Hb]; [lia|].
  exists b. split; [done|lia].
Qed.

(** The nodes of a key are all in its bucket. *)
Lemma htable_key_bucket m t bs i b n k :
  htable_rep m t bs -> bs !! i = Some b -> n ∈ b -> h_key m !! n = Some k ->
  i = bucket_of t k.
Proof.
  intros Hrep Hi Hn Hk. destruct (hr_key _ _ _ Hrep _ _ _ Hi Hn) as (k' & Hk' & _ & Hm).
  simplify_eq. unfold bucket_of. lia.
Qed.
End Rep.

(** * Each function is the operation on buckets *)

Section Operations.
Implicit Types (m : hmem) (t : _hs_htable) (b : list ptr) (bs : list (list ptr)).

Definition hmem_same_outside (ps : list ptr) m m' : Prop :=
  forall p, p ∉ ps -> h_next m' !! p = h_next m !! p /\ h_key m' !! p = h_key m !! p.

Definition hnode m (n : ptr) : Prop :=
  is_Some (h_next m !! n) /\ is_Some (h_key m !! n).

Lemma wp_htable_get_head (Q : ptr -> hmem -> Prop) m t key :
  0 < ht_size t -> Q (slot t (key mod ht_size t)) m ->
  wp (_hs_htable_get_head t key) Q m.
Proof.
  intros Hpos HQ. unfold _hs_htable_get_head.
  assert (ht_size t <> 0) as ->%Z.eqb_neq by lia. by wp_step.
Qed.

(** [_hs_htable_add] puts the node in front of the bucket of its key. *)
Lemma wp_htable_add (Q : unit -> hmem -> Prop) m t bs key n b :
  htable_rep m t bs -> 0 < ht_size t -> 0 <= key < 2 ^ 32 ->
  bs !! bucket_of t key = Some b ->
  hnode m n -> n ∉ concat (rings t bs) -> n <> NULL ->
  (forall m', htable_rep m' t (<[bucket_of t key := n :: b]> bs) ->
     h_key m' !! n = Some key ->
     (forall p, p <> n -> h_key m' !! p = h_key m !! p) ->
     hmem_same_outside (n :: concat (rings t bs)) m m' -> Q tt m') ->
  wp (_hs_htable_add t key n) Q m.
Proof.
  intros Hrep Hpos Hkey Hb [Hn1 Hn2] Hn Hnull HQ.
  set (i := bucket_of t key) in *.
  assert (Hi : Z.of_nat i = key mod ht_size t).
  { destruct (bucket_lookup m t bs key Hrep Hpos) as (? & _ & ?). done. }
  assert (Hring : forall p, p ∈ ring t i b -> p ∈ concat (rings t bs)).
  { intros p Hp. apply concat_rings. eauto. }
  assert (Hns : slot t (Z.of_nat i) <> n).
  { eapply elem_ne; [apply Hring; left|done]. }
  assert (Hnb : n ∉ b) by (intros Hin; apply Hn, Hring; by right).
  unfold _hs_htable_add. wp_step. apply wp_htable_get_head; [done|].
  rewrite <- Hi. pose proof (hr_ring _ _ _ Hrep _ _ Hb) as Hc.
  pose proof (chain_link _ _ [] b _ Hc) as Hlink. simpl in Hlink.
  wp_htable. pose proof (htable_ring_nodup _ _ _ _ _ Hrep Hb) as Hnd.
  unfold ring in Hnd. apply HQ; cbn.
  - eapply htable_rep_update; cbn; [exact Hrep|exact Hb| | | | | |].
    + rewrite insert_insert_ne by done. apply (chain_insert _ _ [] b); simpl; [done|set_solver|done].
    + unfold ring. apply NoDup_cons in Hnd as [??].
      apply NoDup_cons. split; [set_solver|]. by apply NoDup_cons.
    + set_solver.
    + pose proof (hr_nonnull _ _ _ Hrep) as Hnn.
      rewrite (concat_middle _ _ _ Hb) in Hnn. set_solver.
    + intros p [->|Hp]%elem_of_cons.
      * exists key. by rewrite lookup_insert_eq.
      * rewrite lookup_insert_ne by set_solver. by eapply hr_key.
    + intros p Hp. unfold ring in Hp.
      rewrite !lookup_insert_ne by set_solver. done.
  - by rewrite lookup_insert_eq.
  - intros p Hp. by rewrite lookup_insert_ne.
  - intros p Hp. cbn. assert (slot t (Z.of_nat i) ∈ concat (rings t bs)).
    { apply Hring. left. }
    rewrite !lookup_insert_ne by set_solver. done.
Qed.

(** [_hs_htable_insert] puts the node after [prev], with its key. *)
Lemma wp_htable_insert (Q : unit -> hmem -> Prop) m t bs i b1 b2 prev n key :
  htable_rep m t bs -> bs !! i = Some (b1 ++ prev :: b2) ->
  h_key m !! prev = Some key ->
  hnode m n -> n ∉ concat (rings t bs) -> n <> NULL ->
  (forall m', htable_rep m' t (<[i := b1 ++ prev :: n :: b2]> bs) ->
     h_key m' !! n = Some key -> Q tt m') ->
  wp (_hs_htable_insert prev n) Q m.
Proof.
  intros Hrep Hb Hkp [Hn1 Hn2] Hn Hnull HQ.
  assert (Hring : forall p, p ∈ ring t i (b1 ++ prev :: b2) -> p ∈ concat (rings t bs)).
  { intros p Hp. apply concat_rings. eauto. }
  assert (Hnp : prev <> n).
  { eapply elem_ne; [apply Hring; unfold ring; set_solver|done]. }
  assert (Hnb : n ∉ ring t i (b1 ++ prev :: b2)) by (intros Hin; by apply Hn, Hring).
  pose proof (hr_ring _ _ _ Hrep _ _ Hb) as Hc.
  pose proof (htable_ring_nodup _ _ _ _ _ Hrep Hb) as Hnd.
  rewrite (app_assoc b1 [prev] b2 : b1 ++ prev :: b2 = _) in Hc.
  pose proof (chain_link _ _ _ _ _ Hc) as Hlink. rewrite lastp_snoc in Hlink.
  unfold _hs_htable_insert. wp_htable. unfold ring in *. apply HQ; cbn.
  - eapply htable_rep_update; cbn; [exact Hrep|exact Hb| | | | | |].
    + rewrite insert_insert_ne by done.
      pose proof (chain_insert (h_next m) (slot t (Z.of_nat i)) (b1 ++ [prev]) b2
                    (slot t (Z.of_nat i)) n) as Hci.
      rewrite lastp_snoc, <- !app_assoc in Hci. apply Hci; [done|set_solver|].
      by rewrite <- app_assoc in Hc.
    + unfold ring. rewrite cons_middle, (app_assoc b1 [prev] (n :: b2)).
      rewrite <- Permutation_middle, <- app_assoc. simpl.
      rewrite (Permutation_swap n). apply NoDup_cons. split; [set_solver|done].
    + set_solver.
    + pose proof (hr_nonnull _ _ _ Hrep) as Hnn.
      rewrite (concat_middle _ _ _ Hb) in Hnn. set_solver.
    + intros p Hp. destruct (decide (p = n)) as [->|Hne].
      * exists key. rewrite lookup_insert_eq. split; [done|].
        destruct (hr_key _ _ _ Hrep _ _ prev Hb) as (k & Hk & ?); [set_solver|].
        by simplify_eq.
      * rewrite lookup_insert_ne by done. eapply hr_key; [done..|set_solver].
    + intros p Hp. unfold ring in Hp.
      rewrite !lookup_insert_ne by set_solver. done.
  - by rewrite lookup_insert_eq.
Qed.

Lemma wp_htable_remove_loop (Q : unit -> hmem -> Prop) m n zs prevs ps fuel :
  chain (h_next m) n zs n -> NoDup (n :: zs) ->
  zs = prevs ++ ps -> ps <> [] -> (length ps < fuel)%nat ->
  Q tt (HMem (<[n:=NULL]> (<[lastp n zs := hdp n zs]> (h_next m))) (h_key m)) ->
  wp (_hs_htable_remove_loop n fuel (hdp n ps)) Q m.
Proof.
  intros Hc Hnd. revert prevs ps. induction fuel as [|fuel IH];
    intros prevs ps Hzs Hps Hf HQ; [lia|].
  destruct ps as [|p ps]; [done|]. simpl.
  assert (p <> n) as Hpn.
  { apply NoDup_cons in Hnd as [? _]. set_solver. }
  apply Z.eqb_neq in Hpn as ->. wp_step.
  assert (h_next m !! p = Some (hdp n ps)) as Hp.
  { subst zs. rewrite cons_middle, app_assoc in Hc. apply chain_link in Hc.
    by rewrite lastp_snoc in Hc. }
  eapply wp_load_hnext; [done|].
  destruct ps as [|p' ps].
  - simpl. rewrite Z.eqb_refl. subst zs. rewrite lastp_snoc in HQ.
    pose proof (chain_link _ _ [] _ _ Hc) as Hh. simpl in Hh. wp_htable. done.
  - assert (hdp n (p' :: ps) <> n) as ->%Z.eqb_neq.
    { apply NoDup_cons in Hnd as [? _]. simpl. set_solver. }
    apply (IH (prevs ++ [p])); [by rewrite <- app_assoc|done|simpl in *; lia|done].
Qed.

(** [_hs_htable_remove] unlinks a node, given fuel for its ring. *)
Lemma wp_htable_remove (Q : unit -> hmem -> Prop) m t bs i b1 b2 n fuel :
  htable_rep m t bs -> bs !! i = Some (b1 ++ n :: b2) ->
  (length b1 + length b2 + 1 < fuel)%nat ->
  (forall m', htable_rep m' t (<[i := b1 ++ b2]> bs) ->
     h_next m' !! n = Some NULL -> h_key m' = h_key m ->
     hmem_same_outside (ring t i (b1 ++ n :: b2)) m m' -> Q tt m') ->
  wp (_hs_htable_remove fuel n) Q m.
Proof.
  intros Hrep Hb Hf HQ. pose proof (hr_ring _ _ _ Hrep _ _ Hb) as Hc.
  pose proof (htable_ring_nodup _ _ _ _ _ Hrep Hb) as Hnd. unfold ring in *.
  set (h := slot t (Z.of_nat i)) in *.
  destruct (NoDup_mid _ _ _ _ Hnd) as [Hni Hnd'].
  assert (Hrot : chain (h_next m) n (b2 ++ h :: b1) n).
  { apply chain_app in Hc as [Hc1 Hc2]. by apply chain_app. }
  assert (Hndr : NoDup (n :: b2 ++ h :: b1)).
  { apply NoDup_cons. split; [set_solver|].
    by rewrite <- Permutation_middle, (Permutation_app_comm b2 b1). }
  unfold _hs_htable_remove. wp_step.
  pose proof (chain_link _ _ [] _ _ Hrot) as Hn. simpl in Hn.
  eapply wp_load_hnext; [done|].
  eapply wp_htable_remove_loop with (prevs := []); [exact Hrot|done|done| | |].
  { by destruct b2. } { rewrite length_app. simpl. lia. }
  rewrite lastp_app. simpl. rewrite hdp_app. simpl.
  apply HQ; cbn.
  - eapply htable_rep_update; cbn; [exact Hrep|exact Hb| | | | | |].
    + apply chain_frame; [done|]. by apply chain_remove with n.
    + done.
    + set_solver.
    + pose proof (hr_nonnull _ _ _ Hrep) as Hnn.
      rewrite (concat_middle _ _ _ Hb) in Hnn. set_solver.
    + intros p Hp. eapply hr_key; [done..|set_solver].
    + intros p Hp. pose proof (lastp_elem h b1). unfold ring in Hp. fold h in Hp.
      rewrite !lookup_insert_ne; [done| |]; (eapply elem_ne; [|exact Hp]); set_solver.
  - by rewrite lookup_insert_eq.
  - done.
  - intros p Hp. cbn. pose proof (lastp_elem h b1).
    rewrite !lookup_insert_ne; [done| |]; (eapply elem_ne; [|exact Hp]); set_solver.
Qed.
End Operations.

(** * Creation *)

Section Init.
Implicit Types (m : hmem) (t : _hs_htable).

Lemma slot_inj t i j : slot t i = slot t j -> i = j.
Proof. unfold slot, PTR_SIZE. lia. Qed.

(** The addresses of the array cells. *)
Definition is_slot t (n : nat) (p : ptr) : Prop :=
  exists i : nat, (i < n)%nat /\ p = slot t (Z.of_nat i).

Lemma rings_empty_elem t n p :
  p ∈ concat (rings t (replicate n [])) <-> is_slot t n p.
Proof.
  rewrite concat_rings. unfold ring, is_slot. split.
  - intros (i & b & [-> Hi]%lookup_replicate & Hp). exists i. set_solver.
  - intros (i & Hi & ->). exists i, []. rewrite lookup_replicate. set_solver.
Qed.

Lemma rings_empty_nodup t n : NoDup (concat (rings t (replicate n []))).
Proof.
  induction n as [|n IH]; [apply NoDup_nil_2|].
  rewrite replicate_S_end. unfold rings. rewrite imap_app, concat_app. simpl.
  apply NoDup_app. split; [exact IH|]. split.
  - intros p Hp%rings_empty_elem Hp'. destruct Hp as (i & Hi & ->).
    rewrite Nat.add_0_r, length_replicate in Hp'. unfold ring in Hp'.
    apply list_elem_of_singleton, slot_inj in Hp'. lia.
  - apply NoDup_singleton.
Qed.

Lemma wp_heads_alloc (Q : unit -> hmem -> Prop) m t n :
  (forall m', (forall i, (i < n)%nat -> is_Some (h_next m' !! slot t (Z.of_nat i))) ->
     (forall p, ~ is_slot t n p -> h_next m' !! p = h_next m !! p) ->
     h_key m' = h_key m -> Q tt m') ->
  wp (heads_alloc t n) Q m.
Proof.
  revert Q. induction n as [|n IH]; intros Q HQ; simpl.
  - wp_step. apply HQ; [lia|done|done].
  - wp_step. apply IH. intros m' H1 H2 H3. wp_step. apply HQ; simpl; [| |done].
    + intros i Hi. destruct (decide (i = n)) as [->|Hne].
      * rewrite lookup_insert_eq. eauto.
      * apply is_Some_insert, H1. lia.
    + intros p Hp. rewrite lookup_insert_ne.
      * apply H2. intros (i & Hi & ->). apply Hp. exists i. split; [lia|done].
      * intros <-. apply Hp. exists n. split; [lia|done].
Qed.

Lemma wp_htable_clear_from (Q : unit -> hmem -> Prop) m t i n :
  (forall j, (j < i + n)%nat -> is_Some (h_next m !! slot t (Z.of_nat j))) ->
  (forall j, (j < i)%nat -> h_next m !! slot t (Z.of_nat j) = Some (slot t (Z.of_nat j))) ->
  (forall m',
     (forall j, (j < i + n)%nat ->
        h_next m' !! slot t (Z.of_nat j) = Some (slot t (Z.of_nat j))) ->
     (forall p, ~ is_slot t (i + n) p -> h_next m' !! p = h_next m !! p) ->
     h_key m' = h_key m -> Q tt m') ->
  wp (_hs_htable_clear_from t (Z.of_nat i) n) Q m.
Proof.
  revert m i. induction n as [|n IH]; intros m i Hs Hd HQ; simpl.
  - wp_step. apply HQ; [intros j Hj; apply Hd; lia|done|done].
  - wp_step. apply wp_store_hnext; [apply Hs; lia|].
    replace (Z.of_nat i + 1) with (Z.of_nat (S i)) by lia.
    apply IH; simpl.
    + intros j Hj. apply is_Some_insert, Hs. lia.
    + intros j Hj. destruct (decide (j = i)) as [->|Hne].
      * by rewrite lookup_insert_eq.
      * rewrite lookup_insert_ne by (intros E%slot_inj; lia). apply Hd. lia.
    + intros m' H1 H2 H3. apply HQ; [intros j Hj; apply H1; lia| |done].
      intros p Hp. rewrite H2, lookup_insert_ne; [done| |].
      * intros <-. apply Hp. exists i. split; [lia|done].
      * intros (j & Hj & ->). apply Hp. exists j. split; [lia|done].
Qed.

(** Clearing empties every bucket. *)
Lemma wp_htable_clear (Q : unit -> hmem -> Prop) m t n :
  ht_size t = Z.of_nat n ->
  (forall j, (j < n)%nat -> is_Some (h_next m !! slot t (Z.of_nat j))) ->
  (forall m', htable_rep m' t (replicate n []) ->
     (forall p, ~ is_slot t n p -> h_next m' !! p = h_next m !! p) ->
     h_key m' = h_key m -> Q tt m') ->
  wp (_hs_htable_clear t) Q m.
Proof.
  intros Hsz Hs HQ. unfold _hs_htable_clear. rewrite Hsz, Nat2Z.id.
  apply (wp_htable_clear_from Q m t 0 n); [exact Hs|lia|].
  intros m' H1 H2 H3. apply HQ; [|done|done]. split.
  - by rewrite length_replicate.
  - apply rings_empty_nodup.
  - rewrite elem_of_concat. intros (i & x & [-> _]%lookup_replicate & Hp). set_solver.
  - intros i b [-> Hi]%lookup_replicate. by apply H1.
  - intros i b p [-> _]%lookup_replicate Hp. set_solver.
Qed.
End Init.

(** * The rules of the foreach macros *)

Section ForeachHashRule.
Context {S R : Type} `{Has hmem S}.
Variable table : M S _hs_htable.
Variable body : ptr -> M S (flow R).
Variables (t : _hs_htable) (k : Z).
Variable Inv : list ptr -> S -> Prop.
Variable Q : option R -> S -> Prop.

Let h : ptr := slot t (k mod ht_size t).

Hypothesis Inv_rest : forall todo s, Inv todo s -> rest (h_next (part s)) h todo.
(** Nodes of another key in the bucket are skipped. *)
Hypothesis body_ok : forall cur todo s,
  Inv (cur :: todo) s ->
  exists key, h_key (part s) !! cur = Some key /\
    (key <> k -> Inv todo s) /\
    (key = k -> wp (body cur) (fun r s' =>
       match r with
       | Next => Inv todo s'
       | Break => Q None s'
       | Return r => Q (Some r) s'
       end) s).
Hypothesis Inv_done : forall s, Inv [] s -> Q None s.

Lemma wp_htable_foreach_hash fuel s bs b :
  table s = Done (t, s) -> htable_rep (part s) t bs -> 0 < ht_size t ->
  bs !! bucket_of t k = Some b -> Inv b s -> (length b < fuel)%nat ->
  wp (hs_htable_foreach_hash table body k fuel) Q s.
Proof.
  intros Ht Hrep Hpos Hb HI Hf. unfold hs_htable_foreach_hash.
  wp_step. eapply wp_intro; [done|].
  assert (ht_size t <> 0) as ->%Z.eqb_neq by lia.
  wp_step. eapply wp_intro; [done|].
  wp_step. apply wp_zoom, wp_htable_get_head; [done|]. rewrite with_same. fold h.
  assert (Hh : h = slot t (Z.of_nat (bucket_of t k))).
  { destruct (bucket_lookup _ t bs k Hrep Hpos) as (? & _ & E). unfold h. by rewrite E. }
  pose proof (hr_ring _ _ _ Hrep _ _ Hb) as Hc. rewrite <- Hh in Hc.
  pose proof (chain_link _ _ [] _ _ Hc) as Hlink. simpl in Hlink.
  wp_step. apply wp_zoom. eapply wp_load_hnext; [done|]. rewrite with_same.
  assert (Hn : exists next, h_next (part s) !! hdp h b = Some next /\
                 (b <> [] -> next = hdp h (tail b))).
  { destruct (rest_next _ _ _ (Inv_rest _ _ HI)) as [E|[-> [v E]]]; eauto. }
  destruct Hn as (next & Hn & Hn').
  wp_step. apply wp_zoom. eapply wp_load_hnext; [done|]. rewrite with_same.
  wp_step. apply wp_ring_loop with (nx := fun s => h_next (part s)) (Inv := Inv);
    [|done|done| | |done|done|done].
  - intros p v s' Hp. unfold zoom, load_hnext. by rewrite Hp, with_same.
  - intros cur todo s' HI'. destruct (body_ok _ _ _ HI') as (key & Hkey & Hno & Hyes).
    wp_step. apply wp_zoom. eapply wp_load_hkey; [done|]. rewrite with_same.
    destruct (Z.eqb_spec key k) as [E|E].
    + eapply wp_mono; [by apply Hyes|]. intros [| |r] s'' HQ; exact HQ.
    + wp_step. by apply Hno.
  - intros s' HI'. by apply Inv_done.
Qed.
End ForeachHashRule.

Section ForeachRule.
Context {S R : Type} `{Has hmem S}.
Variable table : M S _hs_htable.
Variable body : ptr -> M S (flow R).
Variables (t : _hs_htable) (bs : list (list ptr)).
(** [Pre i s]: about to enter bucket [i]; [Inv i todo s]: inside it. *)
Variable Pre : nat -> S -> Prop.
Variable Inv : nat -> list ptr -> S -> Prop.
Variable Q : option R -> S -> Prop.

Hypothesis size_ok : ht_size t = Z.of_nat (length bs).
Hypothesis table_ok : forall i s, Pre i s -> table s = Done (t, s).
Hypothesis Pre_enter : forall i b s,
  Pre i s -> bs !! i = Some b ->
  h_next (part s) !! slot t (Z.of_nat i) = Some (hdp (slot t (Z.of_nat i)) b) /\
  Inv i b s.
Hypothesis Inv_rest : forall i todo s,
  Inv i todo s -> rest (h_next (part s)) (slot t (Z.of_nat i)) todo.
Hypothesis body_ok : forall i cur todo s,
  Inv i (cur :: todo) s ->
  wp (body cur) (fun r s' =>
    match r with
    | Next => Inv i todo s'
    | Break => Q None s'
    | Return r => Q (Some r) s'
    end) s.
Hypothesis Inv_leave : forall i s, Inv i [] s -> Pre (Datatypes.S i) s.
Hypothesis Pre_done : forall s, Pre (length bs) s -> Q None s.

Lemma slot_succ i : slot t (Z.of_nat i) + PTR_SIZE = slot t (Z.of_nat (Datatypes.S i)).
Proof. unfold slot. lia. Qed.

Lemma wp_htable_foreach_loop fuel i s :
  Pre i s -> (i <= length bs)%nat ->
  (length bs - i + length (concat (drop i bs)) < fuel)%nat ->
  wp (hs_htable_foreach_loop table body fuel
        (slot t (Z.of_nat i)) (slot t (Z.of_nat i))) Q s.
Proof.
  revert i s. induction fuel as [|fuel IH]; intros i s HP Hi Hf; [lia|].
  cbn [hs_htable_foreach_loop]. rewrite Z.eqb_refl. cbn [negb].
  wp_step. eapply wp_intro; [by eapply table_ok|].
  destruct (bs !! i) as [b|] eqn:Hb.
  - pose proof (lookup_lt_Some _ _ _ Hb) as Hlt.
    assert (slot t (Z.of_nat i) < slot t (ht_size t)) as ->%Z.ltb_lt.
    { rewrite size_ok. unfold slot, PTR_SIZE. lia. }
    destruct (Pre_enter _ _ _ HP Hb) as [Hlink HI].
    rewrite (drop_S _ _ _ Hb) in Hf. simpl in Hf. rewrite length_app in Hf.
    wp_step. apply wp_zoom. eapply wp_load_hnext; [done|]. rewrite with_same.
    set (h := slot t (Z.of_nat i)) in *.
    assert (Hn : exists next, h_next (part s) !! hdp h b = Some next /\
                   (b <> [] -> next = hdp h (tail b))).
    { destruct (rest_next _ _ _ (Inv_rest _ _ _ HI)) as [E|[-> [v E]]]; eauto. }
    destruct Hn as (next & Hn & Hn').
    wp_step. apply wp_zoom. eapply wp_load_hnext; [done|]. rewrite with_same.
    wp_step.
    apply wp_ring_loop with (nx := fun s => h_next (part s)) (h := h) (Inv := Inv i);
      [|by apply Inv_rest|done| | |done|lia|done].
    + intros p v s' Hp. unfold zoom, load_hnext. by rewrite Hp, with_same.
    + intros cur todo s' HI'. eapply wp_mono; [by apply body_ok|].
      destruct (Inv_rest _ _ _ HI') as [Hne _].
      intros [| |r] s'' HQ; [exact HQ| |exact HQ]. simpl. unfold PTR_SIZE.
      destruct fuel; [lia|]. cbn [hs_htable_foreach_loop].
      assert (cur + 8 <> h + 8) as ->%Z.eqb_neq; [|exact HQ].
      intros E. apply Hne. assert (cur = h) as -> by lia. left.
    + intros s' HI'. unfold h. rewrite slot_succ. apply IH; [by apply Inv_leave|lia|lia].
  - apply lookup_ge_None in Hb. assert (i = length bs) as -> by lia.
    rewrite size_ok, Z.ltb_irrefl. wp_step. by apply Pre_done.
Qed.

Lemma wp_htable_foreach fuel s :
  Pre 0 s -> (length bs + length (concat bs) < fuel)%nat ->
  wp (hs_htable_foreach table body fuel) Q s.
Proof.
  intros HP Hf. unfold hs_htable_foreach. wp_step. eapply wp_intro; [by eapply table_ok|].
  replace (ht_heads t) with (slot t (Z.of_nat 0)) by (unfold slot; lia).
  apply wp_htable_foreach_loop; [done|lia|]. rewrite drop_0. lia.
Qed.
End ForeachRule.

(** * Properties *)

(** The hash is the value of a polynomial at 101, modulo 2^32. *)
Definition codes (s : string) : list Z :=
  (fun c => Z.of_N (Ascii.N_of_ascii c)) <$> String.list_ascii_of_string s.
Fixpoint poly (cs : list Z) : Z :=
  match cs with
  | [] => 0
  | c :: cs => c * 101 ^ Z.of_nat (length cs) + poly cs
  end.

Lemma hash_str_from_poly h s : 0 <= h < 2 ^ 32 ->
  _hs_htable_hash_str_from h s =
  (h * 101 ^ Z.of_nat (length (codes s)) + poly (codes s)) mod 2 ^ 32.
Proof.
  revert h. induction s as [|c s IH]; intros h Hh.
  - cbn [_hs_htable_hash_str_from codes String.list_ascii_of_string fmap list_fmap length poly].
    rewrite Z.mul_1_r, Z.add_0_r, Z.mod_small; done.
  - cbn [_hs_htable_hash_str_from].
    change (codes (String c s)) with (Z.of_N (Ascii.N_of_ascii c) :: codes s).
    cbn [length poly]. rewrite IH by apply u32_bound. unfold _hs_htable_hash_step, u32.
    rewrite Nat2Z.inj_succ, Z.pow_succ_r by lia.
    rewrite Z.add_mod, Z.mul_mod_idemp_l, <- Z.add_mod by lia. f_equal. ring.
Qed.

(** C39: [_hs_htable_hash_str] is Horner's evaluation at 101 of the bytes of the
    key (as unsigned chars), modulo 2^32, and stays in the range of a
    [uint32_t]. *)
Theorem hash_str_polynomial s :
  _hs_htable_hash_str s = poly (codes s) mod 2 ^ 32 /\
  0 <= _hs_htable_hash_str s < 2 ^ 32.
Proof.
  unfold _hs_htable_hash_str. rewrite hash_str_from_poly by lia. cbn [Z.mul].
  rewrite Z.add_0_l. split; [done|]. by apply Z.mod_pos_bound.
Qed.

(** The operations of htable.c on a table. *)
Inductive htable_op :=
  | HtAdd (key : Z) (n : ptr)
  | HtInsert (prev n : ptr)
  | HtRemove (n : ptr).

Definition htable_exec (fuel : nat) (t : _hs_htable) (o : htable_op) : M hmem unit :=
  match o with
  | HtAdd key n => _hs_htable_add t key n
  | HtInsert prev n => _hs_htable_insert prev n
  | HtRemove n => _hs_htable_remove fuel n
  end.

(** The same operations on the buckets. *)
Inductive buckets_step (t : _hs_htable) :
    list (list ptr) -> htable_op -> list (list ptr) -> Prop :=
  | B_add bs key n b :
      bs !! bucket_of t key = Some b ->
      buckets_step t bs (HtAdd key n) (<[bucket_of t key := n :: b]> bs)
  | B_insert bs i b1 prev b2 n :
      bs !! i = Some (b1 ++ prev :: b2) ->
      buckets_step t bs (HtInsert prev n) (<[i := b1 ++ prev :: n :: b2]> bs)
  | B_remove bs i b1 n b2 :
      bs !! i = Some (b1 ++ n :: b2) ->
      buckets_step t bs (HtRemove n) (<[i := b1 ++ b2]> bs).

Definition htable_ready (m : hmem) (t : _hs_htable) (bs : list (list ptr)) (o : htable_op)
    : Prop :=
  match o with
  | HtAdd key n => 0 <= key < 2 ^ 32 /\ hnode m n /\ n <> NULL /\ (n ∉ concat (rings t bs))
  | HtInsert prev n => hnode m n /\ n <> NULL /\ (n ∉ concat (rings t bs))
  | HtRemove n => True
  end.

(** C27: the operations of htable.c are the operations on buckets. Adding under
    a key puts the node in front of the bucket [key % size]; inserting puts it
    after a node, in the bucket of that node; removing unlinks it, given fuel
    for its ring. All return without fault and leave well-formed rings in
    which every node is in the bucket of its key. *)
Theorem htable_ops_refine m t bs o bs' fuel :
  htable_rep m t bs -> 0 < ht_size t -> htable_ready m t bs o ->
  buckets_step t bs o bs' -> (length (concat bs) + 1 < fuel)%nat ->
  exists m', htable_exec fuel t o m = Done (tt, m') /\ htable_rep m' t bs'.
Proof.
  intros Hr Hsz Hready Hstep Hf.
  assert (wp (htable_exec fuel t o) (fun _ m' => htable_rep m' t bs') m)
    as ([] & m' & E & H)%wp_inv; [|eauto].
  destruct Hstep as [bs key n b Hb|bs i b1 prev b2 n Hb|bs i b1 n b2 Hb]; cbn in *.
  - destruct Hready as (Hk & Hn & Hnn & Hni).
    eapply wp_htable_add; [exact Hr|done|done|exact Hb|done|done|done|]. done.
  - destruct Hready as (Hn & Hnn & Hni).
    destruct (hr_key _ _ _ Hr _ _ prev Hb) as (k & Hk & _); [set_solver|].
    eapply wp_htable_insert; [exact Hr|exact Hb|exact Hk|done|done|done|]. done.
  - eapply wp_htable_remove; [exact Hr|exact Hb| |done].
    rewrite (concat_middle _ _ _ Hb), !length_app in Hf. cbn in Hf. lia.
Qed.

(** An empty table of two buckets, and a free node at 32. *)
Definition two_buckets : hmem :=
  HMem {[8 := 8; 16 := 16; 32 := 0]} {[32 := 0]}.

Lemma two_buckets_rep : htable_rep two_buckets (Htable 2 8) [[]; []].
Proof.
  split.
  - done.
  - apply (bool_decide_unpack _). by vm_compute.
  - set_solver.
  - intros [|[|i]] b H; cbn in H; simplify_eq; reflexivity.
  - intros [|[|i]] b n H; cbn in H; simplify_eq; set_solver.
Qed.

Lemma htable_ops_refine_witness :
  exists m', htable_exec 3 (Htable 2 8) (HtAdd 5 32) two_buckets = Done (tt, m') /\
    htable_rep m' (Htable 2 8) [[]; [32]].
Proof.
  apply (htable_ops_refine two_buckets (Htable 2 8) [[]; []] (HtAdd 5 32) [[]; [32]] 3).
  - exact two_buckets_rep.
  - reflexivity.
  - split; [lia|]. split; [split; vm_compute; eexists; reflexivity|].
    split; [discriminate|]. apply (bool_decide_unpack _). vm_compute. reflexivity.
  - apply (B_add (Htable 2 8) [[]; []] 5 32 []). reflexivity.
  - apply Nat.ltb_lt. reflexivity.
Defined.

(** A state that records the nodes visited. *)
#[local] Instance Has_left {A B : Type} : Has A (A * B).
Proof. refine {| part := fst; with_part := fun a s => (a, s.2) |}; by try intros []. Defined.

Definition record (stop : ptr -> bool) (p : ptr) : M (hmem * list ptr) (flow unit) :=
  modify (fun s => (s.1, s.2 ++ [p])) ;;;
  ret (if stop p then Break else Next).

(** The elements up to the first that satisfies [stop], included. *)
Fixpoint until (stop : ptr -> bool) (l : list ptr) : list ptr :=
  match l with
  | [] => []
  | x :: l => x :: (if stop x then [] else until stop l)
  end.

Lemma until_app stop l1 l2 : existsb stop l1 = false ->
  until stop (l1 ++ l2) = l1 ++ until stop l2.
Proof.
  induction l1 as [|x l1 IH]; simpl; [done|].
  intros [-> H]%orb_false_iff. by rewrite IH.
Qed.

(** [hs_htable_foreach] visits every node of the table exactly once,
    bucket by bucket, and a [break] of its body ends the two nested loops: the
    nodes visited are those up to the first at which the body breaks. It
    terminates with fuel for the buckets and the nodes. *)
Theorem htable_foreach_visits m t bs stop fuel :
  htable_rep m t bs -> (length bs + length (concat bs) < fuel)%nat ->
  hs_htable_foreach (ret t) (record stop) fuel (m, []) =
    Done (None, (m, until stop (concat bs))).
Proof.
  intros Hr Hf. apply wp_eq.
  apply wp_htable_foreach with (t := t) (bs := bs)
    (Pre := fun i s => s.1 = m /\ existsb stop s.2 = false /\
              concat bs = s.2 ++ concat (drop i bs))
    (Inv := fun i todo s => s.1 = m /\ existsb stop s.2 = false /\
              concat bs = s.2 ++ todo ++ concat (drop (S i) bs) /\
              exists seen, bs !! i = Some (seen ++ todo)).
  - apply (hr_size _ _ _ Hr).
  - done.
  - intros i b [m' l] (Em & Hn & Hc) Hi. cbn in *. subst m'. split.
    + apply (chain_link _ _ [] _ _ (hr_ring _ _ _ Hr _ _ Hi)).
    + rewrite (in_bucket_rest _ _ _ Hi) in Hc. split_and!; try done. by exists [].
  - intros i todo [m' l] (Em & _ & _ & seen & Hi). cbn in *. subst m'. by eapply bucket_rest.
  - intros i p todo [m' l] (Em & Hn & Hc & seen & Hi). cbn in *. subst m'. unfold record.
    wp_steps. destruct (stop p) eqn:E; cbn.
    + split; [done|]. rewrite Hc, until_app by done. cbn. by rewrite E.
    + split_and!; try done.
      * by rewrite existsb_app, Hn; cbn; rewrite E.
      * by rewrite <- app_assoc.
      * exists (seen ++ [p]). by rewrite <- app_assoc.
  - intros i [m' l] (Em & Hn & Hc & _). cbn in *. subst m'. done.
  - intros [m' l] (Em & Hn & Hc). cbn in *. subst m'. split; [done|].
    rewrite drop_all, app_nil_r in Hc. subst l. f_equal.
    rewrite <- (app_nil_r (concat bs)) at 2. rewrite until_app by done. by rewrite app_nil_r.
  - by rewrite drop_0.
  - done.
Qed.

(** The node at 32 under the key 5. *)
Definition one_node : hmem :=
  HMem {[8 := 8; 16 := 32; 32 := 16]} {[32 := 5]}.

Lemma one_node_rep : htable_rep one_node (Htable 2 8) [[]; [32]].
Proof.
  split.
  - done.
  - apply (bool_decide_unpack _). by vm_compute.
  - set_solver.
  - intros [|[|i]] b H; cbn in H; simplify_eq; [reflexivity|by split].
  - intros [|[|i]] b n H Hn; cbn in H; simplify_eq; [set_solver|].
    apply list_elem_of_singleton in Hn as ->. exists 5. split; [done|]. by cbn.
Qed.

Lemma htable_foreach_visits_witness :
  hs_htable_foreach (ret (Htable 2 8)) (record (fun _ => false)) 4 (one_node, []) =
    Done (None, (one_node, [32])).
Proof.
  apply (htable_foreach_visits one_node (Htable 2 8) [[]; [32]] (fun _ => false) 4).
  - exact one_node_rep.
  - apply Nat.ltb_lt. reflexivity.
Defined.

Lemma filter_key_bucket m t bs k b :
  htable_rep m t bs -> bs !! bucket_of t k = Some b ->
  filter (fun n => h_key m !! n = Some k) (concat bs) =
  filter (fun n => h_key m !! n = Some k) b.
Proof.
  intros Hr Hb.
  assert (Hnil : forall cs, (forall n, n ∈ concat cs -> h_key m !! n <> Some k) ->
    filter (fun n => h_key m !! n = Some k) (concat cs) = []).
  { intros cs Hcs.
    destruct (filter _ (concat cs)) as [|n l] eqn:E; [done|]. exfalso.
    assert (n ∈ filter (fun n => h_key m !! n = Some k) (concat cs)) as Hn by (rewrite E; left).
    apply list_elem_of_filter in Hn as [H1 H2]. by apply (Hcs n). }
  rewrite (concat_middle _ _ _ Hb), !filter_app.
  rewrite (Hnil (take _ bs)), (Hnil (drop _ bs)); [by rewrite app_nil_r| |].
  - intros n (j & c & Hj & Hn)%elem_of_concat Hk. rewrite lookup_drop in Hj.
    pose proof (htable_key_bucket _ _ _ _ _ _ _ Hr Hj Hn Hk). lia.
  - intros n (j & c & Hj & Hn)%elem_of_concat Hk.
    apply lookup_take_Some in Hj as [Hj Hlt].
    pose proof (htable_key_bucket _ _ _ _ _ _ _ Hr Hj Hn Hk). lia.
Qed.

(** [hs_htable_foreach_hash] is a lookup: of all the nodes of the table it
    gives to its body exactly those stored under the key, each once, and it
    terminates with fuel for one bucket. *)
Theorem htable_foreach_hash_visits m t bs k fuel :
  htable_rep m t bs -> 0 < ht_size t -> (length (concat bs) < fuel)%nat ->
  hs_htable_foreach_hash (ret t) (record (fun _ => false)) k fuel (m, []) =
    Done (None, (m, filter (fun n => h_key m !! n = Some k) (concat bs))).
Proof.
  intros Hr Hsz Hf. apply wp_eq.
  destruct (bucket_lookup _ _ _ k Hr Hsz) as (b & Hb & Hbi).
  rewrite (filter_key_bucket _ _ _ _ _ Hr Hb).
  apply wp_htable_foreach_hash with (t := t) (bs := bs) (b := b)
    (Inv := fun todo s => s.1 = m /\ exists seen, b = seen ++ todo /\
              s.2 = filter (fun n => h_key m !! n = Some k) seen).
  - intros todo [m' l] (Em & seen & -> & _). cbn in *. subst m'. rewrite <- Hbi. by eapply bucket_rest.
  - intros p todo [m' l] (Em & seen & -> & E). cbn in *. subst m'. subst l.
    destruct (hr_key _ _ _ Hr _ _ p Hb) as (key & Hk & _); [set_solver|].
    exists key. split; [done|]. split.
    + intros Hne. split; [done|]. exists (seen ++ [p]). rewrite <- app_assoc. split; [done|].
      rewrite filter_app, filter_cons_False by congruence. by rewrite app_nil_r.
    + intros ->. unfold record. wp_steps. split; [done|]. exists (seen ++ [p]).
      rewrite <- app_assoc. split; [done|]. by rewrite filter_app, filter_cons_True.
  - intros [m' l] (Em & seen & -> & E). cbn in *. subst m'. by rewrite app_nil_r, E.
  - done.
  - done.
  - done.
  - done.
  - split; [done|]. by exists [].
  - rewrite (concat_middle _ _ _ Hb), !length_app in Hf. lia.
Qed.

Lemma htable_foreach_hash_visits_witness :
  hs_htable_foreach_hash (ret (Htable 2 8)) (record (fun _ => false)) 5 2 (one_node, []) =
    Done (None, (one_node, [32])).
Proof.
  apply (htable_foreach_hash_visits one_node (Htable 2 8) [[]; [32]] 5 2).
  - exact one_node_rep.
  - reflexivity.
  - apply Nat.ltb_lt. reflexivity.
Defined.
