(* ===== verification/State.v ===== *)
(** The objects the library allocates and the state of an execution:
    struct hs_device (src/src/device_priv.h), struct callback
    (src/src/monitor.c), the common part of struct hs_monitor
    (src/src/monitor_priv.h), and the memory that holds them.

    An object lives at an address; its scalar fields are one record, and the
    list and table nodes embedded in it are cells of the memories of DList and
    Htable at their offset. Freeing an object removes all of them, so that a
    later access is a [BadAccess]. *)

From S2P Require Import Prelude Common DList Htable.

Inductive hs_device_status :=
  | HS_DEVICE_STATUS_DISCONNECTED
  | HS_DEVICE_STATUS_ONLINE.

Inductive hs_device_type := HS_DEVICE_TYPE_HID | HS_DEVICE_TYPE_SERIAL.

#[global] Instance hs_device_status_eq_dec : EqDecision hs_device_status.
Proof. solve_decision. Defined.
#[global] Instance hs_device_type_eq_dec : EqDecision hs_device_type.
Proof. solve_decision. Defined.

(** The constant tables a device can point to. *)
Inductive vtable_id :=
  | _hs_no_vtable
  | _hs_posix_device_vtable
  | _hs_linux_hid_vtable
  | _hs_darwin_hid_vtable
  | _hs_win32_device_vtable.

#[global] Instance vtable_id_eq_dec : EqDecision vtable_id.
Proof. solve_decision. Defined.

(** struct hs_device, without the embedded [hnode]. A [char *] is [None] for
    NULL, or the string it points to. *)
Record hs_device := Device {
  dev_monitor : ptr;
  dev_refcount : Z;
  dev_key : option string;
  dev_type : hs_device_type;
  dev_vtable : vtable_id;
  dev_state : hs_device_status;
  dev_location : option string;
  dev_path : option string;
  dev_vid : Z;
  dev_pid : Z;
  dev_manufacturer : option string;
  dev_product : option string;
  dev_serial : option string;
  dev_iface : Z
}.

(** [calloc(1, sizeof(struct hs_device))]: HID and DISCONNECTED are 0. *)
Definition device_zero : hs_device :=
  Device NULL 0 None HS_DEVICE_TYPE_HID _hs_no_vtable HS_DEVICE_STATUS_DISCONNECTED
    None None 0 0 None None None 0.

Definition dev_with_monitor (m : ptr) (d : hs_device) : hs_device :=
  Device m (dev_refcount d) (dev_key d) (dev_type d) (dev_vtable d) (dev_state d)
    (dev_location d) (dev_path d) (dev_vid d) (dev_pid d) (dev_manufacturer d)
    (dev_product d) (dev_serial d) (dev_iface d).
Definition dev_with_refcount (r : Z) (d : hs_device) : hs_device :=
  Device (dev_monitor d) r (dev_key d) (dev_type d) (dev_vtable d) (dev_state d)
    (dev_location d) (dev_path d) (dev_vid d) (dev_pid d) (dev_manufacturer d)
    (dev_product d) (dev_serial d) (dev_iface d).
Definition dev_with_state (x : hs_device_status) (d : hs_device) : hs_device :=
  Device (dev_monitor d) (dev_refcount d) (dev_key d) (dev_type d) (dev_vtable d) x
    (dev_location d) (dev_path d) (dev_vid d) (dev_pid d) (dev_manufacturer d)
    (dev_product d) (dev_serial d) (dev_iface d).

Definition dev_with_key (x : option string) (d : hs_device) : hs_device :=
  Device (dev_monitor d) (dev_refcount d) x (dev_type d) (dev_vtable d)
    (dev_state d) (dev_location d) (dev_path d) (dev_vid d) (dev_pid d)
    (dev_manufacturer d) (dev_product d) (dev_serial d) (dev_iface d).
Definition dev_with_type (x : hs_device_type) (d : hs_device) : hs_device :=
  Device (dev_monitor d) (dev_refcount d) (dev_key d) x (dev_vtable d)
    (dev_state d) (dev_location d) (dev_path d) (dev_vid d) (dev_pid d)
    (dev_manufacturer d) (dev_product d) (dev_serial d) (dev_iface d).
Definition dev_with_vtable (x : vtable_id) (d : hs_device) : hs_device :=
  Device (dev_monitor d) (dev_refcount d) (dev_key d) (dev_type d) x
    (dev_state d) (dev_location d) (dev_path d) (dev_vid d) (dev_pid d)
    (dev_manufacturer d) (dev_product d) (dev_serial d) (dev_iface d).
Definition dev_with_location (x : option string) (d : hs_device) : hs_device :=
  Device (dev_monitor d) (dev_refcount d) (dev_key d) (dev_type d) (dev_vtable d)
    (dev_state d) x (dev_path d) (dev_vid d) (dev_pid d)
    (dev_manufacturer d) (dev_product d) (dev_serial d) (dev_iface d).
Definition dev_with_path (x : option string) (d : hs_device) : hs_device :=
  Device (dev_monitor d) (dev_refcount d) (dev_key d) (dev_type d) (dev_vtable d)
    (dev_state d) (dev_location d) x (dev_vid d) (dev_pid d)
    (dev_manufacturer d) (dev_product d) (dev_serial d) (dev_iface d).
Definition dev_with_vid (x : Z) (d : hs_device) : hs_device :=
  Device (dev_monitor d) (dev_refcount d) (dev_key d) (dev_type d) (dev_vtable d)
    (dev_state d) (dev_location d) (dev_path d) x (dev_pid d)
    (dev_manufacturer d) (dev_product d) (dev_serial d) (dev_iface d).
Definition dev_with_pid (x : Z) (d : hs_device) : hs_device :=
  Device (dev_monitor d) (dev_refcount d) (dev_key d) (dev_type d) (dev_vtable d)
    (dev_state d) (dev_location d) (dev_path d) (dev_vid d) x
    (dev_manufacturer d) (dev_product d) (dev_serial d) (dev_iface d).
Definition dev_with_manufacturer (x : option string) (d : hs_device) : hs_device :=
  Device (dev_monitor d) (dev_refcount d) (dev_key d) (dev_type d) (dev_vtable d)
    (dev_state d) (dev_location d) (dev_path d) (dev_vid d) (dev_pid d)
    x (dev_product d) (dev_serial d) (dev_iface d).
Definition dev_with_product (x : option string) (d : hs_device) : hs_device :=
  Device (dev_monitor d) (dev_refcount d) (dev_key d) (dev_type d) (dev_vtable d)
    (dev_state d) (dev_location d) (dev_path d) (dev_vid d) (dev_pid d)
    (dev_manufacturer d) x (dev_serial d) (dev_iface d).
Definition dev_with_serial (x : option string) (d : hs_device) : hs_device :=
  Device (dev_monitor d) (dev_refcount d) (dev_key d) (dev_type d) (dev_vtable d)
    (dev_state d) (dev_location d) (dev_path d) (dev_vid d) (dev_pid d)
    (dev_manufacturer d) (dev_product d) x (dev_iface d).
Definition dev_with_iface (x : Z) (d : hs_device) : hs_device :=
  Device (dev_monitor d) (dev_refcount d) (dev_key d) (dev_type d) (dev_vtable d)
    (dev_state d) (dev_location d) (dev_path d) (dev_vid d) (dev_pid d)
    (dev_manufacturer d) (dev_product d) (dev_serial d) x.

(** struct callback; its list node is its first field. *)
Record callback := Callback { cb_id : Z; cb_f : ptr; cb_udata : ptr }.

(** The fields of _HS_MONITOR; the list head [callbacks] is the first. *)
Record hs_monitor := Monitor { mon_callback_id : Z; mon_devices : _hs_htable }.

(** [offsetof(struct hs_device, hnode)] *)
Definition HNODE_OFFSET : Z := 8.
Definition hnode_of (dev : ptr) : ptr := dev + HNODE_OFFSET.
(** [_hs_container_of(p, hs_device, hnode)] *)
Definition device_of (p : ptr) : ptr := p - HNODE_OFFSET.

Lemma device_of_hnode dev : device_of (hnode_of dev) = dev.
Proof. unfold device_of, hnode_of. lia. Qed.
Lemma hnode_of_device p : hnode_of (device_of p) = p.
Proof. unfold device_of, hnode_of. lia. Qed.
Lemma hnode_of_inj d d' : hnode_of d = hnode_of d' -> d = d'.
Proof. unfold hnode_of. lia. Qed.

Record mem := Mem {
  m_lists : lmem;
  m_nodes : hmem;
  m_devs : gmap ptr hs_device;
  m_cbs : gmap ptr callback;
  m_mons : gmap ptr hs_monitor;
  (** static variables by name; an absent one is still zero *)
  m_statics : gmap string Z
}.

(** [st W]: the state of the library and a world [W], the rest of the process
    and the operating system. *)
Record st (W : Type) := St {
  s_world : W;
  s_common : common;
  s_mem : mem
}.
Arguments St {W}.
Arguments s_world {W}.
Arguments s_common {W}.
Arguments s_mem {W}.

#[export] Instance Has_lmem_mem : Has lmem mem.
Proof.
  refine {| part := m_lists;
            with_part := fun l m => Mem l (m_nodes m) (m_devs m) (m_cbs m) (m_mons m) (m_statics m) |};
    by try intros [].
Defined.
#[export] Instance Has_hmem_mem : Has hmem mem.
Proof.
  refine {| part := m_nodes;
            with_part := fun h m => Mem (m_lists m) h (m_devs m) (m_cbs m) (m_mons m) (m_statics m) |};
    by try intros [].
Defined.

Section St.
Context {W : Type}.

#[export] Instance Has_mem : Has mem (st W).
Proof.
  refine {| part := s_mem; with_part := fun m s => St (s_world s) (s_common s) m |};
    by try intros [].
Defined.
#[export] Instance Has_common : Has common (st W).
Proof.
  refine {| part := s_common; with_part := fun c s => St (s_world s) c (s_mem s) |};
    by try intros [].
Defined.
#[export] Instance Has_lmem : Has lmem (st W).
Proof.
  refine {| part := fun s => m_lists (s_mem s);
            with_part := fun l s => with_part (with_part l (s_mem s)) s |};
    by try intros [? ? []].
Defined.
#[export] Instance Has_hmem : Has hmem (st W).
Proof.
  refine {| part := fun s => m_nodes (s_mem s);
            with_part := fun h s => with_part (with_part h (s_mem s)) s |};
    by try intros [? ? []].
Defined.

Implicit Types (s : st W) (p : ptr).

(** Updates of one part of the memory. *)
Definition with_devs (f : gmap ptr hs_device -> gmap ptr hs_device) (s : st W) : st W :=
  St (s_world s) (s_common s)
    (Mem (m_lists (s_mem s)) (m_nodes (s_mem s)) (f (m_devs (s_mem s)))
       (m_cbs (s_mem s)) (m_mons (s_mem s)) (m_statics (s_mem s))).
Definition with_cbs (f : gmap ptr callback -> gmap ptr callback) (s : st W) : st W :=
  St (s_world s) (s_common s)
    (Mem (m_lists (s_mem s)) (m_nodes (s_mem s)) (m_devs (s_mem s))
       (f (m_cbs (s_mem s))) (m_mons (s_mem s)) (m_statics (s_mem s))).
Definition with_mons (f : gmap ptr hs_monitor -> gmap ptr hs_monitor) (s : st W) : st W :=
  St (s_world s) (s_common s)
    (Mem (m_lists (s_mem s)) (m_nodes (s_mem s)) (m_devs (s_mem s))
       (m_cbs (s_mem s)) (f (m_mons (s_mem s))) (m_statics (s_mem s))).
Definition with_statics (f : gmap string Z -> gmap string Z) (s : st W) : st W :=
  St (s_world s) (s_common s)
    (Mem (m_lists (s_mem s)) (m_nodes (s_mem s)) (m_devs (s_mem s))
       (m_cbs (s_mem s)) (m_mons (s_mem s)) (f (m_statics (s_mem s)))).
Definition with_world (f : W -> W) (s : st W) : st W :=
  St (f (s_world s)) (s_common s) (s_mem s).

(** Reading and writing a static variable. *)
Definition static (x : string) (s : st W) : Z := default 0 (m_statics (s_mem s) !! x).
Definition load_static (x : string) : M (st W) Z := fun s => Done (static x s, s).
Definition store_static (x : string) (v : Z) : M (st W) unit :=
  modify (with_statics <[x:=v]>).

Definition load_dev (p : ptr) : M (st W) hs_device :=
  fun s => match m_devs (s_mem s) !! p with
           | Some d => Done (d, s)
           | None => Fault BadAccess
           end.
Definition store_dev (p : ptr) (d : hs_device) : M (st W) unit :=
  fun s => match m_devs (s_mem s) !! p with
           | Some _ => Done (tt, with_devs <[p:=d]> s)
           | None => Fault BadAccess
           end.
Definition load_cb (p : ptr) : M (st W) callback :=
  fun s => match m_cbs (s_mem s) !! p with
           | Some c => Done (c, s)
           | None => Fault BadAccess
           end.
Definition load_mon (p : ptr) : M (st W) hs_monitor :=
  fun s => match m_mons (s_mem s) !! p with
           | Some c => Done (c, s)
           | None => Fault BadAccess
           end.
Definition store_mon (p : ptr) (c : hs_monitor) : M (st W) unit :=
  fun s => match m_mons (s_mem s) !! p with
           | Some _ => Done (tt, with_mons <[p:=c]> s)
           | None => Fault BadAccess
           end.

(** [calloc] of a device at [p] and [free] of the device at [p]. *)
Definition alloc_dev (p : ptr) : M (st W) unit :=
  modify (with_devs <[p:=device_zero]>) ;;;
  zoom (hnode_alloc (hnode_of p)).
Definition free_dev (p : ptr) : M (st W) unit :=
  let* _ := load_dev p in
  modify (with_devs (delete p)) ;;;
  zoom (hnode_free (hnode_of p)).

(** [calloc] and [free] of a callback. *)
Definition alloc_cb (p : ptr) : M (st W) unit :=
  modify (with_cbs <[p:=Callback 0 NULL NULL]>) ;;;
  zoom (list_alloc p).
Definition store_cb (p : ptr) (c : callback) : M (st W) unit :=
  fun s => match m_cbs (s_mem s) !! p with
           | Some _ => Done (tt, with_cbs <[p:=c]> s)
           | None => Fault BadAccess
           end.
Definition free_cb (p : ptr) : M (st W) unit :=
  let* _ := load_cb p in
  modify (with_cbs (delete p)) ;;;
  zoom (list_free p).

Lemma wp_load_dev (Q : hs_device -> st W -> Prop) s p d :
  m_devs (s_mem s) !! p = Some d -> Q d s -> wp (load_dev p) Q s.
Proof. unfold wp, load_dev. by intros ->. Qed.
Lemma wp_store_dev (Q : unit -> st W -> Prop) s p d :
  is_Some (m_devs (s_mem s) !! p) -> Q tt (with_devs <[p:=d]> s) ->
  wp (store_dev p d) Q s.
Proof. unfold wp, store_dev. by intros [? ->]. Qed.
Lemma wp_load_cb (Q : callback -> st W -> Prop) s p c :
  m_cbs (s_mem s) !! p = Some c -> Q c s -> wp (load_cb p) Q s.
Proof. unfold wp, load_cb. by intros ->. Qed.
Lemma wp_store_cb (Q : unit -> st W -> Prop) s p c :
  is_Some (m_cbs (s_mem s) !! p) -> Q tt (with_cbs <[p:=c]> s) ->
  wp (store_cb p c) Q s.
Proof. unfold wp, store_cb. by intros [? ->]. Qed.
Lemma wp_load_mon (Q : hs_monitor -> st W -> Prop) s p c :
  m_mons (s_mem s) !! p = Some c -> Q c s -> wp (load_mon p) Q s.
Proof. unfold wp, load_mon. by intros ->. Qed.
Lemma wp_store_mon (Q : unit -> st W -> Prop) s p c :
  is_Some (m_mons (s_mem s) !! p) -> Q tt (with_mons <[p:=c]> s) ->
  wp (store_mon p c) Q s.
Proof. unfold wp, store_mon. by intros [? ->]. Qed.

Lemma free_dev_eq s p d : m_devs (s_mem s) !! p = Some d ->
  free_dev p s =
    Done (tt, with_part (HMem (delete (hnode_of p) (h_next (m_nodes (s_mem s))))
                           (delete (hnode_of p) (h_key (m_nodes (s_mem s)))))
                (with_devs (delete p) s)).
Proof. intros H. unfold free_dev, bind, load_dev. by rewrite H. Qed.

Lemma free_cb_eq s p c : m_cbs (s_mem s) !! p = Some c ->
  free_cb p s =
    Done (tt, with_part (LMem (delete p (l_prev (m_lists (s_mem s))))
                           (delete p (l_next (m_lists (s_mem s)))))
                (with_cbs (delete p) s)).
Proof. intros H. unfold free_cb, bind, load_cb. by rewrite H. Qed.
(** Nothing but static variables, the log and the last error differs. *)
Definition same_objects s s' : Prop :=
  m_devs (s_mem s') = m_devs (s_mem s) /\ m_lists (s_mem s') = m_lists (s_mem s) /\
  m_nodes (s_mem s') = m_nodes (s_mem s) /\ m_cbs (s_mem s') = m_cbs (s_mem s) /\
  m_mons (s_mem s') = m_mons (s_mem s).

Lemma same_objects_mem s s' : s_mem s' = s_mem s -> same_objects s s'.
Proof. intros E. unfold same_objects. by rewrite E. Qed.

Lemma same_objects_trans s1 s2 s3 : same_objects s1 s2 -> same_objects s2 s3 -> same_objects s1 s3.
Proof. unfold same_objects. intuition congruence. Qed.

End St.

(** A step at the level of the whole state. *)
Ltac wp_st :=
  repeat (first
    [ wp_step
    | eapply wp_load_dev; [solve [eauto]|]
    | eapply wp_load_cb; [solve [eauto]|]
    | eapply wp_load_mon; [solve [eauto]|]
    | apply wp_store_dev; [solve [eauto]|]
    | apply wp_store_cb; [solve [eauto]|]
    | apply wp_store_mon; [solve [eauto]|] ]; cbn beta).
