(* ===== verification/Posix.v ===== *)
(** The POSIX interface the library calls, as a class over the world [W]: each
    call is a function of the world to a result and a new world. The values of
    the constants of <poll.h> are fields of the class too. What a theorem
    relies on is a named hypothesis on these fields, stated with it. *)

From S2P Require Import Prelude Common DList Htable State.

(** The error codes the library tells apart. *)
Inductive errno :=
  | EINTR | EACCES | EIO | ENXIO | ENODEV | ENOENT | ENOTDIR | EBUSY | EAGAIN
  | ENOMEM | EOTHER (n : Z).

#[global] Instance errno_eq_dec : EqDecision errno.
Proof. solve_decision. Defined.

(** The result of a system call: its value, or -1 with [errno]. *)
Inductive sys (A : Type) := Ok (a : A) | Err (e : errno).
Arguments Ok {A} a.
Arguments Err {A} e.

Definition sysc (W A : Type) : Type := W -> A * W.

(** A call made by the library. *)
Definition os {W A} (c : sysc W A) : M (st W) A :=
  fun s => let '(a, w) := c (s_world s) in Done (a, with_world (fun _ => w) s).

Class Posix (W : Type) := {
  (** whether [malloc], [calloc] or [strdup] returns memory *)
  malloc_ok : sysc W bool;
  strerror : errno -> string;
  (** [clock_gettime]: seconds and nanoseconds, or an error *)
  clock_gettime : sysc W (sys (Z * Z));
  (** [poll] on pairs of a descriptor and events: the number of descriptors
      ready and the [revents] of each *)
  poll : list (Z * Z) -> Z -> sysc W (sys (Z * list Z));
  (** [open(path, O_RDWR | O_CLOEXEC | O_NOCTTY | O_NONBLOCK)] *)
  open : string -> sysc W (sys Z);
  close : Z -> sysc W unit;
  (** [read(fd, buf, size)]: the bytes read *)
  read : Z -> Z -> sysc W (sys (list Z));
  (** [write(fd, buf, size)] *)
  write : Z -> list Z -> sysc W (sys Z);
  usleep : Z -> sysc W unit;
  ioctl_TIOCSDTR : Z -> sysc W unit;
  (** the ioctls of <linux/hidraw.h>: HIDIOCGRDESCSIZE, HIDIOCGRDESC (the
      array of the descriptor), HIDIOCGFEATURE(len) on a buffer that starts
      with the given byte, HIDIOCSFEATURE *)
  ioctl_HIDIOCGRDESCSIZE : Z -> sysc W (sys Z);
  ioctl_HIDIOCGRDESC : Z -> Z -> sysc W (sys (list Z));
  ioctl_HIDIOCGFEATURE : Z -> list Z -> sysc W (sys (list Z));
  ioctl_HIDIOCSFEATURE : Z -> list Z -> sysc W (sys Z);
  (** the [release] field [uname] stores *)
  uname_release : W -> string;
  POLLIN : Z; POLLOUT : Z; POLLERR : Z; POLLHUP : Z; POLLNVAL : Z
}.

(** Signals are finitely many: [signals w] bounds the calls that will still be
    interrupted. *)
Record finite_signals {W} `{Posix W} (signals : W -> nat) : Prop := {
  fs_malloc : forall w r w', malloc_ok w = (r, w') -> (signals w' <= signals w)%nat;
  fs_clock : forall w r w', clock_gettime w = (r, w') -> (signals w' <= signals w)%nat;
  fs_usleep : forall n w r w', usleep n w = (r, w') -> (signals w' <= signals w)%nat;
  fs_poll : forall fds t w r w', poll fds t w = (r, w') ->
    (signals w' <= signals w)%nat /\ (r = Err EINTR -> (signals w' < signals w)%nat);
  fs_open : forall p w r w', open p w = (r, w') ->
    (signals w' <= signals w)%nat /\ (r = Err EINTR -> (signals w' < signals w)%nat);
  fs_write : forall fd b w r w', write fd b w = (r, w') ->
    (signals w' <= signals w)%nat /\ (r = Err EINTR -> (signals w' < signals w)%nat);
  fs_gfeature : forall fd b w r w', ioctl_HIDIOCGFEATURE fd b w = (r, w') ->
    (signals w' <= signals w)%nat /\ (r = Err EINTR -> (signals w' < signals w)%nat);
  fs_sfeature : forall fd b w r w', ioctl_HIDIOCSFEATURE fd b w = (r, w') ->
    (signals w' <= signals w)%nat /\ (r = Err EINTR -> (signals w' < signals w)%nat)
}.

Section Errors.
Context {W : Type}.

Definition error (err : Z) (msg : string) : M (st W) Z := zoom (hs_error err (Some msg)).
Definition memory_error : M (st W) Z := zoom (hs_error HS_ERROR_MEMORY None).

(** The state after an error. *)
Definition with_error (err : Z) (msg : option string) (s : st W) : st W :=
  with_part (errored err msg (s_common s)) s.

Lemma error_eq err msg (s : st W) :
  error err msg s = Done (err, with_error err (Some msg) s).
Proof. unfold error, zoom. by rewrite hs_error_errored. Qed.

Lemma memory_error_eq (s : st W) :
  memory_error s = Done (HS_ERROR_MEMORY, with_error HS_ERROR_MEMORY None s).
Proof. unfold memory_error, zoom. by rewrite hs_error_errored. Qed.

Lemma wp_error (Q : Z -> st W -> Prop) err msg s :
  Q err (with_error err (Some msg) s) -> wp (error err msg) Q s.
Proof. intros H. eapply wp_intro; [apply error_eq|done]. Qed.

Lemma wp_memory_error (Q : Z -> st W -> Prop) s :
  Q HS_ERROR_MEMORY (with_error HS_ERROR_MEMORY None s) -> wp memory_error Q s.
Proof. intros H. eapply wp_intro; [apply memory_error_eq|done]. Qed.

Lemma wp_os {A} (c : sysc W A) (Q : A -> st W -> Prop) s :
  (forall a w, c (s_world s) = (a, w) -> Q a (with_world (fun _ => w) s)) ->
  wp (os c) Q s.
Proof. intros H. unfold wp, os. destruct (c (s_world s)) eqn:E. by apply H. Qed.

(** [restart: r = call(...); if (r < 0 && errno == EINTR) goto restart;] *)
Fixpoint restart {A} (call : M (st W) (sys A)) (fuel : nat) : M (st W) (sys A) :=
  match fuel with
  | O => out_of_fuel
  | S fuel =>
      let* r := call in
      match r with
      | Err EINTR => restart call fuel
      | _ => ret r
      end
  end.

(** Signals are finitely many: [signals] bounds those still to come. The loop
    ends with the first result that is not EINTR. *)
Lemma wp_restart {A} (signals : W -> nat) (call : M (st W) (sys A))
    (I : st W -> Prop) (Q : sys A -> st W -> Prop) fuel s :
  (forall s, I s -> wp call (fun r s' =>
     match r with
     | Err EINTR => I s' /\ (signals (s_world s') < signals (s_world s))%nat
     | _ => Q r s'
     end) s) ->
  I s -> (signals (s_world s) < fuel)%nat -> wp (restart call fuel) Q s.
Proof.
  intros Hcall. revert s. induction fuel as [|fuel IH]; intros s HI Hf; [lia|].
  cbn [restart]. wp_step. eapply wp_mono; [by apply Hcall|].
  intros [a|e] s' H; [by wp_step|].
  destruct e; try (by wp_step). destruct H as [HI' Hlt]. apply IH; [done|lia].
Qed.
End Errors.

(** * A scripted system, for the witnesses *)

(** The results the next calls return, in order, and the calls made. *)
Inductive event :=
  | EvPoll (timeout : Z)
  | EvOpen (path : string)
  | EvClose (fd : Z)
  | EvRead (fd size : Z)
  | EvWrite (fd : Z) (bytes : list Z)
  | EvSleep (usec : Z)
  | EvIoctl (fd : Z).

Record script := Script {
  sc_malloc : list bool;
  sc_clock : list (Z * Z);
  sc_poll : list (sys (list Z));
  sc_open : list (sys Z);
  sc_read : list (sys (list Z));
  sc_write : list (sys Z);
  sc_feature : list (sys (list Z));
  sc_log : list event
}.

Definition quiet : script := Script [] [] [] [] [] [] [] [].

Definition log_event (e : event) (w : script) : script :=
  Script (sc_malloc w) (sc_clock w) (sc_poll w) (sc_open w) (sc_read w) (sc_write w)
    (sc_feature w) (sc_log w ++ [e]).

Definition pop_feature (w : script) : script :=
  Script (sc_malloc w) (sc_clock w) (sc_poll w) (sc_open w) (sc_read w) (sc_write w)
    (tail (sc_feature w)) (sc_log w).

(** The events the kernel reports: one entry per descriptor, restricted to the
    events asked for and the error conditions. *)
Definition report (fds : list (Z * Z)) (revents : list Z) : list Z :=
  zip_with (fun fd r => Z.land r (Z.lor fd.2 56)) fds (resize (length fds) 0 revents).

(** An infinite wait ends with every descriptor ready. *)
Definition deliver (fds : list (Z * Z)) (timeout : Z) (revents : list Z) : list Z :=
  let r := report fds revents in
  if (timeout <? 0) && forallb (fun x => x =? 0) r then fds.*2 else r.

Definition count_ready (revents : list Z) : Z :=
  Z.of_nat (length (filter (fun r => r <> 0) revents)).

(** An exhausted script: memory is available, time stands still, nothing is
    ready. *)
#[export] Instance script_posix : Posix script := {|
  malloc_ok w :=
    (default true (head (sc_malloc w)),
     Script (tail (sc_malloc w)) (sc_clock w) (sc_poll w) (sc_open w) (sc_read w)
       (sc_write w) (sc_feature w) (sc_log w));
  strerror _ := "error";
  clock_gettime w :=
    (Ok (default (0, 0) (head (sc_clock w))),
     Script (sc_malloc w) (tail (sc_clock w)) (sc_poll w) (sc_open w) (sc_read w)
       (sc_write w) (sc_feature w) (sc_log w));
  poll fds timeout w :=
    (match default (Ok []) (head (sc_poll w)) with
     | Ok revents => Ok (count_ready (deliver fds timeout revents), deliver fds timeout revents)
     | Err e => Err e
     end,
     log_event (EvPoll timeout)
       (Script (sc_malloc w) (sc_clock w) (tail (sc_poll w)) (sc_open w) (sc_read w)
          (sc_write w) (sc_feature w) (sc_log w)));
  open path w :=
    (default (Err ENOENT) (head (sc_open w)),
     log_event (EvOpen path)
       (Script (sc_malloc w) (sc_clock w) (sc_poll w) (tail (sc_open w)) (sc_read w)
          (sc_write w) (sc_feature w) (sc_log w)));
  close fd w := (tt, log_event (EvClose fd) w);
  read fd size w :=
    (match default (Err EAGAIN) (head (sc_read w)) with
     | Ok bytes => Ok (take (Z.to_nat size) bytes)
     | Err e => Err e
     end,
     log_event (EvRead fd size)
       (Script (sc_malloc w) (sc_clock w) (sc_poll w) (sc_open w) (tail (sc_read w))
          (sc_write w) (sc_feature w) (sc_log w)));
  write fd bytes w :=
    (default (Ok (Z.of_nat (length bytes))) (head (sc_write w)),
     log_event (EvWrite fd bytes)
       (Script (sc_malloc w) (sc_clock w) (sc_poll w) (sc_open w) (sc_read w)
          (tail (sc_write w)) (sc_feature w) (sc_log w)));
  usleep usec w := (tt, log_event (EvSleep usec) w);
  ioctl_TIOCSDTR fd w := (tt, log_event (EvIoctl fd) w);
  ioctl_HIDIOCGRDESCSIZE fd w :=
    (match default (Err EIO) (head (sc_feature w)) with
     | Ok bytes => Ok (Z.of_nat (length bytes))
     | Err e => Err e
     end, log_event (EvIoctl fd) w);
  ioctl_HIDIOCGRDESC fd size w :=
    (match default (Err EIO) (head (sc_feature w)) with
     | Ok bytes => Ok (resize 4096 0 bytes)
     | Err e => Err e
     end, pop_feature (log_event (EvIoctl fd) w));
  ioctl_HIDIOCGFEATURE fd buf w :=
    (match default (Err EIO) (head (sc_feature w)) with
     | Ok bytes => Ok (take (length buf) bytes)
     | Err e => Err e
     end, pop_feature (log_event (EvIoctl fd) w));
  ioctl_HIDIOCSFEATURE fd buf w :=
    (match default (Err EIO) (head (sc_feature w)) with
     | Ok bytes => Ok (Z.of_nat (length buf))
     | Err e => Err e
     end, pop_feature (log_event (EvIoctl fd) w));
  uname_release _ := "4.2.1-generic";
  POLLIN := 1; POLLOUT := 4; POLLERR := 8; POLLHUP := 16; POLLNVAL := 32
|}.

(** A process with a script and no object. *)
Definition scripted (w : script) : st script :=
  St w (common_init false) (Mem (LMem ∅ ∅) (HMem ∅ ∅) ∅ ∅ ∅ ∅).

(** The calls a script can still interrupt. *)
Definition script_signals (w : script) : nat :=
  length (sc_poll w) + length (sc_open w) + length (sc_write w) + length (sc_feature w).

Lemma script_finite_signals : finite_signals script_signals.
Proof.
  unfold script_signals. split.
  - intros w r w' E. cbn in E. injection E as <- <-. cbn. lia.
  - intros w r w' E. cbn in E. injection E as <- <-. cbn. lia.
  - intros n w r w' E. cbn in E. injection E as <- <-. cbn. lia.
  - intros fds t w r w' E. cbn in E. injection E as <- <-. cbn.
    destruct (sc_poll w) as [|[] ?]; cbn; split; (lia || discriminate || (intros; lia)).
  - intros p w r w' E. cbn in E. injection E as <- <-. cbn.
    destruct (sc_open w) as [|[] ?]; cbn; split; (lia || discriminate || (intros; lia)).
  - intros fd b w r w' E. cbn in E. injection E as <- <-. cbn.
    destruct (sc_write w) as [|[] ?]; cbn; split; (lia || discriminate || (intros; lia)).
  - intros fd b w r w' E. cbn in E. injection E as <- <-. cbn.
    destruct (sc_feature w) as [|[|[]] ?]; cbn; split; (lia || discriminate || (intros; lia)).
  - intros fd b w r w' E. cbn in E. injection E as <- <-. cbn.
    destruct (sc_feature w) as [|[|[]] ?]; cbn; split; (lia || discriminate || (intros; lia)).
Qed.
