(* ===== verification/Platform.v ===== *)
(** Time, timeouts, descriptor sets and polling: src/src/platform.c,
    src/src/platform_posix.c and src/src/platform_darwin.c. *)

From Stdlib Require Import Ascii.
From S2P Require Import Prelude Cstring Common State Posix.

(** * Arrays *)

(** Reading and writing [l[i]], undefined out of range. *)
Definition arr_get {S A} (l : list A) (i : Z) : M S A :=
  if i <? 0 then fail OutOfBounds
  else match l !! Z.to_nat i with
       | Some a => ret a
       | None => fail OutOfBounds
       end.
Definition arr_set {S A} (l : list A) (i : Z) (a : A) : M S (list A) :=
  if (0 <=? i) && (i <? Z.of_nat (length l)) then ret (<[Z.to_nat i := a]> l)
  else fail OutOfBounds.

Lemma arr_get_eq {S A} (l : list A) (i : nat) a (s : S) :
  l !! i = Some a -> arr_get l (Z.of_nat i) s = Done (a, s).
Proof.
  intros H. unfold arr_get. rewrite (proj2 (Z.ltb_ge _ _)) by apply Nat2Z.is_nonneg.
  by rewrite Nat2Z.id, H.
Qed.

Lemma arr_set_eq {S A} (l : list A) (i : nat) a (s : S) :
  (i < length l)%nat -> arr_set l (Z.of_nat i) a s = Done (<[i := a]> l, s).
Proof.
  intros H. unfold arr_set. rewrite (proj2 (Z.leb_le _ _)) by apply Nat2Z.is_nonneg.
  rewrite (proj2 (Z.ltb_lt _ _)) by lia.
  by rewrite Nat2Z.id.
Qed.

Lemma arr_setZ_eq {S A} (l : list A) (i : Z) a (s : S) :
  0 <= i < Z.of_nat (length l) -> arr_set l i a s = Done (<[Z.to_nat i := a]> l, s).
Proof. intros Hi. rewrite <- arr_set_eq by lia. by rewrite Z2Nat.id by lia. Qed.

(** * platform.c *)

Section Timeout.
Context {S : Type}.
(** [hs_millis] of the platform. *)
Variable hs_millis : M S Z.

Definition hs_adjust_timeout (timeout start : Z) : M S Z :=
if timeout <? 0 then ret (-1)
else
  let* now := hs_millis in
  if u64 (start + u64 timeout) <? now then ret 0
  else ret (i32 (u64 (u64 (start + u64 timeout) - now))).
End Timeout.

(** struct hs_descriptor_set *)
Record hs_descriptor_set := DescSet {
  ds_count : Z;
  ds_desc : list Z;
  ds_id : list Z
}.

(** [_HS_COUNTOF(set->desc)] *)
Definition DESC_MAX : Z := 64.

Definition hs_descriptor_set_clear : M hs_descriptor_set unit :=
  modify (fun set => DescSet 0 (ds_desc set) (ds_id set)).

(** [win32] is the build with [_WIN32] defined. *)
Definition hs_descriptor_set_add (win32 : bool) (desc id : Z) : M hs_descriptor_set unit :=
  let* set := get in
  assert_ (ds_count set <? DESC_MAX) ;;;
  assert_ (if win32 then negb (desc =? 0) else 0 <=? desc) ;;;
  let* descs := arr_set (ds_desc set) (ds_count set) desc in
  let* ids := arr_set (ds_id set) (ds_count set) id in
  put (DescSet (u32 (ds_count set + 1)) descs ids).

(** The loop over [i], with [n] iterations left. *)
Fixpoint hs_descriptor_set_remove_loop (id i count : Z) (n : nat)
    : M hs_descriptor_set Z :=
  match n with
  | O => ret count
  | S n =>
      let* set := get in
      let* id_i := arr_get (ds_id set) i in
      if negb (id_i =? id) then
        let* desc_i := arr_get (ds_desc set) i in
        let* descs := arr_set (ds_desc set) count desc_i in
        let* ids := arr_set (ds_id set) count id_i in
        put (DescSet (ds_count set) descs ids) ;;;
        hs_descriptor_set_remove_loop id (i + 1) (u32 (count + 1)) n
      else hs_descriptor_set_remove_loop id (i + 1) count n
  end.

Definition hs_descriptor_set_remove (id : Z) : M hs_descriptor_set unit :=
  let* set := get in
  let* count := hs_descriptor_set_remove_loop id 0 0 (Z.to_nat (ds_count set)) in
  let* set := get in
  put (DescSet count (ds_desc set) (ds_id set)).

(** * platform_posix.c *)

Section PosixPlatform.
Context {W : Type} `{Posix W}.
Variable fuel : nat.

Definition hs_millis : M (st W) Z :=
let* r := os clock_gettime in
match r with
| Err _ => fail AssertFailed
| Ok (tv_sec, tv_nsec) =>
    ret (u64 (u64 (u64 tv_sec * 1000) + u64 tv_nsec / 10000000))
end.

(** [r = poll(pfd, n, hs_adjust_timeout(timeout, start))] with its restart. *)
Definition poll_wait (pfd : list (Z * Z)) (timeout start : Z)
  : M (st W) (sys (Z * list Z)) :=
restart (let* t := hs_adjust_timeout hs_millis timeout start in
         os (poll pfd t)) fuel.

(** The loop that fills [pfd], from [i] with [n] iterations left. *)
Fixpoint poll_fill (set : hs_descriptor_set) (i : Z) (n : nat) : M (st W) (list (Z * Z)) :=
match n with
| O => ret []
| S n =>
    let* desc := arr_get (ds_desc set) i in
    let* pfd := poll_fill set (i + 1) n in
    ret ((desc, POLLIN) :: pfd)
end.

Definition POLL_READY : Z :=
Z.lor (Z.lor POLLIN POLLERR) (Z.lor POLLHUP POLLNVAL).

(** The loop that looks for the first ready descriptor; the [assert(false)]
  after it is reached when there is none. *)
Fixpoint poll_scan (set : hs_descriptor_set) (revents : list Z) (i : Z) (n : nat)
  : M (st W) Z :=
match n with
| O => fail AssertFailed
| S n =>
    let* r := arr_get revents i in
    if negb (Z.land r POLL_READY =? 0) then arr_get (ds_id set) i
    else poll_scan set revents (i + 1) n
end.

Definition hs_poll (set : hs_descriptor_set) (timeout : Z) : M (st W) Z :=
assert_ (negb (ds_count set =? 0)) ;;;
assert_ (ds_count set <=? 64) ;;;
let* pfd := poll_fill set 0 (Z.to_nat (ds_count set)) in
let timeout := if timeout <? 0 then -1 else timeout in
let* start := hs_millis in
let* r := poll_wait pfd timeout start in
match r with
| Err e => error HS_ERROR_SYSTEM ("poll() failed: " +:+ strerror e)
| Ok (r, revents) =>
    if r =? 0 then ret 0
    else poll_scan set revents 0 (Z.to_nat (ds_count set))
end.
End PosixPlatform.

(** * Versions *)

Section Versions.
Context {W : Type} `{Posix W}.

(** The variables [sscanf] does not reach keep their value 0. *)
Definition field (l : list Z) (i : nat) : Z := default 0 (l !! i).

Definition hs_linux_version : M (st W) Z :=
  let* version := load_static "version" in
  if negb (version =? 0) then ret version
  else
    let* s := get in
    let l := sscanf_u 4 (uname_release (s_world s)) in
    let '(major, minor, release, patch) := (field l 0, field l 1, field l 2, field l 3) in
    let '(release, patch) := if 3 <=? major then (0, release) else (release, patch) in
    let version :=
      u32 (u32 (u32 (u32 (major * 10000000) + u32 (minor * 100000))
                + u32 (release * 1000)) + patch) in
    store_static "version" version ;;;
    ret version.

(** platform_darwin.c *)
Definition hs_darwin_version : M (st W) Z :=
  let* version := load_static "version" in
  if negb (version =? 0) then ret version
  else
    let* s := get in
    let l := sscanf_u 3 (uname_release (s_world s)) in
    let '(major, minor, release) := (field l 0, field l 1, field l 2) in
    let version := u32 (u32 (u32 (major * 10000) + u32 (minor * 100)) + release) in
    store_static "version" version ;;;
    ret version.
End Versions.

(** * Specification *)

(** The elements of a descriptor set. *)
Definition elems (set : hs_descriptor_set) : list (Z * Z) :=
  zip (take (Z.to_nat (ds_count set)) (ds_desc set))
      (take (Z.to_nat (ds_count set)) (ds_id set)).

Definition ds_ok (set : hs_descriptor_set) : Prop :=
  0 <= ds_count set <= DESC_MAX /\
  length (ds_desc set) = 64%nat /\ length (ds_id set) = 64%nat.

Lemma elems_lookup set (i : nat) : ds_ok set ->
  (Z.of_nat i < ds_count set) ->
  exists desc id, ds_desc set !! i = Some desc /\ ds_id set !! i = Some id /\
    elems set !! i = Some (desc, id).
Proof.
  intros (Hc & Hd & Hi) Hlt. unfold DESC_MAX in *.
  destruct (lookup_lt_is_Some_2 (ds_desc set) i) as [desc E1]; [lia|].
  destruct (lookup_lt_is_Some_2 (ds_id set) i) as [id E2]; [lia|].
  exists desc, id. split; [done|split; [done|]]. unfold elems.
  apply lookup_zip_Some. cbn. by rewrite !lookup_take_lt by lia.
Qed.

Lemma elems_length set : ds_ok set -> length (elems set) = Z.to_nat (ds_count set).
Proof.
  intros (Hc & Hd & Hi). unfold elems, DESC_MAX in *.
  rewrite length_zip_with, !length_take. lia.
Qed.

Lemma elems_app set desc id : ds_ok set -> ds_count set < DESC_MAX ->
  let set' := DescSet (ds_count set + 1)
    (<[Z.to_nat (ds_count set) := desc]> (ds_desc set))
    (<[Z.to_nat (ds_count set) := id]> (ds_id set)) in
  ds_ok set' /\ elems set' = elems set ++ [(desc, id)].
Proof.
  intros (Hc & Hd & Hi) Hlt. unfold DESC_MAX in *. cbn zeta. split.
  - unfold ds_ok, DESC_MAX. cbn. rewrite !length_insert. lia.
  - unfold elems. cbn. replace (Z.to_nat (ds_count set + 1)) with (S (Z.to_nat (ds_count set))) by lia.
    rewrite !(take_S_r _ _ desc), !(take_S_r _ _ id) by (apply list_lookup_insert_eq; lia).
    rewrite !take_insert_ge by lia. rewrite zip_with_app; [done|].
    rewrite !length_take. lia.
Qed.

(** The first [k] entries. *)
Definition prefix (k : nat) (set : hs_descriptor_set) : list (Z * Z) :=
  zip (take k (ds_desc set)) (take k (ds_id set)).

(** Storing an entry of the set at a position already read. *)
Lemma prefix_store set (c i : nat) desc id :
  ds_ok set -> (c <= i)%nat -> (Z.of_nat i < ds_count set) ->
  let set' := DescSet (ds_count set) (<[c := desc]> (ds_desc set)) (<[c := id]> (ds_id set)) in
  ds_ok set' /\ prefix (S c) set' = prefix c set ++ [(desc, id)] /\
  drop (S i) (elems set') = drop (S i) (elems set).
Proof.
  intros (Hc & Hd & Hi) Hle Hlt. unfold DESC_MAX in *. cbn zeta. split; [|split].
  - unfold ds_ok, DESC_MAX. cbn. rewrite !length_insert. lia.
  - unfold prefix. cbn.
    rewrite !(take_S_r _ _ desc), !(take_S_r _ _ id) by (apply list_lookup_insert_eq; lia).
    rewrite !take_insert_ge by lia. rewrite zip_with_app; [done|].
    rewrite !length_take. lia.
  - unfold elems. cbn.
    apply list_eq. intros j. rewrite !lookup_drop.
    destruct (decide (S i + j < Z.to_nat (ds_count set))%nat) as [Hj|Hj].
    + apply option_eq. intros [x y]. rewrite !lookup_zip_Some. cbn.
      rewrite !lookup_take_lt, !list_lookup_insert_ne by lia. done.
    + rewrite !lookup_ge_None_2; [done| |];
        rewrite length_zip_with, !length_take, ?length_insert; lia.
Qed.

Section RemoveLoop.
Variable id : Z.

Lemma remove_loop_spec n (i c : nat) set :
  ds_ok set -> (c <= i)%nat -> (i + n = Z.to_nat (ds_count set))%nat ->
  exists set' (c' : nat),
    hs_descriptor_set_remove_loop id (Z.of_nat i) (Z.of_nat c) n set =
      Done (Z.of_nat c', set') /\
    ds_ok set' /\ ds_count set' = ds_count set /\ (c' <= i + n)%nat /\
    prefix c' set' = prefix c set ++ filter (fun e => e.2 <> id) (drop i (elems set)).
Proof.
  revert i c set. induction n as [|n IH]; intros i c set Hok Hci Hin.
  - exists set, c. cbn. split; [done|split; [done|split; [done|split; [lia|]]]].
    rewrite drop_ge by (rewrite elems_length by done; lia). by rewrite app_nil_r.
  - destruct (elems_lookup set i Hok) as (desc & id_i & Ed & Ei & Ee); [lia|].
    cbn [hs_descriptor_set_remove_loop]. unfold bind at 1, get.
    unfold bind at 1. rewrite (arr_get_eq _ _ _ _ Ei).
    rewrite (drop_S _ _ _ Ee). replace (Z.of_nat i + 1) with (Z.of_nat (S i)) by lia.
    pose proof Hok as (Hc & Hd & Hi). unfold DESC_MAX in Hc.
    destruct (Z.eqb_spec id_i id) as [E|E]; cbn [negb].
    + destruct (IH (S i) c set Hok) as (set' & c' & E1 & H1 & H2 & H3 & H4); [lia|lia|].
      exists set', c'. rewrite E1, filter_cons_False by (cbn; congruence).
      split; [done|split; [done|split; [done|split; [lia|done]]]].
    + unfold bind at 1. rewrite (arr_get_eq _ _ _ _ Ed).
      unfold bind at 1. rewrite arr_set_eq by lia.
      unfold bind at 1. rewrite arr_set_eq by lia. unfold bind at 1, put.
      destruct (prefix_store set c i desc id_i Hok Hci) as (Hok' & Hp & Hdr); [lia|].
      replace (u32 (Z.of_nat c + 1)) with (Z.of_nat (S c)) by (rewrite u32_small; lia).
      destruct (IH (S i) (S c) _ Hok') as (set' & c' & E1 & H1 & H2 & H3 & H4); [lia|cbn; lia|].
      exists set', c'. rewrite E1, H4, Hp, Hdr, filter_cons_True by done.
      rewrite <- app_assoc. split; [done|split; [done|split; [done|split; [lia|done]]]].
Qed.
End RemoveLoop.

(** * Properties *)

(** The descriptors a system has. *)
Definition desc_valid (win32 : bool) (desc : Z) : Prop := if win32 then desc <> 0 else 0 <= desc.

Lemma descriptor_set_added win32 set desc id : ds_ok set -> ds_count set < DESC_MAX -> desc_valid win32 desc ->
  exists set', hs_descriptor_set_add win32 desc id set = Done (tt, set') /\
    ds_ok set' /\ ds_count set' = ds_count set + 1 /\ elems set' = elems set ++ [(desc, id)].
Proof.
  intros Hok Hlt Hdesc. pose proof Hok as (Hc & Hd & Hi). unfold DESC_MAX, desc_valid in *.
  destruct (elems_app set desc id Hok) as [H1 H2]; [done|]. eexists. split_and!; [|exact H1|done|exact H2].
  unfold hs_descriptor_set_add, bind, get, assert_, DESC_MAX, put.
  rewrite (proj2 (Z.ltb_lt _ _) Hlt).
  replace (if win32 then negb (desc =? 0) else 0 <=? desc) with true by (symmetry; destruct win32; lia).
  unfold ret. rewrite !arr_setZ_eq by lia. by rewrite u32_small by lia.
Qed.

(** C40: a descriptor set is a list of at most 64 pairs of a descriptor and an
    identifier, and every operation keeps it one. Clearing empties it, adding
    appends a pair, and removing an identifier, compacting the two arrays in
    place, keeps exactly the pairs with another identifier, in order. Adding to a
    full set, or what is not a descriptor, is a failed [assert]. *)
Theorem descriptor_set_operations win32 set desc id :
  ds_ok set ->
  (exists set', hs_descriptor_set_clear set = Done (tt, set') /\
     ds_ok set' /\ elems set' = []) /\
  (ds_count set < DESC_MAX -> desc_valid win32 desc ->
   exists set', hs_descriptor_set_add win32 desc id set = Done (tt, set') /\
     ds_ok set' /\ elems set' = elems set ++ [(desc, id)]) /\
  (ds_count set = DESC_MAX \/ ~ desc_valid win32 desc ->
   hs_descriptor_set_add win32 desc id set = Fault AssertFailed) /\
  (exists set', hs_descriptor_set_remove id set = Done (tt, set') /\
     ds_ok set' /\ elems set' = filter (fun e => e.2 <> id) (elems set)).
Proof.
  intros Hok. pose proof Hok as (Hc & Hd & Hi). unfold DESC_MAX in *.
  split; [|split; [|split]].
  - eexists. split; [done|]. split; [|done]. unfold ds_ok, DESC_MAX. cbn. lia.
  - intros Hlt Hdesc. destruct (descriptor_set_added win32 set desc id Hok Hlt Hdesc) as (set' & E & ? & _ & ?).
    by exists set'.
  - unfold hs_descriptor_set_add, bind, get, assert_, DESC_MAX, desc_valid. intros [->|Hdesc]; [done|].
    destruct (ds_count set <? 64); [|done].
    by replace (if win32 then negb (desc =? 0) else 0 <=? desc) with false by (symmetry; destruct win32; lia).
  - destruct (remove_loop_spec id (Z.to_nat (ds_count set)) 0 0 set Hok)
      as (set' & c' & E & H1 & H2 & H3 & H4); [lia|lia|].
    exists (DescSet (Z.of_nat c') (ds_desc set') (ds_id set')). split; [|split].
    + unfold hs_descriptor_set_remove, bind, get, put. change 0 with (Z.of_nat 0).
      by rewrite E.
    + destruct H1 as (? & ? & ?). unfold ds_ok, DESC_MAX in *. cbn. lia.
    + unfold elems. cbn. rewrite Nat2Z.id. exact H4.
Qed.

Definition demo_set : hs_descriptor_set :=
  DescSet 3 ([5; 6; 7] ++ replicate 61 0) ([1; 2; 1] ++ replicate 61 0).

Lemma descriptor_set_operations_witness :
  ds_ok demo_set /\
  exists set', hs_descriptor_set_remove 1 demo_set = Done (tt, set') /\
    elems set' = [(6, 2)].
Proof.
  assert (ds_ok demo_set) as Hok by (split; [split; discriminate|split; reflexivity]).
  split; [exact Hok|].
  destruct (descriptor_set_operations false demo_set 8 1 Hok) as (_ & _ & _ & set' & E & _ & H).
  exists set'. split; [exact E|exact H].
Defined.

(** The time left. A negative timeout stays infinite (-1); otherwise the
    result is [start + timeout - now], never below 0, and when time does not
    run backwards it never exceeds the timeout. *)
Theorem adjust_timeout_correct {S} (millis : M S Z) (s s' : S) now timeout start :
  millis s = Done (now, s') -> 0 <= now < 2 ^ 63 -> 0 <= start < 2 ^ 63 ->
  timeout <= INT_MAX ->
  (timeout < 0 -> hs_adjust_timeout millis timeout start s = Done (-1, s)) /\
  (0 <= timeout -> start <= now ->
   hs_adjust_timeout millis timeout start s =
     Done (Z.max 0 (start + timeout - now), s') /\
   0 <= Z.max 0 (start + timeout - now) <= timeout).
Proof.
  intros E Hn Hs Ht. unfold INT_MAX in *. unfold hs_adjust_timeout. split.
  - intros H. by rewrite (proj2 (Z.ltb_lt _ _) H).
  - intros H0 Hle. rewrite (proj2 (Z.ltb_ge _ _) H0). unfold bind. rewrite E.
    rewrite (u64_small timeout), (u64_small (start + timeout)) by lia.
    destruct (Z.ltb_spec (start + timeout) now).
    + rewrite Z.max_l by lia. split; [done|lia].
    + rewrite u64_small, i32_small by lia. rewrite Z.max_r by lia. split; [done|lia].
Qed.

Lemma adjust_timeout_correct_witness :
  hs_adjust_timeout (S := unit) (ret 1040) 100 1000 tt = Done (60, tt).
Proof.
  apply (adjust_timeout_correct (S := unit) (ret 1040) tt tt 1040 100 1000);
    [reflexivity|split; [discriminate|reflexivity]|split; [discriminate|reflexivity]|
     discriminate|discriminate|discriminate].
Defined.

Section PollProperties.
Context {W : Type} `{Posix W}.

(** The documentation of [poll]: one [revents] per descriptor, and when the
    result is positive some descriptor asked for POLLIN is ready. *)
Definition poll_documented : Prop :=
  forall descs t w r revents w',
    poll ((fun d => (d, POLLIN)) <$> descs) t w = (Ok (r, revents), w') ->
    length revents = length descs /\
    (r <> 0 -> Exists (fun x => Z.land x POLL_READY <> 0) revents).

(** The clock always answers. *)
Definition clock_documented : Prop :=
  forall w, exists sec nsec w', clock_gettime w = (Ok (sec, nsec), w').
Lemma wp_millis (Q : Z -> st W -> Prop) s :
  clock_documented ->
  (forall sec nsec w, clock_gettime (s_world s) = (Ok (sec, nsec), w) ->
     Q (u64 (u64 (u64 sec * 1000) + u64 nsec / 10000000)) (with_world (fun _ => w) s)) ->
  wp hs_millis Q s.
Proof.
  intros Hc HQ. unfold hs_millis. wp_step. apply wp_os. intros r w E.
  destruct (Hc (s_world s)) as (sec & nsec & w' & E'). rewrite E in E'. simplify_eq.
  wp_step. by apply HQ.
Qed.

(** What the clock and [poll] keep of the system. *)
Record poll_keeps (R : W -> W -> Prop) : Prop := {
  pk_order :: PreOrder R;
  pk_clock : forall w, R w (clock_gettime w).2;
  pk_poll : forall fds t w, R w (poll fds t w).2
}.

(** The wait ends with the first result of [poll] that is not EINTR; only the
    world changes. A negative timeout is passed as -1. *)
Lemma wp_poll_wait (signals : W -> nat) (R : W -> W -> Prop) (Q : sys (Z * list Z) -> st W -> Prop)
    fuel pfd timeout start s :
  clock_documented -> finite_signals signals -> poll_keeps R -> (signals (s_world s) < fuel)%nat ->
  (forall r t w w', R (s_world s) w -> poll pfd t w = (r, w') -> r <> Err EINTR ->
     (timeout < 0 -> t = -1) -> Q r (with_world (fun _ => w') s)) ->
  wp (poll_wait fuel pfd timeout start) Q s.
Proof.
  intros Hc Hs HR Hf HQ. pose proof (pk_order _ HR). unfold poll_wait.
  apply (wp_restart signals) with (I := fun s' => exists w, R (s_world s) w /\ s' = with_world (fun _ => w) s);
    [|by exists (s_world s); destruct s|done].
  intros s' (w & Hw & ->). wp_step.
  assert (Htail : forall t w1, R (s_world s) w1 -> (signals w1 <= signals w)%nat -> (timeout < 0 -> t = -1) ->
    wp (os (poll pfd t)) (fun r s' =>
     match r with
     | Err EINTR => (exists w, R (s_world s) w /\ s' = with_world (fun _ => w) s) /\
         (signals (s_world s') < signals w)%nat
     | _ => Q r s'
     end) (with_world (fun _ => w1) s)).
  { intros t w1 HR1 Hle Ht. apply wp_os. intros r w2 E. cbn in E.
    destruct r as [a|[]]; try (by eapply HQ; [exact HR1|exact E|discriminate|done]).
    pose proof (pk_poll _ HR pfd t w1) as Hp. rewrite E in Hp. cbn in Hp.
    split; [exists w2; split; [by etrans|done]|]. cbn. apply (fs_poll _ Hs) in E as [_ E]. specialize (E eq_refl). lia. }
  unfold hs_adjust_timeout. destruct (Z.ltb_spec timeout 0).
  - wp_step. by apply Htail.
  - wp_step. apply wp_millis; [done|]. intros sec nsec w1 E. cbn in E.
    pose proof (pk_clock _ HR w) as Hc1. rewrite E in Hc1. cbn in Hc1.
    apply (fs_clock _ Hs) in E. case_match; wp_step; (apply Htail; [by etrans|done|lia]).
Qed.

(** The identifier of the first ready descriptor. *)
Fixpoint first_ready (set : list (Z * Z)) (revents : list Z) : option Z :=
  match set, revents with
  | (_, id) :: set, x :: revents =>
      if Z.land x POLL_READY =? 0 then first_ready set revents else Some id
  | _, _ => None
  end.

Lemma first_ready_exists (l : list (Z * Z)) revents : length revents = length l ->
  Exists (fun x => Z.land x POLL_READY <> 0) revents -> is_Some (first_ready l revents).
Proof.
  revert revents. induction l as [|[d id] l IH]; intros [|x xs] Hl Hex; try done.
  - by apply Exists_nil in Hex.
  - cbn. destruct (Z.eqb_spec (Z.land x POLL_READY) 0); [|done].
    apply IH; [cbn in Hl; lia|]. apply Exists_cons in Hex as [?|?]; done.
Qed.

Lemma poll_fill_eq set n (i : nat) (s : st W) : ds_ok set ->
  (i + n = Z.to_nat (ds_count set))%nat ->
  poll_fill set (Z.of_nat i) n s =
    Done ((fun d => (d, POLLIN)) <$> (drop i (elems set)).*1, s).
Proof.
  intros Hok. revert i. induction n as [|n IH]; intros i Hi.
  - cbn. by rewrite drop_ge by (rewrite elems_length by done; lia).
  - destruct (elems_lookup set i Hok) as (desc & id & Ed & _ & Ee); [lia|].
    cbn [poll_fill]. unfold bind at 1. rewrite (arr_get_eq _ _ _ _ Ed).
    unfold bind. replace (Z.of_nat i + 1) with (Z.of_nat (S i)) by lia.
    rewrite IH by lia. by rewrite (drop_S _ _ _ Ee).
Qed.

Lemma poll_scan_eq set revents n (i : nat) (s : st W) id : ds_ok set ->
  (i + n = Z.to_nat (ds_count set))%nat -> length revents = Z.to_nat (ds_count set) ->
  first_ready (drop i (elems set)) (drop i revents) = Some id ->
  poll_scan set revents (Z.of_nat i) n s = Done (id, s).
Proof.
  intros Hok. revert i. induction n as [|n IH]; intros i Hi Hl Hid.
  - rewrite drop_ge in Hid by (rewrite elems_length by done; lia). done.
  - destruct (elems_lookup set i Hok) as (desc & id_i & _ & Ei & Ee); [lia|].
    destruct (lookup_lt_is_Some_2 revents i) as [x Ex]; [lia|].
    rewrite (drop_S _ _ _ Ee), (drop_S _ _ _ Ex) in Hid. cbn [first_ready] in Hid.
    cbn [poll_scan]. unfold bind. rewrite (arr_get_eq _ _ _ _ Ex).
    destruct (Z.land x POLL_READY =? 0); cbn [negb].
    + replace (Z.of_nat i + 1) with (Z.of_nat (S i)) by lia. by apply IH; [lia| |].
    + injection Hid as <-. by apply arr_get_eq.
Qed.

(** What a wait of a program gives. *)
Definition polled set timeout s (R : W -> W -> Prop) (r : Z) s' : Prop :=
  exists res t w, poll ((fun d => (d, POLLIN)) <$> (elems set).*1) t w = (res, s_world s') /\
    R (s_world s) w /\ (timeout < 0 -> t = -1) /\ s_mem s' = s_mem s /\
    match res with
    | Err e => e <> EINTR /\ r = HS_ERROR_SYSTEM
    | Ok (n, revents) =>
        if n =? 0 then r = 0 else first_ready (elems set) revents = Some r
    end.

Lemma wp_hs_poll signals R fuel set timeout (s : st W) :
  poll_documented -> clock_documented -> finite_signals signals -> poll_keeps R ->
  (signals (s_world s) < fuel)%nat -> ds_ok set -> 0 < ds_count set ->
  wp (hs_poll fuel set timeout) (polled set timeout s R) s.
Proof.
  intros Hp Hc Hs HR Hf Hok Hpos. pose proof (pk_order _ HR).
  unfold hs_poll. pose proof Hok as (Hcnt & _ & _). unfold DESC_MAX in Hcnt.
  wp_step. apply wp_assert; [apply negb_true_iff, Z.eqb_neq; lia|].
  wp_step. apply wp_assert; [apply Z.leb_le; lia|].
  wp_step. eapply wp_intro; [apply (poll_fill_eq set _ 0); [done|lia]|]. rewrite drop_0.
  wp_step. apply wp_millis; [done|]. intros sec nsec w1 E1.
  pose proof (pk_clock _ HR (s_world s)) as Hc1. rewrite E1 in Hc1. cbn in Hc1.
  wp_step. eapply (wp_poll_wait signals R); [done|done|done| |].
  { cbn. apply (fs_clock _ Hs) in E1. lia. }
  intros res t w w' Hw E Hne Ht. assert (R (s_world s) w) as HRw by (etrans; [exact Hc1|exact Hw]).
  assert (timeout < 0 -> t = -1) as Ht'.
  { intros Hneg. apply Ht. by rewrite (proj2 (Z.ltb_lt _ _) Hneg). }
  destruct res as [[n revents]|e].
  - destruct (Hp _ _ _ _ _ _ E) as [Hl Hex]. rewrite length_fmap, elems_length in Hl by done.
    destruct (Z.eqb_spec n 0) as [E0|E0].
    + wp_step. exists (Ok (n, revents)), t, w. split_and!; [done..|]. by rewrite E0.
    + destruct (first_ready_exists (elems set) revents) as [id Hid];
        [by rewrite elems_length|by apply Hex|].
      eapply wp_intro; [apply (poll_scan_eq set revents _ 0 _ id); [done|lia|done|by rewrite !drop_0]|].
      exists (Ok (n, revents)), t, w. split_and!; [done..|]. by rewrite (proj2 (Z.eqb_neq _ _) E0).
  - apply wp_error. exists (Err e), t, w. split_and!; [done..|by intros ->|done].
Qed.
End PollProperties.

(** C33: [hs_poll] returns (interrupted calls are restarted, and the last
    [assert] is not reached), with the outcome of the first [poll] that was
    not interrupted: 0 for a timeout, [HS_ERROR_SYSTEM] for an error, and
    otherwise the identifier of the first ready descriptor of the set. *)
Theorem poll_returns_first_ready {W} `{Posix W} signals fuel set timeout (s : st W) :
  poll_documented -> clock_documented -> finite_signals signals ->
  (signals (s_world s) < fuel)%nat -> ds_ok set -> 0 < ds_count set ->
  exists res r s', hs_poll fuel set timeout s = Done (r, s') /\
    (exists t w w', poll ((fun d => (d, POLLIN)) <$> (elems set).*1) t w = (res, w') /\
       s_world s' = w' /\ (timeout < 0 -> t = -1)) /\
    s_mem s' = s_mem s /\
    match res with
    | Err e => e <> EINTR /\ r = HS_ERROR_SYSTEM
    | Ok (n, revents) =>
        if n =? 0 then r = 0 else first_ready (elems set) revents = Some r
    end.
Proof.
  intros Hp Hc Hs Hf Hok Hpos.
  assert (poll_keeps (fun _ _ : W => True)) as HR by by repeat split.
  destruct (wp_inv _ _ _ (wp_hs_poll signals _ fuel set timeout s Hp Hc Hs HR Hf Hok Hpos))
    as (r & s' & E & res & t & w & Ep & _ & Ht & Hm & Hr).
  exists res, r, s'. split_and!; [done|by exists t, w, (s_world s')|done|done].
Qed.

(** The script follows the documentation. *)
Lemma deliver_length fds t revents : length (deliver fds t revents) = length fds.
Proof.
  unfold deliver. case_match; [apply length_fmap|].
  unfold report. rewrite length_zip_with, length_resize. lia.
Qed.

Lemma deliver_events fds t revents x : x ∈ deliver fds t revents -> x <> 0 ->
  exists fd ev, (fd, ev) ∈ fds /\ Z.land x (Z.lor ev 56) = x.
Proof.
  unfold deliver. case_match; intros Hin Hx.
  - apply list_elem_of_fmap in Hin as ([fd ev] & -> & Hin). exists fd, ev. split; [done|].
    cbn. apply Z.bits_inj'. intros i Hi. rewrite Z.land_spec, Z.lor_spec.
    by destruct (Z.testbit ev i).
  - apply elem_of_lookup_zip_with in Hin as (i & [fd ev] & v & -> & Hi & _).
    exists fd, ev. split; [by eapply list_elem_of_lookup_2|]. cbn.
    by rewrite <- Z.land_assoc, Z.land_diag.
Qed.

Lemma script_poll_documented : poll_documented (W := script).
Proof.
  intros descs t w r revents w' E. cbn [poll script_posix] in E.
  set (fds := (fun d => (d, POLLIN)) <$> descs) in *.
  destruct (default (Ok []) (head (sc_poll w))) as [l|e]; [|done].
  injection E as <- <- <-. split.
  - rewrite deliver_length. apply length_fmap.
  - intros Hr. apply Exists_exists.
    destruct (filter (fun r => r <> 0) (deliver fds t l)) as [|x xs] eqn:Ef.
    { unfold count_ready in Hr. by rewrite Ef in Hr. }
    assert (x ∈ filter (fun r => r <> 0) (deliver fds t l)) as Hx by (rewrite Ef; left).
    apply list_elem_of_filter in Hx as [Hx Hin]. exists x. split; [done|].
    destruct (deliver_events _ _ _ _ Hin Hx) as (fd & ev & Hfd & Hland).
    unfold fds in Hfd. apply list_elem_of_fmap in Hfd as (d' & [= -> ->] & _).
    change (Z.land x 57 = x) in Hland. change (Z.land x 57 <> 0). by rewrite Hland.
Qed.

Lemma script_clock_documented : clock_documented (W := script).
Proof. intros w. cbn. destruct (default (0, 0) (head (sc_clock w))). eauto. Qed.

(** Interrupted once, then the second descriptor is readable. *)
Lemma poll_returns_first_ready_witness :
  exists res r s',
    hs_poll 5 demo_set 100
      (scripted (Script [] [] [Err EINTR; Ok [0; 1; 1]] [] [] [] [] [])) = Done (r, s') /\
    (exists t w w', poll ((fun d => (d, POLLIN)) <$> (elems demo_set).*1) t w = (res, w') /\
       s_world s' = w' /\ (100 < 0 -> t = -1)) /\
    s_mem s' = s_mem (scripted quiet) /\
    match res with
    | Err e => e <> EINTR /\ r = HS_ERROR_SYSTEM
    | Ok (n, revents) =>
        if n =? 0 then r = 0 else first_ready (elems demo_set) revents = Some r
    end.
Proof.
  apply (poll_returns_first_ready script_signals 5 demo_set 100
           (scripted (Script [] [] [Err EINTR; Ok [0; 1; 1]] [] [] [] [] []))).
  - exact script_poll_documented.
  - exact script_clock_documented.
  - exact script_finite_signals.
  - apply Nat.ltb_lt. reflexivity.
  - split; [split; discriminate|split; reflexivity].
  - reflexivity.
Defined.

(** The clock. [hs_millis] never runs backwards on a clock that does not,
    but its unit is not the millisecond below the second: nanoseconds are
    divided by 10^7, so the fraction of a second counts for 99 at most and the
    value is late on the true number of milliseconds by up to 900. *)
Theorem millis_value {W} `{Posix W} (s : st W) sec nsec w :
  clock_gettime (s_world s) = (Ok (sec, nsec), w) ->
  0 <= sec < 2 ^ 53 -> 0 <= nsec < 1000000000 ->
  exists v, hs_millis s = Done (v, with_world (fun _ => w) s) /\
    v = sec * 1000 + nsec / 10000000 /\
    (forall sec' nsec', 0 <= nsec' < 1000000000 ->
       sec' < sec \/ (sec' = sec /\ nsec' <= nsec) ->
       sec' * 1000 + nsec' / 10000000 <= v) /\
    (sec * 1000 + nsec / 1000000) - v = nsec / 1000000 - nsec / 10000000 /\
    (nsec = 999999999 -> (sec * 1000 + nsec / 1000000) - v = 900).
Proof.
  intros E Hs Hn. exists (sec * 1000 + nsec / 10000000).
  assert (0 <= nsec / 10000000 <= 99) as Hq by (split;
    [apply Z.div_pos; lia|apply Z.lt_succ_r, Z.div_lt_upper_bound; lia]).
  split; [|split; [done|split; [|split]]].
  - unfold hs_millis, bind, os. rewrite E. unfold ret.
    rewrite (u64_small sec), (u64_small nsec), (u64_small (sec * 1000)), u64_small by lia.
    done.
  - intros sec' nsec' Hn' Hle.
    assert (0 <= nsec' / 10000000 <= 99) as Hq'
      by (split; [apply Z.div_pos; lia|apply Z.lt_succ_r, Z.div_lt_upper_bound; lia]).
    destruct Hle as [?|[-> Hle]]; [lia|].
    pose proof (Z.div_le_mono nsec' nsec 10000000). lia.
  - lia.
  - intros ->. vm_compute (999999999 / 1000000). vm_compute (999999999 / 10000000). lia.
Qed.

Lemma millis_value_witness :
  exists v, hs_millis (scripted (Script [] [(7, 999999999)] [] [] [] [] [] [])) =
    Done (v, scripted quiet) /\ v = 7099.
Proof.
  destruct (millis_value (scripted (Script [] [(7, 999999999)] [] [] [] [] [] []))
              7 999999999 quiet) as (v & E & Hv & _).
  - reflexivity.
  - split; [discriminate|reflexivity].
  - split; [discriminate|reflexivity].
  - exists v. split; [exact E|exact Hv].
Defined.

(** A release that is not a fifth field: the text after the last number. *)
Definition release_tail (rest : string) : Prop :=
  starts_digit 10 rest = false /\ String.get 0 rest <> Some "."%char.

Definition dotted (l : list Z) (rest : string) : string :=
  match l with
  | [] => rest
  | v :: l => print_u v +:+ foldr (fun v s => String "."%char (print_u v +:+ s)) rest l
  end.

Lemma sscanf_dotted n l rest : (length l <= n)%nat -> l <> [] ->
  Forall (fun v => 0 <= v < 2 ^ 32) l -> release_tail rest ->
  sscanf_u n (dotted l rest) = l.
Proof.
  revert n. induction l as [|v l IH]; intros n Hn Hne Hl [Hr Hdot]; [done|].
  apply Forall_cons in Hl as [Hv Hl]. destruct n as [|n]; [cbn in Hn; lia|].
  destruct l as [|v' l].
  - cbn [dotted foldr]. by apply sscanf_u_print_last.
  - change (dotted (v :: v' :: l) rest) with
      (print_u v +:+ String "."%char (dotted (v' :: l) rest)).
    rewrite sscanf_u_print by done. f_equal. apply IH; [cbn in *; lia|done|done|done].
Qed.

(** [hs_linux_version] reads the kernel release. From 3.0 on, "a.b.c..."
    gives [a * 10^7 + b * 10^5 + c]; before, "a.b.c.d..." gives
    [a * 10^7 + b * 10^5 + c * 1000 + d]. The result is stored, and the next
    call returns the same number without another [uname]. *)
Theorem linux_version_reads_release {W} `{Posix W} (s : st W) a b c d rest :
  static "version" s = 0 -> release_tail rest ->
  0 < a <= 400 -> 0 <= b < 100 -> 0 <= c < 100 -> 0 <= d < 1000 ->
  uname_release (s_world s) =
    (if 3 <=? a then dotted [a; b; c] rest else dotted [a; b; c; d] rest) ->
  let v := if 3 <=? a then a * 10000000 + b * 100000 + c
           else a * 10000000 + b * 100000 + c * 1000 + d in
  hs_linux_version s = Done (v, with_statics <["version" := v]> s) /\
  (forall w, hs_linux_version (with_world w (with_statics <["version" := v]> s)) =
     Done (v, with_world w (with_statics <["version" := v]> s))).
Proof.
  intros Hs Hr Ha Hb Hc Hd E v. split.
  - unfold hs_linux_version. unfold bind at 1, load_static. rewrite Hs.
    cbn [Z.eqb negb]. unfold bind at 1, get. rewrite E. subst v. destruct (Z.leb_spec 3 a) as [H3|H3].
    + rewrite sscanf_dotted; [|cbn; lia|done|repeat constructor; lia|done].
      cbn [field default lookup list_lookup from_option]. unfold field. cbn.
      rewrite (proj2 (Z.leb_le _ _) H3).
      rewrite (u32_small (a * _)), (u32_small (b * _)), (u32_small (_ + b * _)) by lia.
      change (u32 0) with 0. rewrite Z.add_0_r, (u32_small (_ + b * _)), u32_small by lia. done.
    + rewrite sscanf_dotted; [|cbn; lia|done|repeat constructor; lia|done].
      unfold field. cbn. rewrite (proj2 (Z.leb_gt _ _) H3).
      rewrite (u32_small (a * _)), (u32_small (b * _)), (u32_small (_ + b * _)),
        (u32_small (c * _)), (u32_small (_ + c * _)), u32_small by lia. done.
  - intros w. unfold hs_linux_version, bind, load_static, static. cbn.
    rewrite lookup_insert_eq. cbn.
    assert (v <> 0) as ->%Z.eqb_neq; [|done]. subst v. case_match; lia.
Qed.

Lemma linux_version_reads_release_witness :
  hs_linux_version (scripted quiet) =
    Done (40200001, with_statics <["version" := 40200001]> (scripted quiet)).
Proof.
  apply (linux_version_reads_release (scripted quiet) 4 2 1 0 "-generic").
  - reflexivity.
  - split; [reflexivity|discriminate].
  - lia.
  - lia.
  - lia.
  - lia.
  - vm_compute. reflexivity.
Defined.
