(* ===== verification/Location.v ===== *)
(** What the discoveries of Windows and macOS share: both turn the ports of a
    device around in an array and print them, with the same code
    (src/src/monitor_win32.c and src/src/monitor_darwin.c). The text tells the
    ports: paths of ports with the same text are the same. *)

From Stdlib Require Import Ascii.
From S2P Require Import Prelude Cstring Posix Platform.

Section Location.
Context {St : Type}.

(** The loop of [build_location_string], from [buf] with [size] bytes left. *)
Fixpoint location_loop (ports : list Z) (i : Z) (n : nat) (buf : string) (size : Z)
    : M St string :=
  match n with
  | O => ret buf
  | S n =>
      let* port := arr_get ports i in
      let part := "-" +:+ print_u port in
      let r := Z.of_nat (String.length part) in
      assert_ ((2 <=? r) && (r <? size)) ;;;
      location_loop ports (i + 1) n (buf +:+ part) (size - r)
  end.

(** The loop that puts the ports in order, with [n] iterations left. *)
Fixpoint swap_loop (ports : list Z) (depth i : Z) (n : nat) : M St (list Z) :=
  match n with
  | O => ret ports
  | S n =>
      let* tmp := arr_get ports i in
      let* other := arr_get ports (depth - i - 1) in
      let* ports := arr_set ports i other in
      let* ports := arr_set ports (depth - i - 1) tmp in
      swap_loop ports depth (i + 1) n
  end.
End Location.

(** * The text of a location *)

(** The location of the device behind these ports, from its controller. *)
Fixpoint location_tail (ports : list Z) : string :=
  match ports with
  | [] => ""
  | port :: ports => "-" +:+ print_u port +:+ location_tail ports
  end.
Definition location_text (ports : list Z) : string := "usb" +:+ location_tail ports.

Lemma location_tail_stop ports : starts_digit 10 (location_tail ports) = false.
Proof. by destruct ports. Qed.

Lemma location_tail_inj ports ports' :
  Forall (fun p => 0 <= p) ports -> Forall (fun p => 0 <= p) ports' ->
  location_tail ports = location_tail ports' -> ports = ports'.
Proof.
  intros Hp. revert ports'. induction Hp as [|p ports Hp _ IH]; intros [|p' ports'] Hp' E; try done.
  apply Forall_cons in Hp' as [Hp1 Hp']. cbn [location_tail] in E. injection E as E.
  apply print_u_inj in E as [-> E]; [|done|done|apply location_tail_stop..]. f_equal. by apply IH.
Qed.

Section LocationLemmas.
Context {St : Type}.
Implicit Types s : St.

Lemma print_u_length n : 0 <= n < 256 -> (1 <= String.length (print_u n) <= 3)%nat.
Proof.
  intros Hn. split.
  - pose proof (print_starts 10 (S (Z.to_nat (Z.log2 n))) n "" ltac:(lia) ltac:(lia) ltac:(done)) as E.
    unfold print_u. by destruct (print_digits _ _ _ _); [|cbn; lia].
  - etrans; [apply (print_digits_length _ _ _ _ 2)|cbn; lia]; [lia|]. change (10 ^ Z.of_nat 3) with 1000. lia.
Qed.

Lemma location_loop_eq ports n (i : nat) buf size s :
  Forall (fun p => 0 <= p < 256) (take n (drop i ports)) -> (i + n <= length ports)%nat ->
  4 * Z.of_nat n < size ->
  location_loop ports (Z.of_nat i) n buf size s =
    Done (buf +:+ location_tail (take n (drop i ports)), s).
Proof.
  revert i buf size. induction n as [|n IH]; intros i buf size Hp Hi Hs; cbn [location_loop].
  { by rewrite take_0, str_app_nil. }
  destruct (lookup_lt_is_Some_2 ports i) as [p Hpi]; [lia|]. unfold bind at 1.
  rewrite (arr_get_eq ports i p s) by done.
  rewrite (drop_S _ _ _ Hpi) in Hp. apply Forall_cons in Hp as [Hp0 Hp].
  pose proof (print_u_length p Hp0) as Hl. cbn [String.length].
  unfold bind. rewrite str_length_app. cbn [String.length].
  assert ((2 <=? Z.of_nat (1 + String.length (print_u p))) &&
          (Z.of_nat (1 + String.length (print_u p)) <? size) = true) as ->.
  { apply andb_true_intro. rewrite Z.leb_le, Z.ltb_lt. lia. }
  cbn [assert_]. unfold ret. replace (Z.of_nat i + 1) with (Z.of_nat (S i)) by lia.
  rewrite IH by (done || lia). rewrite (drop_S _ _ _ Hpi). cbn [take location_tail].
  by rewrite <- !str_app_assoc.
Qed.

(** The loop that reverses the start of the array. *)
Lemma swap_loop_eq arr (depth : nat) n i s : (depth <= length arr)%nat -> (n + i = depth / 2)%nat ->
  exists arr', swap_loop arr (Z.of_nat depth) (Z.of_nat i) n s = Done (arr', s) /\
    length arr' = length arr /\
    forall j, (j < depth)%nat ->
      arr' !! j = arr !! (if decide (i <= j < depth - i)%nat then (depth - 1 - j)%nat else j).
Proof.
  revert arr i. induction n as [|n IH]; intros arr i Hd Hn; cbn [swap_loop].
  - exists arr. split; [done|split; [done|]]. intros j Hj.
    pose proof (Nat.div_mod_eq depth 2). pose proof (Nat.mod_upper_bound depth 2 ltac:(lia)).
    case_decide; [|done]. f_equal. lia.
  - pose proof (Nat.div_mod_eq depth 2). pose proof (Nat.mod_upper_bound depth 2 ltac:(lia)).
    destruct (lookup_lt_is_Some_2 arr i) as [a Ha]; [lia|].
    destruct (lookup_lt_is_Some_2 arr (depth - i - 1)) as [b Hb]; [lia|].
    replace (Z.of_nat depth - Z.of_nat i - 1) with (Z.of_nat (depth - i - 1)) by lia.
    unfold bind. rewrite (arr_get_eq arr i a s), (arr_get_eq arr _ b s) by done.
    rewrite arr_set_eq by lia. rewrite arr_set_eq by (rewrite length_insert; lia).
    replace (Z.of_nat i + 1) with (Z.of_nat (S i)) by lia.
    destruct (IH (<[(depth - i - 1)%nat:=a]> (<[i:=b]> arr)) (S i)) as (arr' & E & Hl & Hj);
      [rewrite !length_insert; lia|lia|].
    exists arr'. split; [done|]. rewrite !length_insert in Hl. split; [done|]. intros j Hlt.
    rewrite Hj by done. repeat case_decide; try lia.
    + rewrite !list_lookup_insert_ne by lia. done.
    + destruct (decide (j = i)) as [->|].
      * rewrite list_lookup_insert_ne, list_lookup_insert_eq by lia.
        replace (depth - 1 - i)%nat with (depth - i - 1)%nat by lia. by rewrite Hb.
      * replace j with (depth - i - 1)%nat by lia.
        rewrite list_lookup_insert_eq by (rewrite length_insert; lia).
        replace (depth - 1 - (depth - i - 1))%nat with i by lia. by rewrite Ha.
    + rewrite !list_lookup_insert_ne by lia. done.
Qed.

(** All of it: the first [depth] ports are put in the reverse order. *)
Lemma swap_loop_reverse arr (depth : nat) s : (depth <= length arr)%nat ->
  exists arr', swap_loop arr (Z.of_nat depth) 0 (Z.to_nat (Z.of_nat depth / 2)) s = Done (arr', s) /\
    length arr' = length arr /\ take depth arr' = reverse (take depth arr).
Proof.
  intros Hd. assert (Z.to_nat (Z.of_nat depth / 2) = (depth / 2)%nat) as ->.
  { rewrite <- (Nat2Z.id (depth / 2)%nat), Nat2Z.inj_div. done. }
  destruct (swap_loop_eq arr depth (depth / 2) 0 s) as (arr' & E & Hl & Hj); [done|lia|].
  exists arr'. split; [done|]. split; [done|]. apply list_eq. intros j.
  assert (length (take depth arr) = depth) as Ht by (rewrite length_take; lia).
  destruct (decide (j < depth)%nat) as [Hlt|Hge].
  - rewrite lookup_take_lt by done. rewrite Hj, decide_True by lia. rewrite reverse_lookup by lia.
    rewrite Ht, lookup_take_lt by lia. f_equal. lia.
  - rewrite lookup_take_ge by lia. symmetry. apply lookup_ge_None_2. rewrite length_reverse. lia.
Qed.
End LocationLemmas.
