(* ===== verification/Device.v ===== *)
(** Device objects and handles: src/src/device.c, with the vtable of
    src/src/device_priv.h. *)

From S2P Require Import Prelude Common DList Htable State.

Section Device.
Context {W : Type}.
Implicit Types (s : st W) (d : hs_device).

(** * Reference counts *)

(** The GCC atomics; the [unsigned int] counter wraps around. *)
Definition hs_device_ref (dev : ptr) : M (st W) ptr :=
  assert_ (negb (dev =? NULL)) ;;;
  let* d := load_dev dev in
  store_dev dev (dev_with_refcount (u32 (dev_refcount d + 1)) d) ;;;
  ret dev.

(** The strings of the device are values of its record: they go with it. *)
Definition hs_device_unref (dev : ptr) : M (st W) unit :=
  if dev =? NULL then ret tt
  else
    let* d := load_dev dev in
    store_dev dev (dev_with_refcount (u32 (dev_refcount d - 1)) d) ;;;
    if 1 <? dev_refcount d then ret tt
    else free_dev dev.

(** The branch compiled by MSVC: [InterlockedDecrement] returns the new
    value. *)
Definition hs_device_unref_msvc (dev : ptr) : M (st W) unit :=
  if dev =? NULL then ret tt
  else
    let* d := load_dev dev in
    let r := u32 (dev_refcount d - 1) in
    store_dev dev (dev_with_refcount r d) ;;;
    if negb (r =? 0) then ret tt
    else free_dev dev.

(** * Accessors *)

Definition getter {A} (f : hs_device -> A) (dev : ptr) : M (st W) A :=
  assert_ (negb (dev =? NULL)) ;;;
  let* d := load_dev dev in
  ret (f d).

Definition hs_device_get_status (dev : ptr) : M (st W) hs_device_status := getter dev_state dev.
Definition hs_device_get_type (dev : ptr) : M (st W) hs_device_type := getter dev_type dev.
Definition hs_device_get_location (dev : ptr) : M (st W) (option string) := getter dev_location dev.
Definition hs_device_get_interface_number (dev : ptr) : M (st W) Z := getter dev_iface dev.
Definition hs_device_get_path (dev : ptr) : M (st W) (option string) := getter dev_path dev.
Definition hs_device_get_vid (dev : ptr) : M (st W) Z := getter dev_vid dev.
Definition hs_device_get_pid (dev : ptr) : M (st W) Z := getter dev_pid dev.
Definition hs_device_get_manufacturer_string (dev : ptr) : M (st W) (option string) :=
  getter dev_manufacturer dev.
Definition hs_device_get_product_string (dev : ptr) : M (st W) (option string) :=
  getter dev_product dev.
Definition hs_device_get_serial_number_string (dev : ptr) : M (st W) (option string) :=
  getter dev_serial dev.
Definition hs_device_get_monitor (dev : ptr) : M (st W) ptr := getter dev_monitor dev.
End Device.

(** * Handles *)

(** struct _hs_device_vtable over the platform's handle structure [H]; NULL
    is [None]. *)
Record _hs_device_vtable (W H : Type) := Vtable {
  vt_open : ptr -> M (st W) (Z * option H);
  vt_close : option H -> M (st W) unit;
  vt_get_descriptor : H -> M (st W) Z
}.
Arguments vt_open {W H}.
Arguments vt_close {W H}.
Arguments vt_get_descriptor {W H}.

(** "%s" of a [char *]: glibc prints "(null)" for NULL. *)
Definition str (o : option string) : string := default "(null)" o.

Section Handle.
Context {W H : Type}.
(** [h->dev] and the tables [vtable] can point to. *)
Variable h_dev : H -> ptr.
Variable vtables : vtable_id -> _hs_device_vtable W H.

(** The result is the return value and what is left in [*rh] ([None]: not
    assigned). *)
Definition hs_device_open (dev : ptr) : M (st W) (Z * option H) :=
  assert_ (negb (dev =? NULL)) ;;;
  let* d := load_dev dev in
  if bool_decide (dev_state d <> HS_DEVICE_STATUS_ONLINE) then
    let* r := zoom (hs_error HS_ERROR_NOT_FOUND
                      (Some ("Device '" +:+ str (dev_path d) +:+ "' is not connected"))) in
    ret (r, None)
  else vt_open (vtables (dev_vtable d)) dev.

(** The [close] entries of the tables. *)
Variable closes : vtable_id -> option H -> M (st W) unit.

Definition hs_handle_close (h : option H) : M (st W) unit :=
  match h with
  | None => ret tt
  | Some h' =>
      let* d := load_dev (h_dev h') in
      closes (dev_vtable d) h
  end.

Definition hs_handle_get_device (h : H) : M (st W) ptr := ret (h_dev h).

Definition hs_handle_get_descriptor (h : H) : M (st W) Z :=
  let* d := load_dev (h_dev h) in
  vt_get_descriptor (vtables (dev_vtable d)) h.
End Handle.

(** * Lemmas *)

Section Lemmas.
Context {W : Type}.
Implicit Types (s : st W) (d : hs_device) (dev : ptr).

Definition set_refcount (dev : ptr) (r : Z) (d : hs_device) (s : st W) : st W :=
  with_devs <[dev := dev_with_refcount r d]> s.

(** The state after the last reference is dropped. *)
Definition freed_dev (dev : ptr) (s : st W) : st W :=
  with_part (HMem (delete (hnode_of dev) (h_next (m_nodes (s_mem s))))
               (delete (hnode_of dev) (h_key (m_nodes (s_mem s)))))
    (with_devs (delete dev) s).

Lemma hs_device_ref_eq s dev d :
  dev <> NULL -> m_devs (s_mem s) !! dev = Some d ->
  0 <= dev_refcount d < 2 ^ 32 - 1 ->
  hs_device_ref dev s = Done (dev, set_refcount dev (dev_refcount d + 1) d s).
Proof.
  intros Hn%Z.eqb_neq Hd Hr. unfold hs_device_ref, bind, assert_, load_dev, store_dev.
  rewrite Hn. unfold ret. cbn [negb]. rewrite Hd, Hd.
  by rewrite u32_small by lia.
Qed.

(** Dropping a reference that is not the last. *)
Lemma hs_device_unref_eq s dev d :
  dev <> NULL -> m_devs (s_mem s) !! dev = Some d ->
  1 < dev_refcount d < 2 ^ 32 ->
  hs_device_unref dev s = Done (tt, set_refcount dev (dev_refcount d - 1) d s).
Proof.
  intros Hn%Z.eqb_neq Hd Hr. unfold hs_device_unref, bind, load_dev, store_dev.
  rewrite Hn, Hd, Hd. assert (1 <? dev_refcount d = true) as -> by lia.
  by rewrite u32_small by lia.
Qed.

Lemma hs_device_unref_last s dev d :
  dev <> NULL -> m_devs (s_mem s) !! dev = Some d -> dev_refcount d = 1 ->
  hs_device_unref dev s = Done (tt, freed_dev dev s).
Proof.
  intros Hn%Z.eqb_neq Hd Hr. unfold hs_device_unref, bind, load_dev, store_dev.
  rewrite Hn, Hd, Hd, Hr. cbn [Z.ltb Z.compare Pos.compare Pos.compare_cont].
  erewrite free_dev_eq; [|by cbn; rewrite lookup_insert_eq].
  unfold freed_dev, with_devs. cbn. by rewrite delete_insert_eq.
Qed.

Lemma hs_device_unref_null s : hs_device_unref NULL s = Done (tt, s).
Proof. done. Qed.

Lemma set_refcount_set dev r r' d s :
  set_refcount dev r' (dev_with_refcount r d) (set_refcount dev r d s) =
  set_refcount dev r' d s.
Proof. unfold set_refcount, with_devs. cbn. by rewrite insert_insert_eq. Qed.

Lemma set_refcount_lookup dev r d s :
  m_devs (s_mem (set_refcount dev r d s)) !! dev = Some (dev_with_refcount r d).
Proof. cbn. by rewrite lookup_insert_eq. Qed.

(** A reference given back after it was taken: the memory is as before. *)
Lemma unref_back dev d s0 s :
  dev <> NULL -> m_devs (s_mem s0) !! dev = Some d -> 1 <= dev_refcount d < 2 ^ 32 - 1 ->
  s_mem s = s_mem (set_refcount dev (dev_refcount d + 1) d s0) ->
  exists s', hs_device_unref dev s = Done (tt, s') /\ s_mem s' = s_mem s0 /\
    s_world s' = s_world s.
Proof.
  intros Hn Hd Hr Hm. eexists. split.
  - apply (hs_device_unref_eq _ _ (dev_with_refcount (dev_refcount d + 1) d));
      [done|rewrite Hm; apply set_refcount_lookup|cbn; lia].
  - split; [|done]. cbn. rewrite Hm. cbn. rewrite insert_insert_eq.
    replace (dev_refcount d + 1 - 1) with (dev_refcount d) by lia.
    rewrite insert_id; [by destruct s0 as [? ? []]|]. rewrite Hd. by destruct d.
Qed.
End Lemmas.

(** * Properties *)

(** One reference taken or dropped by a client. *)
Inductive ref_op := Ref | Unref.

Section Run.
Context {W : Type}.
Implicit Types (s : st W) (d : hs_device) (dev : ptr) (ops : list ref_op).

Fixpoint run_refs (dev : ptr) (ops : list ref_op) : M (st W) unit :=
  match ops with
  | [] => ret tt
  | Ref :: ops => hs_device_ref dev ;;; run_refs dev ops
  | Unref :: ops => hs_device_unref dev ;;; run_refs dev ops
  end.

Definition ref_delta (o : ref_op) : Z := match o with Ref => 1 | Unref => -1 end.

(** The references held after [ops], from [c] of them; a run is balanced when
    the holder always keeps one until the end. *)
Fixpoint held (c : Z) (ops : list ref_op) : Z :=
  match ops with
  | [] => c
  | o :: ops => held (c + ref_delta o) ops
  end.
Fixpoint balanced (c : Z) (ops : list ref_op) : Prop :=
  1 <= c < 2 ^ 32 - 1 /\
  match ops with
  | [] => True
  | o :: ops => balanced (c + ref_delta o) ops
  end.

Lemma run_refs_eq ops s dev d :
  dev <> NULL -> m_devs (s_mem s) !! dev = Some d ->
  balanced (dev_refcount d) ops ->
  run_refs dev ops s =
    Done (tt, match ops with [] => s
              | _ => set_refcount dev (held (dev_refcount d) ops) d s end).
Proof.
  intros Hn. revert s d. induction ops as [|o ops IH]; intros s d Hd; [done|].
  intros [Hb Hbal]. simpl.
  specialize (IH (set_refcount dev (dev_refcount d + ref_delta o) d s)
                (dev_with_refcount (dev_refcount d + ref_delta o) d)).
  rewrite set_refcount_lookup in IH. specialize (IH eq_refl Hbal). simpl in IH.
  assert (E : run_refs dev (o :: ops) s =
              run_refs dev ops (set_refcount dev (dev_refcount d + ref_delta o) d s)).
  { destruct o; simpl in *; unfold bind.
    - by rewrite (hs_device_ref_eq _ _ d) by (done || lia).
    - rewrite (hs_device_unref_eq _ _ d); [done..|].
      destruct ops; simpl in Hbal; lia. }
  simpl in E. rewrite E, IH. destruct ops; [done|]. by rewrite set_refcount_set.
Qed.
End Run.

(** C36: the reference count of a device is exactly the references held. As
    long as its holders keep at least one (and fewer than 2^32 - 1) the device
    stays allocated, with its count as the only change of the whole state. *)
Theorem refcount_counts_references {W} (s : st W) dev d ops :
  dev <> NULL -> m_devs (s_mem s) !! dev = Some d ->
  balanced (dev_refcount d) ops -> ops <> [] ->
  run_refs dev ops s =
    Done (tt, with_devs
                <[dev := dev_with_refcount (held (dev_refcount d) ops) d]> s).
Proof.
  intros Hn Hd Hb Hne. rewrite (run_refs_eq _ _ _ d) by done. by destruct ops.
Qed.

(** A device with one reference, for the witnesses. *)
Definition one_device (dev : ptr) (d : hs_device) : st unit :=
  St tt (common_init false)
    (Mem (LMem ∅ ∅) (HMem {[hnode_of dev := NULL]} {[hnode_of dev := 0]})
       {[dev := d]} ∅ ∅ ∅).

Lemma refcount_counts_references_witness :
  run_refs 64 [Ref; Ref; Unref] (one_device 64 (dev_with_refcount 1 device_zero)) =
    Done (tt, with_devs <[64 := dev_with_refcount 2 device_zero]>
                (one_device 64 (dev_with_refcount 1 device_zero))).
Proof.
  apply (refcount_counts_references _ 64 (dev_with_refcount 1 device_zero)
           [Ref; Ref; Unref]).
  - discriminate.
  - reflexivity.
  - simpl. lia.
  - discriminate.
Defined.

(** The last [hs_device_unref] frees the device: the object and its table
    node are gone, nothing else changes, and taking or dropping a reference
    again is an access to freed memory. *)
Theorem last_unref_frees {W} (s : st W) dev d :
  dev <> NULL -> m_devs (s_mem s) !! dev = Some d -> dev_refcount d = 1 ->
  exists s', hs_device_unref dev s = Done (tt, s') /\
    m_devs (s_mem s') = delete dev (m_devs (s_mem s)) /\
    h_next (m_nodes (s_mem s')) = delete (hnode_of dev) (h_next (m_nodes (s_mem s))) /\
    s_common s' = s_common s /\ s_world s' = s_world s /\
    m_lists (s_mem s') = m_lists (s_mem s) /\
    hs_device_ref dev s' = Fault BadAccess /\
    hs_device_unref dev s' = Fault BadAccess.
Proof.
  intros Hn Hd Hr. exists (freed_dev dev s).
  split; [by apply (hs_device_unref_last _ _ d)|]. do 5 (split; [done|]).
  apply Z.eqb_neq in Hn. unfold hs_device_ref, hs_device_unref, bind, assert_, load_dev.
  rewrite Hn. cbn. by rewrite lookup_delete_eq.
Qed.

Lemma last_unref_frees_witness :
  exists s', hs_device_unref 64 (one_device 64 (dev_with_refcount 1 device_zero))
               = Done (tt, s') /\
    m_devs (s_mem s') = delete 64 {[64 := dev_with_refcount 1 device_zero]}.
Proof.
  destruct (last_unref_frees (one_device 64 (dev_with_refcount 1 device_zero)) 64
              (dev_with_refcount 1 device_zero)) as (s' & E & Ed & _).
  - discriminate.
  - reflexivity.
  - reflexivity.
  - exists s'. split; [exact E|exact Ed].
Defined.

(** The two builds of [hs_device_unref], the GCC atomics and the MSVC
    interlocked decrement, are the same function on every device whose count
    is at least one. *)
Theorem unref_builds_agree {W} (s : st W) dev d :
  m_devs (s_mem s) !! dev = Some d -> 1 <= dev_refcount d < 2 ^ 32 ->
  hs_device_unref dev s = hs_device_unref_msvc dev s.
Proof.
  intros Hd Hr. unfold hs_device_unref, hs_device_unref_msvc.
  destruct (dev =? NULL); [done|]. unfold bind, load_dev, store_dev.
  rewrite Hd, Hd. rewrite u32_small by lia.
  destruct (Z.ltb_spec 1 (dev_refcount d)), (Z.eqb_spec (dev_refcount d - 1) 0);
    [lia|done|done|lia].
Qed.

Lemma unref_builds_agree_witness :
  hs_device_unref 64 (one_device 64 (dev_with_refcount 2 device_zero)) =
  hs_device_unref_msvc 64 (one_device 64 (dev_with_refcount 2 device_zero)).
Proof.
  apply (unref_builds_agree _ 64 (dev_with_refcount 2 device_zero)).
  - reflexivity.
  - simpl. lia.
Defined.

(** [hs_device_open] opens connected devices only. A device that is not
    ONLINE gives [HS_ERROR_NOT_FOUND], no handle, and no effect but the error
    message; an ONLINE device gives exactly the result of its vtable. *)
Theorem device_open_guard {W H} (vts : vtable_id -> _hs_device_vtable W H)
    (s : st W) dev d :
  dev <> NULL -> m_devs (s_mem s) !! dev = Some d ->
  (dev_state d = HS_DEVICE_STATUS_DISCONNECTED /\
   hs_device_open vts dev s =
     Done ((HS_ERROR_NOT_FOUND, None),
           with_part (errored HS_ERROR_NOT_FOUND
              (Some ("Device '" +:+ str (dev_path d) +:+ "' is not connected"))
              (s_common s)) s)) \/
  (dev_state d = HS_DEVICE_STATUS_ONLINE /\
   hs_device_open vts dev s = vt_open (vts (dev_vtable d)) dev s).
Proof.
  intros Hn%Z.eqb_neq Hd. unfold hs_device_open, bind, assert_, load_dev.
  rewrite Hn. cbn [negb ret]. unfold ret. rewrite Hd.
  destruct (dev_state d) eqn:E; [left|right]; (split; [done|]).
  - rewrite bool_decide_eq_true_2 by done. unfold zoom.
    rewrite hs_error_errored. done.
  - by rewrite bool_decide_eq_false_2 by naive_solver.
Qed.

Definition closed_vtable : _hs_device_vtable unit unit :=
  Vtable _ _ (fun _ => ret (0, Some tt)) (fun _ => ret tt) (fun _ => ret 0).

Lemma device_open_guard_witness :
  hs_device_open (fun _ => closed_vtable) 64
    (one_device 64 (dev_with_state HS_DEVICE_STATUS_ONLINE device_zero)) =
  Done ((0, Some tt), one_device 64 (dev_with_state HS_DEVICE_STATUS_ONLINE device_zero)).
Proof.
  destruct (device_open_guard (fun _ => closed_vtable)
              (one_device 64 (dev_with_state HS_DEVICE_STATUS_ONLINE device_zero)) 64
              (dev_with_state HS_DEVICE_STATUS_ONLINE device_zero))
    as [[E _]|[_ E]].
  - discriminate.
  - reflexivity.
  - discriminate E.
  - exact E.
Defined.
