(* ===== verification/Heap.v ===== *)
(** Memory allocation: where [malloc] and [calloc] put an object, [strdup], and
    the blocks of devices and monitors. Whether there is memory is
    [malloc_ok]; the address is the parameter [block_address], of which only
    freshness is assumed. *)

From S2P Require Import Prelude Common DList Htable State Posix Device.

(** The address of the next block, from the world and the memory in use. *)
Class Allocator (W : Type) := block_address : W -> mem -> ptr.

(** [p] is used by an object of the library. *)
Definition in_use (m : mem) (p : ptr) : Prop :=
  is_Some (m_devs m !! p) \/ is_Some (m_cbs m !! p) \/ is_Some (m_mons m !! p) \/
  is_Some (l_prev (m_lists m) !! p) \/ is_Some (l_next (m_lists m) !! p) \/
  is_Some (h_next (m_nodes m) !! p) \/ is_Some (h_key (m_nodes m) !! p).

(** The documentation of [malloc]: a block is new memory. *)
Definition allocator_documented {W} `{Allocator W} : Prop :=
  forall w m, NULL < block_address w m /\
    forall q, block_address w m <= q -> q < block_address w m + 4096 -> ~ in_use m q.

Section Heap.
Context {W : Type} `{Posix W} `{Allocator W}.

(** The result of [malloc] or [calloc]. *)
Definition new_block : M (st W) ptr :=
  let* ok := os malloc_ok in
  if ok : bool then
    let* s := get in
    ret (block_address (s_world s) (s_mem s))
  else ret NULL.

(** [strdup]: [None] for NULL. *)
Definition strdup (s : string) : M (st W) (option string) :=
  let* ok := os malloc_ok in
  ret (if ok : bool then Some s else None).

(** [calloc] and [free] of a struct hs_monitor. *)
Definition alloc_mon (p : ptr) : M (st W) unit :=
  modify (with_mons <[p := Monitor 0 (Htable 0 NULL)]>) ;;;
  zoom (list_alloc p).
Definition free_mon (p : ptr) : M (st W) unit :=
  let* _ := load_mon p in
  modify (with_mons (delete p)) ;;;
  zoom (list_free p).

(** The memory with the device [d] allocated at [p]. *)
Definition with_new_dev (p : ptr) (d : hs_device) (m : mem) : mem :=
  Mem (m_lists m)
    (HMem (<[hnode_of p := NULL]> (h_next (m_nodes m))) (<[hnode_of p := 0]> (h_key (m_nodes m))))
    (<[p := d]> (m_devs m)) (m_cbs m) (m_mons m) (m_statics m).

Lemma alloc_dev_eq p (s : st W) :
  exists s', alloc_dev p s = Done (tt, s') /\
    s_mem s' = with_new_dev p device_zero (s_mem s) /\ s_world s' = s_world s.
Proof. eexists. by split. Qed.

Lemma wp_new_block (Q : ptr -> st W -> Prop) s :
  (forall w, malloc_ok (s_world s) = (false, w) -> Q NULL (with_world (fun _ => w) s)) ->
  (forall w, malloc_ok (s_world s) = (true, w) ->
     Q (block_address w (s_mem s)) (with_world (fun _ => w) s)) ->
  wp new_block Q s.
Proof.
  intros Hf Ht. unfold new_block. wp_step. apply wp_os. intros [] w E.
  - wp_step. wp_step. wp_step. by apply Ht.
  - wp_step. by apply Hf.
Qed.

Lemma wp_strdup (Q : option string -> st W -> Prop) x s :
  (forall w, malloc_ok (s_world s) = (false, w) -> Q None (with_world (fun _ => w) s)) ->
  (forall w, malloc_ok (s_world s) = (true, w) -> Q (Some x) (with_world (fun _ => w) s)) ->
  wp (strdup x) Q s.
Proof.
  intros Hf Ht. unfold strdup. wp_step. apply wp_os. intros [] w E; wp_step; [by apply Ht|by apply Hf].
Qed.

(** Dropping the only reference to a new device gives the memory back. *)
Lemma unref_new_dev p d m (s : st W) :
  p <> NULL -> ~ in_use m p -> ~ in_use m (hnode_of p) -> dev_refcount d = 1 ->
  s_mem s = with_new_dev p d m ->
  exists s', hs_device_unref p s = Done (tt, s') /\ s_mem s' = m /\ s_world s' = s_world s.
Proof.
  intros Hp Hu Hn Hr Hm. eexists. split.
  - apply (hs_device_unref_last s p d); [done| |done]. rewrite Hm. cbn. by rewrite lookup_insert_eq.
  - split; [|done]. cbn. rewrite Hm. destruct m as [[lp ln] [hn hk] devs cbs mons sts].
    unfold in_use in *. cbn in *. rewrite !delete_insert_eq.
    rewrite !delete_id; [done|..]; apply eq_None_not_Some; tauto.
Qed.
End Heap.

(** * An allocator, for the witnesses *)

Definition addresses (m : mem) : list ptr :=
  (map_to_list (m_devs m)).*1 ++ (map_to_list (m_cbs m)).*1 ++ (map_to_list (m_mons m)).*1 ++
  (map_to_list (l_prev (m_lists m))).*1 ++ (map_to_list (l_next (m_lists m))).*1 ++
  (map_to_list (h_next (m_nodes m))).*1 ++ (map_to_list (h_key (m_nodes m))).*1.

(** The first address above every object. *)
Definition bump {W} : Allocator W := fun _ m => 1 + foldr Z.max 0 (addresses m).

Lemma max_above l x : x ∈ l -> x <= foldr Z.max 0 l.
Proof. induction l as [|y l IH]; [by intros ?%elem_of_nil|]. intros [->|?%IH]%elem_of_cons; cbn; lia. Qed.

Lemma max_nonneg l : 0 <= foldr Z.max 0 l.
Proof. induction l; cbn; lia. Qed.

Lemma in_keys {A} (m : gmap ptr A) q : is_Some (m !! q) -> q ∈ (map_to_list m).*1.
Proof. intros [x Hx]. apply (list_elem_of_fmap_2 fst _ (q, x)). by apply elem_of_map_to_list. Qed.

Lemma bump_documented {W} : allocator_documented (W := W) (H := bump).
Proof.
  intros w m. unfold block_address, bump. pose proof (max_nonneg (addresses m)). unfold NULL.
  split; [lia|]. intros q Hq _ Hu. assert (q ∈ addresses m) as Hin%max_above; [|lia].
  unfold in_use, addresses in *. rewrite !elem_of_app.
  repeat (destruct Hu as [Hu%in_keys|Hu]; [tauto|]). apply in_keys in Hu. tauto.
Qed.
