(* ===== verification/Compat.v ===== *)
(** The C functions that some systems lack: src/src/compat.c. [strrpbrk] is in
    Cstring; [stpcpy] works on arrays of bytes, [asprintf] and [vasprintf] on what
    [vsnprintf] of the C library prints, which is a parameter. *)

From S2P Require Import Prelude Common State Posix Platform Heap.

(** * stpcpy *)

Section Stpcpy.
Context {S : Type}.

(** [while ( *dest++ = *src++ )]: the bytes of [src] from [i] are stored at [d] of
    [dest], the NUL included; the array and the offset of the NUL. *)
Fixpoint stpcpy_loop (n : nat) (dest : list Z) (d : Z) (src : list Z) (i : Z) : M S (list Z * Z) :=
  match n with
  | O => out_of_fuel
  | Datatypes.S n =>
      let* c := arr_get src i in
      let* dest := arr_set dest d c in
      if c =? 0 then ret (dest, d) else stpcpy_loop n dest (d + 1) src (i + 1)
  end.

Definition stpcpy (fuel : nat) (dest : list Z) (d : Z) (src : list Z) (i : Z) : M S (list Z * Z) :=
  stpcpy_loop fuel dest d src i.
End Stpcpy.

Section Printf.
Context {W : Type} `{Posix W}.
(** [vsnprintf(buf, size, fmt, ap)] of the C library, for a format and its
    arguments: what it returns and the string it leaves in [buf]. *)
Variable vsnprintf : Z -> sysc W (Z * string).

(** The result and [*strp], [None] when it is not stored. *)
Definition vasprintf : M (st W) (Z * option string) :=
  let* rb := os (vsnprintf 0) in
  if rb.1 <? 0 then ret (-1, None)
  else
    let* ok := os malloc_ok in
    if negb ok then ret (-1, None)
    else
      let* rb := os (vsnprintf (rb.1 + 1)) in
      if rb.1 <? 0 then ret (-1, None) else ret (rb.1, Some rb.2).

Definition asprintf : M (st W) (Z * option string) := vasprintf.
End Printf.

(** * stpcpy copies *)

Lemma take_insert_S {A} (l : list A) i x : (i < length l)%nat -> take (S i) (<[i := x]> l) = take i l ++ [x].
Proof.
  intros Hi. rewrite (take_S_r _ _ x) by by apply list_lookup_insert_eq. by rewrite take_insert_ge by lia.
Qed.

Lemma stpcpy_loop_eq {S} text : forall fuel dest d pre rest (s : S), Forall (fun c => c <> 0) text ->
  (length text < fuel)%nat -> (d + length text < length dest)%nat ->
  stpcpy_loop fuel dest (Z.of_nat d) (pre ++ text ++ 0 :: rest) (Z.of_nat (length pre)) s =
    Done ((take d dest ++ text ++ 0 :: drop (d + length text + 1) dest, Z.of_nat (d + length text)), s).
Proof.
  induction text as [|c text IH]; intros [|fuel] dest d pre rest s Hc Hf Hd; cbn [length] in *; try lia;
    cbn [stpcpy_loop]; unfold bind.
  - rewrite (arr_get_eq _ _ 0) by by apply list_lookup_middle.
    rewrite arr_set_eq by lia. rewrite Z.eqb_refl. unfold ret. do 2 f_equal. f_equal; [|f_equal; lia].
    rewrite <- (take_drop (Datatypes.S d) (<[d := 0]> dest)), take_insert_S by lia.
    rewrite drop_insert_lt by lia. rewrite <- app_assoc, Nat.add_0_r, Nat.add_1_r. done.
  - apply Forall_cons in Hc as [Hc Hcs].
    rewrite (arr_get_eq _ _ c) by by apply list_lookup_middle.
    rewrite arr_set_eq by lia. rewrite (proj2 (Z.eqb_neq _ _) Hc).
    replace (Z.of_nat d + 1) with (Z.of_nat (Datatypes.S d)) by lia.
    replace (Z.of_nat (length pre) + 1) with (Z.of_nat (length (pre ++ [c]))) by (rewrite length_app; cbn; lia).
    replace (pre ++ (c :: text) ++ 0 :: rest) with ((pre ++ [c]) ++ text ++ 0 :: rest) by by rewrite <- app_assoc.
    rewrite IH; [|done|lia|rewrite length_insert; lia]. do 2 f_equal. f_equal; [|f_equal; lia].
    rewrite take_insert_S, drop_insert_lt by lia. rewrite <- app_assoc. cbn [app].
    do 4 f_equal. f_equal. lia.
Qed.

(** [stpcpy] puts the string and its NUL at [d], gives the place of the NUL, and
    leaves the rest of the array, when there is room. *)
Theorem stpcpy_correct {S} fuel dest (d : nat) text rest (s : S) : Forall (fun c => c <> 0) text ->
  (length text < fuel)%nat -> (d + length text < length dest)%nat ->
  stpcpy fuel dest (Z.of_nat d) (text ++ 0 :: rest) 0 s =
    Done ((take d dest ++ text ++ 0 :: drop (d + length text + 1) dest, Z.of_nat (d + length text)), s).
Proof. apply (stpcpy_loop_eq text fuel dest d []). Qed.

Example stpcpy_abc : stpcpy 9 [1; 1; 1; 1; 1; 1] 1 [97; 98; 99; 0] 0 tt = Done (([1; 97; 98; 99; 0; 1], 4), tt).
Proof. reflexivity. Qed.

(** Without room it writes after the end. *)
Example stpcpy_overflows : stpcpy 9 [1; 1; 1] 1 [97; 98; 99; 0] 0 tt = Fault OutOfBounds.
Proof. reflexivity. Qed.

(** * asprintf prints the whole text *)

(** The documentation of [vsnprintf] for a format that prints [text]: the length
    of the text, whatever the size, and as much of it as there is room for. *)
Definition prints {W} (vsnprintf : Z -> sysc W (Z * string)) (text : string) : Prop :=
  forall n w, exists w', vsnprintf n w =
    ((Z.of_nat (String.length text), String.substring 0 (Z.to_nat (n - 1)) text), w').

Theorem asprintf_correct {W} `{Posix W} vsnprintf text (s : st W) : prints vsnprintf text ->
  exists rs s', asprintf vsnprintf s = Done (rs, s') /\ same_objects s s' /\
    (rs = (Z.of_nat (String.length text), Some text) \/ rs = (-1, None)).
Proof.
  intros Hp. apply (wp_inv (asprintf vsnprintf) (fun rs s' => same_objects s s' /\
    (rs = (Z.of_nat (String.length text), Some text) \/ rs = (-1, None)))).
  unfold asprintf, vasprintf. wp_step. apply wp_os. intros rb w E. destruct (Hp 0 (s_world s)) as [w1 E1].
  rewrite E1 in E. injection E as <- <-. cbn [fst snd]. rewrite (proj2 (Z.ltb_ge _ 0)) by lia.
  wp_step. apply wp_os. intros [] w2 _; cbn [negb].
  - wp_step. apply wp_os. intros rb w3 E. destruct (Hp (Z.of_nat (String.length text) + 1) w2) as [w4 E4].
    cbn [s_world with_world] in E. rewrite E4 in E. injection E as <- <-. cbn [fst snd]. rewrite (proj2 (Z.ltb_ge _ 0)) by lia. wp_step.
    split; [by repeat split|]. left. do 2 f_equal. rewrite Z.add_simpl_r, Nat2Z.id. apply Cstring.substring_whole. lia.
  - wp_step. split; [by repeat split|]. by right.
Qed.
