(* ===== verification/PosixDevice.v ===== *)
(** Device nodes: src/src/device_posix.c. A handle is the value of its
    structure; the path of a device is a string. *)

From S2P Require Import Prelude Common DList Htable State Posix Device.

(** struct hs_handle of device_posix_priv.h *)
Record posix_handle := PosixHandle { ph_dev : ptr; ph_fd : Z }.

Section PosixDevice.
Context {W : Type} `{Posix W}.
(** The build for macOS. *)
Variable apple : bool.
Variable fuel : nat.

Definition close_posix_device (h : option posix_handle) : M (st W) unit :=
  match h with
  | Some h =>
      os (close (ph_fd h)) ;;;
      hs_device_unref (ph_dev h)
  | None => ret tt
  end.

(** The tables whose handles have this structure. *)
Definition posix_closes (vt : vtable_id) (h : option posix_handle) : M (st W) unit :=
  match vt with
  | _hs_posix_device_vtable => close_posix_device h
  | _ => fail BadAccess
  end.

(** The loop around [open]; [retry] is the counter of the macOS build. *)
Fixpoint open_restart (path : string) (retry : Z) (fuel : nat) : M (st W) (sys Z) :=
  match fuel with
  | O => out_of_fuel
  | S fuel =>
      let* fd := os (open path) in
      match fd with
      | Err EINTR => open_restart path retry fuel
      | Err EBUSY =>
          if apple && negb (retry =? 0) then
            os (usleep 20000) ;;;
            open_restart path (retry - 1) fuel
          else ret fd
      | _ => ret fd
      end
  end.

(** The [switch] on [errno] after a failed [open]. *)
Definition open_failed (e : errno) (path : string) : M (st W) Z :=
  match e with
  | EACCES => error HS_ERROR_ACCESS ("Permission denied for device '" +:+ path +:+ "'")
  | EIO | ENXIO | ENODEV =>
      error HS_ERROR_IO ("I/O error while opening device '" +:+ path +:+ "'")
  | ENOENT | ENOTDIR =>
      error HS_ERROR_NOT_FOUND ("Device '" +:+ path +:+ "' not found")
  | _ => error HS_ERROR_SYSTEM ("open('" +:+ path +:+ "') failed: " +:+ strerror e)
  end.

Definition open_posix_device (dev : ptr) : M (st W) (Z * option posix_handle) :=
  let* ok := os malloc_ok in
  if negb ok then
    let* r := memory_error in
    hs_handle_close ph_dev posix_closes None ;;;
    ret (r, None)
  else
    let* dev := hs_device_ref dev in
    let* d := load_dev dev in
    match dev_path d with
    | None => fail BadAccess
    | Some path =>
        let* fd := open_restart path 4 fuel in
        match fd with
        | Err e =>
            let* r := open_failed e path in
            hs_handle_close ph_dev posix_closes (Some (PosixHandle dev (-1))) ;;;
            ret (r, None)
        | Ok fd =>
            (if apple && bool_decide (dev_type d = HS_DEVICE_TYPE_SERIAL)
             then os (ioctl_TIOCSDTR fd) else ret tt) ;;;
            ret (0, Some (PosixHandle dev fd))
        end
    end.

Definition get_posix_descriptor (h : posix_handle) : M (st W) Z := ret (ph_fd h).

Definition posix_device_vtable : _hs_device_vtable W posix_handle :=
  Vtable _ _ open_posix_device close_posix_device get_posix_descriptor.
End PosixDevice.

(** * Specification *)

(** The code for a failed [open]. *)
Definition open_code (e : errno) : Z :=
  match e with
  | EACCES => HS_ERROR_ACCESS
  | EIO | ENXIO | ENODEV => HS_ERROR_IO
  | ENOENT | ENOTDIR => HS_ERROR_NOT_FOUND
  | _ => HS_ERROR_SYSTEM
  end.

Section Lemmas.
Context {W : Type} `{Posix W}.
Implicit Types s : st W.

Lemma wp_open_failed (Q : Z -> st W -> Prop) e path s :
  (forall s', s_mem s' = s_mem s -> s_world s' = s_world s -> Q (open_code e) s') ->
  wp (open_failed e path) Q s.
Proof.
  intros HQ. destruct e; cbn [open_failed open_code]; apply wp_error; by apply HQ.
Qed.

(** The loop ends with the first result of [open] that is neither EINTR nor,
    on macOS, one of the first four EBUSY; it only changes the world. *)
Lemma wp_open_restart signals (Q : sys Z -> st W -> Prop) apple path retry fuel s :
  finite_signals signals -> 0 <= retry ->
  (signals (s_world s) + Z.to_nat retry < fuel)%nat ->
  (forall r w w', open path w = (r, w') -> r <> Err EINTR ->
     Q r (with_world (fun _ => w') s)) ->
  wp (open_restart apple path retry fuel) Q s.
Proof.
  intros Hs. revert retry s. induction fuel as [|fuel IH]; intros retry s Hr Hf HQ; [lia|].
  cbn [open_restart]. wp_step. apply wp_os. intros r w E.
  pose proof (fs_open _ Hs _ _ _ _ E) as [Hle Hlt].
  assert (Hdone : r <> Err EINTR -> wp (ret r) Q (with_world (fun _ => w) s)).
  { intros Hne. wp_step. by eapply HQ. }
  destruct r as [fd|[]]; try (apply Hdone; discriminate).
  - apply IH; [done|cbn; specialize (Hlt eq_refl); lia|]. intros r w1 w2. apply HQ.
  - destruct (apple && negb (retry =? 0)) eqn:Eb; [|apply Hdone; discriminate].
    apply andb_true_iff in Eb as [_ Eb]. apply negb_true_iff, Z.eqb_neq in Eb.
    wp_step. apply wp_os. intros [] w1 E1. apply (fs_usleep _ Hs) in E1. cbn in E1.
    apply IH; [lia|cbn; lia|]. intros r w2 w3. apply HQ.
Qed.
End Lemmas.

(** C32: opening a device node. Interrupted calls are restarted (and, on macOS,
    the first four EBUSY); the first other result of [open] decides. A
    descriptor gives 0 and a handle that holds one reference of the device;
    an error gives the code of its [errno] and no handle, and the reference
    taken for the handle is given back, so that the memory is that of the
    start. Without memory for the handle nothing is opened or referenced. *)
Theorem posix_open_correct {W} `{Posix W} signals apple fuel (s : st W) dev d path :
  finite_signals signals -> (signals (s_world s) + 4 < fuel)%nat ->
  dev <> NULL -> m_devs (s_mem s) !! dev = Some d -> dev_path d = Some path ->
  dev_vtable d = _hs_posix_device_vtable -> 1 <= dev_refcount d < 2 ^ 32 - 1 ->
  exists r h s', open_posix_device apple fuel dev s = Done ((r, h), s') /\
    ((exists w, malloc_ok (s_world s) = (false, w) /\ r = HS_ERROR_MEMORY /\ h = None /\
        s_mem s' = s_mem s /\ s_world s' = w) \/
     (exists fd w w', open path w = (Ok fd, w') /\ r = 0 /\
        h = Some (PosixHandle dev fd) /\
        s_mem s' = s_mem (with_devs <[dev := dev_with_refcount (dev_refcount d + 1) d]> s)) \/
     (exists e w w', open path w = (Err e, w') /\ e <> EINTR /\ r = open_code e /\
        h = None /\ s_mem s' = s_mem s /\ s_world s' = (close (-1) w').2)).
Proof.
  intros Hs Hf Hn Hd Hp Hv Hc.
  apply wp_inv_pair. unfold open_posix_device. wp_step. apply wp_os. intros ok w E.
  destruct ok; cbn [negb].
  2: { wp_step. apply wp_memory_error. wp_steps. left. exists w. split_and!; done. }
  wp_step. eapply wp_intro; [apply (hs_device_ref_eq _ _ d); [done|done|lia]|].
  wp_step. eapply wp_load_dev; [apply set_refcount_lookup|].
  cbn [dev_path dev_with_refcount]. rewrite Hp. wp_step.
  eapply (wp_open_restart signals); [done|done| |].
  { cbn. apply (fs_malloc _ Hs) in E. lia. }
  intros res w1 w2 Eo Hne. destruct res as [fd|e].
  - wp_step. assert (Hok : forall t : st W, s_mem t = s_mem (set_refcount dev (dev_refcount d + 1) d s) ->
      (exists w, malloc_ok (s_world s) = (false, w) /\ 0 = HS_ERROR_MEMORY /\
        Some (PosixHandle dev fd) = None /\ s_mem t = s_mem s /\ s_world t = w) \/
     (exists fd' w w', open path w = (Ok fd', w') /\ 0 = 0 /\
        Some (PosixHandle dev fd) = Some (PosixHandle dev fd') /\
        s_mem t = s_mem (with_devs <[dev := dev_with_refcount (dev_refcount d + 1) d]> s)) \/
     (exists e w w', open path w = (Err e, w') /\ e <> EINTR /\ 0 = open_code e /\
        Some (PosixHandle dev fd) = None /\ s_mem t = s_mem s /\ s_world t = (close (-1) w').2)).
    { intros t Ht. right. left. exists fd, w1, w2. done. }
    case_match; [apply wp_os; intros [] w3 _|]; wp_steps; by apply Hok.
  - wp_step. apply wp_open_failed. intros s1 Hm1 Hw1. wp_step.
    unfold hs_handle_close. wp_step. cbn [ph_dev].
    eapply wp_load_dev; [rewrite Hm1; apply set_refcount_lookup|].
    cbn [dev_vtable dev_with_refcount]. rewrite Hv. cbn [posix_closes close_posix_device ph_fd ph_dev].
    wp_step. apply wp_os. intros [] w3 E3. 
    destruct (unref_back dev d s (with_world (fun _ => w3) s1)) as (s2 & E2 & Hm2 & Hw2);
      [done..|].
    eapply wp_intro; [exact E2|].
    wp_step. right. right. exists e, w1, w2. split; [done|]. split; [by intros ->|].
    split; [done|split; [done|]]. split; [done|].
    rewrite Hw2. cbn. rewrite Hw1 in E3. cbn in E3. by rewrite E3.
Qed.

(** A connected serial device at 64, for the witnesses. *)
Definition tty : hs_device :=
  Device NULL 1 (Some "/devices/tty0") HS_DEVICE_TYPE_SERIAL _hs_posix_device_vtable
    HS_DEVICE_STATUS_ONLINE None (Some "/dev/ttyACM0") 0 0 None None None 0.

Definition with_tty (w : script) : st script :=
  with_devs (fun _ => {[64 := tty]}) (scripted w).

(** Interrupted once, then refused. *)
Definition refused : script := Script [] [] [] [Err EINTR; Err EACCES] [] [] [] [].

Lemma posix_open_correct_witness :
  let s := with_tty refused in
  exists r h s', open_posix_device false 10 64 s = Done ((r, h), s') /\
    ((exists w, malloc_ok (s_world s) = (false, w) /\ r = HS_ERROR_MEMORY /\ h = None /\
        s_mem s' = s_mem s /\ s_world s' = w) \/
     (exists fd w w', open "/dev/ttyACM0" w = (Ok fd, w') /\ r = 0 /\
        h = Some (PosixHandle 64 fd) /\
        s_mem s' = s_mem (with_devs <[64 := dev_with_refcount (1 + 1) tty]> s)) \/
     (exists e w w', open "/dev/ttyACM0" w = (Err e, w') /\ e <> EINTR /\ r = open_code e /\
        h = None /\ s_mem s' = s_mem s /\ s_world s' = (close (-1) w').2)).
Proof.
  intros s.
  apply (posix_open_correct script_signals false 10 (with_tty refused) 64 tty "/dev/ttyACM0").
  - exact script_finite_signals.
  - apply Nat.ltb_lt. reflexivity.
  - discriminate.
  - reflexivity.
  - reflexivity.
  - reflexivity.
  - cbn. lia.
Defined.
