(* ===== verification/SerialPosix.v ===== *)
(** Serial ports: src/src/serial_posix.c, with the flags of
    src/include/hs/serial.h. The values and functions of <termios.h> are
    fields of a class; reading and writing use the calls of Posix. *)

From S2P Require Import Prelude Common State Posix Platform Device PosixDevice.

(** The fields of struct termios the library touches, and the rest. *)
Record termios := Termios {
  c_iflag : Z;
  c_cflag : Z;
  cc_VMIN : Z;
  cc_VTIME : Z;
  tio_ispeed : Z;
  tio_ospeed : Z;
  tio_rest : Z
}.

Class TermiosApi (W : Type) := {
  tcgetattr : Z -> sysc W (sys termios);
  tcsetattr_TCSANOW : Z -> termios -> sysc W (sys unit);
  cfmakeraw : termios -> termios;
  cfsetispeed : termios -> Z -> termios;
  cfsetospeed : termios -> Z -> termios;
  (** the constant [B<rate>] of a rate in bauds *)
  Bconst : Z -> Z;
  CLOCAL : Z; CSIZE : Z; CS5 : Z; CS6 : Z; CS7 : Z; CS8 : Z;
  PARENB : Z; PARODD : Z; CSTOPB : Z; CRTSCTS : Z; HUPCL : Z;
  IXON : Z; IXOFF : Z
}.

(** enum hs_serial_mask and enum hs_serial_flag *)
Definition HS_SERIAL_MASK_CSIZE : Z := 0x3.
Definition HS_SERIAL_MASK_PARITY : Z := 0xC.
Definition HS_SERIAL_MASK_STOP : Z := 0x10.
Definition HS_SERIAL_MASK_FLOW : Z := 0x60.
Definition HS_SERIAL_MASK_CLOSE : Z := 0x80.
Definition HS_SERIAL_CSIZE_7BITS : Z := 0x1.
Definition HS_SERIAL_CSIZE_6BITS : Z := 0x2.
Definition HS_SERIAL_CSIZE_5BITS : Z := 0x3.
Definition HS_SERIAL_PARITY_ODD : Z := 0x4.
Definition HS_SERIAL_PARITY_EVEN : Z := 0x8.
Definition HS_SERIAL_STOP_2BITS : Z := 0x10.
Definition HS_SERIAL_FLOW_XONXOFF : Z := 0x20.
Definition HS_SERIAL_FLOW_RTSCTS : Z := 0x40.
Definition HS_SERIAL_CLOSE_NOHUP : Z := 0x80.

Definition with_cflag (f : Z -> Z) (t : termios) : termios :=
  Termios (c_iflag t) (f (c_cflag t)) (cc_VMIN t) (cc_VTIME t) (tio_ispeed t)
    (tio_ospeed t) (tio_rest t).
Definition with_iflag (f : Z -> Z) (t : termios) : termios :=
  Termios (f (c_iflag t)) (c_cflag t) (cc_VMIN t) (cc_VTIME t) (tio_ispeed t)
    (tio_ospeed t) (tio_rest t).
Definition with_cc (vmin vtime : Z) (t : termios) : termios :=
  Termios (c_iflag t) (c_cflag t) vmin vtime (tio_ispeed t) (tio_ospeed t) (tio_rest t).

(** [x &= (unsigned int)~m] and [x |= m] *)
Definition clear_bits (m x : Z) : Z := Z.land x (u32 (Z.lnot m)).
Definition set_bits (m x : Z) : Z := Z.lor x m.

(** The rates of the [switch]. *)
Definition serial_rates : list Z :=
  [110; 134; 150; 200; 300; 600; 1200; 1800; 2400; 4800; 9600; 19200; 38400; 57600; 115200].

Section Serial.
Context {W : Type} `{Posix W} `{TermiosApi W}.
Variable fuel : nat.

Definition set_csize (flags : Z) (t : termios) : termios :=
  let t := with_cflag (clear_bits CSIZE) t in
  let f := Z.land flags HS_SERIAL_MASK_CSIZE in
  if f =? HS_SERIAL_CSIZE_5BITS then with_cflag (set_bits CS5) t
  else if f =? HS_SERIAL_CSIZE_6BITS then with_cflag (set_bits CS6) t
  else if f =? HS_SERIAL_CSIZE_7BITS then with_cflag (set_bits CS7) t
  else with_cflag (set_bits CS8) t.

Definition set_parity (flags : Z) (t : termios) : M (st W) termios :=
  let t := with_cflag (clear_bits (Z.lor PARENB PARODD)) t in
  let f := Z.land flags HS_SERIAL_MASK_PARITY in
  if f =? 0 then ret t
  else if f =? HS_SERIAL_PARITY_ODD then ret (with_cflag (set_bits (Z.lor PARENB PARODD)) t)
  else if f =? HS_SERIAL_PARITY_EVEN then ret (with_cflag (set_bits PARENB) t)
  else fail AssertFailed.

Definition set_stop (flags : Z) (t : termios) : termios :=
  let t := with_cflag (clear_bits CSTOPB) t in
  if negb (Z.land flags HS_SERIAL_STOP_2BITS =? 0)
  then with_cflag (set_bits CSTOPB) t else t.

Definition set_flow (flags : Z) (t : termios) : M (st W) termios :=
  let t := with_cflag (clear_bits CRTSCTS) t in
  let t := with_iflag (clear_bits (Z.lor IXON IXOFF)) t in
  let f := Z.land flags HS_SERIAL_MASK_FLOW in
  if f =? 0 then ret t
  else if f =? HS_SERIAL_FLOW_XONXOFF then ret (with_iflag (set_bits (Z.lor IXON IXOFF)) t)
  else if f =? HS_SERIAL_FLOW_RTSCTS then ret (with_cflag (set_bits CRTSCTS) t)
  else fail AssertFailed.

Definition set_close (flags : Z) (t : termios) : termios :=
  let t := with_cflag (clear_bits HUPCL) t in
  if Z.land flags HS_SERIAL_CLOSE_NOHUP =? 0
  then with_cflag (set_bits HUPCL) t else t.

Definition hs_serial_set_attributes (h : posix_handle) (rate flags : Z) : M (st W) Z :=
  let* d := load_dev (ph_dev h) in
  assert_ (bool_decide (dev_type d = HS_DEVICE_TYPE_SERIAL)) ;;;
  let* r := os (tcgetattr (ph_fd h)) in
  match r with
  | Err e =>
      error HS_ERROR_SYSTEM ("Unable to read serial port settings: " +:+ strerror e)
  | Ok tio =>
      let tio := cfmakeraw tio in
      let tio := with_cc 1 0 tio in
      let tio := with_cflag (set_bits CLOCAL) tio in
      if negb (bool_decide (rate ∈ serial_rates)) then fail AssertFailed
      else
        let rate := Bconst rate in
        let tio := cfsetispeed tio rate in
        let tio := cfsetospeed tio rate in
        let tio := set_csize flags tio in
        let* tio := set_parity flags tio in
        let tio := set_stop flags tio in
        let* tio := set_flow flags tio in
        let tio := set_close flags tio in
        let* r := os (tcsetattr_TCSANOW (ph_fd h) tio) in
        match r with
        | Err e =>
            error HS_ERROR_SYSTEM ("Unable to change serial port settings: " +:+ strerror e)
        | Ok _ => ret 0
        end
  end.

Definition quoted (before : string) (path : option string) (after : string) : string :=
  before +:+ "'" +:+ str path +:+ "'" +:+ after.

(** The [switch] after a failed [read]. *)
Definition read_failed (e : errno) (path : option string) : M (st W) Z :=
  match e with
  | EAGAIN => ret 0
  | EIO | ENXIO => error HS_ERROR_IO (quoted "I/O error while reading from " path "")
  | _ =>
      error HS_ERROR_SYSTEM ("read('" +:+ str path +:+ "') failed: " +:+ strerror e)
  end.

(** The wait at the start of [hs_serial_read] and [hs_hid_read]: [None] when
    the function goes on to read. *)
Definition wait_readable (path : option string) (fd timeout : Z) : M (st W) (option Z) :=
  if timeout =? 0 then ret None
  else
    let* start := hs_millis in
    let* r := poll_wait fuel [(fd, POLLIN)] timeout start in
    match r with
    | Err e =>
        let* r := error HS_ERROR_SYSTEM
                    ("poll('" +:+ str path +:+ "') failed: " +:+ strerror e) in
        ret (Some r)
    | Ok (n, _) => if n =? 0 then ret (Some 0) else ret None
    end.

(** The result, and the bytes stored at the start of [buf]. *)
Definition hs_serial_read (h : posix_handle) (size timeout : Z) : M (st W) (Z * list Z) :=
  let* d := load_dev (ph_dev h) in
  assert_ (bool_decide (dev_type d = HS_DEVICE_TYPE_SERIAL)) ;;;
  assert_ (negb (size =? 0)) ;;;
  let* r := wait_readable (dev_path d) (ph_fd h) timeout in
  match r with
  | Some r => ret (r, [])
  | None =>
      let* r := os (read (ph_fd h) size) in
      match r with
      | Err e =>
          let* r := read_failed e (dev_path d) in
          ret (r, [])
      | Ok bytes => ret (Z.of_nat (length bytes), bytes)
      end
  end.

Definition write_io_error (path : option string) : M (st W) Z :=
  error HS_ERROR_IO (quoted "I/O error while writing to " path "").

(** [buf] holds [size] bytes. *)
Definition hs_serial_write (h : posix_handle) (buf : list Z) (size : Z) : M (st W) Z :=
  let* d := load_dev (ph_dev h) in
  assert_ (bool_decide (dev_type d = HS_DEVICE_TYPE_SERIAL)) ;;;
  if size =? 0 then ret 0
  else
    let* r := restart (os (poll [(ph_fd h, POLLOUT)] (-1))) fuel in
    match r with
    | Err e =>
        match e with
        | EIO | ENXIO => write_io_error (dev_path d)
        | _ => error HS_ERROR_SYSTEM
                 ("poll('" +:+ str (dev_path d) +:+ "') failed: " +:+ strerror e)
        end
    | Ok (n, _) =>
        assert_ (n =? 1) ;;;
        let* r := os (write (ph_fd h) (take (Z.to_nat size) buf)) in
        match r with
        | Err e =>
            match e with
            | EIO | ENXIO => write_io_error (dev_path d)
            | _ => error HS_ERROR_SYSTEM
                     ("write('" +:+ str (dev_path d) +:+ "') failed: " +:+ strerror e)
            end
        | Ok n => ret n
        end
    end.
End Serial.

(** * Bit fields *)

Lemma u32_lnot_bit m i : 0 <= i -> Z.testbit (u32 (Z.lnot m)) i =
  (i <? 32) && negb (Z.testbit m i).
Proof.
  intros Hi. unfold u32. destruct (Z.ltb_spec i 32).
  - rewrite Z.mod_pow2_bits_low by lia. by rewrite Z.lnot_spec.
  - rewrite Z.mod_pow2_bits_high by lia. done.
Qed.

Lemma bit_high m i : 0 <= m < 2 ^ 32 -> 32 <= i -> Z.testbit m i = false.
Proof.
  intros Hm Hi. destruct (Z.eq_dec m 0) as [->|]; [apply Z.bits_0|].
  apply Z.bits_above_log2; [lia|]. eapply Z.lt_le_trans; [|exact Hi].
  apply Z.log2_lt_pow2; lia.
Qed.

(** A fact of masks, read at one bit. *)
Lemma land_bit a b c i : Z.land a b = c -> Z.testbit a i && Z.testbit b i = Z.testbit c i.
Proof. intros <-. by rewrite Z.land_spec. Qed.

Ltac bits :=
  apply Z.bits_inj'; intros i Hi; unfold clear_bits, set_bits in *;
  repeat match goal with H : Z.land _ _ = _ |- _ => apply (land_bit _ _ _ i) in H end;
  rewrite ?Z.lor_spec, ?Z.land_spec, ?Z.lor_spec, ?Z.land_spec, ?u32_lnot_bit, ?Z.bits_0 in *
    by done.

Lemma clear_same m x : 0 <= m < 2 ^ 32 -> Z.land (clear_bits m x) m = 0.
Proof. intros Hm. bits. destruct (Z.testbit m i), (Z.testbit x i), (i <? 32); done. Qed.

Lemma clear_other m m' x : Z.land m m' = 0 -> 0 <= m' < 2 ^ 32 ->
  Z.land (clear_bits m x) m' = Z.land x m'.
Proof.
  intros H Hm'. bits. destruct (Z.ltb_spec i 32).
  - destruct (Z.testbit m i), (Z.testbit x i), (Z.testbit m' i); done.
  - rewrite (bit_high m' i) by lia. by rewrite !andb_false_r.
Qed.

Lemma set_same v m x : Z.land v m = v -> Z.land (set_bits v x) m = Z.lor (Z.land x m) v.
Proof. intros H. bits. destruct (Z.testbit v i), (Z.testbit m i), (Z.testbit x i); done. Qed.

Lemma set_other v m x : Z.land v m = 0 -> Z.land (set_bits v x) m = Z.land x m.
Proof. intros H. bits. destruct (Z.testbit v i), (Z.testbit m i), (Z.testbit x i); done. Qed.

(** A field written, then read. *)
Lemma field_set v m x : 0 <= m < 2 ^ 32 -> Z.land v m = v ->
  Z.land (set_bits v (clear_bits m x)) m = v.
Proof. intros Hm Hv. rewrite set_same, clear_same by done. apply Z.lor_0_l. Qed.

(** A mask outside a field is outside each of its values. *)
Lemma sub_other v m m' : Z.land v m = v -> Z.land m m' = 0 -> Z.land v m' = 0.
Proof. intros H1 H2. bits. destruct (Z.testbit v i), (Z.testbit m i), (Z.testbit m' i); done. Qed.

(** A field written, then another read. *)
Lemma field_other v m m' x : Z.land m m' = 0 -> Z.land v m = v -> 0 <= m' < 2 ^ 32 ->
  Z.land (set_bits v (clear_bits m x)) m' = Z.land x m'.
Proof.
  intros H1 H2 Hm. rewrite set_other by (by eapply sub_other). by apply clear_other.
Qed.

(** * Specification *)

(** The values of the fields for the flags. *)
Section Spec.
Context {W : Type} `{TermiosApi W}.

Definition csize_of (flags : Z) : Z :=
  let f := Z.land flags HS_SERIAL_MASK_CSIZE in
  if f =? HS_SERIAL_CSIZE_5BITS then CS5
  else if f =? HS_SERIAL_CSIZE_6BITS then CS6
  else if f =? HS_SERIAL_CSIZE_7BITS then CS7 else CS8.
Definition parity_of (flags : Z) : option Z :=
  let f := Z.land flags HS_SERIAL_MASK_PARITY in
  if f =? 0 then Some 0
  else if f =? HS_SERIAL_PARITY_ODD then Some (Z.lor PARENB PARODD)
  else if f =? HS_SERIAL_PARITY_EVEN then Some PARENB else None.
Definition stop_of (flags : Z) : Z :=
  if Z.land flags HS_SERIAL_STOP_2BITS =? 0 then 0 else CSTOPB.
(** the bits of [c_cflag] and of [c_iflag] *)
Definition flow_of (flags : Z) : option (Z * Z) :=
  let f := Z.land flags HS_SERIAL_MASK_FLOW in
  if f =? 0 then Some (0, 0)
  else if f =? HS_SERIAL_FLOW_XONXOFF then Some (0, Z.lor IXON IXOFF)
  else if f =? HS_SERIAL_FLOW_RTSCTS then Some (CRTSCTS, 0) else None.
Definition close_of (flags : Z) : Z :=
  if Z.land flags HS_SERIAL_CLOSE_NOHUP =? 0 then HUPCL else 0.

(** <termios.h>: the fields of [c_cflag] do not overlap and hold their values,
    and setting a speed leaves them and the other members alone. *)
Record termios_documented : Prop := {
  td_range : forall m, m ∈ [CLOCAL; CSIZE; Z.lor PARENB PARODD; CSTOPB; CRTSCTS; HUPCL;
                           Z.lor IXON IXOFF] -> 0 <= m < 2 ^ 32;
  td_disjoint : forall i j m m',
    [CLOCAL; CSIZE; Z.lor PARENB PARODD; CSTOPB; CRTSCTS; HUPCL] !! i = Some m ->
    [CLOCAL; CSIZE; Z.lor PARENB PARODD; CSTOPB; CRTSCTS; HUPCL] !! j = Some m' ->
    i <> j -> Z.land m m' = 0;
  td_csize : forall v, v ∈ [CS5; CS6; CS7; CS8] -> Z.land v CSIZE = v;
  td_ispeed : forall t b m,
    m ∈ [CLOCAL; CSIZE; Z.lor PARENB PARODD; CSTOPB; CRTSCTS; HUPCL] ->
    Z.land (c_cflag (cfsetispeed t b)) m = Z.land (c_cflag t) m /\
    c_iflag (cfsetispeed t b) = c_iflag t /\
    cc_VMIN (cfsetispeed t b) = cc_VMIN t /\ cc_VTIME (cfsetispeed t b) = cc_VTIME t /\
    tio_ispeed (cfsetispeed t b) = b;
  td_ospeed : forall t b m,
    m ∈ [CLOCAL; CSIZE; Z.lor PARENB PARODD; CSTOPB; CRTSCTS; HUPCL] ->
    Z.land (c_cflag (cfsetospeed t b)) m = Z.land (c_cflag t) m /\
    c_iflag (cfsetospeed t b) = c_iflag t /\
    cc_VMIN (cfsetospeed t b) = cc_VMIN t /\ cc_VTIME (cfsetospeed t b) = cc_VTIME t /\
    tio_ospeed (cfsetospeed t b) = b /\ tio_ispeed (cfsetospeed t b) = tio_ispeed t
}.

(** The settings a request asks for. *)
Record applied (rate flags : Z) (t : termios) : Prop := {
  ap_csize : Z.land (c_cflag t) CSIZE = csize_of flags;
  ap_parity : parity_of flags = Some (Z.land (c_cflag t) (Z.lor PARENB PARODD));
  ap_stop : Z.land (c_cflag t) CSTOPB = stop_of flags;
  ap_flow : flow_of flags =
    Some (Z.land (c_cflag t) CRTSCTS, Z.land (c_iflag t) (Z.lor IXON IXOFF));
  ap_close : Z.land (c_cflag t) HUPCL = close_of flags;
  ap_local : Z.land (c_cflag t) CLOCAL = CLOCAL;
  ap_speed : tio_ispeed t = Bconst rate /\ tio_ospeed t = Bconst rate;
  ap_cc : cc_VMIN t = 1 /\ cc_VTIME t = 0
}.
End Spec.

Section Apply.
Context {W : Type} `{TermiosApi W}.
Implicit Types t : termios.

Lemma set_bits_0 x : set_bits 0 x = x.
Proof. apply Z.lor_0_r. Qed.

Lemma set_csize_eq flags t :
  set_csize flags t = with_cflag (set_bits (csize_of flags)) (with_cflag (clear_bits CSIZE) t).
Proof. unfold set_csize, csize_of. by repeat case_match. Qed.

Lemma set_stop_eq flags t :
  set_stop flags t = with_cflag (set_bits (stop_of flags)) (with_cflag (clear_bits CSTOPB) t).
Proof.
  unfold set_stop, stop_of. destruct (_ =? 0); cbn [negb]; [|done].
  unfold with_cflag. cbn. by rewrite set_bits_0.
Qed.

Lemma set_close_eq flags t :
  set_close flags t = with_cflag (set_bits (close_of flags)) (with_cflag (clear_bits HUPCL) t).
Proof.
  unfold set_close, close_of. destruct (_ =? 0); [done|].
  unfold with_cflag. cbn. by rewrite set_bits_0.
Qed.

Lemma set_parity_eq flags t (s : st W) : set_parity flags t s =
  match parity_of flags with
  | Some v => Done (with_cflag (set_bits v) (with_cflag (clear_bits (Z.lor PARENB PARODD)) t), s)
  | None => Fault AssertFailed
  end.
Proof.
  unfold set_parity, parity_of. repeat case_match; simplify_eq; try done.
  unfold with_cflag, ret. cbn. by rewrite set_bits_0.
Qed.

Lemma set_flow_eq flags t (s : st W) : set_flow flags t s =
  match flow_of flags with
  | Some (fc, fi) =>
      Done (with_iflag (fun x => set_bits fi (clear_bits (Z.lor IXON IXOFF) x))
              (with_cflag (set_bits fc) (with_cflag (clear_bits CRTSCTS) t)), s)
  | None => Fault AssertFailed
  end.
Proof.
  unfold set_flow, flow_of. repeat case_match; simplify_eq; try done;
    unfold with_cflag, with_iflag, ret; cbn; by rewrite !set_bits_0.
Qed.

(** Each requested value is inside its field. *)
Lemma csize_in flags : termios_documented -> Z.land (csize_of flags) CSIZE = csize_of flags.
Proof.
  intros Hd. apply (td_csize Hd). unfold csize_of. repeat case_match; set_solver.
Qed.
Lemma parity_in flags v : parity_of flags = Some v ->
  Z.land v (Z.lor PARENB PARODD) = v.
Proof.
  unfold parity_of. intros H'. repeat case_match; simplify_eq; [done|bits|bits];
    destruct (Z.testbit PARENB i), (Z.testbit PARODD i); done.
Qed.
Lemma stop_in flags : Z.land (stop_of flags) CSTOPB = stop_of flags.
Proof. unfold stop_of. case_match; [done|apply Z.land_diag]. Qed.
Lemma close_in flags : Z.land (close_of flags) HUPCL = close_of flags.
Proof. unfold close_of. case_match; [apply Z.land_diag|done]. Qed.
Lemma flow_in flags fc fi : flow_of flags = Some (fc, fi) ->
  Z.land fc CRTSCTS = fc /\ Z.land fi (Z.lor IXON IXOFF) = fi.
Proof.
  unfold flow_of. intros H'. repeat case_match; simplify_eq; split; try done; apply Z.land_diag.
Qed.

(** The termios handed to [tcsetattr]. *)
Definition requested (rate flags pa fc fi : Z) (t : termios) : termios :=
  let t := with_cflag (set_bits CLOCAL) (with_cc 1 0 (cfmakeraw t)) in
  let t := cfsetospeed (cfsetispeed t (Bconst rate)) (Bconst rate) in
  let t := set_csize flags t in
  let t := with_cflag (set_bits pa) (with_cflag (clear_bits (Z.lor PARENB PARODD)) t) in
  let t := set_stop flags t in
  let t := with_iflag (fun x => set_bits fi (clear_bits (Z.lor IXON IXOFF) x))
             (with_cflag (set_bits fc) (with_cflag (clear_bits CRTSCTS) t)) in
  set_close flags t.

(** The side conditions of [field_other] and [field_set]: masks in range, and
    disjoint. *)
#[local] Ltac field_goals R D :=
  try done; try (apply R; set_solver);
  try first
    [ by apply (D 1%nat 0%nat) | by apply (D 2%nat 0%nat) | by apply (D 3%nat 0%nat) | by apply (D 4%nat 0%nat)
    | by apply (D 5%nat 0%nat) | by apply (D 2%nat 1%nat) | by apply (D 3%nat 1%nat) | by apply (D 4%nat 1%nat)
    | by apply (D 5%nat 1%nat) | by apply (D 3%nat 2%nat) | by apply (D 4%nat 2%nat) | by apply (D 5%nat 2%nat)
    | by apply (D 4%nat 3%nat) | by apply (D 5%nat 3%nat) | by apply (D 5%nat 4%nat) ].

Lemma requested_applied rate flags pa fc fi t :
  termios_documented -> parity_of flags = Some pa -> flow_of flags = Some (fc, fi) ->
  applied rate flags (requested rate flags pa fc fi t).
Proof.
  intros Hd Hpa Hfl. pose proof (flow_in _ _ _ Hfl) as [Hfc Hfi].
  pose proof (parity_in _ _ Hpa) as Hpin. pose proof (csize_in flags Hd) as Hcin.
  pose proof (stop_in flags) as Hsin. pose proof (close_in flags) as Hclin.
  assert (R : forall m, m ∈ [CLOCAL; CSIZE; Z.lor PARENB PARODD; CSTOPB; CRTSCTS; HUPCL;
     Z.lor IXON IXOFF] -> 0 <= m < 2 ^ 32) by apply (td_range Hd).
  pose proof (td_disjoint Hd) as Dj. pose proof (td_ospeed Hd) as Os.
  pose proof (td_ispeed Hd) as Is. unfold requested.
  rewrite set_csize_eq, set_stop_eq, set_close_eq.
  set (t1 := with_cflag (set_bits CLOCAL) (with_cc 1 0 (cfmakeraw t))).
  set (t2 := cfsetospeed (cfsetispeed t1 (Bconst rate)) (Bconst rate)).
  assert (D : forall i j m m',
    [CLOCAL; CSIZE; Z.lor PARENB PARODD; CSTOPB; CRTSCTS; HUPCL] !! i = Some m ->
    [CLOCAL; CSIZE; Z.lor PARENB PARODD; CSTOPB; CRTSCTS; HUPCL] !! j = Some m' ->
    bool_decide (i <> j) -> Z.land m m' = 0).
  { intros i j m m' H1 H2 H3%bool_decide_unpack. by eapply Dj. }
  split; cbn [c_cflag c_iflag with_cflag with_iflag tio_ispeed tio_ospeed cc_VMIN cc_VTIME].
  - rewrite (field_other _ HUPCL), (field_other _ CRTSCTS), (field_other _ CSTOPB),
      (field_other _ (Z.lor PARENB PARODD)); field_goals R D; apply field_set; field_goals R D.
  - rewrite Hpa. f_equal. symmetry.
    rewrite (field_other _ HUPCL), (field_other _ CRTSCTS), (field_other _ CSTOPB);
      field_goals R D; apply field_set; field_goals R D.
  - rewrite (field_other _ HUPCL), (field_other _ CRTSCTS); field_goals R D; apply field_set; field_goals R D.
  - rewrite Hfl. do 2 f_equal; symmetry; [rewrite (field_other _ HUPCL); field_goals R D|];
      apply field_set; field_goals R D.
  - apply field_set; field_goals R D.
  - rewrite (field_other _ HUPCL), (field_other _ CRTSCTS), (field_other _ CSTOPB),
      (field_other _ (Z.lor PARENB PARODD)), (field_other _ CSIZE); field_goals R D.
    destruct (Os (cfsetispeed t1 (Bconst rate)) (Bconst rate) CLOCAL) as [E1 _]; [set_solver|].
    destruct (Is t1 (Bconst rate) CLOCAL) as [E2 _]; [set_solver|].
    unfold t2. rewrite E1, E2. unfold t1. cbn. rewrite set_same by apply Z.land_diag.
    bits. destruct (Z.testbit CLOCAL i); by rewrite ?orb_true_r, ?andb_false_r.
  - destruct (Os (cfsetispeed t1 (Bconst rate)) (Bconst rate) CLOCAL)
      as (_ & _ & _ & _ & E1 & E2); [set_solver|].
    destruct (Is t1 (Bconst rate) CLOCAL) as (_ & _ & _ & _ & E3); [set_solver|].
    unfold t2. rewrite E2, E3. done.
  - destruct (Os (cfsetispeed t1 (Bconst rate)) (Bconst rate) CLOCAL)
      as (_ & _ & E1 & E2 & _); [set_solver|].
    destruct (Is t1 (Bconst rate) CLOCAL) as (_ & _ & E3 & E4 & _); [set_solver|].
    unfold t2. rewrite E1, E2, E3, E4. done.
Qed.
End Apply.

(** * Properties *)


(** The values of Linux, over the scripted system. *)
Definition raw_termios : termios := Termios 0 0 0 0 0 0 0.
#[export] Instance script_termios : TermiosApi script := {|
  tcgetattr fd w := (Ok raw_termios, w);
  tcsetattr_TCSANOW fd t w := (Ok tt, log_event (EvIoctl fd) w);
  cfmakeraw t := t;
  cfsetispeed t b :=
    Termios (c_iflag t) (c_cflag t) (cc_VMIN t) (cc_VTIME t) b (tio_ospeed t) (tio_rest t);
  cfsetospeed t b :=
    Termios (c_iflag t) (c_cflag t) (cc_VMIN t) (cc_VTIME t) (tio_ispeed t) b (tio_rest t);
  Bconst rate := rate;
  CLOCAL := 0x800; CSIZE := 0x30; CS5 := 0; CS6 := 0x10; CS7 := 0x20; CS8 := 0x30;
  PARENB := 0x100; PARODD := 0x200; CSTOPB := 0x40; CRTSCTS := 0x80000000;
  HUPCL := 0x400; IXON := 0x400; IXOFF := 0x1000
|}.

Lemma script_termios_documented : termios_documented (W := script).
Proof.
  split; try (by intros; split_and!).
  - intros m Hm. repeat (apply elem_of_cons in Hm as [->|Hm]; [by vm_compute|]).
    by apply not_elem_of_nil in Hm.
  - intros i j m m' Hi Hj Hij.
    destruct i as [|[|[|[|[|[|i]]]]]]; cbn in Hi; try discriminate; injection Hi as <-;
      destruct j as [|[|[|[|[|[|j]]]]]]; cbn in Hj; try discriminate; injection Hj as <-;
      first [by destruct Hij | reflexivity].
  - intros v Hv. repeat (apply elem_of_cons in Hv as [->|Hv]; [done|]).
    by apply not_elem_of_nil in Hv.
Qed.


Section Io.
Context {W : Type} `{Posix W}.
Implicit Types s : st W.

(** [wait_readable] goes on to read, or gives the final result: 0 at the end
    of the timeout, [HS_ERROR_SYSTEM] when [poll] failed. *)
Lemma wp_wait_readable signals (Q : option Z -> st W -> Prop) fuel path fd timeout s :
  clock_documented -> finite_signals signals -> (signals (s_world s) < fuel)%nat ->
  (forall r s', s_mem s' = s_mem s ->
     (timeout = 0 -> r = None /\ s' = s) ->
     match r with
     | None => timeout = 0 \/ exists n revents t w w', n <> 0 /\
         poll [(fd, POLLIN)] t w = (Ok (n, revents), w') /\ s_world s' = w'
     | Some r => r = 0 \/ r = HS_ERROR_SYSTEM
     end -> Q r s') ->
  wp (wait_readable fuel path fd timeout) Q s.
Proof.
  intros Hc Hs Hf HQ. unfold wait_readable. destruct (Z.eqb_spec timeout 0) as [E|E].
  - wp_step. apply HQ; [done|done|by left].
  - wp_step. apply wp_millis; [done|]. intros sec nsec w E1. wp_step.
    eapply (wp_poll_wait signals (fun _ _ => True)); [done|done|by repeat split| |].
    { cbn. apply (fs_clock _ Hs) in E1. lia. }
    intros [[n revents]|e] t w1 w2 _ E2 Hne _.
    + destruct (Z.eqb_spec n 0) as [E0|E0]; wp_step; apply HQ; try done; [by left|].
      right. by exists n, revents, t, w1, w2.
    + wp_step. apply wp_error. wp_step. apply HQ; [done|done|by right].
Qed.

Definition read_code (e : errno) : Z :=
  match e with EAGAIN => 0 | EIO | ENXIO => HS_ERROR_IO | _ => HS_ERROR_SYSTEM end.

Lemma wp_read_failed (Q : Z -> st W -> Prop) e path s :
  (forall s', s_mem s' = s_mem s -> Q (read_code e) s') -> wp (read_failed e path) Q s.
Proof.
  intros HQ. destruct e; cbn [read_failed read_code]; first [wp_step; by apply HQ|apply wp_error; by apply HQ].
Qed.
End Io.

(** Reading a serial port always returns. The result is the number of bytes
    stored, which are those the system delivered; 0 when nothing came before
    the end of the timeout or would come without waiting; [HS_ERROR_IO] for an
    unplugged device and [HS_ERROR_SYSTEM] for the other errors. With a zero
    timeout the port is read without waiting. *)
Theorem serial_read_outcomes {W} `{Posix W} signals fuel (s : st W) h d size timeout :
  clock_documented -> finite_signals signals -> (signals (s_world s) < fuel)%nat ->
  m_devs (s_mem s) !! ph_dev h = Some d -> dev_type d = HS_DEVICE_TYPE_SERIAL ->
  size <> 0 ->
  exists r bytes s', hs_serial_read fuel h size timeout s = Done ((r, bytes), s') /\
    s_mem s' = s_mem s /\
    ((bytes = [] /\ timeout <> 0 /\ (r = 0 \/ r = HS_ERROR_SYSTEM)) \/
     (exists res w w', read (ph_fd h) size w = (res, w') /\
        (timeout = 0 -> w = s_world s) /\
        match res with
        | Ok got => bytes = got /\ r = Z.of_nat (length got)
        | Err e => bytes = [] /\ r = read_code e
        end)).
Proof.
  intros Hc Hs Hf Hd Ht Hsz. apply wp_inv_pair. unfold hs_serial_read.
  wp_step. eapply wp_load_dev; [done|]. wp_step. apply wp_assert; [by apply bool_decide_eq_true_2|].
  wp_step. apply wp_assert; [by apply negb_true_iff, Z.eqb_neq|]. wp_step.
  eapply (wp_wait_readable signals); [done|done|done|]. intros [r|] s1 Hm H0 Hr.
  - wp_step. split; [done|]. left. split; [done|]. split; [|done].
    intros E. by destruct (H0 E).
  - wp_step. apply wp_os. intros res w E. destruct res as [got|e].
    + wp_step. split; [done|]. right. exists (Ok got), (s_world s1), w.
      split; [done|]. split; [|done]. intros E0. by destruct (H0 E0) as [_ ->].
    + wp_step. apply wp_read_failed. intros s2 Hm2. wp_step. split; [by rewrite Hm2|].
      right. exists (Err e), (s_world s1), w. split; [done|]. split; [|done].
      intros E0. by destruct (H0 E0) as [_ ->].
Qed.

Definition two_bytes : script := Script [] [] [Err EINTR; Ok [1]] [] [Ok [65; 66]] [] [] [].

Lemma serial_read_outcomes_witness :
  exists r bytes s',
    hs_serial_read 5 (PosixHandle 64 3) 16 100 (with_tty two_bytes) = Done ((r, bytes), s') /\
    s_mem s' = s_mem (with_tty two_bytes) /\
    ((bytes = [] /\ 100 <> 0 /\ (r = 0 \/ r = HS_ERROR_SYSTEM)) \/
     (exists res w w', read 3 16 w = (res, w') /\ (100 = 0 -> w = two_bytes) /\
        match res with
        | Ok got => bytes = got /\ r = Z.of_nat (length got)
        | Err e => bytes = [] /\ r = read_code e
        end)).
Proof.
  apply (serial_read_outcomes script_signals 5 (with_tty two_bytes) (PosixHandle 64 3) tty 16 100).
  - exact script_clock_documented.
  - exact script_finite_signals.
  - apply Nat.ltb_lt. reflexivity.
  - reflexivity.
  - reflexivity.
  - discriminate.
Defined.

(** The documentation of [poll] on one descriptor without timeout: it does not
    return 0. *)
Definition poll_one_documented {W} `{Posix W} : Prop :=
  forall fd w n revents w', poll [(fd, POLLOUT)] (-1) w = (Ok (n, revents), w') -> n = 1.

Definition write_code (e : errno) : Z :=
  match e with EIO | ENXIO => HS_ERROR_IO | _ => HS_ERROR_SYSTEM end.

(** Writing to a serial port always returns, and its [assert] holds. An
    empty write does nothing; otherwise the result is what [write] says of the
    bytes of the buffer, once the port is writable: the number of bytes
    written, [HS_ERROR_IO] for an unplugged device, [HS_ERROR_SYSTEM]
    otherwise. *)
Theorem serial_write_outcomes {W} `{Posix W} signals fuel (s : st W) h d buf :
  poll_one_documented -> finite_signals signals -> (signals (s_world s) < fuel)%nat ->
  m_devs (s_mem s) !! ph_dev h = Some d -> dev_type d = HS_DEVICE_TYPE_SERIAL ->
  exists r s', hs_serial_write fuel h buf (Z.of_nat (length buf)) s = Done (r, s') /\
    s_mem s' = s_mem s /\
    ((buf = [] /\ r = 0 /\ s' = s) \/
     (exists e w w', poll [(ph_fd h, POLLOUT)] (-1) w = (Err e, w') /\ e <> EINTR /\
        r = write_code e) \/
     (exists res w w', write (ph_fd h) buf w = (res, w') /\
        r = match res with Ok n => n | Err e => write_code e end)).
Proof.
  intros Hp Hs Hf Hd Ht.
  assert (wp (hs_serial_write fuel h buf (Z.of_nat (length buf))) (fun r s' =>
    s_mem s' = s_mem s /\
    ((buf = [] /\ r = 0 /\ s' = s) \/
     (exists e w w', poll [(ph_fd h, POLLOUT)] (-1) w = (Err e, w') /\ e <> EINTR /\
        r = write_code e) \/
     (exists res w w', write (ph_fd h) buf w = (res, w') /\
        r = match res with Ok n => n | Err e => write_code e end))) s)
    as (r & s' & E & H1)%wp_inv; [|by exists r, s'].
  unfold hs_serial_write. wp_step. eapply wp_load_dev; [done|].
  wp_step. apply wp_assert; [by apply bool_decide_eq_true_2|].
  destruct (Z.eqb_spec (Z.of_nat (length buf)) 0) as [E0|E0].
  { wp_step. split; [done|]. left. destruct buf; [done|discriminate]. }
  wp_step. apply (wp_restart signals) with (I := fun s' => s_mem s' = s_mem s);
    [|done|done].
  intros s1 Hm. apply wp_os. intros res w E.
  pose proof (fs_poll _ Hs _ _ _ _ _ E) as [_ Hlt].
  assert (Hcode : forall e m, res = Err e -> e <> EINTR -> m = write_code e ->
    forall s2 : st W, s_mem s2 = s_mem s1 -> s_mem s2 = s_mem s /\
    ((buf = [] /\ m = 0 /\ s2 = s) \/
     (exists e w w', poll [(ph_fd h, POLLOUT)] (-1) w = (Err e, w') /\ e <> EINTR /\
        m = write_code e) \/
     (exists res w w', write (ph_fd h) buf w = (res, w') /\
        m = match res with Ok n => n | Err e => write_code e end))).
  { intros e m -> Hne -> s2 Hm2. split; [congruence|]. right. left. by exists e, (s_world s1), w. }
  destruct res as [[n revents]|e].
  - apply Hp in E as ->. wp_step. apply wp_assert; [done|]. wp_step. apply wp_os.
    intros res w1 E. rewrite Nat2Z.id, take_ge in E by lia.
    assert (Hout : forall m, m = match res with Ok n => n | Err e => write_code e end ->
      forall s2 : st W, s_mem s2 = s_mem s1 -> s_mem s2 = s_mem s /\
      ((buf = [] /\ m = 0 /\ s2 = s) \/
       (exists e w w', poll [(ph_fd h, POLLOUT)] (-1) w = (Err e, w') /\ e <> EINTR /\
          m = write_code e) \/
       (exists res w w', write (ph_fd h) buf w = (res, w') /\
          m = match res with Ok n => n | Err e => write_code e end))).
    { intros m -> s2 Hm2. split; [congruence|]. right. right.
      by exists res, (s_world (with_world (fun _ => w) s1)), w1. }
    destruct res as [n|[]]; try (apply wp_error; by apply Hout). wp_step. by apply Hout.
  - destruct e; try (apply wp_error; by eapply Hcode). split; [done|]. by apply Hlt.
Qed.

Lemma script_poll_one_documented : poll_one_documented (W := script).
Proof.
  intros fd w n revents w' E. cbn in E.
  destruct (default (Ok []) (head (sc_poll w))) as [l|e]; [|done].
  injection E as <- _ _. destruct l as [|v l]; [done|]. unfold deliver.
  change (report [(fd, 4)] (v :: l)) with [Z.land v 60]. cbn [forallb].
  unfold count_ready. destruct (Z.eqb_spec (Z.land v 60) 0) as [E0|E0]; [done|].
  cbn [andb Z.ltb]. by rewrite andb_false_r, filter_cons_True by done.
Qed.

Lemma serial_write_outcomes_witness :
  exists r s', hs_serial_write 5 (PosixHandle 64 3) [65; 66] 2
      (with_tty (Script [] [] [Err EINTR] [] [] [] [] [])) = Done (r, s') /\
    s_mem s' = s_mem (with_tty quiet) /\
    (([65; 66] = [] /\ r = 0 /\ s' = with_tty (Script [] [] [Err EINTR] [] [] [] [] [])) \/
     (exists e w w', poll [(3, POLLOUT)] (-1) w = (Err e, w') /\ e <> EINTR /\
        r = write_code e) \/
     (exists res w w', write 3 [65; 66] w = (res, w') /\
        r = match res with Ok n => n | Err e => write_code e end)).
Proof.
  apply (serial_write_outcomes script_signals 5
    (with_tty (Script [] [] [Err EINTR] [] [] [] [] [])) (PosixHandle 64 3) tty [65; 66]).
  - exact script_poll_one_documented.
  - exact script_finite_signals.
  - apply Nat.ltb_lt. reflexivity.
  - reflexivity.
  - reflexivity.
Defined.
