(* ===== verification/HidLinux.v ===== *)
(** HID devices on Linux: src/src/hid_linux.c. The report descriptor is the
    array the kernel fills; the loop that reads it goes byte by byte, with its
    bounds as accesses of that array. *)

From S2P Require Import Prelude Common State Posix Platform Device PosixDevice SerialPosix.

(** What [parse_descriptor] finds. *)
Record parsed := Parsed {
  numbered_reports : bool;
  usage_page : Z;
  usage : Z
}.

(** struct hs_handle of hid_linux.c; of the work buffer only the size matters,
    0 for NULL. *)
Record hidraw_handle := HidrawHandle {
  hh_dev : ptr;
  hh_fd : Z;
  hh_parsed : parsed;
  hh_buf_size : Z
}.

Section HidLinux.
Context {W : Type} `{Posix W}.
Variable fuel : nat.

Definition detect_kernel26_byte_bug : M (st W) bool :=
  let* init := load_static "init" in
  (if init =? 0 then
     let* v1 := hs_linux_version in
     let* bug := (if 20628000 <=? v1 then
                    let* v2 := hs_linux_version in
                    ret (v2 <? 20634000)
                  else ret false) in
     store_static "bug" (if bug : bool then 1 else 0) ;;;
     store_static "init" 1
   else ret tt) ;;;
  let* bug := load_static "bug" in
  ret (negb (bug =? 0)).

(** The data of an item, little endian. *)
Definition item_data (value : list Z) (i size : Z) : M (st W) Z :=
  if size =? 0 then ret 0
  else if size =? 1 then arr_get value (i + 1)
  else if size =? 2 then
    let* b2 := arr_get value (i + 2) in
    let* b1 := arr_get value (i + 1) in
    ret (Z.lor (u32 (Z.shiftl b2 8)) b1)
  else if size =? 4 then
    let* b4 := arr_get value (i + 4) in
    let* b3 := arr_get value (i + 3) in
    let* b2 := arr_get value (i + 2) in
    let* b1 := arr_get value (i + 1) in
    ret (u32 (Z.lor (Z.lor (Z.lor (Z.shiftl b4 24) (Z.shiftl b3 16)) (Z.shiftl b2 8)) b1))
  else ret 0.

(** The [switch] on the type of an item. *)
Definition item_effect (type data : Z) (dp : Z * parsed) : Z * parsed :=
  let '(collection_depth, h) := dp in
  if type =? 0xA0 then (u32 (collection_depth + 1), h)
  else if type =? 0xC0 then (u32 (collection_depth - 1), h)
  else if type =? 0x84 then (collection_depth, Parsed true (usage_page h) (usage h))
  else if type =? 0x04 then
    (collection_depth,
     if collection_depth =? 0 then Parsed (numbered_reports h) (u16 data) (usage h) else h)
  else if type =? 0x08 then
    (collection_depth,
     if collection_depth =? 0 then Parsed (numbered_reports h) (usage_page h) (u16 data) else h)
  else dp.

Fixpoint parse_descriptor_loop (path : option string) (value : list Z) (rsize : Z)
    (fuel : nat) (i size : Z) (dp : Z * parsed) : M (st W) parsed :=
  match fuel with
  | O => out_of_fuel
  | S fuel =>
      if rsize <=? i then ret dp.2
      else
        let* type := arr_get value i in
        if type =? 0xFE then
          let* size := (if i + 1 <? rsize then
                          let* v := arr_get value (i + 1) in
                          ret (v + 2)
                        else ret size) in
          parse_descriptor_loop path value rsize fuel (i + (size + 1)) size dp
        else
          let size := Z.land type 3 in
          let size := if size =? 3 then 4 else size in
          let type := Z.land type 0xFC in
          if rsize <=? i + size then
            zoom (hs_log HS_LOG_WARNING
                    ("Invalid HID descriptor for device '" +:+ str path +:+ "'")) ;;;
            ret dp.2
          else
            let* data := item_data value i size in
            parse_descriptor_loop path value rsize fuel (i + (size + 1)) size
              (item_effect type data dp)
  end.

Definition parse_descriptor (path : option string) (value : list Z) (rsize : Z)
    (h : parsed) : M (st W) parsed :=
  parse_descriptor_loop path value rsize (S (Z.to_nat rsize)) 0 0 (0, h).

(** * Opening and closing *)

Definition close_hidraw_device (h : option hidraw_handle) : M (st W) unit :=
  match h with
  | Some h =>
      os (close (hh_fd h)) ;;;
      hs_device_unref (hh_dev h)
  | None => ret tt
  end.

Definition hidraw_closes (vt : vtable_id) (h : option hidraw_handle) : M (st W) unit :=
  match vt with
  | _hs_linux_hid_vtable => close_hidraw_device h
  | _ => fail BadAccess
  end.

(** [error:] of [open_hidraw_device]. *)
Definition hidraw_error (r : Z) (h : option hidraw_handle)
    : M (st W) (Z * option hidraw_handle) :=
  hs_handle_close hh_dev hidraw_closes h ;;;
  ret (r, None).

Definition no_parsed : parsed := Parsed false 0 0.

Definition open_hidraw_device (dev : ptr) : M (st W) (Z * option hidraw_handle) :=
  let* ok := os malloc_ok in
  if negb ok then
    let* r := memory_error in
    hidraw_error r None
  else
    let* dev := hs_device_ref dev in
    let* d := load_dev dev in
    match dev_path d with
    | None => fail BadAccess
    | Some path =>
        let* fd := restart (os (open path)) fuel in
        match fd with
        | Err e =>
            let* r := open_failed e path in
            hidraw_error r (Some (HidrawHandle dev (-1) no_parsed 0))
        | Ok fd =>
            let h := HidrawHandle dev fd no_parsed 0 in
            let* size := os (ioctl_HIDIOCGRDESCSIZE fd) in
            match size with
            | Err e =>
                let* r := error HS_ERROR_SYSTEM
                  ("ioctl('" +:+ path +:+ "', HIDIOCGRDESCSIZE) failed: " +:+ strerror e) in
                hidraw_error r (Some h)
            | Ok size =>
                let rsize := u32 size in
                let* value := os (ioctl_HIDIOCGRDESC fd rsize) in
                match value with
                | Err e =>
                    let* r := error HS_ERROR_SYSTEM
                      ("ioctl('" +:+ path +:+ "', HIDIOCGRDESC) failed: " +:+ strerror e) in
                    hidraw_error r (Some h)
                | Ok value =>
                    let* p := parse_descriptor (dev_path d) value rsize no_parsed in
                    ret (0, Some (HidrawHandle dev fd p 0))
                end
            end
        end
    end.

Definition get_hidraw_descriptor (h : hidraw_handle) : M (st W) Z := ret (hh_fd h).

(** * Reports *)

Definition hid_handle_dev (h : hidraw_handle) : M (st W) hs_device :=
  let* d := load_dev (hh_dev h) in
  assert_ (bool_decide (dev_type d = HS_DEVICE_TYPE_HID)) ;;;
  ret d.

Definition hs_hid_parse_descriptor (h : hidraw_handle) : M (st W) (Z * (Z * Z)) :=
  let* _ := hid_handle_dev h in
  ret (0, (usage_page (hh_parsed h), usage (hh_parsed h))).

(** The work buffer of the kernel 2.6 case is grown; [None] when there is no
    memory for it. *)
Definition grow_buf (h : hidraw_handle) (size : Z) : M (st W) (option hidraw_handle) :=
  if hh_buf_size h <? u64 (size + 1) then
    let* ok := os malloc_ok in
    if ok : bool then
      ret (Some (HidrawHandle (hh_dev h) (hh_fd h) (hh_parsed h) (u64 (size + 1))))
    else ret None
  else ret (Some h).

(** The read proper: what [read] returned, corrected, and the bytes at the
    start of [buf]. *)
Definition hid_read_buf (h : hidraw_handle) (size : Z)
    : M (st W) (option hidraw_handle * sys (Z * list Z)) :=
  if numbered_reports (hh_parsed h) then
    let* bug := detect_kernel26_byte_bug in
    if bug : bool then
      let* h := grow_buf h size in
      match h with
      | None => ret (None, Ok (0, []))
      | Some h =>
          let* r := os (read (hh_fd h) (u64 (size + 1))) in
          ret (Some h, match r with
                       | Ok [] => Ok (0, [])
                       | Ok (b :: bytes) => Ok (Z.of_nat (length bytes), bytes)
                       | Err e => Err e
                       end)
      end
    else
      let* r := os (read (hh_fd h) size) in
      ret (Some h, match r with
                   | Ok bytes => Ok (Z.of_nat (length bytes), bytes)
                   | Err e => Err e
                   end)
  else
    let* r := os (read (hh_fd h) (size - 1)) in
    ret (Some h, match r with
                 | Ok [] => Ok (0, [])
                 | Ok bytes => Ok (Z.of_nat (length bytes) + 1, 0 :: bytes)
                 | Err e => Err e
                 end).

(** The result, the bytes at the start of [buf] and the handle. *)
Definition hs_hid_read (h : hidraw_handle) (size timeout : Z)
    : M (st W) (Z * (list Z * hidraw_handle)) :=
  let* d := hid_handle_dev h in
  assert_ (negb (size =? 0)) ;;;
  let* r := wait_readable fuel (dev_path d) (hh_fd h) timeout in
  match r with
  | Some r => ret (r, ([], h))
  | None =>
      let* hr := hid_read_buf h size in
      match hr with
      | (None, _) =>
          let* r := memory_error in
          ret (r, ([], HidrawHandle (hh_dev h) (hh_fd h) (hh_parsed h) 0))
      | (Some h, Err e) =>
          let* r := read_failed e (dev_path d) in
          ret (r, ([], h))
      | (Some h, Ok (r, bytes)) => ret (r, (bytes, h))
      end
  end.

(** The [switch] after a failed [write] or [ioctl] on a report. *)
Definition report_failed (e : errno) (io other : string) : M (st W) Z :=
  match e with
  | EIO | ENXIO => error HS_ERROR_IO io
  | _ => error HS_ERROR_SYSTEM (other +:+ strerror e)
  end.

Definition hs_hid_write (h : hidraw_handle) (buf : list Z) : M (st W) Z :=
  let* d := hid_handle_dev h in
  if Z.of_nat (length buf) <? 2 then ret 0
  else
    let* r := restart (os (write (hh_fd h) buf)) fuel in
    match r with
    | Err e => report_failed e (quoted "I/O error while writing to " (dev_path d) "")
                 ("write('" +:+ str (dev_path d) +:+ "') failed: ")
    | Ok n => ret n
    end.

(** The result and the final content of [buf]. *)
Definition hs_hid_get_feature_report (h : hidraw_handle) (report_id : Z) (buf : list Z)
    : M (st W) (Z * list Z) :=
  let* d := hid_handle_dev h in
  assert_ (negb (Z.of_nat (length buf) =? 0)) ;;;
  let* buf := (if 2 <=? Z.of_nat (length buf) then arr_set buf 1 report_id else ret buf) in
  let* r := restart (os (ioctl_HIDIOCGFEATURE (hh_fd h) (tail buf))) fuel in
  match r with
  | Err e =>
      let* r := report_failed e (quoted "I/O error while reading from " (dev_path d) "")
                  ("ioctl('" +:+ str (dev_path d) +:+ "', HIDIOCGFEATURE) failed: ") in
      ret (r, buf)
  | Ok bytes =>
      ret (Z.of_nat (length bytes) + 1,
           report_id :: bytes ++ drop (length bytes) (tail buf))
  end.

Definition hs_hid_send_feature_report (h : hidraw_handle) (buf : list Z) : M (st W) Z :=
  let* d := hid_handle_dev h in
  if Z.of_nat (length buf) <? 2 then ret 0
  else
    let* r := restart (os (ioctl_HIDIOCSFEATURE (hh_fd h) buf)) fuel in
    match r with
    | Err e => report_failed e (quoted "I/O error while writing to " (dev_path d) "")
                 ("ioctl('" +:+ str (dev_path d) +:+ "', HIDIOCSFEATURE) failed: ")
    | Ok n => ret n
    end.
End HidLinux.

(** * Safety of the descriptor parser *)

Section Safety.
Context {W : Type}.
Implicit Types s : st W.

Definition bytes_ok (value : list Z) : Prop := Forall (fun b => 0 <= b < 256) value.

Lemma arr_get_in {A} (value : list A) i s : 0 <= i < Z.of_nat (length value) ->
  exists b, arr_get value i s = Done (b, s) /\ value !! Z.to_nat i = Some b.
Proof.
  intros Hi. destruct (lookup_lt_is_Some_2 value (Z.to_nat i)) as [b Hb]; [lia|].
  exists b. split; [|done]. rewrite <- (Z2Nat.id i) by lia. by apply arr_get_eq.
Qed.

Lemma wp_arr_get {A} (Q : A -> st W -> Prop) (value : list A) i s :
  0 <= i < Z.of_nat (length value) ->
  (forall b, value !! Z.to_nat i = Some b -> Q b s) -> wp (arr_get value i) Q s.
Proof. intros Hi HQ. destruct (arr_get_in value i s Hi) as (b & E & Hb). eapply wp_intro; eauto. Qed.

Lemma wp_item_data (Q : Z -> st W -> Prop) value i size s :
  0 <= i -> 0 <= size -> i + size < Z.of_nat (length value) ->
  (forall data, Q data s) -> wp (item_data value i size) Q s.
Proof.
  intros Hi Hs Hl HQ. unfold item_data.
  repeat case_match; wp_steps; try apply HQ;
    repeat (apply wp_arr_get; [lia|intros ? _]; wp_steps); apply HQ.
Qed.

Lemma parse_loop_total path value rsize fuel i size dp s :
  bytes_ok value -> rsize <= Z.of_nat (length value) -> 0 <= i -> 0 <= size ->
  (Z.to_nat (rsize - i) < fuel)%nat ->
  wp (parse_descriptor_loop path value rsize fuel i size dp)
    (fun p s' => s_mem s' = s_mem s /\ s_world s' = s_world s) s.
Proof.
  intros Hb Hl. revert i size dp. induction fuel as [|fuel IH]; intros i size dp Hi Hs Hf; [lia|].
  cbn [parse_descriptor_loop]. destruct (Z.leb_spec rsize i); [by wp_step|].
  wp_step. apply wp_arr_get; [lia|]. intros type Htype.
  assert (0 <= type < 256) as Hty.
  { unfold bytes_ok in Hb. rewrite Forall_forall in Hb. apply Hb.
    by eapply list_elem_of_lookup_2. }
  destruct (Z.eqb_spec type 0xFE).
  - wp_step. destruct (Z.ltb_spec (i + 1) rsize).
    + wp_step. apply wp_arr_get; [lia|]. intros v Hv. wp_step.
      assert (0 <= v < 256).
      { unfold bytes_ok in Hb. rewrite Forall_forall in Hb. apply Hb.
        by eapply list_elem_of_lookup_2. }
      apply IH; lia.
    + wp_step. apply IH; lia.
  - cbn zeta. assert (0 <= (if Z.land type 3 =? 3 then 4 else Z.land type 3)) as Hsz.
    { case_match; [lia|]. apply Z.land_nonneg. lia. }
    set (sz := if Z.land type 3 =? 3 then 4 else Z.land type 3) in *.
    destruct (Z.leb_spec rsize (i + sz)).
    + wp_step. apply wp_zoom, wp_hs_log. by wp_step.
    + wp_step. apply wp_item_data; [lia|lia|lia|]. intros data. apply IH; lia.
Qed.
End Safety.

(** * Items *)

(** The items of the HID specification. [Short tag sz data]: a prefix with the
    tag and type bits [tag] and the size code [sz]. *)
Inductive hid_item :=
  | Short (tag sz data : Z)
  | Long (tag : Z) (bytes : list Z).

Definition data_size (sz : Z) : nat := if sz =? 3 then 4 else Z.to_nat sz.

Fixpoint le_bytes (n : nat) (data : Z) : list Z :=
  match n with
  | O => []
  | S n => data mod 256 :: le_bytes n (data / 256)
  end.

Definition encode_item (it : hid_item) : list Z :=
  match it with
  | Short tag sz data => (tag + sz) :: le_bytes (data_size sz) data
  | Long tag bytes => 0xFE :: Z.of_nat (length bytes) :: tag :: bytes
  end.
Definition encode (its : list hid_item) : list Z := concat (encode_item <$> its).

Definition item_ok (it : hid_item) : Prop :=
  match it with
  | Short tag sz data =>
      (exists t, 0 <= t < 64 /\ tag = 4 * t) /\ 0 <= sz < 4 /\
      0 <= data < 256 ^ Z.of_nat (data_size sz) /\ tag + sz <> 0xFE
  | Long tag bytes => (length bytes < 256)%nat
  end.

Definition step_item (it : hid_item) (dp : Z * parsed) : Z * parsed :=
  match it with
  | Short tag _ data => item_effect tag data dp
  | Long _ _ => dp
  end.

Definition interp (its : list hid_item) (dp : Z * parsed) : Z * parsed :=
  foldl (fun dp it => step_item it dp) dp its.

Section Decode.
Context {W : Type}.
Implicit Types s : st W.

Lemma length_le_bytes n d : length (le_bytes n d) = n.
Proof. revert d. induction n as [|n IH]; intros d; cbn; [done|]. by rewrite IH. Qed.

Lemma prefix_split t sz : 0 <= t < 64 -> 0 <= sz < 4 ->
  Z.land (4 * t + sz) 3 = sz /\ Z.land (4 * t + sz) 0xFC = 4 * t.
Proof.
  intros Ht Hsz.
  assert (t ∈ seqZ 0 64) as H1 by (apply elem_of_seqZ; lia).
  assert (sz ∈ seqZ 0 4) as H2 by (apply elem_of_seqZ; lia).
  clear Ht Hsz. revert sz H2. apply Forall_forall. revert t H1. apply Forall_forall.
  apply (bool_decide_unpack _). by vm_compute.
Qed.

(** Disjoint bytes: [lor] is addition. *)
Lemma lor_shift a b n : 0 <= n -> 0 <= b < 2 ^ n -> Z.lor (Z.shiftl a n) b = a * 2 ^ n + b.
Proof.
  intros Hn Hb. rewrite Z.shiftl_mul_pow2 by done.
  assert (Hland : Z.land (a * 2 ^ n) b = 0).
  { apply Z.bits_inj'. intros i Hi. rewrite Z.land_spec, Z.bits_0.
    destruct (Z.ltb_spec i n).
    - by rewrite Z.mul_pow2_bits_low by lia.
    - destruct (Z.eq_dec b 0) as [->|]; [by rewrite Z.bits_0, andb_false_r|].
      rewrite (Z.bits_above_log2 b), andb_false_r; [done|lia|].
      eapply Z.lt_le_trans; [|exact H]. apply Z.log2_lt_pow2; lia. }
  rewrite <- Z.lxor_lor by done. by rewrite <- Z.add_nocarry_lxor.
Qed.

Lemma get_middle {A} (pre : list A) x suf s (k : Z) : k = Z.of_nat (length pre) ->
  arr_get (pre ++ x :: suf) k s = Done (x, s).
Proof. intros ->. apply arr_get_eq. by apply list_lookup_middle. Qed.

Lemma lor_bytes b4 b3 b2 b1 : 0 <= b3 < 256 -> 0 <= b2 < 256 -> 0 <= b1 < 256 ->
  Z.lor (Z.lor (Z.lor (Z.shiftl b4 24) (Z.shiftl b3 16)) (Z.shiftl b2 8)) b1 =
    ((b4 * 256 + b3) * 256 + b2) * 256 + b1.
Proof.
  intros. change 24 with (8 + 16). rewrite <- Z.shiftl_shiftl, <- Z.shiftl_lor by lia.
  change 16 with (8 + 8). rewrite <- Z.shiftl_shiftl, <- Z.shiftl_lor by lia.
  by rewrite !lor_shift by lia.
Qed.

Lemma item_data_eq pre p sz data suf s :
  0 <= sz < 4 -> 0 <= data < 256 ^ Z.of_nat (data_size sz) ->
  item_data (pre ++ p :: le_bytes (data_size sz) data ++ suf) (Z.of_nat (length pre))
    (Z.of_nat (data_size sz)) s = Done (data, s).
Proof.
  intros Hsz Hd. assert (sz = 0 \/ sz = 1 \/ sz = 2 \/ sz = 3) as H by lia.
  assert (Hget : forall l1 x l2, p :: le_bytes (data_size sz) data ++ suf = l1 ++ x :: l2 ->
    forall k, k = Z.of_nat (length pre) + Z.of_nat (length l1) ->
    arr_get (pre ++ p :: le_bytes (data_size sz) data ++ suf) k s = Done (x, s)).
  { intros l1 x l2 -> k ->. rewrite app_assoc. apply get_middle. rewrite length_app. lia. }
  unfold item_data, bind. destruct H as [->|[->|[->| ->]]].
  - change (256 ^ Z.of_nat (data_size 0)) with 1 in Hd.
    change (Z.of_nat (data_size 0)) with 0. cbn [Z.eqb]. unfold ret. repeat f_equal. lia.
  - change (256 ^ Z.of_nat (data_size 1)) with 256 in Hd.
    change (Z.of_nat (data_size 1)) with 1. cbn [Z.eqb Pos.eqb].
    rewrite (Hget [p] (data mod 256) suf) by (done || cbn; lia). by rewrite Z.mod_small.
  - change (256 ^ Z.of_nat (data_size 2)) with 65536 in Hd.
    change (Z.of_nat (data_size 2)) with 2. cbn [Z.eqb Pos.eqb].
    rewrite (Hget [p; data mod 256] (data / 256 mod 256) suf),
      (Hget [p] (data mod 256) (data / 256 mod 256 :: suf)) by (done || cbn; lia).
    unfold ret. rewrite u32_small, lor_shift by
      (rewrite ?Z.shiftl_mul_pow2 by lia; zdiv). repeat f_equal. zdiv.
  - change (256 ^ Z.of_nat (data_size 3)) with 4294967296 in Hd.
    change (Z.of_nat (data_size 3)) with 4. cbn [Z.eqb Pos.eqb].
    set (b1 := data mod 256). set (d2 := data / 256).
    set (b2 := d2 mod 256). set (d3 := d2 / 256).
    set (b3 := d3 mod 256). set (b4 := d3 / 256 mod 256).
    rewrite (Hget [p; b1; b2; b3] b4 suf), (Hget [p; b1; b2] b3 (b4 :: suf)),
      (Hget [p; b1] b2 (b3 :: b4 :: suf)), (Hget [p] b1 (b2 :: b3 :: b4 :: suf))
      by (done || cbn; lia).
    unfold ret. rewrite lor_bytes by (subst b1 b2 b3; zdiv).
    rewrite u32_small by (subst b1 b2 b3 b4 d2 d3; zdiv).
    repeat f_equal. subst b1 b2 b3 b4 d2 d3. zdiv.
Qed.

Lemma parse_short path pre tag sz data suf fuel size dp s : item_ok (Short tag sz data) ->
  parse_descriptor_loop path (pre ++ encode_item (Short tag sz data) ++ suf)
    (Z.of_nat (length (pre ++ encode_item (Short tag sz data) ++ suf)))
    (S fuel) (Z.of_nat (length pre)) size dp s =
  parse_descriptor_loop path (pre ++ encode_item (Short tag sz data) ++ suf)
    (Z.of_nat (length (pre ++ encode_item (Short tag sz data) ++ suf)))
    fuel (Z.of_nat (length (pre ++ encode_item (Short tag sz data))))
    (Z.of_nat (data_size sz)) (item_effect tag data dp) s.
Proof.
  intros ((t & Ht & ->) & Hsz & Hd & Hfe). cbn [parse_descriptor_loop encode_item app].
  assert (Z.of_nat (length (pre ++ (4 * t + sz :: le_bytes (data_size sz) data ++ suf))) =
    Z.of_nat (length pre) + 1 + Z.of_nat (data_size sz) + Z.of_nat (length suf)) as Hlen.
  { rewrite length_app. cbn [length]. rewrite length_app, length_le_bytes. lia. }
  destruct (Z.leb_spec (Z.of_nat (length (pre ++ (4 * t + sz :: le_bytes (data_size sz) data ++ suf))))
    (Z.of_nat (length pre))); [lia|].
  unfold bind at 1. rewrite get_middle by done.
  rewrite (proj2 (Z.eqb_neq _ _)) by done.
  destruct (prefix_split t sz Ht Hsz) as [-> ->]. cbn zeta.
  assert ((if sz =? 3 then 4 else sz) = Z.of_nat (data_size sz)) as ->.
  { unfold data_size. destruct (Z.eqb_spec sz 3); lia. }
  rewrite (proj2 (Z.leb_gt _ _)) by lia.
  unfold bind at 1. rewrite item_data_eq by done.
  f_equal. rewrite length_app. cbn [length]. rewrite length_le_bytes. lia.
Qed.

Lemma parse_long path pre tag bytes suf fuel size dp s : item_ok (Long tag bytes) ->
  exists size',
  parse_descriptor_loop path (pre ++ encode_item (Long tag bytes) ++ suf)
    (Z.of_nat (length (pre ++ encode_item (Long tag bytes) ++ suf)))
    (S fuel) (Z.of_nat (length pre)) size dp s =
  parse_descriptor_loop path (pre ++ encode_item (Long tag bytes) ++ suf)
    (Z.of_nat (length (pre ++ encode_item (Long tag bytes) ++ suf)))
    fuel (Z.of_nat (length (pre ++ encode_item (Long tag bytes)))) size' dp s.
Proof.
  intros Hb. cbn in Hb. exists (Z.of_nat (length bytes) + 2).
  cbn [parse_descriptor_loop encode_item app].
  set (all := pre ++ _).
  assert (Z.of_nat (length all) =
    Z.of_nat (length pre) + 3 + Z.of_nat (length bytes) + Z.of_nat (length suf)) as Hlen.
  { unfold all. rewrite length_app. cbn [length]. rewrite length_app. lia. }
  rewrite (proj2 (Z.leb_gt _ _)) by lia.
  unfold bind at 1. unfold all at 1. rewrite get_middle by done. cbn [Z.eqb Pos.eqb].
  rewrite (proj2 (Z.ltb_lt _ _)) by lia. unfold bind.
  assert (arr_get all (Z.of_nat (length pre) + 1) s = Done (Z.of_nat (length bytes), s)) as ->.
  { unfold all. change (254 :: Z.of_nat (length bytes) :: tag :: bytes ++ suf)
      with ([254] ++ Z.of_nat (length bytes) :: tag :: bytes ++ suf).
    rewrite app_assoc. apply get_middle. rewrite length_app. cbn [length]. lia. }
  unfold ret. f_equal. rewrite length_app. cbn [length]. lia.
Qed.

(** On the encoding of a list of items the loop reads exactly these items. *)
Lemma parse_loop_items path its : Forall item_ok its -> forall pre fuel size dp s,
  (length its < fuel)%nat ->
  parse_descriptor_loop path (pre ++ encode its) (Z.of_nat (length (pre ++ encode its)))
    fuel (Z.of_nat (length pre)) size dp s = Done ((interp its dp).2, s).
Proof.
  induction 1 as [|it its Hit _ IH]; intros pre fuel size dp s Hf;
    (destruct fuel as [|fuel]; [cbn in Hf; lia|]).
  - cbn [encode fmap list_fmap concat]. rewrite app_nil_r. cbn [parse_descriptor_loop].
    by rewrite Z.leb_refl.
  - cbn in Hf. unfold encode in *. cbn [fmap list_fmap concat].
    assert (exists size', parse_descriptor_loop path
      (pre ++ encode_item it ++ concat (encode_item <$> its))
      (Z.of_nat (length (pre ++ encode_item it ++ concat (encode_item <$> its))))
      (S fuel) (Z.of_nat (length pre)) size dp s =
      parse_descriptor_loop path (pre ++ encode_item it ++ concat (encode_item <$> its))
      (Z.of_nat (length (pre ++ encode_item it ++ concat (encode_item <$> its))))
      fuel (Z.of_nat (length (pre ++ encode_item it))) size' (step_item it dp) s) as [size' ->].
    { destruct it as [tag sz data|tag bytes]; [|by apply parse_long].
      eexists. by apply parse_short. }
    rewrite app_assoc. rewrite IH by lia. done.
Qed.

Lemma length_encode its : (length its <= length (encode its))%nat.
Proof.
  unfold encode. induction its as [|it its IH]; cbn; [lia|]. rewrite length_app.
  destruct it; cbn; lia.
Qed.

Lemma parse_items path its h s : Forall item_ok its ->
  parse_descriptor path (encode its) (Z.of_nat (length (encode its))) h s =
    Done ((interp its (0, h)).2, s).
Proof.
  intros Hok. unfold parse_descriptor. apply (parse_loop_items path its Hok []).
  pose proof (length_encode its). lia.
Qed.
End Decode.

(** * Collections *)

(** A descriptor with balanced collections, whose items are at any depth. *)
Inductive forest :=
  | FEnd
  | FItem (it : hid_item) (rest : forest)
  | FCollection (sz data : Z) (inside rest : forest).

Fixpoint flatten (f : forest) : list hid_item :=
  match f with
  | FEnd => []
  | FItem it rest => it :: flatten rest
  | FCollection sz data inside rest =>
      Short 0xA0 sz data :: flatten inside ++ Short 0xC0 0 0 :: flatten rest
  end.

Fixpoint depth (f : forest) : nat :=
  match f with
  | FEnd => 0
  | FItem _ rest => depth rest
  | FCollection _ _ inside rest => Nat.max (S (depth inside)) (depth rest)
  end.

Definition tag_of (it : hid_item) : Z := match it with Short tag _ _ => tag | Long _ _ => -1 end.
Definition data_of (it : hid_item) : Z := match it with Short _ _ data => data | Long _ _ => 0 end.

Fixpoint forest_ok (f : forest) : Prop :=
  match f with
  | FEnd => True
  | FItem it rest =>
      item_ok it /\ tag_of it <> 0xA0 /\ tag_of it <> 0xC0 /\ forest_ok rest
  | FCollection sz data inside rest =>
      item_ok (Short 0xA0 sz data) /\ forest_ok inside /\ forest_ok rest
  end.

(** The items with the tag [tag] outside every collection. *)
Fixpoint top_items (tag : Z) (f : forest) : list hid_item :=
  match f with
  | FEnd => []
  | FItem it rest =>
      (if tag_of it =? tag then [it] else []) ++ top_items tag rest
  | FCollection _ _ _ rest => top_items tag rest
  end.

(** Whether there is a Report ID item, in a collection or not. *)
Definition has_report_id (f : forest) : bool :=
  existsb (fun it => tag_of it =? 0x84) (flatten f).

Definition last_data (its : list hid_item) (default : Z) : Z :=
  foldl (fun _ it => u16 (data_of it)) default its.

Lemma interp_app a b dp : interp (a ++ b) dp = interp b (interp a dp).
Proof. apply foldl_app. Qed.

Lemma interp_forest f : forall d h, forest_ok f -> 0 <= d -> d + Z.of_nat (depth f) < 2 ^ 32 ->
  interp (flatten f) (d, h) =
    (d, Parsed (numbered_reports h || has_report_id f)
          (if d =? 0 then last_data (top_items 0x04 f) (usage_page h) else usage_page h)
          (if d =? 0 then last_data (top_items 0x08 f) (usage h) else usage h)).
Proof.
  unfold has_report_id.
  induction f as [|it rest IH|sz data inside IHi rest IHr]; intros d h Hok Hd Hdep.
  - cbn. rewrite orb_false_r. destruct h; by destruct (d =? 0).
  - destruct Hok as (Hit & Ha & Hc & Hok). cbn [flatten interp foldl top_items existsb].
    fold (interp (flatten rest) (step_item it (d, h))).
    cbn [depth] in Hdep. destruct it as [tag sz data|tag bytes]; cbn [step_item tag_of] in *.
    + unfold item_effect. rewrite (proj2 (Z.eqb_neq _ _) Ha), (proj2 (Z.eqb_neq _ _) Hc).
      destruct (Z.eqb_spec tag 0x84) as [->|].
      { rewrite IH by done. cbn. by rewrite orb_true_r. }
      destruct (Z.eqb_spec tag 0x04) as [->|].
      { rewrite IH by done. cbn. destruct (Z.eqb_spec d 0); done. }
      destruct (Z.eqb_spec tag 0x08) as [->|].
      { rewrite IH by done. cbn. destruct (Z.eqb_spec d 0); done. }
      rewrite IH by done. cbn. done.
    + by rewrite IH.
  - destruct Hok as (_ & Hin & Hok). cbn [depth] in Hdep.
    cbn [flatten]. change (Short 0xA0 sz data :: ?l) with ([Short 0xA0 sz data] ++ l).
    rewrite interp_app, interp_app. cbn [interp foldl step_item item_effect Z.eqb Pos.eqb].
    rewrite u32_small by lia.
    fold (interp (flatten inside) (d + 1, h)). rewrite IHi by (done || lia).
    rewrite (proj2 (Z.eqb_neq (d + 1) 0)) by lia.
    cbn [step_item item_effect Z.eqb Pos.eqb]. rewrite Z.add_simpl_r, u32_small by lia.
    fold (interp (flatten rest)). 
    etrans; [apply IHr; done || lia|].
    cbn [top_items numbered_reports usage usage_page]. f_equal. f_equal.
    cbn [app existsb tag_of Z.eqb Pos.eqb orb]. rewrite existsb_app. cbn.
    by rewrite orb_assoc.
Qed.

Lemma flatten_ok f : forest_ok f -> Forall item_ok (flatten f).
Proof.
  induction f as [|it rest IH|sz data inside IHi rest IHr]; cbn [forest_ok flatten]; intros Hok.
  - done.
  - destruct Hok as (? & _ & _ & ?). constructor; auto.
  - destruct Hok as (? & ? & ?). constructor; [done|]. apply Forall_app. split; [auto|].
    constructor; [|auto]. split_and!; cbn; try lia. by exists 48.
Qed.


(** C25: the descriptor parser on well-formed descriptors. It finds the usage
    page and the usage of the last such items outside every collection,
    truncated to 16 bits, and whether there is a report ID item at any depth.
    Item data of 0, 1, 2 and 4 bytes and long items are decoded exactly. *)
Theorem hid_parse_descriptor_correct {W} path f (s : st W) :
  forest_ok f -> Z.of_nat (depth f) < 2 ^ 32 ->
  parse_descriptor path (encode (flatten f)) (Z.of_nat (length (encode (flatten f))))
    no_parsed s =
  Done (Parsed (has_report_id f) (last_data (top_items 0x04 f) 0)
          (last_data (top_items 0x08 f) 0), s).
Proof.
  intros Hok Hd. rewrite parse_items by by apply flatten_ok.
  rewrite interp_forest by (done || lia). done.
Qed.

(** A keyboard, with a report ID, and a vendor page with a 4-byte usage. *)
Definition keyboard : forest :=
  FItem (Short 0x04 1 1) (FItem (Short 0x08 1 6)
    (FCollection 1 1
       (FItem (Short 0x84 1 2) (FItem (Short 0x04 1 7) (FItem (Long 3 [1; 2]) FEnd)))
       (FItem (Short 0x08 3 0x12345) FEnd))).

Lemma hid_parse_descriptor_correct_witness :
  parse_descriptor None
    [5; 1; 9; 6; 0xA1; 1; 0x85; 2; 5; 7; 0xFE; 2; 3; 1; 2; 0xC0; 0x0B; 0x45; 0x23; 1; 0]
    21 no_parsed (scripted quiet) = Done (Parsed true 1 0x2345, scripted quiet).
Proof.
  apply (hid_parse_descriptor_correct None keyboard).
  - cbn. repeat split; try lia; try discriminate.
    all: first [by exists 1|by exists 2|by exists 40|by exists 33].
  - reflexivity.
Defined.

(** C35: the descriptor parser on any bytes. It stays inside the array of the
    descriptor, ends, and changes nothing but the log. *)
Theorem hid_parse_descriptor_safe {W} path value rsize h (s : st W) :
  bytes_ok value -> rsize <= Z.of_nat (length value) ->
  exists p s', parse_descriptor path value rsize h s = Done (p, s') /\
    s_mem s' = s_mem s /\ s_world s' = s_world s.
Proof.
  intros Hb Hl. apply wp_inv. unfold parse_descriptor. apply parse_loop_total; [done|done|lia..].
Qed.

(** A descriptor that stops in the middle of an item. *)
Lemma hid_parse_descriptor_safe_witness :
  exists p s', parse_descriptor None [5; 1; 0xFE; 0; 0; 0x0B; 1] 7 no_parsed (scripted quiet) =
      Done (p, s') /\
    s_mem s' = s_mem (scripted quiet) /\ s_world s' = quiet.
Proof.
  apply (hid_parse_descriptor_safe None [5; 1; 0xFE; 0; 0; 0x0B; 1] 7 no_parsed (scripted quiet)).
  - repeat constructor; lia.
  - discriminate.
Defined.

(** An End Collection item without a collection: the unsigned depth wraps
    around, and the usages after it are ignored. *)
Example end_collection_underflow :
  parse_descriptor None [0xC0; 5; 1; 9; 6] 5 no_parsed (scripted quiet) =
    Done (no_parsed, scripted quiet).
Proof. reflexivity. Qed.

(** * Reports *)

Section Reports.
Context {W : Type} `{Posix W}.
Implicit Types s : st W.

(** Whether [detect_kernel26_byte_bug] found the bug. *)
Definition kernel_bug s : bool := negb (static "bug" s =? 0).

Lemma linux_version_eq s : exists v s', hs_linux_version s = Done (v, s') /\
  s_world s' = s_world s /\ same_objects s s' /\ static "init" s' = static "init" s /\
  (v <> 0 -> static "version" s' = v).
Proof.
  unfold hs_linux_version, bind, load_static.
  destruct (Z.eqb_spec (static "version" s) 0) as [E|E]; cbn [negb].
  - unfold get. destruct (if 3 <=? _ then _ else _) as [release patch].
    eexists _, _. split; [done|]. split; [done|]. split; [done|].
    unfold static. cbn. rewrite lookup_insert_eq, lookup_insert_ne by done. done.
  - exists (static "version" s), s. done.
Qed.

Lemma flag_bool (b : bool) : negb ((if b then 1 else 0) =? 0) = b.
Proof. by destruct b. Qed.

(** The bug is in Linux 2.6.28 to 2.6.33; the version is read once. *)
Lemma detect_kernel26_byte_bug_eq s : static "init" s = 0 ->
  exists v s1 s', hs_linux_version s = Done (v, s1) /\
    detect_kernel26_byte_bug s = Done ((20628000 <=? v) && (v <? 20634000), s') /\
    kernel_bug s' = (20628000 <=? v) && (v <? 20634000) /\ static "init" s' = 1 /\
    s_world s' = s_world s /\ same_objects s s'.
Proof.
  intros Hi. destruct (linux_version_eq s) as (v & s1 & E & Hw & Hs & Hi1 & Hv).
  unfold detect_kernel26_byte_bug, load_static. unfold bind at 1. rewrite Hi. cbn [Z.eqb].
  unfold bind at 1. unfold bind at 1. rewrite E.
  assert (hs_linux_version s1 = Done (v, s1) \/ v = 0) as Hv2.
  { destruct (Z.eq_dec v 0) as [|Hne]; [by right|]. left.
    unfold hs_linux_version, bind, load_static. rewrite (Hv Hne).
    by rewrite (proj2 (Z.eqb_neq _ _) Hne). }
  set (b := (20628000 <=? v) && (v <? 20634000)).
  exists v, s1, (with_statics <["init" := 1]>
    (with_statics <["bug" := if b then 1 else 0]> s1)).
  split; [done|].
  assert (static "bug" (with_statics <["init" := 1]>
    (with_statics <["bug" := if b then 1 else 0]> s1)) = if b then 1 else 0) as Hbug.
  { unfold static. cbn. by rewrite lookup_insert_ne, lookup_insert_eq. }
  split; [|split; [unfold kernel_bug; rewrite Hbug; apply flag_bool|]].
  - assert (bind (if 20628000 <=? v then
        let* v2 := hs_linux_version in ret (v2 <? 20634000) else ret false)
      (fun bug => store_static "bug" (if bug : bool then 1 else 0) ;;; store_static "init" 1) s1 =
      Done (tt, with_statics <["init" := 1]>
        (with_statics <["bug" := if b then 1 else 0]> s1))) as ->.
    { unfold b. destruct (Z.leb_spec 20628000 v); [|done].
      destruct Hv2 as [Hv2| ->]; [|lia]. unfold bind at 1, bind at 1. by rewrite Hv2. }
    unfold bind. rewrite Hbug. by rewrite flag_bool.
  - split; [unfold static; cbn; by rewrite lookup_insert_eq|]. by split.
Qed.

Lemma wp_detect (Q : bool -> st W -> Prop) s :
  (forall s', s_world s' = s_world s -> same_objects s s' -> Q (kernel_bug s') s') ->
  wp detect_kernel26_byte_bug Q s.
Proof.
  intros HQ. destruct (Z.eq_dec (static "init" s) 0) as [Hi|Hi].
  - destruct (detect_kernel26_byte_bug_eq s Hi) as (v & s1 & s' & _ & E & Hb & _ & Hw & Hs).
    eapply wp_intro; [exact E|]. rewrite <- Hb. by apply HQ.
  - eapply wp_intro; [|apply (HQ s); by repeat split].
    unfold detect_kernel26_byte_bug, bind, load_static.
    by rewrite (proj2 (Z.eqb_neq _ _) Hi).
Qed.

(** The documentation of [read]: no more bytes than asked for. *)
Definition read_documented : Prop :=
  forall fd n w bytes w', 0 <= n -> read fd n w = (Ok bytes, w') ->
    Z.of_nat (length bytes) <= n.

(** What the caller gets of the bytes of one report the kernel delivered: the
    report ID first, 0 for a device without. *)
Definition framed (numbered bug : bool) (got : list Z) : list Z :=
  match numbered, bug, got with
  | true, true, got => tail got
  | true, false, got => got
  | false, _, [] => []
  | false, _, got => 0 :: got
  end.
(** The bytes asked of the kernel for a buffer of [size]. *)
Definition asked (numbered bug : bool) (size : Z) : Z :=
  match numbered, bug with
  | true, true => size + 1
  | true, false => size
  | false, _ => size - 1
  end.

Definition same_handle (h h' : hidraw_handle) : Prop :=
  hh_dev h' = hh_dev h /\ hh_fd h' = hh_fd h /\ hh_parsed h' = hh_parsed h.

Lemma wp_hid_read_buf (Q : option hidraw_handle * sys (Z * list Z) -> st W -> Prop) h size s :
  read_documented -> 0 < size < 2 ^ 63 ->
  (forall s1 s' res bug h', same_objects s s1 -> s_mem s' = s_mem s1 -> s_world s1 = s_world s ->
     (numbered_reports (hh_parsed h) = true -> bug = kernel_bug s') -> same_handle h h' ->
     (exists w, read (hh_fd h) (asked (numbered_reports (hh_parsed h)) bug size) w =
       (res, s_world s')) ->
     let bytes got := framed (numbered_reports (hh_parsed h)) bug got in
     Q (Some h', match res with
                 | Ok got => Ok (Z.of_nat (length (bytes got)), bytes got)
                 | Err e => Err e
                 end) s') ->
  (forall s', same_objects s s' -> numbered_reports (hh_parsed h) = true ->
     kernel_bug s' = true -> Q (None, Ok (0, [])) s') ->
  wp (hid_read_buf h size) Q s.
Proof.
  intros Hr Hsz HQ HN. unfold hid_read_buf.
  destruct (numbered_reports (hh_parsed h)) eqn:En.
  - wp_step. apply wp_detect. intros s1 Hw1 Hs1. destruct (kernel_bug s1) eqn:Eb.
    + wp_step. unfold grow_buf. rewrite u64_small by lia.
      assert (Hread : forall h' s2, same_handle h h' -> s_mem s2 = s_mem s1 ->
        wp (let* r := os (read (hh_fd h') (size + 1)) in
            ret (Some h', match r with
                 | Ok [] => Ok (0, [])
                 | Ok (b :: bytes) => Ok (Z.of_nat (length bytes), bytes)
                 | Err e => Err e
                 end)) Q s2).
      { intros h' s2 Hh Hm. wp_step. apply wp_os. intros res w E. wp_step.
        pose proof Hh as (_ & Efd & _). rewrite Efd in E.
        specialize (HQ s1 (with_world (fun _ => w) s2) res true h' Hs1 Hm Hw1). cbn in HQ.
        destruct res as [[|b got]|e]; apply HQ; try done; try by eexists.
        all: intros _; unfold kernel_bug, static in *; cbn; by rewrite Hm, Eb. }
      destruct (Z.ltb_spec (hh_buf_size h) (size + 1)).
      * wp_step. apply wp_os. intros [] w E.
        -- wp_step. by apply Hread.
        -- wp_step. wp_step. by apply HN.
      * wp_step. by apply Hread.
    + wp_step. apply wp_os. intros res w E. wp_step.
      specialize (HQ s1 (with_world (fun _ => w) s1) res false h Hs1 eq_refl Hw1).
      destruct res as [got|e]; apply HQ; try done; by eexists.
  - wp_step. apply wp_os. intros res w E. wp_step.
    specialize (HQ s (with_world (fun _ => w) s) res false h). cbn in HQ.
    assert (same_objects s s) as Hss by by repeat split.
    destruct res as [[|b got]|e].
    + apply HQ; try done; by eexists.
    + replace (Z.of_nat (length (b :: got)) + 1) with (Z.of_nat (length (0 :: b :: got)))
        by (cbn [length]; lia). apply HQ; try done; by eexists.
    + apply HQ; try done; by eexists.
Qed.
End Reports.


Definition hid_stub : hs_device :=
  Device NULL 1 (Some "/devices/hidraw0") HS_DEVICE_TYPE_HID _hs_linux_hid_vtable
    HS_DEVICE_STATUS_ONLINE None (Some "/dev/hidraw0") 0 0 None None None 0.

Definition with_hid (w : script) : st script :=
  with_devs (fun _ => {[64 := hid_stub]}) (scripted w).

Lemma script_read_documented : read_documented (W := script).
Proof.
  intros fd n w bytes w' Hn E. cbn in E.
  destruct (default (Err EAGAIN) (head (sc_read w))) as [l|e]; [|done].
  injection E as <- _. rewrite length_take. lia.
Qed.

(** A device without report IDs. *)
Definition one_report : script := Script [] [] [Ok [1]] [] [Ok [7; 8; 9]] [] [] [].


Definition report_code (e : errno) : Z :=
  match e with EIO | ENXIO => HS_ERROR_IO | _ => HS_ERROR_SYSTEM end.

Lemma wp_report_failed {W} `{Posix W} (Q : Z -> st W -> Prop) e io other s :
  (forall s', s_mem s' = s_mem s -> Q (report_code e) s') -> wp (report_failed e io other) Q s.
Proof.
  intros HQ. destruct e; cbn [report_failed report_code]; apply wp_error; by apply HQ.
Qed.

(** The documentation of HIDIOCGFEATURE(len): no more bytes than the buffer. *)
Definition feature_documented {W} `{Posix W} : Prop :=
  forall fd b w bytes w', ioctl_HIDIOCGFEATURE fd b w = (Ok bytes, w') ->
    (length bytes <= length b)%nat.

(** Getting a feature report always returns. The driver is given a buffer
    that starts with the report ID. On success the buffer holds the report ID
    and then what the driver stored, with the rest unchanged, and the result
    counts both; the buffer never grows. On an error the result is the code
    the error stands for. *)
Theorem hid_get_feature_report_outcomes {W} `{Posix W} signals fuel (s : st W) h d id b buf :
  finite_signals signals -> feature_documented -> (signals (s_world s) < fuel)%nat ->
  m_devs (s_mem s) !! hh_dev h = Some d -> dev_type d = HS_DEVICE_TYPE_HID ->
  let sent := match buf with [] => [] | _ :: rest => id :: rest end in
  exists r buf' s', hs_hid_get_feature_report fuel h id (b :: buf) s = Done ((r, buf'), s') /\
    s_mem s' = s_mem s /\ length buf' = S (length buf) /\
    exists res w w', ioctl_HIDIOCGFEATURE (hh_fd h) sent w = (res, w') /\ res <> Err EINTR /\
      match res with
      | Ok bytes => r = Z.of_nat (length bytes) + 1 /\
          buf' = id :: bytes ++ drop (length bytes) sent
      | Err e => r = report_code e /\ buf' = b :: sent
      end.
Proof.
  intros Hs Hdoc Hf Hd Ht sent. apply wp_inv_pair. unfold hs_hid_get_feature_report, hid_handle_dev.
  wp_step. wp_step. eapply wp_load_dev; [done|].
  wp_step. apply wp_assert; [by apply bool_decide_eq_true_2|]. wp_step.
  wp_step. apply wp_assert; [done|]. wp_step.
  assert ((if 2 <=? Z.of_nat (length (b :: buf)) then arr_set (b :: buf) 1 id else ret (b :: buf)) s =
    Done (b :: sent, s)) as E.
  { destruct buf as [|b1 buf]; [done|].
    rewrite (proj2 (Z.leb_le _ _)) by (cbn [length]; lia).
    by rewrite arr_setZ_eq by (cbn [length]; lia). }
  eapply wp_intro; [exact E|]. cbn [tail].
  assert (length sent = length buf) as Hlen by by destruct buf.
  wp_step. apply (wp_restart signals) with (I := fun s' => s_mem s' = s_mem s); [|done|done].
  intros s1 Hm. apply wp_os. intros res w E1.
  pose proof (fs_gfeature _ Hs _ _ _ _ _ E1) as [_ Hlt].
  destruct res as [bytes|e].
  - wp_step. split; [done|]. split.
    + pose proof (Hdoc _ _ _ _ _ E1). cbn [fst snd length]. rewrite length_app, length_drop. lia.
    + by exists (Ok bytes), (s_world s1), w.
  - assert (forall r' (s2 : st W), e <> EINTR -> s_mem s2 = s_mem s1 -> r' = report_code e ->
      s_mem s2 = s_mem s /\ length (b :: sent) = S (length buf) /\
      exists res w w', ioctl_HIDIOCGFEATURE (hh_fd h) sent w = (res, w') /\ res <> Err EINTR /\
      match res with
      | Ok bytes => r' = Z.of_nat (length bytes) + 1 /\
          b :: sent = id :: bytes ++ drop (length bytes) sent
      | Err e => r' = report_code e /\ b :: sent = b :: sent
      end) as Hout.
    { intros r' s2 Hne Hm2 ->. split; [congruence|]. cbn [length]. rewrite Hlen. split; [done|].
      exists (Err e), (s_world s1), w. split; [done|]. split; [congruence|done]. }
    destruct e; try (wp_step; apply wp_report_failed; intros s2 Hm2; wp_step; by apply Hout).
    split; [done|]. by apply Hlt.
Qed.

Lemma script_feature_documented : feature_documented (W := script).
Proof.
  intros fd b w bytes w' E. cbn in E.
  destruct (default (Err EIO) (head (sc_feature w))) as [l|e]; [|done].
  injection E as <- _. rewrite length_take. lia.
Qed.

Definition one_feature : script :=
  Script [] [] [] [] [] [] [Err EINTR; Ok [5; 10]] [].

Lemma hid_get_feature_report_outcomes_witness :
  exists r buf' s', hs_hid_get_feature_report 5 (HidrawHandle 64 3 no_parsed 0) 5
      [0; 0; 0; 0] (with_hid one_feature) = Done ((r, buf'), s') /\
    s_mem s' = s_mem (with_hid one_feature) /\ length buf' = 4%nat /\
    exists res w w', ioctl_HIDIOCGFEATURE 3 [5; 0; 0] w = (res, w') /\ res <> Err EINTR /\
      match res with
      | Ok bytes => r = Z.of_nat (length bytes) + 1 /\
          buf' = 5 :: bytes ++ drop (length bytes) [5; 0; 0]
      | Err e => r = report_code e /\ buf' = [0; 5; 0; 0]
      end.
Proof.
  apply (hid_get_feature_report_outcomes script_signals 5 (with_hid one_feature)
    (HidrawHandle 64 3 no_parsed 0) hid_stub 5 0 [0; 0; 0]).
  - exact script_finite_signals.
  - exact script_feature_documented.
  - apply Nat.ltb_lt. reflexivity.
  - reflexivity.
  - reflexivity.
Defined.
