(* ===== verification/Monitor.v ===== *)
(** The device registry and its callbacks: src/src/monitor.c over
    src/src/monitor_priv.h.

    A monitor owns a list of callbacks and a hash table of devices. The
    functions are commands over the whole state; the user's callback functions
    are the parameter [call]. The specification sees a monitor as a list of
    callbacks and a finite map from the pair of a key and an interface number
    to a device; every operation is shown to be the operation on those. *)

From S2P Require Import Prelude Common DList Htable State Device.

Section Monitor.
Context {W : Type}.

(** [( *f)(dev, udata)]: the functions registered by the user. *)
Variable call : ptr -> ptr -> ptr -> M (st W) Z.
(** The bound of the loops. *)
Variable fuel : nat.

(** [callback] is the result of [calloc]. *)
Definition hs_monitor_register_callback (callback monitor f udata : ptr) : M (st W) Z :=
  assert_ (negb (monitor =? NULL)) ;;;
  assert_ (negb (f =? NULL)) ;;;
  if callback =? NULL then zoom (hs_error HS_ERROR_MEMORY None)
  else
    alloc_cb callback ;;;
    let* m := load_mon monitor in
    if mon_callback_id m =? INT_MAX then fail SignedOverflow
    else
      store_mon monitor (Monitor (mon_callback_id m + 1) (mon_devices m)) ;;;
      store_cb callback (Callback (mon_callback_id m) f udata) ;;;
      zoom (_hs_list_add_tail monitor callback) ;;;
      let* c := load_cb callback in
      ret (cb_id c).

Definition drop_callback (callback : ptr) : M (st W) unit :=
  zoom (_hs_list_remove callback) ;;;
  free_cb callback.

Definition hs_monitor_deregister_callback (monitor : ptr) (id : Z) : M (st W) unit :=
  assert_ (negb (monitor =? NULL)) ;;;
  assert_ (0 <=? id) ;;;
  let* _ := _hs_list_foreach (R := unit) (ret monitor) (fun cur =>
    let* c := load_cb cur in
    if cb_id c =? id then
      drop_callback cur ;;;
      ret Break
    else ret Next) fuel in
  ret tt.

Definition monitor_table (monitor : ptr) : M (st W) _hs_htable :=
  let* m := load_mon monitor in
  ret (mon_devices m).

(** [heads] is the result of the [malloc] of [_hs_htable_init]. *)
Definition _hs_monitor_init (heads monitor : ptr) : M (st W) Z :=
  zoom (_hs_list_init monitor) ;;;
  let* m := load_mon monitor in
  let* rt := _hs_htable_init heads (mon_devices m) 64 in
  let '(r, t) := rt in
  store_mon monitor (Monitor (mon_callback_id m) t) ;;;
  if r <? 0 then ret r
  else ret 0.

Definition set_dev (dev : ptr) (f : hs_device -> hs_device) : M (st W) unit :=
  let* d := load_dev dev in
  store_dev dev (f d).

Definition _hs_monitor_release (monitor : ptr) : M (st W) unit :=
  let* _ := _hs_list_foreach (R := unit) (ret monitor) (fun cur =>
    free_cb cur ;;;
    ret Next) fuel in
  let* _ := hs_htable_foreach (R := unit) (monitor_table monitor) (fun cur =>
    let dev := device_of cur in
    set_dev dev (dev_with_monitor NULL) ;;;
    hs_device_unref dev ;;;
    ret Next) fuel in
  let* m := load_mon monitor in
  zoom (_hs_htable_release (mon_devices m)).

Definition trigger_callbacks (dev : ptr) : M (st W) Z :=
  let* r := _hs_list_foreach
    (let* d := load_dev dev in ret (dev_monitor d)) (fun cur =>
    let* c := load_cb cur in
    let* r := call (cb_f c) dev (cb_udata c) in
    if r <? 0 then ret (Return r)
    else if negb (r =? 0) then
      zoom (_hs_list_remove cur) ;;;
      free_cb cur ;;;
      ret Next
    else ret Next) fuel in
  ret (default 0 r).

(** [_hs_htable_hash_str(key)] of a [char *], and [strcmp(a, b) == 0]. *)
Definition key_hash (key : option string) : M (st W) Z :=
  match key with
  | Some s => ret (_hs_htable_hash_str s)
  | None => fail AssertFailed
  end.
Definition strcmp_eq (a b : option string) : M (st W) bool :=
  match a, b with
  | Some a, Some b => ret (bool_decide (a = b))
  | _, _ => fail BadAccess
  end.

Definition _hs_monitor_add (monitor dev : ptr) : M (st W) Z :=
  let* d := load_dev dev in
  let* k := key_hash (dev_key d) in
  let* found := hs_htable_foreach_hash (monitor_table monitor) (fun cur =>
    let* d2 := load_dev (device_of cur) in
    let* d := load_dev dev in
    let* same := strcmp_eq (dev_key d2) (dev_key d) in
    if same && (dev_iface d2 =? dev_iface d) then ret (Return 0)
    else ret Next) k fuel in
  match found with
  | Some r => ret r
  | None =>
      set_dev dev (dev_with_monitor monitor) ;;;
      set_dev dev (dev_with_state HS_DEVICE_STATUS_ONLINE) ;;;
      let* _ := hs_device_ref dev in
      let* t := monitor_table monitor in
      let* d := load_dev dev in
      let* k := key_hash (dev_key d) in
      zoom (_hs_htable_add t k (hnode_of dev)) ;;;
      trigger_callbacks dev
  end.

Definition _hs_monitor_remove (monitor : ptr) (key : string) : M (st W) unit :=
  let* _ := hs_htable_foreach_hash (R := unit) (monitor_table monitor) (fun cur =>
    let dev := device_of cur in
    let* d := load_dev dev in
    let* same := strcmp_eq (dev_key d) (Some key) in
    if same : bool then
      set_dev dev (dev_with_state HS_DEVICE_STATUS_DISCONNECTED) ;;;
      let* _ := trigger_callbacks dev in
      zoom (_hs_htable_remove fuel (hnode_of dev)) ;;;
      hs_device_unref dev ;;;
      ret Next
    else ret Next) (_hs_htable_hash_str key) fuel in
  ret tt.

Definition hs_monitor_list (monitor f udata : ptr) : M (st W) Z :=
  assert_ (negb (monitor =? NULL)) ;;;
  assert_ (negb (f =? NULL)) ;;;
  let* r := hs_htable_foreach (monitor_table monitor) (fun cur =>
    let dev := device_of cur in
    let* r := call f dev udata in
    if negb (r =? 0) then ret (Return r)
    else ret Next) fuel in
  ret (default 0 r).
End Monitor.

(** * Representation *)

Section Rep.
Context {W : Type}.
Implicit Types (s : st W) (p dev mon : ptr) (cbs : list (ptr * callback))
  (bs : list (list ptr)) (D : gmap (string * Z) ptr).

(** The callbacks of a monitor, in registration order. *)
Definition cbs_rep s mon cbs : Prop :=
  dlist (m_lists (s_mem s)) mon cbs.*1 /\
  Forall (fun pc => m_cbs (s_mem s) !! pc.1 = Some pc.2) cbs.

(** The callback at [p] is freed. *)
Definition cb_gone p s : Prop :=
  m_cbs (s_mem s) !! p = None /\ l_prev (m_lists (s_mem s)) !! p = None /\
  l_next (m_lists (s_mem s)) !! p = None.

(** Callbacks are only freed. *)
Definition cbs_freed s s' : Prop := forall p,
  (cb_gone p s -> cb_gone p s') /\
  (m_cbs (s_mem s') !! p = m_cbs (s_mem s) !! p \/ cb_gone p s').

Lemma cbs_freed_trans s1 s2 s3 : cbs_freed s1 s2 -> cbs_freed s2 s3 -> cbs_freed s1 s3.
Proof.
  intros H1 H2 p. destruct (H1 p) as [G1 F1], (H2 p) as [G2 F2]. split; [auto|].
  destruct F2 as [->|?]; [|by right]. destruct F1 as [->|?]; [by left|right; auto].
Qed.

Lemma cbs_freed_refl s s' : m_cbs (s_mem s') = m_cbs (s_mem s) -> m_lists (s_mem s') = m_lists (s_mem s) ->
  cbs_freed s s'.
Proof. intros E1 E2 p. unfold cb_gone. rewrite E1, E2. auto. Qed.

(** Only callbacks of [ps] and the world changed. *)
Record same_but_cbs (ps : list ptr) s s' : Prop := {
  sb_common : s_common s' = s_common s;
  sb_nodes : m_nodes (s_mem s') = m_nodes (s_mem s);
  sb_devs : m_devs (s_mem s') = m_devs (s_mem s);
  sb_mons : m_mons (s_mem s') = m_mons (s_mem s);
  sb_statics : m_statics (s_mem s') = m_statics (s_mem s);
  sb_cbs : forall p, p ∉ ps -> m_cbs (s_mem s') !! p = m_cbs (s_mem s) !! p;
  sb_freed : cbs_freed s s';
  sb_lists : lmem_same_outside ps (m_lists (s_mem s)) (m_lists (s_mem s'))
}.

Lemma same_but_cbs_refl ps s w : same_but_cbs ps s (with_world (fun _ => w) s).
Proof. split; try done. by apply cbs_freed_refl. Qed.

Lemma same_but_cbs_trans ps s1 s2 s3 :
  same_but_cbs ps s1 s2 -> same_but_cbs ps s2 s3 -> same_but_cbs ps s1 s3.
Proof.
  intros [] []. split; try congruence.
  - intros p Hp. rewrite sb_cbs1 by done. auto.
  - by eapply cbs_freed_trans.
  - intros p Hp. destruct (sb_lists0 p Hp), (sb_lists1 p Hp). split; congruence.
Qed.

Lemma same_but_cbs_weaken ps ps' s s' :
  (forall p, p ∈ ps -> p ∈ ps') -> same_but_cbs ps s s' -> same_but_cbs ps' s s'.
Proof. intros Hps []. split; try done; intros p Hp; auto. Qed.

(** Of the lists and the callbacks only those at [ps] changed, and not the log,
    the last error, the static variables or the monitors. *)
Record lists_kept (ps : list ptr) s s' : Prop := {
  lk_common : s_common s' = s_common s;
  lk_statics : m_statics (s_mem s') = m_statics (s_mem s);
  lk_mons : m_mons (s_mem s') = m_mons (s_mem s);
  lk_cbs : forall p, p ∉ ps -> m_cbs (s_mem s') !! p = m_cbs (s_mem s) !! p;
  lk_freed : cbs_freed s s';
  lk_lists : lmem_same_outside ps (m_lists (s_mem s)) (m_lists (s_mem s'))
}.

Lemma lists_kept_refl ps s : lists_kept ps s s.
Proof. split; try done. by apply cbs_freed_refl. Qed.

Lemma lists_kept_trans ps s1 s2 s3 : lists_kept ps s1 s2 -> lists_kept ps s2 s3 -> lists_kept ps s1 s3.
Proof.
  intros [C1 T1 M1 B1 F1 L1] [C2 T2 M2 B2 F2 L2]. split; try congruence.
  - intros p Hp. rewrite B2 by done. auto.
  - by eapply cbs_freed_trans.
  - intros p Hp. destruct (L1 p Hp), (L2 p Hp). split; congruence.
Qed.

Lemma lists_kept_weaken ps ps' s s' :
  (forall p, p ∈ ps -> p ∈ ps') -> lists_kept ps s s' -> lists_kept ps' s s'.
Proof. intros Hps []. split; try done; intros p Hp; auto. Qed.

Lemma same_but_cbs_lists ps s s' : same_but_cbs ps s s' -> lists_kept ps s s'.
Proof. intros []. by split. Qed.

(** The callbacks [cbs] of [mon] were called: [kept] stay, the others are freed. *)
Record reacted mon cbs (kept : list (ptr * callback)) s s' : Prop := {
  rc_lists : lists_kept (mon :: cbs.*1) s s';
  rc_dropped : forall p, p ∈ cbs.*1 -> p ∉ kept.*1 -> cb_gone p s'
}.

Lemma reacted_refl mon cbs s : reacted mon cbs cbs s s.
Proof. split; [apply lists_kept_refl|done]. Qed.

Lemma reacted_trans mon cbs1 cbs2 cbs3 s1 s2 s3 : sublist cbs2 cbs1 ->
  reacted mon cbs1 cbs2 s1 s2 -> reacted mon cbs2 cbs3 s2 s3 -> reacted mon cbs1 cbs3 s1 s3.
Proof.
  intros Hsub [L1 D1] [L2 D2]. split.
  - eapply lists_kept_trans; [exact L1|]. eapply lists_kept_weaken; [|exact L2].
    intros p [->|Hp]%elem_of_cons; [by left|right]. eapply sublist_subseteq; [by apply fmap_sublist|done].
  - intros p Hp Hp3. destruct (decide (p ∈ cbs2.*1)) as [Hp2|Hp2]; [by apply D2|].
    apply (lk_freed _ _ _ L2). by apply D1.
Qed.

(** Of the nodes of tables only [n] and [ns] changed, and only [n] has another
    key. *)
Record nodes_kept (n : ptr) (ns : list ptr) s s' : Prop := {
  nk_nodes : hmem_same_outside (n :: ns) (m_nodes (s_mem s)) (m_nodes (s_mem s'));
  nk_keys : forall p, p <> n -> h_key (m_nodes (s_mem s')) !! p = h_key (m_nodes (s_mem s)) !! p
}.

(** Of the nodes of tables only those of [ns] changed; those of the devices [gone]
    that lost their last reference are freed. *)
Record nodes_dropped (ns : list ptr) (gone : list (ptr * hs_device)) s s' : Prop := {
  nd_nodes : hmem_same_outside ns (m_nodes (s_mem s)) (m_nodes (s_mem s'));
  nd_keys : forall p, h_key (m_nodes (s_mem s')) !! p = h_key (m_nodes (s_mem s)) !! p \/
    exists dev, dev ∈ gone.*1 /\ p = hnode_of dev;
  nd_freed : forall dev d, (dev, d) ∈ gone -> dev_refcount d = 1 ->
    h_next (m_nodes (s_mem s')) !! hnode_of dev = None /\ h_key (m_nodes (s_mem s')) !! hnode_of dev = None
}.

Lemma nodes_dropped_refl ns s : nodes_dropped ns [] s s.
Proof. split; [done|by left|by intros dev d Hin%elem_of_nil]. Qed.

Lemma nodes_dropped_trans ns1 ns2 g1 g2 s1 s2 s3 :
  nodes_dropped ns1 g1 s1 s2 -> nodes_dropped ns2 g2 s2 s3 ->
  (forall p, p ∈ ns2 -> p ∈ ns1) -> (forall dev, dev ∈ g1.*1 -> hnode_of dev ∉ ns2) ->
  nodes_dropped ns1 (g1 ++ g2) s1 s3.
Proof.
  intros [N1 K1 F1] [N2 K2 F2] Hsub Hout. split.
  - intros p Hp. destruct (N1 p Hp) as [<- <-]. apply N2. auto.
  - intros p. rewrite fmap_app. destruct (K2 p) as [->|(dev & ? & ?)]; [|right; exists dev; set_solver].
    destruct (K1 p) as [->|(dev & ? & ?)]; [by left|right; exists dev; set_solver].
  - intros dev d [Hin|Hin]%elem_of_app Hr; [|by eapply F2]. destruct (F1 _ _ Hin Hr) as [E1 E2].
    destruct (N2 (hnode_of dev)) as [-> ->]; [|done]. apply Hout. by apply (list_elem_of_fmap_2 fst _ (dev, d)).
Qed.

(** A registered callback that is no more one is freed. *)
Lemma dropped_gone s s' mon cbs p : cbs_rep s mon cbs -> cbs_freed s s' ->
  p ∈ cbs.*1 -> m_cbs (s_mem s') !! p = None -> cb_gone p s'.
Proof.
  intros [_ Hc] Hf Hp Hn. destruct (Hf p) as [_ [E|?]]; [|done].
  apply list_elem_of_fmap in Hp as ([p' c] & -> & Hp). rewrite Forall_forall in Hc.
  specialize (Hc _ Hp). cbn in *. congruence.
Qed.

Lemma wp_drop_callback (Q : unit -> st W -> Prop) s mon xs p c ys :
  cbs_rep s mon (xs ++ (p, c) :: ys) ->
  (forall s', cbs_rep s' mon (xs ++ ys) ->
     same_but_cbs (mon :: (xs ++ (p, c) :: ys).*1) s s' ->
     s_world s' = s_world s ->
     m_cbs (s_mem s') = delete p (m_cbs (s_mem s)) -> Q tt s') ->
  wp (drop_callback p) Q s.
Proof.
  intros [Hd Hc] HQ. unfold drop_callback. wp_step.
  apply wp_zoom. rewrite fmap_app, fmap_cons in Hd. cbn in Hd.
  eapply wp_list_remove; [exact Hd|]. intros m' Hd' Hp1 Hp2 Hsame.
  destruct (NoDup_mid _ _ _ _ (dlist_nodup _ _ _ Hd)) as [Hni Hnd].
  apply Forall_app in Hc as [Hcx Hcy]. apply Forall_cons in Hcy as [Hcp Hcy].
  eapply wp_intro; [by eapply free_cb_eq|]. apply HQ.
  - split.
    + cbn. rewrite fmap_app. eapply dlist_frame; [|exact Hd'].
      intros q Hq. cbn. rewrite !lookup_delete_ne by (intros ->; set_solver). done.
    + apply Forall_forall. intros [q cq] Hq. cbn.
      rewrite lookup_delete_ne.
      * rewrite Forall_forall in Hcx, Hcy.
        apply elem_of_app in Hq as [Hq|Hq]; [by apply (Hcx _ Hq)|by apply (Hcy _ Hq)].
      * intros <-. apply Hni. right. rewrite <- fmap_app. by apply (list_elem_of_fmap_2 fst _ (p, cq)).
  - split; cbn; try done.
    + intros q Hq. rewrite lookup_delete_ne; [done|]. intros <-.
      apply Hq. rewrite fmap_app, fmap_cons. set_solver.
    + intros q. unfold cb_gone. cbn. destruct (decide (q = p)) as [->|Hq].
      { by rewrite !lookup_delete_eq; auto. }
      rewrite !lookup_delete_ne by done. split; [|by left]. intros (G1 & G2 & G3).
      destruct (Hsame q) as [-> ->]; [|done]. intros Hin.
      destruct (dlist_node _ _ _ q Hd Hin) as [_ [x Hx]]. cbn in Hx. by rewrite G3 in Hx.
    + intros q Hq. rewrite fmap_app, fmap_cons in Hq. cbn in Hq.
      cbn. rewrite !lookup_delete_ne by set_solver. by apply Hsame.
  - done.
  - done.
Qed.
End Rep.

(** * Callbacks that do not re-enter the library *)

Section Calm.
Context {W : Type}.
Variable call : ptr -> ptr -> ptr -> M (st W) Z.

(** What a callback function does: from the device it is shown and the
    world, a result and a new world. *)
Variable react : ptr -> ptr -> hs_device -> ptr -> W -> Z * W.

Definition calm : Prop :=
  forall f dev udata (s : st W) d, dev <> NULL -> m_devs (s_mem s) !! dev = Some d ->
    let '(r, w) := react f dev d udata (s_world s) in
    call f dev udata s = Done (r, with_world (fun _ => w) s).

(** The specification of [trigger_callbacks]: the result, the callbacks that
    stay registered and the new world. *)
Fixpoint notify (dev : ptr) (d : hs_device) (cbs : list (ptr * callback)) (w : W)
    : Z * list (ptr * callback) * W :=
  match cbs with
  | [] => (0, [], w)
  | pc :: cbs' =>
      let '(r, w) := react (cb_f pc.2) dev d (cb_udata pc.2) w in
      if r <? 0 then (r, cbs, w)
      else
        let '(r', kept, w) := notify dev d cbs' w in
        (r', if r =? 0 then pc :: kept else kept, w)
  end.

Lemma notify_sublist dev d cbs w :
  sublist (notify dev d cbs w).1.2 cbs.
Proof.
  revert w. induction cbs as [|pc cbs IH]; intros w; simpl; [done|].
  destruct (react _ _ _ _ _) as [r w']. case_match; [done|].
  specialize (IH w'). destruct (notify dev d cbs w') as [[r' kept] w'']. simpl in *.
  destruct (r =? 0); simpl; by constructor.
Qed.

Lemma notify_result dev d cbs (w : W) : (notify dev d cbs w).1.1 <= 0.
Proof.
  revert w. induction cbs as [|pc cbs IH]; intros w; cbn; [lia|].
  destruct (react _ _ _ _ _) as [r w']. destruct (Z.ltb_spec r 0); cbn; [lia|].
  specialize (IH w'). by destruct (notify _ _ _ _) as [[r' kept] w''].
Qed.

Hypothesis call_react : calm.
Variable fuel : nat.
Implicit Types (s : st W) (p dev mon : ptr) (cbs : list (ptr * callback)).

Definition notified dev d cbs s (r : Z) s' : Prop :=
  exists kept w, notify dev d cbs (s_world s) = (r, kept, w) /\
    cbs_rep s' (dev_monitor d) kept /\ s_world s' = w /\
    same_but_cbs (dev_monitor d :: cbs.*1) s s' /\
    (forall p, p ∈ cbs.*1 -> p ∉ kept.*1 -> m_cbs (s_mem s') !! p = None).

(** One callback of the loop. *)
Definition trigger_one (dev cur : ptr) : M (st W) (flow Z) :=
  let* c := load_cb cur in
  let* r := call (cb_f c) dev (cb_udata c) in
  if r <? 0 then ret (Return r)
  else if negb (r =? 0) then
    zoom (_hs_list_remove cur) ;;;
    free_cb cur ;;;
    ret Next
  else ret Next.

Lemma wp_trigger_one (Q : flow Z -> st W -> Prop) s mon dev d xs p c ys :
  dev <> NULL -> m_devs (s_mem s) !! dev = Some d ->
  cbs_rep s mon (xs ++ (p, c) :: ys) ->
  (forall r w s', react (cb_f c) dev d (cb_udata c) (s_world s) = (r, w) ->
     s_world s' = w -> same_but_cbs (mon :: (xs ++ (p, c) :: ys).*1) s s' ->
     (r < 0 -> cbs_rep s' mon (xs ++ (p, c) :: ys) -> Q (Return r) s') /\
     (r = 0 -> cbs_rep s' mon (xs ++ (p, c) :: ys) -> Q Next s') /\
     (0 < r -> cbs_rep s' mon (xs ++ ys) -> m_cbs (s_mem s') !! p = None -> Q Next s')) ->
  wp (trigger_one dev p) Q s.
Proof.
  intros Hnull Hdev Hrep HQ. unfold trigger_one. wp_step.
  pose proof (proj2 Hrep) as Hc. apply Forall_app in Hc as [_ Hc].
  apply Forall_cons in Hc as [Hc _].
  eapply wp_load_cb; [exact Hc|]. cbn [snd]. wp_step.
  pose proof (call_react (cb_f c) dev (cb_udata c) s d Hnull Hdev) as Hcall.
  destruct (react _ _ _ _ _) as [r w] eqn:Hr. eapply wp_intro; [exact Hcall|].
  destruct (HQ r w (with_world (fun _ => w) s) eq_refl eq_refl (same_but_cbs_refl _ _ _))
    as (Hneg & Hzero & _).
  destruct (Z.ltb_spec r 0) as [Hlt|Hge]; [by wp_step; apply Hneg|].
  destruct (Z.eqb_spec r 0) as [H0|H0]; cbn [negb]; [by wp_step; apply Hzero|].
  apply wp_assoc. wp_step. eapply (wp_drop_callback _ _ mon xs p c ys); [exact Hrep|].
  intros s' Hrep' Hsame Hw Hcbs. wp_step.
  destruct (HQ r w s' eq_refl Hw) as (_ & _ & Hpos).
  - eapply same_but_cbs_trans; [apply same_but_cbs_refl|exact Hsame].
  - apply Hpos; [lia|done|]. rewrite Hcbs. apply lookup_delete_eq.
Qed.

(** The loop: [kept] were called and stay, [rs] are still to be called. *)
Record trigger_inv dev d cbs s (kept rs : list (ptr * callback)) s' : Prop := {
  ti_rep : cbs_rep s' (dev_monitor d) (kept ++ rs);
  ti_same : same_but_cbs (dev_monitor d :: cbs.*1) s s';
  ti_sub : sublist (kept ++ rs) cbs;
  ti_free : forall p, p ∈ cbs.*1 -> p ∉ (kept ++ rs).*1 -> m_cbs (s_mem s') !! p = None;
  ti_spec :
    let '(r, kept', w) := notify dev d cbs (s_world s) in
    let '(r0, kept0, w0) := notify dev d rs (s_world s') in
    r = r0 /\ kept' = kept ++ kept0 /\ w = w0
}.

Lemma trigger_inv_frame dev d cbs s kept p c rs s' s'' :
  NoDup (dev_monitor d :: cbs.*1) ->
  trigger_inv dev d cbs s kept ((p, c) :: rs) s' ->
  same_but_cbs (dev_monitor d :: (kept ++ (p, c) :: rs).*1) s' s'' ->
  same_but_cbs (dev_monitor d :: cbs.*1) s s'' /\
  (forall q, q ∈ cbs.*1 -> q ∉ (kept ++ (p, c) :: rs).*1 -> m_cbs (s_mem s'') !! q = None).
Proof.
  intros Hnd [Hr Hs Hsl Hfree _] Hs'. split.
  - eapply same_but_cbs_trans; [exact Hs|]. eapply same_but_cbs_weaken; [|exact Hs'].
    intros q [->|Hq]%elem_of_cons; [by left|right].
    eapply sublist_subseteq; [by apply fmap_sublist|done].
  - intros q Hq Hq'. rewrite <- (Hfree q Hq Hq'). apply (sb_cbs _ _ _ Hs').
    apply NoDup_cons in Hnd as [Hm _]. apply not_elem_of_cons. split; [|done].
    by intros ->.
Qed.

(** The two ways the loop goes on. *)
Lemma trigger_inv_keep dev d cbs s kept p c rs s' s'' :
  NoDup (dev_monitor d :: cbs.*1) ->
  trigger_inv dev d cbs s kept ((p, c) :: rs) s' ->
  same_but_cbs (dev_monitor d :: (kept ++ (p, c) :: rs).*1) s' s'' ->
  cbs_rep s'' (dev_monitor d) (kept ++ (p, c) :: rs) ->
  react (cb_f c) dev d (cb_udata c) (s_world s') = (0, s_world s'') ->
  trigger_inv dev d cbs s (kept ++ [(p, c)]) rs s''.
Proof.
  intros Hnd Hi Hs' Hrep Hre. destruct (trigger_inv_frame _ _ _ _ _ _ _ _ _ _ Hnd Hi Hs').
  destruct Hi as [_ _ Hsl _ Hn]. cbn [notify snd] in Hn. rewrite Hre in Hn. cbn in Hn.
  split; rewrite <- ?app_assoc; try done.
  destruct (notify dev d cbs (s_world s)) as [[r1 k1] w1].
  destruct (notify dev d rs _) as [[r0 k0] w0]. by rewrite <- app_assoc.
Qed.

Lemma trigger_inv_drop dev d cbs s kept p c rs s' s'' r :
  NoDup (dev_monitor d :: cbs.*1) ->
  trigger_inv dev d cbs s kept ((p, c) :: rs) s' ->
  same_but_cbs (dev_monitor d :: (kept ++ (p, c) :: rs).*1) s' s'' ->
  cbs_rep s'' (dev_monitor d) (kept ++ rs) -> m_cbs (s_mem s'') !! p = None ->
  react (cb_f c) dev d (cb_udata c) (s_world s') = (r, s_world s'') -> 0 < r ->
  trigger_inv dev d cbs s kept rs s''.
Proof.
  intros Hnd Hi Hs' Hrep Hp Hre Hpos.
  destruct (trigger_inv_frame _ _ _ _ _ _ _ _ _ _ Hnd Hi Hs') as [Hs'' Hfree].
  destruct Hi as [_ _ Hsl _ Hn]. cbn [notify snd] in Hn. rewrite Hre in Hn.
  assert (r <? 0 = false) as E1 by lia. assert (r =? 0 = false) as E2 by lia.
  rewrite E1 in Hn. split; try done.
  - etrans; [|exact Hsl]. apply sublist_app; [done|by constructor].
  - intros q Hq Hq'. destruct (decide (q = p)) as [->|Hqp]; [done|].
    apply Hfree; [done|]. rewrite fmap_app in *. cbn. set_solver.
  - destruct (notify dev d cbs (s_world s)) as [[r1 k1] w1].
    destruct (notify dev d rs _) as [[r0 k0] w0]. by rewrite E2 in Hn.
Qed.

Lemma trigger_inv_notified dev d cbs s kept rs s' r w :
  trigger_inv dev d cbs s kept rs s' ->
  notify dev d rs (s_world s') = (r, rs, w) -> s_world s' = w ->
  notified dev d cbs s r s'.
Proof.
  intros [Hr Hs Hsl Hfree Hn] E Hw. rewrite E in Hn. exists (kept ++ rs), w.
  destruct (notify dev d cbs (s_world s)) as [[r1 k1] w1].
  destruct Hn as (-> & -> & ->). split_and!; done.
Qed.

Lemma wp_trigger_callbacks (Q : Z -> st W -> Prop) s dev d cbs :
  dev <> NULL -> m_devs (s_mem s) !! dev = Some d ->
  cbs_rep s (dev_monitor d) cbs -> (length cbs < fuel)%nat ->
  (forall r s', notified dev d cbs s r s' -> Q r s') ->
  wp (trigger_callbacks call fuel dev) Q s.
Proof.
  intros Hnull Hdev Hrep Hf HQ. unfold trigger_callbacks. wp_step.
  pose proof (dlist_nodup _ _ _ (proj1 Hrep)) as Hnd.
  apply wp_list_foreach with (h := dev_monitor d) (xs := cbs.*1)
    (Inv := fun todo s' =>
       exists kept rs, todo = rs.*1 /\ trigger_inv dev d cbs s kept rs s').
  - intros todo s' (kept & rs & -> & [[Hd _] _ _ _ _]). rewrite fmap_app in Hd.
    apply rest_chain with (dev_monitor d) kept.*1; [| |apply Hd].
    + pose proof (dlist_nodup _ _ _ Hd) as Hnd'. apply NoDup_cons in Hnd'. set_solver.
    + eapply dlist_node; [exact Hd|left].
  - intros todo s' (kept & rs & _ & Hi). unfold bind, load_dev.
    by rewrite (sb_devs _ _ _ (ti_same _ _ _ _ _ _ _ Hi)), Hdev.
  - intros cur todo s' (kept & [|[p c] rs] & Htodo & Hi); [done|].
    cbn in Htodo. injection Htodo as -> ->.
    apply (wp_trigger_one _ s' (dev_monitor d) dev d kept p c rs);
      [done|by rewrite (sb_devs _ _ _ (ti_same _ _ _ _ _ _ _ Hi))|apply Hi|].
    intros r w s'' Hre <- Hs'. split; [|split].
    + intros Hlt Hrep'. wp_step. cbn [default]. apply HQ.
      destruct (trigger_inv_frame _ _ _ _ _ _ _ _ _ _ Hnd Hi Hs') as [Hs'' Hfree].
      apply Z.ltb_lt in Hlt. destruct Hi as [_ _ Hsl _ Hn]. cbn [notify snd] in Hn.
      rewrite Hre, Hlt in Hn. exists (kept ++ (p, c) :: rs), (s_world s'').
      destruct (notify dev d cbs (s_world s)) as [[r1 k1] w1].
      destruct Hn as (-> & -> & ->). by split_and!.
    + intros -> Hrep'. exists (kept ++ [(p, c)]), rs. split; [done|].
      by eapply trigger_inv_keep.
    + intros Hpos Hrep' Hnone. exists kept, rs. split; [done|].
      by eapply trigger_inv_drop.
  - intros s' (kept & [|] & Hnil & Hi); [|done]. wp_step. apply HQ.
    by eapply trigger_inv_notified.
  - exists [], cbs. split; [done|]. split; simpl; try done; [destruct s; apply same_but_cbs_refl|].
    destruct (notify dev d cbs (s_world s)) as [[r1 k1] w1]. by rewrite app_nil_r || done.
  - apply Hrep.
  - by rewrite length_fmap.
Qed.
End Calm.

(** * The registry: a finite map of devices *)

Section Table.
Context {W : Type}.
Implicit Types (s : st W) (n p dev mon : ptr) (bs : list (list ptr))
  (D : gmap (string * Z) ptr) (t : _hs_htable).

(** A device [d] the table of [mon] holds under key [k], with node [n]. *)
Record registered mon (m : mem) n k (d : hs_device) : Prop := {
  rg_dev : m_devs m !! device_of n = Some d;
  rg_key : dev_key d = Some k;
  rg_hash : h_key (m_nodes m) !! n = Some (_hs_htable_hash_str k);
  rg_mon : dev_monitor d = mon;
  rg_state : dev_state d = HS_DEVICE_STATUS_ONLINE;
  rg_count : 1 <= dev_refcount d < 2 ^ 32;
  rg_null : device_of n <> NULL
}.

(** The memory [m] holds a table [t] of [mon] whose buckets are [bs] and
    whose devices are those of [D]: one per key and interface. *)
Record table_rep mon (m : mem) t bs D : Prop := {
  tr_rep : htable_rep (m_nodes m) t bs;
  tr_size : 0 < ht_size t;
  tr_reg : forall n, n ∈ concat bs -> exists k d,
    registered mon m n k d /\ D !! (k, dev_iface d) = Some (device_of n);
  tr_map : forall k i dev, D !! (k, i) = Some dev ->
    hnode_of dev ∈ concat bs /\
    exists d, m_devs m !! dev = Some d /\ dev_key d = Some k /\ dev_iface d = i
}.

Lemma hash_bound_from h k : 0 <= h < 2 ^ 32 -> 0 <= _hs_htable_hash_str_from h k < 2 ^ 32.
Proof.
  revert h. induction k as [|c k IH]; intros h Hh; simpl; [done|].
  apply IH, u32_bound.
Qed.
Lemma hash_bound k : 0 <= _hs_htable_hash_str k < 2 ^ 32.
Proof. by apply hash_bound_from. Qed.

Lemma concat_nodup m t bs : htable_rep m t bs -> NoDup (concat bs).
Proof.
  intros Hr. eapply sublist_NoDup; [exact (hr_nodup _ _ _ Hr)|]. clear Hr.
  unfold rings. assert (forall i b, sublist b (ring t i b)) as Hsub.
  { intros i b. by apply sublist_cons. }
  revert Hsub. generalize (ring t). induction bs as [|b bs IH]; intros f Hf; [done|].
  cbn [imap concat]. apply sublist_app; [apply Hf|]. apply IH. intros i c. apply Hf.
Qed.

Lemma elem_concat_add bs i b n p : bs !! i = Some b ->
  p ∈ concat (<[i := n :: b]> bs) <-> p = n \/ p ∈ concat bs.
Proof.
  intros Hi. rewrite (concat_insert _ _ _ _ Hi), (concat_middle _ _ _ Hi). set_solver.
Qed.

Lemma elem_concat_remove bs i b1 n b2 p :
  NoDup (concat bs) -> bs !! i = Some (b1 ++ n :: b2) ->
  p ∈ concat (<[i := b1 ++ b2]> bs) <-> p ∈ concat bs /\ p <> n.
Proof.
  intros Hnd Hi. rewrite (concat_insert _ _ _ _ Hi).
  rewrite (concat_middle _ _ _ Hi) in *.
  assert (n ∉ concat (take i bs) ++ (b1 ++ b2) ++ concat (drop (S i) bs)).
  { rewrite <- (app_assoc b1 (n :: b2)), (app_assoc _ b1) in Hnd. cbn in Hnd.
    rewrite <- Permutation_middle in Hnd. apply NoDup_cons in Hnd as [Hnd _].
    rewrite <- !app_assoc in *. exact Hnd. }
  set_solver.
Qed.

Lemma registered_frame mon m m' n k d :
  m_devs m' !! device_of n = m_devs m !! device_of n ->
  h_key (m_nodes m') !! n = h_key (m_nodes m) !! n ->
  registered mon m n k d -> registered mon m' n k d.
Proof. intros E1 E2 []. split; congruence. Qed.

Lemma registered_fun mon m n k k' d d' :
  registered mon m n k d -> registered mon m n k' d' -> k = k' /\ d = d'.
Proof. intros [] []. split; congruence. Qed.

Lemma device_of_inj n n' : device_of n = device_of n' -> n = n'.
Proof. unfold device_of. lia. Qed.

Lemma table_rep_add mon m m' t bs D i b n k d :
  table_rep mon m t bs D -> bs !! i = Some b ->
  htable_rep (m_nodes m') t (<[i := n :: b]> bs) ->
  (forall p, p <> n -> h_key (m_nodes m') !! p = h_key (m_nodes m) !! p) ->
  (forall p, p <> device_of n -> m_devs m' !! p = m_devs m !! p) ->
  registered mon m' n k d -> n ∉ concat bs -> D !! (k, dev_iface d) = None ->
  table_rep mon m' t (<[i := n :: b]> bs) (<[(k, dev_iface d) := device_of n]> D).
Proof.
  intros [Hr Hsz Hreg Hmap] Hi Hr' Hkey Hdevs Hnew Hn HD. split; [done|done| |].
  - intros p [->|Hp]%(elem_concat_add _ _ _ _ _ Hi).
    + exists k, d. by rewrite lookup_insert_eq.
    + assert (p <> n) as Hpn by (by intros ->).
      destruct (Hreg p Hp) as (k' & d' & Hrg & HD'). exists k', d'. split.
      * eapply registered_frame; [apply Hdevs|by apply Hkey|exact Hrg].
        by intros E%device_of_inj.
      * rewrite lookup_insert_ne; [done|]. congruence.
  - intros k' i' dev. destruct (decide ((k', i') = (k, dev_iface d))) as [E|E].
    + injection E as -> ->. rewrite lookup_insert_eq. intros [= <-].
      rewrite hnode_of_device. split; [apply (elem_concat_add _ _ _ _ _ Hi); by left|].
      exists d. split; [apply Hnew|split; [apply Hnew|done]].
    + rewrite lookup_insert_ne by done. intros HD'.
      destruct (Hmap _ _ _ HD') as (Hin & d' & Hd' & ? & ?).
      split; [apply (elem_concat_add _ _ _ _ _ Hi); by right|].
      exists d'. split; [|done]. rewrite Hdevs; [done|].
      intros ->. by rewrite hnode_of_device in Hin.
Qed.

Lemma table_rep_remove mon m m' t bs D i b1 n b2 k d :
  table_rep mon m t bs D -> bs !! i = Some (b1 ++ n :: b2) ->
  htable_rep (m_nodes m') t (<[i := b1 ++ b2]> bs) ->
  (forall p, p <> n -> h_key (m_nodes m') !! p = h_key (m_nodes m) !! p) ->
  (forall p, p <> device_of n -> m_devs m' !! p = m_devs m !! p) ->
  registered mon m n k d ->
  table_rep mon m' t (<[i := b1 ++ b2]> bs) (delete (k, dev_iface d) D).
Proof.
  intros [Hr Hsz Hreg Hmap] Hi Hr' Hkey Hdevs Hold.
  pose proof (concat_nodup _ _ _ Hr) as Hnd.
  assert (Hin : n ∈ concat bs) by (rewrite (concat_middle _ _ _ Hi); set_solver).
  assert (HD : D !! (k, dev_iface d) = Some (device_of n)).
  { destruct (Hreg n Hin) as (k' & d' & Hrg & HD).
    destruct (registered_fun _ _ _ _ _ _ _ Hrg Hold) as [-> ->]. done. }
  split; [done|done| |].
  - intros p [Hp Hpn]%(elem_concat_remove _ _ _ _ _ _ Hnd Hi).
    destruct (Hreg p Hp) as (k' & d' & Hrg & HD'). exists k', d'. split.
    + eapply registered_frame; [apply Hdevs|by apply Hkey|exact Hrg].
      by intros E%device_of_inj.
    + rewrite lookup_delete_ne; [done|]. intros E. rewrite <- E, HD in HD'.
      injection HD' as HD'. by apply device_of_inj in HD' as ->.
  - intros k' i' dev. destruct (decide ((k', i') = (k, dev_iface d))) as [->|E].
    + by rewrite lookup_delete_eq.
    + rewrite lookup_delete_ne by done. intros HD'.
      destruct (Hmap _ _ _ HD') as (Hin' & d' & Hd' & ? & ?).
      assert (dev <> device_of n) as Hne.
      { intros ->. destruct Hold. naive_solver. }
      split.
      * apply (elem_concat_remove _ _ _ _ _ _ Hnd Hi). split; [done|].
        intros <-. by rewrite device_of_hnode in Hne.
      * exists d'. by rewrite Hdevs.
Qed.
End Table.

(** * The whole monitor *)

Section Spec.
Context {W : Type}.
Implicit Types (s : st W) (n p dev mon : ptr) (bs : list (list ptr))
  (D : gmap (string * Z) ptr) (cbs : list (ptr * callback)) (mo : hs_monitor).

(** The identifiers of registered callbacks are distinct and already given
    out. *)
Definition ids_ok mo cbs : Prop :=
  0 <= mon_callback_id mo <= INT_MAX /\
  NoDup (cb_id <$> cbs.*2) /\
  Forall (fun pc => 0 <= cb_id pc.2 < mon_callback_id mo) cbs.

(** [s] holds a monitor [mo] at [mon] with the callbacks [cbs], and the
    devices [D] in the buckets [bs]. *)
Record mon_rep s mon mo cbs bs D : Prop := {
  mr_null : mon <> NULL;
  mr_mon : m_mons (s_mem s) !! mon = Some mo;
  mr_cbs : cbs_rep s mon cbs;
  mr_ids : ids_ok mo cbs;
  mr_tab : table_rep mon (s_mem s) (mon_devices mo) bs D
}.

Lemma ids_ok_sublist mo cbs cbs' : sublist cbs' cbs -> ids_ok mo cbs -> ids_ok mo cbs'.
Proof.
  intros Hs (Hb & Hnd & Hid). split; [done|split].
  - eapply sublist_NoDup; [exact Hnd|]. by do 2 apply fmap_sublist.
  - rewrite Forall_forall in *. intros pc Hpc. apply Hid.
    by eapply sublist_subseteq.
Qed.

(** Enough fuel for every loop over the monitor. *)
Definition enough (fuel : nat) cbs bs : Prop :=
  (length cbs < fuel)%nat /\ (length bs + length (concat bs) + 1 < fuel)%nat.

Lemma enough_bucket fuel cbs bs i b :
  enough fuel cbs bs -> bs !! i = Some b -> (length b + 1 < fuel)%nat.
Proof.
  intros [_ Hf] Hi. rewrite (concat_middle _ _ _ Hi) in Hf.
  rewrite !length_app in Hf. lia.
Qed.

(** Loading the table of a monitor. *)
Lemma monitor_table_eq s mon mo : m_mons (s_mem s) !! mon = Some mo ->
  monitor_table mon s = Done (mon_devices mo, s).
Proof. intros H. unfold monitor_table, bind, load_mon. by rewrite H. Qed.

(** A device ready to be added: alive, complete, in no bucket. *)
Record detached s t bs dev k d : Prop := {
  dt_null : dev <> NULL;
  dt_dev : m_devs (s_mem s) !! dev = Some d;
  dt_key : dev_key d = Some k;
  dt_count : 0 <= dev_refcount d < 2 ^ 32 - 1;
  dt_node : hnode (m_nodes (s_mem s)) (hnode_of dev);
  dt_fresh : hnode_of dev ∉ concat (rings t bs);
  dt_nonnull : hnode_of dev <> NULL
}.

(** What [_hs_monitor_add] makes of the device. *)
Definition onlined mon d : hs_device :=
  dev_with_refcount (dev_refcount d + 1)
    (dev_with_state HS_DEVICE_STATUS_ONLINE (dev_with_monitor mon d)).

(** What [_hs_monitor_remove] shows to the callbacks, and leaves. *)
Definition offlined d : hs_device := dev_with_state HS_DEVICE_STATUS_DISCONNECTED d.
(** A reference dropped after [f]: the last one frees the device. *)
Definition drop_ref (f : hs_device -> hs_device) (devs : gmap ptr hs_device)
    (pd : ptr * hs_device) : gmap ptr hs_device :=
  let '(dev, d) := pd in
  if dev_refcount d =? 1 then delete dev devs
  else <[dev := dev_with_refcount (dev_refcount d - 1) (f d)]> devs.
Definition drop_dev := drop_ref offlined.

Lemma foldl_drop_ref_ne f devs gone dev :
  dev ∉ gone.*1 -> foldl (drop_ref f) devs gone !! dev = devs !! dev.
Proof.
  revert devs. induction gone as [|[dev' d] gone IH]; intros devs Hd; simpl; [done|].
  cbn in Hd. rewrite IH by set_solver.
  case_match; [by rewrite lookup_delete_ne by set_solver|by rewrite lookup_insert_ne by set_solver].
Qed.

(** The registered devices with their records, in the order of the table. *)
Definition entries (devs : gmap ptr hs_device) (ns : list ptr) : list (ptr * hs_device) :=
  (fun n => (device_of n, default device_zero (devs !! device_of n))) <$> ns.

(** The devices of a table are not NULL. *)
Lemma entries_nonnull (s : st W) mon mo cbs bs D devs : mon_rep s mon mo cbs bs D ->
  Forall (fun dev => dev <> NULL) (entries devs (concat bs)).*1.
Proof.
  intros Hrep. destruct (mr_tab _ _ _ _ _ _ Hrep) as [_ _ Hreg _]. unfold entries.
  rewrite <- list_fmap_compose. apply Forall_fmap, Forall_forall. intros n Hn.
  destruct (Hreg n Hn) as (k & d & Hrg & _). apply Hrg.
Qed.

(** [l] has every device of [D] exactly once. *)
Definition lists_all s D (l : list (ptr * hs_device)) : Prop :=
  NoDup l.*1 /\
  forall dev d, (dev, d) ∈ l <->
    m_devs (s_mem s) !! dev = Some d /\ exists k, D !! (k, dev_iface d) = Some dev.

Lemma entries_fst devs ns : (entries devs ns).*1 = device_of <$> ns.
Proof. unfold entries. rewrite <- list_fmap_compose. done. Qed.

Lemma entries_all s mon mo cbs bs D : mon_rep s mon mo cbs bs D ->
  lists_all s D (entries (m_devs (s_mem s)) (concat bs)).
Proof.
  intros Hrep. pose proof (mr_tab _ _ _ _ _ _ Hrep) as [Hr _ Hreg Hmap]. split.
  - rewrite entries_fst. apply NoDup_fmap_2; [|by eapply concat_nodup].
    intros x y. apply device_of_inj.
  - intros dev d. unfold entries. rewrite list_elem_of_fmap. split.
    + intros (n & E & Hn). destruct (Hreg n Hn) as (k & d' & Hrg & HD).
      rewrite (rg_dev _ _ _ _ _ Hrg) in E. cbn in E. simplify_eq.
      split; [apply Hrg|eauto].
    + intros [Hd [k HD]]. destruct (Hmap _ _ _ HD) as (Hin & _).
      exists (hnode_of dev). by rewrite device_of_hnode, Hd.
Qed.
End Spec.

Section Find.
Context {W : Type}.
Implicit Types (s : st W) (D : gmap (string * Z) ptr).
Variable fuel : nat.

Definition find_body (dev cur : ptr) : M (st W) (flow Z) :=
  let* d2 := load_dev (device_of cur) in
  let* d := load_dev dev in
  let* same := strcmp_eq (dev_key d2) (dev_key d) in
  if same && (dev_iface d2 =? dev_iface d) then ret (Return 0)
  else ret Next.

(** The search of [_hs_monitor_add] decides whether the pair of the key and
    the interface is registered. *)
Lemma wp_find (Q : option Z -> st W -> Prop) s mon mo cbs bs D dev d k :
  mon_rep s mon mo cbs bs D -> enough fuel cbs bs ->
  m_devs (s_mem s) !! dev = Some d -> dev_key d = Some k ->
  Q (match D !! (k, dev_iface d) with Some _ => Some 0 | None => None end) s ->
  wp (hs_htable_foreach_hash (monitor_table mon) (find_body dev)
        (_hs_htable_hash_str k) fuel) Q s.
Proof.
  intros Hrep Hf Hd Hk HQ. pose proof (mr_tab _ _ _ _ _ _ Hrep) as Htab.
  destruct Htab as [Hr Hsz Hreg Hmap].
  destruct (bucket_lookup _ _ _ (_hs_htable_hash_str k) Hr Hsz) as (b & Hb & Hbi).
  apply wp_htable_foreach_hash with (t := mon_devices mo) (bs := bs) (b := b)
    (Inv := fun todo s' => s' = s /\ exists seen, b = seen ++ todo /\
       forall n d', n ∈ seen -> m_devs (s_mem s) !! device_of n = Some d' ->
         ~ (dev_key d' = Some k /\ dev_iface d' = dev_iface d)).
  - intros todo s' (-> & seen & -> & _).
    pose proof (htable_ring_nodup _ _ _ _ _ Hr Hb) as Hnd.
    pose proof (hr_ring _ _ _ Hr _ _ Hb) as Hc. rewrite Hbi in Hc.
    unfold ring in Hnd. rewrite Hbi in Hnd. apply NoDup_cons in Hnd as [Hh _].
    apply rest_chain with (2 := chain_dom _ _ _ _ _ Hc (list_elem_of_here _ _)) (3 := Hc).
    set_solver.
  - intros cur todo s' (-> & seen & -> & Hseen).
    assert (Hin : cur ∈ concat bs).
    { apply elem_of_concat. exists (bucket_of (mon_devices mo) (_hs_htable_hash_str k)).
      eexists. split; [exact Hb|set_solver]. }
    destruct (Hreg cur Hin) as (k' & d' & [] & HD').
    exists (_hs_htable_hash_str k'). split; [done|].
    assert (Hnext : ~ (dev_key d' = Some k /\ dev_iface d' = dev_iface d) ->
              s = s /\ exists seen', seen ++ cur :: todo = seen' ++ todo /\
                forall n d', n ∈ seen' -> m_devs (s_mem s) !! device_of n = Some d' ->
                  ~ (dev_key d' = Some k /\ dev_iface d' = dev_iface d)).
    { intros Hno. split; [done|]. exists (seen ++ [cur]). rewrite <- app_assoc.
      split; [done|]. intros n d'' [Hn|Hn]%elem_of_app; [by apply Hseen|].
      apply list_elem_of_singleton in Hn as ->. congruence. }
    split; [intros Hne; apply Hnext; naive_solver|]. intros _. unfold find_body.
    wp_step. eapply wp_load_dev; [done|]. wp_step. eapply wp_load_dev; [done|].
    rewrite rg_key0, Hk. cbn [strcmp_eq]. wp_steps.
    destruct (Z.eqb_spec (dev_iface d') (dev_iface d)) as [E|E].
    + case_bool_decide as E'; cbn [andb]; wp_step; [|apply Hnext; naive_solver].
      subst k'. rewrite E in HD'. by rewrite HD' in HQ.
    + rewrite andb_false_r. wp_step. apply Hnext. naive_solver.
  - intros s' (-> & seen & -> & Hseen). rewrite app_nil_r in *.
    destruct (D !! (k, dev_iface d)) as [dev'|] eqn:HD; [|done].
    destruct (Hmap _ _ _ HD) as (Hin & d' & Hd' & Hk' & Hi').
    destruct (Hseen (hnode_of dev') d'); [|by rewrite device_of_hnode|done].
    apply elem_of_concat in Hin as (j & b' & Hj & Hb').
    destruct (Hreg (hnode_of dev')) as (k2 & d2 & [] & _).
    { apply elem_of_concat. eauto. }
    rewrite device_of_hnode in *. simplify_eq.
    assert (j = bucket_of (mon_devices mo) (_hs_htable_hash_str k)) as ->.
    { eapply htable_key_bucket; eauto. }
    congruence.
  - by apply monitor_table_eq, (mr_mon _ _ _ _ _ _ Hrep).
  - done.
  - done.
  - done.
  - split; [done|]. exists []. split; [done|]. intros n d' Hn. set_solver.
  - pose proof (enough_bucket _ _ _ _ _ Hf Hb). lia.
Qed.
End Find.

Section Operations.
Context {W : Type}.
Variable call : ptr -> ptr -> ptr -> M (st W) Z.
Variable react : ptr -> ptr -> hs_device -> ptr -> W -> Z * W.
Hypothesis call_react : calm call react.
Variable fuel : nat.
Implicit Types (s : st W) (n p dev mon : ptr) (bs : list (list ptr))
  (D : gmap (string * Z) ptr) (cbs : list (ptr * callback)) (mo : hs_monitor).

Lemma wp_set_dev (Q : unit -> st W -> Prop) s dev d f :
  m_devs (s_mem s) !! dev = Some d -> Q tt (with_devs <[dev := f d]> s) ->
  wp (set_dev dev f) Q s.
Proof.
  intros Hd HQ. unfold set_dev. wp_step. eapply wp_load_dev; [done|].
  apply wp_store_dev; [by rewrite Hd|done].
Qed.

(** The monitor after some callbacks were called and some of them dropped. *)
Lemma mon_rep_notified s s' mon mo cbs kept bs D :
  mon_rep s mon mo cbs bs D -> cbs_rep s' mon kept -> sublist kept cbs ->
  same_but_cbs (mon :: cbs.*1) s s' -> mon_rep s' mon mo kept bs D.
Proof.
  intros [H1 H2 H3 H4 H5] Hc Hsub Hs. split; [done| |done| |].
  - by rewrite (sb_mons _ _ _ Hs).
  - by eapply ids_ok_sublist.
  - destruct H5 as [Hr Hsz Hreg Hmap]. split; [|done| |].
    + by rewrite (sb_nodes _ _ _ Hs).
    + intros n Hn. destruct (Hreg n Hn) as (k & d & Hrg & HD). exists k, d.
      split; [|done]. eapply registered_frame; [| |exact Hrg].
      * by rewrite (sb_devs _ _ _ Hs).
      * by rewrite (sb_nodes _ _ _ Hs).
    + by rewrite (sb_devs _ _ _ Hs).
Qed.

(** The three stores of [_hs_monitor_add] and the insertion. *)
Lemma wp_add_insert (Q : Z -> st W -> Prop) s mon mo cbs bs D dev d k :
  mon_rep s mon mo cbs bs D -> detached s (mon_devices mo) bs dev k d ->
  D !! (k, dev_iface d) = None ->
  (forall s' bs', mon_rep s' mon mo cbs bs' (<[(k, dev_iface d) := dev]> D) ->
     length bs' = length bs -> length (concat bs') = S (length (concat bs)) ->
     m_devs (s_mem s') = <[dev := onlined mon d]> (m_devs (s_mem s)) ->
     m_cbs (s_mem s') = m_cbs (s_mem s) -> s_world s' = s_world s ->
     lists_kept [] s s' -> nodes_kept (hnode_of dev) (concat (rings (mon_devices mo) bs)) s s' ->
     wp (trigger_callbacks call fuel dev) Q s') ->
  wp (set_dev dev (dev_with_monitor mon) ;;;
      set_dev dev (dev_with_state HS_DEVICE_STATUS_ONLINE) ;;;
      let* _ := hs_device_ref dev in
      let* t := monitor_table mon in
      let* d := load_dev dev in
      let* k := key_hash (dev_key d) in
      zoom (_hs_htable_add t k (hnode_of dev)) ;;;
      trigger_callbacks call fuel dev) Q s.
Proof.
  intros Hrep [Hn Hd Hk Hcnt Hnode Hfresh Hnn] HD HQ.
  pose proof (mr_tab _ _ _ _ _ _ Hrep) as [Hr Hsz Hreg Hmap].
  destruct (bucket_lookup _ _ _ (_hs_htable_hash_str k) Hr Hsz) as (b & Hb & Hbi).
  wp_step. eapply wp_set_dev; [done|]. wp_step.
  eapply wp_set_dev; [by cbn; rewrite lookup_insert_eq|]. wp_step.
  eapply wp_intro; [eapply hs_device_ref_eq; [done|by cbn; rewrite lookup_insert_eq|done]|].
  wp_step. eapply wp_intro; [apply monitor_table_eq, (mr_mon _ _ _ _ _ _ Hrep)|].
  wp_step. eapply wp_load_dev; [by cbn; rewrite lookup_insert_eq|].
  cbn [dev_key dev_with_refcount dev_with_state dev_with_monitor]. rewrite Hk.
  cbn [key_hash]. wp_steps.
  eapply wp_htable_add; [exact Hr|done|apply hash_bound|exact Hb|exact Hnode|done|done|].
  intros m' Hr' Hkey' Hkeys Hsame. apply (HQ _ (<[bucket_of (mon_devices mo) (_hs_htable_hash_str k) := hnode_of dev :: b]> bs));
    cbn; try done; [|by rewrite length_insert| | |split; try done; by apply cbs_freed_refl].
  - destruct Hrep as [H1 H2 H3 H4 H5]. split; [done|done|exact H3|done|].
    assert (Hdevs : <[dev := onlined mon d]> (m_devs (s_mem s)) =
      <[dev:=dev_with_refcount (dev_refcount d + 1) (dev_with_state HS_DEVICE_STATUS_ONLINE (dev_with_monitor mon d))]>
        (<[dev:=dev_with_state HS_DEVICE_STATUS_ONLINE (dev_with_monitor mon d)]>
          (<[dev:=dev_with_monitor mon d]> (m_devs (s_mem s))))).
    { by rewrite !insert_insert_eq. }
    pose proof (table_rep_add mon (s_mem s)
      (Mem (m_lists (s_mem s)) m' (<[dev := onlined mon d]> (m_devs (s_mem s)))
         (m_cbs (s_mem s)) (m_mons (s_mem s)) (m_statics (s_mem s)))
      (mon_devices mo) bs D _ b (hnode_of dev) k (onlined mon d) H5 Hb Hr') as Hadd.
    rewrite device_of_hnode in Hadd. cbn in *. rewrite <- Hdevs. apply Hadd; [|intros p Hp; by rewrite lookup_insert_ne| | |done].
    + intros p Hp. by apply Hkeys.
    + split; rewrite ?device_of_hnode; cbn; try done.
      * by rewrite lookup_insert_eq.
      * lia.
    + intros Hin. apply Hfresh. by apply htable_in_rings.
  - rewrite (concat_insert _ _ _ _ Hb), (concat_middle _ _ _ Hb), !length_app.
    cbn. lia.
  - by rewrite !insert_insert_eq.
Qed.

(** [_hs_monitor_add] on a pair that is registered, and on one that is not. *)
Lemma wp_monitor_add (Q : Z -> st W -> Prop) s mon mo cbs bs D dev d k :
  mon_rep s mon mo cbs bs D -> enough fuel cbs bs ->
  detached s (mon_devices mo) bs dev k d ->
  (forall dev', D !! (k, dev_iface d) = Some dev' -> Q 0 s) ->
  (forall r kept s' bs', D !! (k, dev_iface d) = None ->
     notify react dev (onlined mon d) cbs (s_world s) = (r, kept, s_world s') ->
     mon_rep s' mon mo kept bs' (<[(k, dev_iface d) := dev]> D) ->
     m_devs (s_mem s') = <[dev := onlined mon d]> (m_devs (s_mem s)) ->
     sublist kept cbs -> reacted mon cbs kept s s' ->
     nodes_kept (hnode_of dev) (concat (rings (mon_devices mo) bs)) s s' -> Q r s') ->
  wp (_hs_monitor_add call fuel mon dev) Q s.
Proof.
  intros Hrep Hf Hdet Hdup Hnew. pose proof Hdet as [Hn Hd Hk Hcnt Hnode Hfresh Hnn].
  unfold _hs_monitor_add. wp_step. eapply wp_load_dev; [done|]. rewrite Hk.
  cbn [key_hash]. wp_steps. eapply wp_find; [done..|].
  destruct (D !! (k, dev_iface d)) as [dev'|] eqn:HD; [wp_step; by eapply Hdup|].
  eapply wp_add_insert; [done|done|done|]. intros s1 bs' Hrep1 Hl1 Hl2 Hdevs Hcbs Hw Hc Hns.
  eapply (wp_trigger_callbacks call react call_react) with (d := onlined mon d) (cbs := cbs).
  - exact Hn.
  - by rewrite Hdevs, lookup_insert_eq.
  - apply (mr_cbs _ _ _ _ _ _ Hrep1).
  - apply Hf.
  - intros r s' (kept & w & E & Hrep' & Hw' & Hs & Hdrop). rewrite Hw in E. subst w.
    assert (sublist kept cbs) as Hsub.
    { pose proof (notify_sublist react dev (onlined mon d) cbs (s_world s)) as Hsub. by rewrite E in Hsub. }
    apply (Hnew r kept s' bs'); [done|done| | |done| |].
    + by eapply mon_rep_notified.
    + by rewrite (sb_devs _ _ _ Hs).
    + assert (lists_kept (mon :: cbs.*1) s s') as Hl.
      { eapply lists_kept_trans; [|by apply same_but_cbs_lists].
        eapply lists_kept_weaken; [|exact Hc]. intros p Hp. by apply elem_of_nil in Hp. }
      split; [done|]. intros p Hp Hp'.
      eapply dropped_gone; [apply (mr_cbs _ _ _ _ _ _ Hrep)|apply (lk_freed _ _ _ Hl)|done|by apply Hdrop].
    + destruct Hns as [Hns Hks]. split; rewrite (sb_nodes _ _ _ Hs); done.
Qed.
End Operations.

Section Remove.
Context {W : Type}.
Variable call : ptr -> ptr -> ptr -> M (st W) Z.
Variable react : ptr -> ptr -> hs_device -> ptr -> W -> Z * W.
Hypothesis call_react : calm call react.
Variable fuel : nat.
Implicit Types (s : st W) (n p dev mon : ptr) (bs : list (list ptr))
  (D : gmap (string * Z) ptr) (cbs : list (ptr * callback)) (mo : hs_monitor)
  (gone : list (ptr * hs_device)).

(** What a dropped reference leaves, in both cases. *)
Lemma wp_unref (Q : unit -> st W -> Prop) s dev d :
  dev <> NULL -> m_devs (s_mem s) !! dev = Some d -> 1 <= dev_refcount d < 2 ^ 32 ->
  (forall s', m_devs (s_mem s') =
       (if dev_refcount d =? 1 then delete dev (m_devs (s_mem s))
        else <[dev := dev_with_refcount (dev_refcount d - 1) d]> (m_devs (s_mem s))) ->
     (forall p, p <> hnode_of dev ->
        h_next (m_nodes (s_mem s')) !! p = h_next (m_nodes (s_mem s)) !! p /\
        h_key (m_nodes (s_mem s')) !! p = h_key (m_nodes (s_mem s)) !! p) ->
     m_lists (s_mem s') = m_lists (s_mem s) -> m_cbs (s_mem s') = m_cbs (s_mem s) ->
     m_mons (s_mem s') = m_mons (s_mem s) -> s_world s' = s_world s ->
     s_common s' = s_common s -> m_statics (s_mem s') = m_statics (s_mem s) ->
     (dev_refcount d = 1 -> h_next (m_nodes (s_mem s')) !! hnode_of dev = None /\
        h_key (m_nodes (s_mem s')) !! hnode_of dev = None) -> Q tt s') ->
  wp (hs_device_unref dev) Q s.
Proof.
  intros Hn Hd Hr HQ. destruct (Z.eqb_spec (dev_refcount d) 1) as [E|E].
  - eapply wp_intro; [by apply (hs_device_unref_last _ _ d)|]. apply HQ; try done.
    + intros p Hp. cbn. by rewrite !lookup_delete_ne by done.
    + intros _. cbn. by rewrite !lookup_delete_eq.
  - eapply wp_intro; [apply (hs_device_unref_eq _ _ d); [done|done|lia]|].
    by apply HQ.
Qed.

(** One device removed from its bucket. *)
Definition remove_one dev : M (st W) (flow unit) :=
  set_dev dev (dev_with_state HS_DEVICE_STATUS_DISCONNECTED) ;;;
  let* _ := trigger_callbacks call fuel dev in
  zoom (_hs_htable_remove fuel (hnode_of dev)) ;;;
  hs_device_unref dev ;;;
  ret Next.

Lemma wp_remove_one (Q : flow unit -> st W -> Prop) s mon mo cbs bs D i b1 n b2 k d :
  mon_rep s mon mo cbs bs D -> enough fuel cbs bs ->
  bs !! i = Some (b1 ++ n :: b2) -> registered mon (s_mem s) n k d ->
  (forall r kept s',
     notify react (device_of n) (offlined d) cbs (s_world s) = (r, kept, s_world s') ->
     mon_rep s' mon mo kept (<[i := b1 ++ b2]> bs) (delete (k, dev_iface d) D) ->
     m_devs (s_mem s') = drop_dev (m_devs (s_mem s)) (device_of n, d) ->
     reacted mon cbs kept s s' ->
     nodes_dropped (concat (rings (mon_devices mo) bs)) [(device_of n, d)] s s' -> Q Next s') ->
  wp (remove_one (device_of n)) Q s.
Proof.
  intros Hrep Hf Hb Hrg HQ. pose proof Hrg as [Hd Hk Hh Hm Hst Hc Hnull].
  pose proof (tr_rep _ _ _ _ _ (mr_tab _ _ _ _ _ _ Hrep)) as Hr.
  unfold remove_one. wp_step. eapply wp_set_dev; [done|].
  set (s1 := with_devs _ s). wp_step.
  eapply (wp_trigger_callbacks call react call_react) with (d := offlined d) (cbs := cbs).
  { exact Hnull. }
  { cbn. by rewrite lookup_insert_eq. }
  { cbn. rewrite Hm. exact (mr_cbs _ _ _ _ _ _ Hrep). }
  { apply Hf. }
  intros r s2 (kept & w & E & Hcbs2 & <- & Hs2 & Hdrop). cbn [dev_monitor offlined dev_with_state] in *.
  rewrite Hm in *. change (s_world s1) with (s_world s) in E.
  assert (Hsub : sublist kept cbs).
  { pose proof (notify_sublist react (device_of n) (offlined d) cbs (s_world s)) as Hsub.
    by rewrite E in Hsub. }
  wp_step. apply wp_zoom. rewrite hnode_of_device.
  assert (Hnodes : part s2 = m_nodes (s_mem s)) by exact (sb_nodes _ _ _ Hs2).
  rewrite Hnodes. eapply wp_htable_remove; [exact Hr|exact Hb| |].
  { pose proof (enough_bucket _ _ _ _ _ Hf Hb) as Hlen. rewrite length_app in Hlen.
    cbn in Hlen. lia. }
  intros m' Hr' _ Hkey Hsame. wp_step.
  eapply (wp_unref _ _ _ (offlined d)); [done| |done|].
  { cbn. rewrite (sb_devs _ _ _ Hs2). cbn. by rewrite lookup_insert_eq. }
  intros s4 Hdevs4 Hnodes4 Hl4 Hc4 Hm4 Hw4 Hcm4 Hsts4 Hfree4. wp_step. cbn in *.
  rewrite (sb_devs _ _ _ Hs2) in Hdevs4. cbn in Hdevs4.
  rewrite insert_insert_eq, delete_insert_eq in Hdevs4.
  pose proof (concat_nodup _ _ _ Hr) as Hnd.
  apply (HQ r kept); [by rewrite Hw4| |exact Hdevs4| |].
  2:{ destruct (same_but_cbs_lists _ _ _ Hs2) as [C2 T2 M2 B2 F2 L2].
      assert (cbs_freed s s4) as F4.
      { eapply cbs_freed_trans; [exact F2|]. by apply cbs_freed_refl. }
      split; [split; [by rewrite Hcm4|by rewrite Hsts4|by rewrite Hm4|by rewrite Hc4|done|by rewrite Hl4]|].
      intros p Hp Hp'. eapply dropped_gone; [exact (mr_cbs _ _ _ _ _ _ Hrep)|exact F4|done|]. rewrite Hc4. by apply Hdrop. }
  2:{ rewrite hnode_of_device in Hnodes4, Hfree4. split.
      - intros p Hp. assert (p <> n /\ p ∉ ring (mon_devices mo) i (b1 ++ n :: b2)) as [Hpn Hpr].
        { assert (p ∉ ring (mon_devices mo) i (b1 ++ n :: b2)) as Hpr; [|unfold ring in Hpr; set_solver].
          intros Hin. apply Hp, concat_rings. eauto. }
        destruct (Hnodes4 p Hpn) as [-> ->]. by apply Hsame.
      - intros p. destruct (decide (p = n)) as [->|Hpn].
        + right. exists (device_of n). rewrite hnode_of_device. split; [left|done].
        + left. destruct (Hnodes4 p Hpn) as [_ ->]. by rewrite Hkey.
      - intros dev d2 [= -> ->]%list_elem_of_singleton Hone. rewrite hnode_of_device. by apply Hfree4. }
  destruct Hrep as [G1 G2 G3 G4 G5]. split; [done| | | |].
  - by rewrite Hm4, (sb_mons _ _ _ Hs2).
  - destruct Hcbs2 as [Hdl Hcb]. split; [by rewrite Hl4|by rewrite Hc4].
  - by eapply ids_ok_sublist.
  - eapply table_rep_remove; [exact G5|exact Hb| | | |exact Hrg].
    + eapply htable_rep_frame; [|exact Hr']. intros p Hp. apply Hnodes4.
      rewrite hnode_of_device. intros ->.
      pose proof (hr_nodup _ _ _ Hr) as Hnd'.
      apply concat_rings in Hp as (j & c & Hj & Hp).
      apply list_lookup_insert_Some in Hj as [(<- & <- & _)|(Hji & Hj)].
      * pose proof (NoDup_concat_lookup _ _ _ Hnd' (rings_lookup _ _ _ _ Hb)) as Hnd2.
        unfold ring in *. destruct (NoDup_mid _ _ _ _ Hnd2) as [Hni _]. done.
      * apply Hji. eapply (NoDup_concat_disjoint _ i j);
          [exact Hnd'|by apply rings_lookup|by apply rings_lookup| |exact Hp].
        unfold ring. set_solver.
    + intros p Hp. destruct (Hnodes4 p) as [_ ->]; [by rewrite hnode_of_device|].
      by rewrite Hkey.
    + intros p Hp. rewrite Hdevs4. case_match; [by rewrite lookup_delete_ne|by rewrite lookup_insert_ne].
Qed.

(** The callbacks triggered by the devices [gone], in order. *)
Fixpoint notify_gone gone cbs (w : W) : list (ptr * callback) * W :=
  match gone with
  | [] => (cbs, w)
  | (dev, d) :: gone =>
      let '(_, kept, w) := notify react dev (offlined d) cbs w in
      notify_gone gone kept w
  end.

Lemma notify_gone_app g1 g2 cbs w :
  notify_gone (g1 ++ g2) cbs w =
  let '(kept, w) := notify_gone g1 cbs w in notify_gone g2 kept w.
Proof.
  revert cbs w. induction g1 as [|[dev d] g1 IH]; intros cbs w; simpl; [done|].
  destruct (notify _ _ _ _ _) as [[r kept] w']. apply IH.
Qed.

Lemma rings_remove m t bs i b1 n b2 p : htable_rep m t bs -> bs !! i = Some (b1 ++ n :: b2) ->
  p ∈ concat (rings t (<[i := b1 ++ b2]> bs)) <-> p ∈ concat (rings t bs) /\ p <> n.
Proof.
  intros Hr Hi. rewrite rings_insert.
  apply (elem_concat_remove (rings t bs) i (slot t (Z.of_nat i) :: b1) n b2); [apply Hr|].
  rewrite (rings_lookup _ _ _ _ Hi). done.
Qed.

(** In the loop over the bucket [i] of [key]: the devices [gone] are
    removed, the nodes [kept] were looked at and stay, [todo] are to come. *)
Record remove_inv s mon mo cbs bs D key gone kept todo s' : Prop := {
  ri_rep : exists cbs' D',
    mon_rep s' mon mo cbs' (<[bucket_of (mon_devices mo) (_hs_htable_hash_str key)
                              := kept ++ todo]> bs) D' /\
    notify_gone gone cbs (s_world s) = (cbs', s_world s') /\
    sublist cbs' cbs /\ reacted mon cbs cbs' s s' /\
    (forall k i, k <> key -> D' !! (k, i) = D !! (k, i)) /\
    (forall i dev, D' !! (key, i) = Some dev <->
       D !! (key, i) = Some dev /\ dev ∉ gone.*1);
  ri_kept : forall n i, n ∈ kept -> D !! (key, i) <> Some (device_of n);
  ri_nodup : NoDup gone.*1;
  ri_gone : forall dev d, (dev, d) ∈ gone ->
    D !! (key, dev_iface d) = Some dev /\ m_devs (s_mem s) !! dev = Some d;
  ri_devs : m_devs (s_mem s') = foldl drop_dev (m_devs (s_mem s)) gone;
  ri_nodes : nodes_dropped (concat (rings (mon_devices mo) bs)) gone s s';
  ri_rings : forall p, p ∈ concat (rings (mon_devices mo)
      (<[bucket_of (mon_devices mo) (_hs_htable_hash_str key) := kept ++ todo]> bs)) ->
    p ∈ concat (rings (mon_devices mo) bs) /\ forall dev, dev ∈ gone.*1 -> p <> hnode_of dev
}.

Lemma remove_inv_next s mon mo cbs bs D key gone kept n todo s' :
  remove_inv s mon mo cbs bs D key gone kept (n :: todo) s' ->
  (forall i, D !! (key, i) <> Some (device_of n)) ->
  remove_inv s mon mo cbs bs D key gone (kept ++ [n]) todo s'.
Proof.
  intros [Hrep Hkept H1 H2 H3 H4 H5] Hn. split; rewrite <- ?app_assoc; try done.
  - intros p i [Hp|Hp]%elem_of_app; [by apply Hkept|].
    by apply list_elem_of_singleton in Hp as ->.
Qed.

Lemma remove_inv_gone s mon mo cbs bs D key gone kept n todo s' d r s'' cbs' D' :
  remove_inv s mon mo cbs bs D key gone kept (n :: todo) s' ->
  let i := bucket_of (mon_devices mo) (_hs_htable_hash_str key) in
  mon_rep s' mon mo cbs' (<[i := kept ++ n :: todo]> bs) D' ->
  notify_gone gone cbs (s_world s) = (cbs', s_world s') ->
  sublist cbs' cbs -> reacted mon cbs cbs' s s' ->
  (forall k i, k <> key -> D' !! (k, i) = D !! (k, i)) ->
  (forall i dev, D' !! (key, i) = Some dev <->
       D !! (key, i) = Some dev /\ dev ∉ gone.*1) ->
  registered mon (s_mem s') n key d -> n ∈ concat (<[i := kept ++ n :: todo]> bs) ->
  is_Some (bs !! i) ->
  forall kept', notify react (device_of n) (offlined d) cbs' (s_world s') =
    (r, kept', s_world s'') ->
  mon_rep s'' mon mo kept' (<[i := kept ++ todo]> bs) (delete (key, dev_iface d) D') ->
  m_devs (s_mem s'') = drop_dev (m_devs (s_mem s')) (device_of n, d) ->
  reacted mon cbs' kept' s' s'' ->
  nodes_dropped (concat (rings (mon_devices mo) (<[i := kept ++ n :: todo]> bs))) [(device_of n, d)] s' s'' ->
  remove_inv s mon mo cbs bs D key (gone ++ [(device_of n, d)]) kept todo s''.
Proof.
  intros [_ Hkept H1 H2 H3 H4 H5] i Hrep Hng Hsub Hre HD1 HD2 Hrg Hin Hi kept' E Hrep' Hdevs Hcom Hnd.
  assert (HD : D' !! (key, dev_iface d) = Some (device_of n)).
  { destruct (tr_reg _ _ _ _ _ (mr_tab _ _ _ _ _ _ Hrep) n Hin) as (k & d2 & Hrg2 & HD).
    destruct (registered_fun _ _ _ _ _ _ _ Hrg2 Hrg) as [-> ->]. done. }
  pose proof (proj1 (HD2 _ _) HD) as [HDn Hng'].
  split; [exists kept', (delete (key, dev_iface d) D')|..].
  - split; [done|]. split; [|split; [|split; [by eapply reacted_trans|split]]].
    + rewrite notify_gone_app, Hng. cbn. by rewrite E.
    + etrans; [|exact Hsub].
      pose proof (notify_sublist react (device_of n) (offlined d) cbs' (s_world s')) as Hs.
      by rewrite E in Hs.
    + intros k j Hk. rewrite lookup_delete_ne by congruence. by apply HD1.
    + intros j dev. rewrite fmap_app. cbn.
      destruct (decide (j = dev_iface d)) as [->|Hj].
      * rewrite lookup_delete_eq. split; [done|]. intros [HDj Hnot].
        rewrite HDn in HDj. injection HDj as <-. set_solver.
      * rewrite lookup_delete_ne by congruence. rewrite HD2.
        split; intros [HDj Hnot]; (split; [done|]); [|set_solver].
        intros [?|Hp]%elem_of_app; [done|]. apply list_elem_of_singleton in Hp as ->.
        assert (D' !! (key, j) = Some (device_of n)) as HDj' by (by apply HD2).
        destruct (tr_map _ _ _ _ _ (mr_tab _ _ _ _ _ _ Hrep) _ _ _ HDj')
          as (_ & d2 & Hd2 & _ & Hi2).
        destruct Hrg. congruence.
  - done.
  - rewrite fmap_app. apply NoDup_app. cbn. split; [done|]. split.
    + intros p Hp Hp'. by apply list_elem_of_singleton in Hp' as ->.
    + apply NoDup_singleton.
  - intros dev d2 [Hg|Hg]%elem_of_app; [by apply H2|].
    apply list_elem_of_singleton in Hg. injection Hg as -> ->. split; [done|].
    rewrite <- (rg_dev _ _ _ _ _ Hrg), H3. symmetry. by apply foldl_drop_ref_ne.
  - by rewrite foldl_app, Hdevs, H3.
  - eapply nodes_dropped_trans; [exact H4|exact Hnd|intros p Hp; by apply (H5 p)|].
    intros dev Hdev Hp. by apply (proj2 (H5 _ Hp) dev).
  - intros p Hp. fold i in Hp. rewrite fmap_app.
    assert (<[i := kept ++ n :: todo]> bs !! i = Some (kept ++ n :: todo)) as Hb.
    { apply list_lookup_insert_eq. destruct Hi. by eapply lookup_lt_Some. }
    pose proof (rings_remove _ _ _ _ _ _ _ p (tr_rep _ _ _ _ _ (mr_tab _ _ _ _ _ _ Hrep)) Hb) as Hrr.
    rewrite list_insert_insert_eq in Hrr. apply Hrr in Hp as [Hp Hpn]. destruct (H5 p Hp) as [Hp1 Hp2].
    split; [done|]. intros dev [Hd|Hd]%elem_of_app; [by apply Hp2|].
    apply list_elem_of_singleton in Hd as ->. cbn. by rewrite hnode_of_device.
Qed.

(** A registered device has one key. *)
Lemma table_rep_key mon m t bs D k i k' i' dev :
  table_rep mon m t bs D -> D !! (k, i) = Some dev -> D !! (k', i') = Some dev ->
  k = k' /\ i = i'.
Proof.
  intros [_ _ _ Hmap] H1 H2. destruct (Hmap _ _ _ H1) as (_ & d & ? & ? & ?).
  destruct (Hmap _ _ _ H2) as (_ & d' & ? & ? & ?). split; congruence.
Qed.

Definition remove_body key cur : M (st W) (flow unit) :=
  let dev := device_of cur in
  let* d := load_dev dev in
  let* same := strcmp_eq (dev_key d) (Some key) in
  if same : bool then remove_one dev
  else ret Next.

Lemma enough_remove cbs cbs' bs i b b' :
  enough fuel cbs bs -> sublist cbs' cbs -> bs !! i = Some b ->
  (length b' <= length b)%nat -> enough fuel cbs' (<[i := b']> bs).
Proof.
  intros [H1 H2] Hs Hi Hb. apply sublist_length in Hs.
  split; [lia|]. rewrite length_insert, (concat_insert _ _ _ _ Hi).
  rewrite (concat_middle _ _ _ Hi) in H2. rewrite !length_app in *. lia.
Qed.

Lemma wp_remove_body s mon mo cbs bs D key gone kept n todo s' b :
  mon_rep s mon mo cbs bs D -> enough fuel cbs bs ->
  bs !! bucket_of (mon_devices mo) (_hs_htable_hash_str key) = Some b ->
  (length (kept ++ n :: todo) <= length b)%nat ->
  remove_inv s mon mo cbs bs D key gone kept (n :: todo) s' ->
  wp (remove_body key n) (fun r s'' => r = Next /\ exists gone' kept',
    (length (kept' ++ todo) <= length b)%nat /\
    remove_inv s mon mo cbs bs D key gone' kept' todo s'') s'.
Proof.
  intros Hrep0 Hf Hb Hlen Hi. pose proof Hi as [(cbs' & D' & Hrep & Hng & Hsub & Hre & HD1 & HD2) _ _ _ _ _ _].
  set (i := bucket_of _ _) in *.
  assert (Hb' : <[i := kept ++ n :: todo]> bs !! i = Some (kept ++ n :: todo)).
  { apply list_lookup_insert_eq. by eapply lookup_lt_Some. }
  assert (Hin : n ∈ concat (<[i := kept ++ n :: todo]> bs)).
  { apply elem_of_concat. do 2 eexists. split; [exact Hb'|set_solver]. }
  destruct (tr_reg _ _ _ _ _ (mr_tab _ _ _ _ _ _ Hrep) n Hin) as (k & d & Hrg & HD).
  unfold remove_body. wp_step. eapply wp_load_dev; [apply Hrg|].
  rewrite (rg_key _ _ _ _ _ Hrg). cbn [strcmp_eq]. wp_steps.
  case_bool_decide as E.
  - subst k. eapply wp_remove_one; [exact Hrep| |exact Hb'|exact Hrg|].
    { by eapply enough_remove. }
    intros r kept' s'' En Hrep' Hdevs Hcom Hnds. split; [done|].
    exists (gone ++ [(device_of n, d)]), kept. split.
    { rewrite !length_app in *. cbn in Hlen. lia. }
    rewrite list_insert_insert_eq in Hrep'. by eapply remove_inv_gone.
  - wp_step. split; [done|]. exists gone, (kept ++ [n]). split.
    { rewrite <- app_assoc. exact Hlen. }
    eapply remove_inv_next; [exact Hi|]. intros j Hj.
    rewrite HD1 in HD by done.
    destruct (table_rep_key _ _ _ _ _ _ _ _ _ _ (mr_tab _ _ _ _ _ _ Hrep0) HD Hj). done.
Qed.

(** The devices of a key are all removed at the end of the loop. *)
Lemma remove_inv_done s mon mo cbs bs D key gone kept s' :
  mon_rep s mon mo cbs bs D ->
  is_Some (bs !! bucket_of (mon_devices mo) (_hs_htable_hash_str key)) ->
  remove_inv s mon mo cbs bs D key gone kept [] s' ->
  (exists bs' cbs', mon_rep s' mon mo cbs' bs' (filter (fun e => e.1.1 <> key) D) /\
     notify_gone gone cbs (s_world s) = (cbs', s_world s') /\ sublist cbs' cbs /\ reacted mon cbs cbs' s s') /\
  NoDup gone.*1 /\
  (forall dev d, (dev, d) ∈ gone <->
     D !! (key, dev_iface d) = Some dev /\ m_devs (s_mem s) !! dev = Some d).
Proof.
  intros Hrep0 [b Hb] [(cbs' & D' & Hrep & Hng & Hsub & Hre & HD1 & HD2) Hkept Hnd Hg _ _ _].
  rewrite app_nil_r in Hrep. set (i := bucket_of _ _) in *.
  assert (Hnone : forall j, D' !! (key, j) = None).
  { intros j. destruct (D' !! (key, j)) as [dev|] eqn:E; [|done]. exfalso.
    pose proof (mr_tab _ _ _ _ _ _ Hrep) as Htab.
    destruct (tr_map _ _ _ _ _ Htab _ _ _ E) as (Hin & d & Hd & Hk & Hj).
    destruct (tr_reg _ _ _ _ _ Htab _ Hin) as (k2 & d2 & Hrg & _).
    pose proof (rg_dev _ _ _ _ _ Hrg) as Hd2. rewrite device_of_hnode in Hd2.
    assert (k2 = key) as ->.
    { pose proof (rg_key _ _ _ _ _ Hrg). congruence. }
    apply elem_of_concat in Hin as (j' & c & Hj' & Hc).
    pose proof (htable_key_bucket _ _ _ _ _ _ _ (tr_rep _ _ _ _ _ Htab) Hj' Hc
                  (rg_hash _ _ _ _ _ Hrg)) as ->. fold i in Hj'.
    rewrite list_lookup_insert_eq in Hj' by (by eapply lookup_lt_Some).
    injection Hj' as <-. apply (Hkept _ j) in Hc. rewrite device_of_hnode in Hc.
    apply Hc. by apply HD2. }
  split; [|split; [done|]].
  - exists (<[i := kept]> bs), cbs'. split; [|done].
    replace (filter _ D) with D'; [done|]. apply map_eq. intros [k j].
    destruct (decide (k = key)) as [->|Hk].
    + rewrite Hnone. symmetry. apply map_lookup_filter_None. right. naive_solver.
    + rewrite HD1 by done. destruct (D !! (k, j)) eqn:E.
      * symmetry. by apply map_lookup_filter_Some.
      * symmetry. apply map_lookup_filter_None. by left.
  - intros dev d. split; [apply Hg|]. intros [HD Hd].
    destruct (decide (dev ∈ gone.*1)) as [Hin|Hin].
    + apply list_elem_of_fmap in Hin as ([dev' d'] & -> & Hin).
      destruct (Hg _ _ Hin) as [_ Hd']. cbn in *. by simplify_eq.
    + assert (D' !! (key, dev_iface d) = Some dev) by (by apply HD2). by rewrite Hnone in *.
Qed.

Lemma wp_monitor_remove (Q : unit -> st W -> Prop) s mon mo cbs bs D key :
  mon_rep s mon mo cbs bs D -> enough fuel cbs bs ->
  (forall s' bs' cbs' gone,
     mon_rep s' mon mo cbs' bs' (filter (fun e => e.1.1 <> key) D) ->
     notify_gone gone cbs (s_world s) = (cbs', s_world s') -> sublist cbs' cbs ->
     NoDup gone.*1 ->
     (forall dev d, (dev, d) ∈ gone <->
        D !! (key, dev_iface d) = Some dev /\ m_devs (s_mem s) !! dev = Some d) ->
     m_devs (s_mem s') = foldl drop_dev (m_devs (s_mem s)) gone ->
     reacted mon cbs cbs' s s' ->
     nodes_dropped (concat (rings (mon_devices mo) bs)) gone s s' -> Q tt s') ->
  wp (_hs_monitor_remove call fuel mon key) Q s.
Proof.
  intros Hrep Hf HQ. pose proof (mr_tab _ _ _ _ _ _ Hrep) as [Hr Hsz _ _].
  destruct (bucket_lookup _ _ _ (_hs_htable_hash_str key) Hr Hsz) as (b & Hb & Hbi).
  unfold _hs_monitor_remove. wp_step. fold (remove_body key).
  apply wp_htable_foreach_hash with (t := mon_devices mo) (bs := bs) (b := b)
    (Inv := fun todo s' => exists gone kept, (length (kept ++ todo) <= length b)%nat /\
              remove_inv s mon mo cbs bs D key gone kept todo s').
  - intros todo s' (gone & kept & _ & [(cbs' & D' & Hrep' & _) _ _ _ _ _ _]).
    pose proof (tr_rep _ _ _ _ _ (mr_tab _ _ _ _ _ _ Hrep')) as Hr'.
    set (i := bucket_of _ _) in *.
    assert (Hb' : <[i := kept ++ todo]> bs !! i = Some (kept ++ todo)).
    { apply list_lookup_insert_eq. by eapply lookup_lt_Some. }
    pose proof (htable_ring_nodup _ _ _ _ _ Hr' Hb') as Hnd.
    pose proof (hr_ring _ _ _ Hr' _ _ Hb') as Hc. unfold ring in Hnd.
    rewrite Hbi in Hc, Hnd. apply NoDup_cons in Hnd as [Hh _].
    apply rest_chain with (2 := chain_dom _ _ _ _ _ Hc (list_elem_of_here _ _)) (3 := Hc).
    set_solver.
  - intros n todo s' (gone & kept & Hlen & Hi).
    pose proof Hi as [(cbs' & D' & Hrep' & _ & _ & _ & HD1 & _) _ _ _ _ _ _].
    destruct (tr_reg _ _ _ _ _ (mr_tab _ _ _ _ _ _ Hrep') n) as (k & d & Hrg & HD).
    { apply elem_of_concat. do 2 eexists. split; [|apply elem_of_app; right; left].
      apply list_lookup_insert_eq. by eapply lookup_lt_Some. }
    exists (_hs_htable_hash_str k). split; [apply Hrg|]. split.
    + intros Hne. exists gone, (kept ++ [n]). split; [by rewrite <- app_assoc|].
      eapply remove_inv_next; [exact Hi|]. intros j Hj.
      assert (k <> key) as Hk by (by intros ->). rewrite HD1 in HD by done.
      destruct (table_rep_key _ _ _ _ _ _ _ _ _ _ (mr_tab _ _ _ _ _ _ Hrep) HD Hj). done.
    + intros _. eapply wp_mono; [eapply wp_remove_body; [exact Hrep|exact Hf|exact Hb|exact Hlen|exact Hi]|]. intros r s'' [-> HI]. exact HI.
  - intros s' (gone & kept & _ & Hi).
    destruct (remove_inv_done _ _ _ _ _ _ _ _ _ _ Hrep (mk_is_Some _ _ Hb) Hi)
      as ((bs' & cbs' & H1 & H2 & H3 & H3') & H4 & H5).
    wp_step. apply (HQ s' bs' cbs' gone); try done; apply Hi.
  - by apply monitor_table_eq, (mr_mon _ _ _ _ _ _ Hrep).
  - done.
  - done.
  - done.
  - exists [], []. split; [done|]. split; try done.
    + exists cbs, D. cbn [app]. rewrite list_insert_id by done.
      do 3 (split; [done|]). split; [apply reacted_refl|]. split; [done|]. intros j dev. set_solver.
    + intros n j Hn. set_solver.
    + apply NoDup_nil_2.
    + intros dev d Hin. set_solver.
    + apply nodes_dropped_refl.
    + rewrite list_insert_id by done. intros p Hp. split; [done|]. intros dev Hin%elem_of_nil. done.
  - pose proof (enough_bucket _ _ _ _ _ Hf Hb). lia.
Qed.
End Remove.

(** * Registration *)

Section Register.
Context {W : Type}.
Variable fuel : nat.
Implicit Types (s : st W) (n p cb mon : ptr) (bs : list (list ptr))
  (D : gmap (string * Z) ptr) (cbs : list (ptr * callback)) (mo : hs_monitor).

(** The table does not depend on the callbacks. *)
Lemma table_rep_frame mon (m m' : mem) t bs D :
  m_nodes m' = m_nodes m -> m_devs m' = m_devs m ->
  table_rep mon m t bs D -> table_rep mon m' t bs D.
Proof.
  intros E1 E2 [Hr Hsz Hreg Hmap]. split; [by rewrite E1|done| |by rewrite E2].
  intros n Hn. destruct (Hreg n Hn) as (k & d & Hrg & HD). exists k, d. split; [|done].
  eapply registered_frame; [by rewrite E2|by rewrite E1|done].
Qed.

Lemma wp_register (Q : Z -> st W -> Prop) s mon mo cbs bs D cb f udata :
  mon_rep s mon mo cbs bs D -> f <> NULL -> cb <> NULL -> cb ∉ mon :: cbs.*1 ->
  mon_callback_id mo < INT_MAX ->
  (forall s', let id := mon_callback_id mo in
     mon_rep s' mon (Monitor (id + 1) (mon_devices mo))
       (cbs ++ [(cb, Callback id f udata)]) bs D ->
     m_devs (s_mem s') = m_devs (s_mem s) -> m_nodes (s_mem s') = m_nodes (s_mem s) ->
     m_mons (s_mem s') = <[mon := Monitor (id + 1) (mon_devices mo)]> (m_mons (s_mem s)) ->
     m_cbs (s_mem s') = <[cb := Callback id f udata]> (m_cbs (s_mem s)) ->
     lmem_same_outside (cb :: mon :: cbs.*1) (m_lists (s_mem s)) (m_lists (s_mem s')) ->
     s_world s' = s_world s -> s_common s' = s_common s ->
     m_statics (s_mem s') = m_statics (s_mem s) -> Q id s') ->
  wp (hs_monitor_register_callback cb mon f udata) Q s.
Proof.
  intros Hrep Hf%Z.eqb_neq Hcb Hfresh Hid HQ. pose proof Hrep as [Hm Hmon Hc Hids Htab].
  unfold hs_monitor_register_callback. apply Z.eqb_neq in Hm as E. rewrite E, Hf.
  pose proof Hcb as Hcb'%Z.eqb_neq. rewrite Hcb'.
  do 2 (wp_step; apply wp_assert; [done|]). unfold alloc_cb, list_alloc. wp_step.
  wp_steps. eapply wp_load_mon; [done|].
  assert (mon_callback_id mo <> INT_MAX) as ->%Z.eqb_neq by lia.
  wp_step. apply wp_store_mon; [by cbn; rewrite Hmon|].
  wp_step. apply wp_store_cb; [by cbn; rewrite lookup_insert_eq|].
  wp_step. apply wp_zoom. cbn [part]. destruct Hc as [Hd Hcs].
  eapply wp_list_add_tail with (xs := cbs.*1).
  { eapply dlist_frame; [|exact Hd]. intros p Hp. cbn.
    rewrite !lookup_insert_ne by (intros ->; done). done. }
  { split; cbn; rewrite lookup_insert_eq; eauto. }
  { done. } { done. }
  intros m' Hd' Hsame. wp_step. eapply wp_load_cb; [by cbn; rewrite lookup_insert_eq|].
  wp_step. apply HQ; try done.
  2:{ cbn. by rewrite insert_insert_eq. }
  2:{ intros p Hp. cbn. destruct (Hsame p) as [-> ->]; [set_solver|]. cbn.
      by rewrite !lookup_insert_ne by set_solver. }
  split; [done|by cbn; rewrite lookup_insert_eq| | |].
  - split; [by cbn; rewrite fmap_app|]. cbn. rewrite insert_insert_eq.
    apply Forall_app. split; [|apply Forall_singleton; apply lookup_insert_eq].
    rewrite Forall_forall in *. intros pc Hpc. rewrite lookup_insert_ne; [by apply Hcs|].
    intros ->. apply Hfresh. right. by apply list_elem_of_fmap_2.
  - destruct Hids as (Hb & Hnd & Hids). split; cbn; [unfold INT_MAX in *; lia|split].
    + rewrite !fmap_app. cbn. apply NoDup_app. split; [done|]. split.
      * intros i Hi Hi'. apply list_elem_of_singleton in Hi' as ->.
        rewrite <- list_fmap_compose in Hi. apply list_elem_of_fmap in Hi as (pc & Ei & Hi).
        rewrite Forall_forall in Hids. specialize (Hids pc Hi). cbn in *. lia.
      * apply NoDup_singleton.
    + apply Forall_app. split; [|apply Forall_singleton; cbn; lia].
      eapply Forall_impl; [exact Hids|]. cbn. lia.
  - by eapply table_rep_frame; [| |exact Htab].
Qed.

(** The callbacks other than [id]. *)
Definition without (id : Z) cbs := filter (fun pc => cb_id pc.2 <> id) cbs.

Lemma without_none id cbs :
  (forall pc, pc ∈ cbs -> cb_id pc.2 <> id) -> without id cbs = cbs.
Proof.
  induction cbs as [|pc cbs IH]; intros H; [done|]. unfold without.
  rewrite filter_cons_True by (apply H; set_solver). f_equal. apply IH. set_solver.
Qed.

Lemma without_one mo id xs p c ys :
  ids_ok mo (xs ++ (p, c) :: ys) -> cb_id c = id ->
  without id (xs ++ (p, c) :: ys) = xs ++ ys.
Proof.
  intros (_ & Hnd & _) Hc. rewrite !fmap_app in Hnd. cbn in Hnd.
  rewrite <- Permutation_middle in Hnd. apply NoDup_cons in Hnd as [Hni _].
  unfold without. rewrite filter_app, filter_cons_False by (cbn; naive_solver).
  rewrite <- filter_app. apply without_none. intros pc Hpc Hid. apply Hni.
  rewrite <- !fmap_app, Hc, <- Hid. by do 2 apply list_elem_of_fmap_2.
Qed.

Lemma wp_deregister (Q : unit -> st W -> Prop) s mon mo cbs bs D id :
  mon_rep s mon mo cbs bs D -> 0 <= id -> enough fuel cbs bs ->
  (forall s', mon_rep s' mon mo (without id cbs) bs D ->
     reacted mon cbs (without id cbs) s s' ->
     m_devs (s_mem s') = m_devs (s_mem s) -> m_nodes (s_mem s') = m_nodes (s_mem s) ->
     s_world s' = s_world s -> s_common s' = s_common s -> Q tt s') ->
  wp (hs_monitor_deregister_callback fuel mon id) Q s.
Proof.
  intros Hrep Hid [Hf _] HQ. unfold hs_monitor_deregister_callback.
  pose proof (mr_null _ _ _ _ _ _ Hrep) as ->%Z.eqb_neq. apply Z.leb_le in Hid as ->.
  do 2 (wp_step; apply wp_assert; [done|]). wp_step.
  pose proof (mr_cbs _ _ _ _ _ _ Hrep) as [Hd Hcs].
  apply wp_list_foreach with (h := mon) (xs := cbs.*1) (Inv := fun todo s' =>
    s' = s /\ exists seen rs, todo = rs.*1 /\ cbs = seen ++ rs /\
                forall pc, pc ∈ seen -> cb_id pc.2 <> id).
  - intros todo s' (-> & seen & rs & -> & -> & _). rewrite fmap_app in Hd.
    apply rest_chain with mon seen.*1; [| |apply Hd].
    + pose proof (dlist_nodup _ _ _ Hd) as Hnd. apply NoDup_cons in Hnd. set_solver.
    + eapply dlist_node; [exact Hd|left].
  - intros todo s' [-> _]. done.
  - intros cur todo s' (-> & seen & [|[p c] rs] & Htodo & -> & Hseen); [done|].
    cbn in Htodo. injection Htodo as -> ->.
    pose proof Hcs as Hc. apply Forall_app in Hc as [_ Hc].
    apply Forall_cons in Hc as [Hc _].
    wp_step. eapply wp_load_cb; [exact Hc|]. cbn [snd].
    destruct (Z.eqb_spec (cb_id c) id) as [E|E].
    + wp_step. eapply wp_drop_callback; [by apply (mr_cbs _ _ _ _ _ _ Hrep)|].
      intros s' Hrep' Hs Hw Hcbs. do 2 wp_step.
      pose proof (without_one _ _ _ _ _ _ (mr_ids _ _ _ _ _ _ Hrep) E) as Hwo.
      apply HQ; rewrite ?Hwo; try apply Hs; [| |done].
      2:{ split; [by apply same_but_cbs_lists|]. intros q Hq Hq'.
          eapply dropped_gone; [exact (mr_cbs _ _ _ _ _ _ Hrep)|apply (sb_freed _ _ _ Hs)|done|].
          rewrite Hcbs. assert (q = p) as ->; [|apply lookup_delete_eq]. rewrite fmap_app in *. cbn in *. set_solver. }
      * eapply mon_rep_notified; [exact Hrep|exact Hrep'| |exact Hs].
        apply sublist_app; [done|by constructor].
    + wp_step. split; [done|]. exists (seen ++ [(p, c)]), rs. rewrite <- app_assoc.
      split; [done|split; [done|]]. intros pc [Hpc|Hpc]%elem_of_app; [by apply Hseen|].
      by apply list_elem_of_singleton in Hpc as ->.
  - intros s' (-> & seen & [|] & Hnil & -> & Hseen); [|done]. wp_step.
    rewrite app_nil_r in *. apply HQ; rewrite ?without_none by done; try done. apply reacted_refl.
  - split; [done|]. exists [], cbs. split; [done|split; [done|]]. intros pc Hpc. set_solver.
  - done.
  - by rewrite length_fmap.
Qed.
End Register.
