(* ===== verification/MonitorSpec.v ===== *)
(** What src/src/monitor.c promises: creation, enumeration and release of a
    monitor, and the properties of all its operations over the representation
    of Monitor. *)

From S2P Require Import Prelude Common DList Htable State Device Monitor.

Section List.
Context {W : Type}.
Variable call : ptr -> ptr -> ptr -> M (st W) Z.
Variable react : ptr -> ptr -> hs_device -> ptr -> W -> Z * W.
Hypothesis call_react : calm call react.
Variable fuel : nat.
Implicit Types (s : st W) (n p mon : ptr) (bs : list (list ptr))
  (D : gmap (string * Z) ptr) (cbs : list (ptr * callback)) (mo : hs_monitor).

(** The function shown the devices of a list until it returns non-zero. *)
Fixpoint visit (f udata : ptr) (l : list (ptr * hs_device)) (w : W) : Z * W :=
  match l with
  | [] => (0, w)
  | (dev, d) :: l =>
      let '(r, w) := react f dev d udata w in
      if r =? 0 then visit f udata l w else (r, w)
  end.

Lemma wp_monitor_list (Q : Z -> st W -> Prop) s mon mo cbs bs D f udata :
  mon_rep s mon mo cbs bs D -> enough fuel cbs bs -> f <> NULL ->
  (let '(r, w) := visit f udata (entries (m_devs (s_mem s)) (concat bs)) (s_world s) in
   Q r (with_world (fun _ => w) s)) ->
  wp (hs_monitor_list call fuel mon f udata) Q s.
Proof.
  intros Hrep [_ Hf] Hf0 HQ. unfold hs_monitor_list.
  pose proof (mr_null _ _ _ _ _ _ Hrep) as ->%Z.eqb_neq. apply Z.eqb_neq in Hf0 as ->.
  do 2 (wp_step; apply wp_assert; [done|]). wp_step.
  pose proof (mr_tab _ _ _ _ _ _ Hrep) as [Hr Hsz Hreg Hmap].
  set (devs := m_devs (s_mem s)) in *.
  set (left := fun (ns : list ptr) s' =>
    exists w, s' = with_world (fun _ => w) s /\
      visit f udata (entries devs (concat bs)) (s_world s) =
      visit f udata (entries devs ns) w).
  apply wp_htable_foreach with (t := mon_devices mo) (bs := bs)
    (Pre := fun i s' => left (concat (drop i bs)) s')
    (Inv := fun i todo s' => left (todo ++ concat (drop (S i) bs)) s' /\
       exists seen, bs !! i = Some (seen ++ todo)).
  - apply (hr_size _ _ _ Hr).
  - intros i s' (w & -> & _). apply monitor_table_eq. apply (mr_mon _ _ _ _ _ _ Hrep).
  - intros i b s' Hl Hi. destruct Hl as (w & -> & Hv). split.
    + apply (chain_link _ _ [] _ _ (hr_ring _ _ _ Hr _ _ Hi)).
    + split; [|by exists []]. exists w. split; [done|]. by rewrite <- in_bucket_rest.
  - intros i todo s' [(w & -> & _) (seen & Hi)]. by eapply bucket_rest.
  - intros i n todo s' [(w & -> & Hv) (seen & Hi)]. cbn zeta.
    assert (Hin : n ∈ concat bs).
    { apply elem_of_concat. do 2 eexists. split; [exact Hi|set_solver]. }
    destruct (Hreg n Hin) as (k & d & Hrg & HD).
    cbn [entries fmap list_fmap app visit] in Hv.
    change (entries devs (n :: todo ++ concat (drop (S i) bs))) with
      ((device_of n, default device_zero (devs !! device_of n))
         :: entries devs (todo ++ concat (drop (S i) bs))) in Hv.
    unfold devs in Hv at 2. rewrite (rg_dev _ _ _ _ _ Hrg) in Hv.
    change (default device_zero (Some d)) with d in Hv. cbn [visit] in Hv.
    pose proof (call_react f (device_of n) udata (with_world (fun _ => w) s) d
                  (rg_null _ _ _ _ _ Hrg) (rg_dev _ _ _ _ _ Hrg)) as Hc. cbn [s_world with_world] in Hc.
    destruct (react _ _ _ _ _) as [r w'] eqn:E. wp_step.
    eapply wp_intro; [exact Hc|].
    destruct (r =? 0); cbn [negb]; wp_step.
    + split; [by exists w'|]. exists (seen ++ [n]). by rewrite <- app_assoc.
    + wp_step. rewrite Hv in HQ. exact HQ.
  - intros i s' [Hl _]. exact Hl.
  - intros s' (w & -> & Hv). rewrite drop_all in Hv. cbn in Hv. wp_step.
    rewrite Hv in HQ. exact HQ.
  - exists (s_world s). destruct s. by rewrite drop_0.
  - lia.
Qed.
End List.

Section Init.
Context {W : Type}.
Implicit Types (s : st W) (mon : ptr) (mo : hs_monitor).

(** A monitor fresh from [calloc], and a fresh array. *)
Record init_ready s mon mo : Prop := {
  iy_null : mon <> NULL;
  iy_mon : m_mons (s_mem s) !! mon = Some mo;
  iy_node : list_node (m_lists (s_mem s)) mon;
  iy_id : 0 <= mon_callback_id mo <= INT_MAX
}.

(** What the initialization leaves as it was: the nodes but [ns], the lists but
    that of the monitor, and the rest. *)
Record init_frame (ns : ptr -> Prop) mon mo' s s' : Prop := {
  if_devs : m_devs (s_mem s') = m_devs (s_mem s);
  if_cbs : m_cbs (s_mem s') = m_cbs (s_mem s);
  if_mons : m_mons (s_mem s') = <[mon := mo']> (m_mons (s_mem s));
  if_statics : m_statics (s_mem s') = m_statics (s_mem s);
  if_lists : lmem_same_outside [mon] (m_lists (s_mem s)) (m_lists (s_mem s'));
  if_list : dlist (m_lists (s_mem s')) mon [];
  if_nodes : forall p, ~ ns p -> h_next (m_nodes (s_mem s')) !! p = h_next (m_nodes (s_mem s)) !! p;
  if_keys : h_key (m_nodes (s_mem s')) = h_key (m_nodes (s_mem s))
}.

Lemma wp_monitor_init (Q : Z -> st W -> Prop) s mon mo heads :
  init_ready s mon mo ->
  (heads = NULL -> forall s', s_common s' = errored HS_ERROR_MEMORY None (s_common s) ->
     s_world s' = s_world s -> m_devs (s_mem s') = m_devs (s_mem s) ->
     m_nodes (s_mem s') = m_nodes (s_mem s) ->
     init_frame (fun _ => False) mon (Monitor (mon_callback_id mo) (Htable (ht_size (mon_devices mo)) NULL)) s s' ->
     Q HS_ERROR_MEMORY s') ->
  (heads <> NULL -> forall s',
     mon_rep s' mon (Monitor (mon_callback_id mo) (Htable 64 heads)) []
       (replicate 64 []) ∅ ->
     s_common s' = s_common s -> s_world s' = s_world s ->
     m_devs (s_mem s') = m_devs (s_mem s) ->
     init_frame (is_slot (Htable 64 heads) 64) mon (Monitor (mon_callback_id mo) (Htable 64 heads)) s s' -> Q 0 s') ->
  wp (_hs_monitor_init heads mon) Q s.
Proof.
  intros [Hm Hmon Hnode Hid] Hno Hyes. unfold _hs_monitor_init.
  wp_step. apply wp_zoom, wp_list_init; [done|done|]. intros l Hd Hsame.
  wp_step. eapply wp_load_mon; [done|]. wp_step. unfold _hs_htable_init.
  destruct (Z.eqb_spec heads NULL) as [E|E].
  - wp_step. apply wp_zoom, wp_hs_error. wp_steps.
    apply wp_store_mon; [by cbn; rewrite Hmon|].
    cbn [Z.ltb Z.compare HS_ERROR_MEMORY]. wp_step. by apply Hno.
  - wp_step. apply wp_zoom. apply wp_heads_alloc. intros m1 Hs1 Hk1 Hkk1.
    wp_step. apply wp_zoom. eapply wp_htable_clear with (n := 64%nat); [done|exact Hs1|].
    intros m2 Hr Hk2 Hkk2. wp_steps. apply wp_store_mon; [by cbn; rewrite Hmon|].
    cbn [Z.ltb Z.compare]. wp_step. apply Hyes; try done.
    2:{ split; cbn; try done; [|by etrans; [exact Hkk2|exact Hkk1]]. intros p Hp.
        etrans; [by apply Hk2|by apply Hk1]. }
    split.
    + done.
    + cbn. by rewrite lookup_insert_eq.
    + split; [exact Hd|]. by constructor.
    + split; [exact Hid|]. split; [apply NoDup_nil_2|done].
    + split; [exact Hr|done| |].
      * intros n Hn. exfalso.
        apply elem_of_concat in Hn as (i & b & [-> _]%lookup_replicate & Hn). set_solver.
      * intros k i dev HD. by rewrite lookup_empty in HD.
Qed.
End Init.

Section Release.
Context {W : Type}.
Variable fuel : nat.
Implicit Types (s : st W) (n p mon : ptr) (bs : list (list ptr))
  (D : gmap (string * Z) ptr) (cbs : list (ptr * callback)) (mo : hs_monitor)
  (t : _hs_htable).

(** The list nodes [ps] are freed, and only those. *)
Definition cells_freed (ps : list ptr) (l l' : lmem) : Prop :=
  forall p, if decide (p ∈ ps) then l_prev l' !! p = None /\ l_next l' !! p = None
            else l_prev l' !! p = l_prev l !! p /\ l_next l' !! p = l_next l !! p.

Lemma foldl_delete_lookup {A} l (m : gmap ptr A) p :
  foldl (fun m p => delete p m) m l !! p = if decide (p ∈ l) then None else m !! p.
Proof.
  revert m. induction l as [|q l IH]; intros m; simpl; [done|]. rewrite IH.
  destruct (decide (p ∈ l)), (decide (p ∈ q :: l)); try set_solver.
  - assert (p = q) as -> by set_solver. apply lookup_delete_eq.
  - by rewrite lookup_delete_ne by set_solver.
Qed.

(** The first loop frees the callbacks [todo] that are left. *)
Lemma wp_release_callbacks (Q : option unit -> st W -> Prop) s mon cbs :
  cbs_rep s mon cbs -> (length cbs < fuel)%nat ->
  (forall s', m_cbs (s_mem s') = foldl (fun m p => delete p m) (m_cbs (s_mem s)) cbs.*1 ->
     m_nodes (s_mem s') = m_nodes (s_mem s) -> m_devs (s_mem s') = m_devs (s_mem s) ->
     m_mons (s_mem s') = m_mons (s_mem s) -> s_world s' = s_world s ->
     s_common s' = s_common s -> m_statics (s_mem s') = m_statics (s_mem s) ->
     cells_freed cbs.*1 (m_lists (s_mem s)) (m_lists (s_mem s')) -> Q None s') ->
  wp (_hs_list_foreach (R := unit) (ret mon) (fun cur => free_cb cur ;;; ret Next) fuel) Q s.
Proof.
  intros [Hd Hc] Hf HQ. pose proof (dlist_nodup _ _ _ Hd) as Hnd.
  apply wp_list_foreach with (h := mon) (xs := cbs.*1) (Inv := fun todo s' =>
    exists fs, cbs.*1 = fs ++ todo /\ rest (l_next (m_lists (s_mem s'))) mon todo /\
      m_cbs (s_mem s') = foldl (fun m p => delete p m) (m_cbs (s_mem s)) fs /\
      m_nodes (s_mem s') = m_nodes (s_mem s) /\ m_devs (s_mem s') = m_devs (s_mem s) /\
      m_mons (s_mem s') = m_mons (s_mem s) /\ s_world s' = s_world s /\
      s_common s' = s_common s /\ m_statics (s_mem s') = m_statics (s_mem s) /\
      cells_freed fs (m_lists (s_mem s)) (m_lists (s_mem s'))).
  - intros todo s' (fs & _ & Hr & _). exact Hr.
  - done.
  - intros p todo s' (fs & Ecbs & Hr & Em & Hsame). wp_step.
    rewrite Ecbs in Hnd. apply NoDup_cons in Hnd as [Hmon Hnd].
    apply NoDup_app in Hnd as (_ & Hfs & Hnd). apply NoDup_cons in Hnd as [Hp _].
    assert (exists c, m_cbs (s_mem s') !! p = Some c) as [c Hpc].
    { rewrite Em. assert (p ∈ cbs.*1) as Hin by (rewrite Ecbs; set_solver).
      apply list_elem_of_fmap in Hin as ([p' c] & -> & Hin).
      rewrite Forall_forall in Hc. specialize (Hc _ Hin). cbn in Hc. exists c.
      assert (p' ∉ fs) as Hni by (intros H; apply (Hfs _ H); left).
      clear -Hc Hni. revert Hc. generalize (m_cbs (s_mem s)).
      induction fs as [|q fs IH]; intros m Hm; [done|]. cbn in *.
      apply IH; [set_solver|]. rewrite lookup_delete_ne by set_solver. done. }
    eapply wp_intro; [by eapply free_cb_eq|]. wp_step.
    exists (fs ++ [p]). split; [by rewrite <- app_assoc|]. split.
    + cbn. apply rest_delete; [done|set_solver|]. destruct Hr as (H1 & H2 & H3).
      split; [set_solver|split; [done|]]. destruct todo as [|x xs]; [done|].
      by destruct H3.
    + rewrite foldl_app. cbn. rewrite Em. destruct Hsame as (? & ? & ? & ? & ? & ? & Hcells).
      split_and!; try done. intros q. specialize (Hcells q). cbn.
      destruct (decide (q = p)) as [->|Hqp].
      * rewrite !lookup_delete_eq. by rewrite decide_True by set_solver.
      * rewrite !lookup_delete_ne by done.
        destruct (decide (q ∈ fs)); [by rewrite decide_True by set_solver|by rewrite decide_False by set_solver].
  - intros s' (fs & Ecbs & _ & Em & ? & ? & ? & ? & ? & ? & ?). rewrite app_nil_r in Ecbs.
    subst fs. by apply HQ.
  - exists []. split; [done|]. split; [apply rest_ring; [done|apply Hd]|]. by split_and!.
  - exact Hd.
  - by rewrite length_fmap.
Qed.

(** In the second loop: the nodes [done] are released, [todo] are not. *)
Record release_inv s mon bs (done todo : list ptr) s' : Prop := {
  rl_split : concat bs = done ++ todo;
  rl_nodes : hmem_same_outside done (m_nodes (s_mem s)) (m_nodes (s_mem s'));
  rl_freed : forall p d, p ∈ done -> m_devs (s_mem s) !! device_of p = Some d -> dev_refcount d = 1 ->
    h_next (m_nodes (s_mem s')) !! p = None /\ h_key (m_nodes (s_mem s')) !! p = None;
  rl_devs : m_devs (s_mem s') =
    foldl (drop_ref (dev_with_monitor NULL)) (m_devs (s_mem s))
      (entries (m_devs (s_mem s)) done);
  rl_same : m_mons (s_mem s') = m_mons (s_mem s) /\ m_cbs (s_mem s') = m_cbs (s_mem s) /\
    s_world s' = s_world s /\ s_common s' = s_common s /\
    m_lists (s_mem s') = m_lists (s_mem s) /\ m_statics (s_mem s') = m_statics (s_mem s)
}.

Lemma rl_next s mon bs done todo s' p : release_inv s mon bs done todo s' -> p ∉ done ->
  h_next (m_nodes (s_mem s')) !! p = h_next (m_nodes (s_mem s)) !! p.
Proof. intros Hi Hp. by apply (rl_nodes _ _ _ _ _ _ Hi). Qed.

Lemma wp_release_one s mon mo bs D done n todo s' :
  table_rep mon (s_mem s) (mon_devices mo) bs D ->
  release_inv s mon bs done (n :: todo) s' ->
  wp (let dev := device_of n in
      set_dev dev (dev_with_monitor NULL) ;;;
      hs_device_unref dev ;;;
      ret (@Next unit))
    (fun r s'' => r = Next /\ release_inv s mon bs (done ++ [n]) todo s'') s'.
Proof.
  intros [Hr _ Hreg _] [Hsplit Hnodes Hfreed Hdevs (E1 & E2 & E3 & E4 & E5 & E6)]. cbn zeta.
  pose proof (concat_nodup _ _ _ Hr) as Hnd. rewrite Hsplit in Hnd.
  apply NoDup_app in Hnd as (_ & Hdis & _).
  destruct (Hreg n) as (k & d & Hrg & _); [rewrite Hsplit; set_solver|].
  pose proof (rg_dev _ _ _ _ _ Hrg) as Hd.
  assert (Hd' : m_devs (s_mem s') !! device_of n = Some d).
  { rewrite Hdevs, foldl_drop_ref_ne; [done|]. rewrite entries_fst.
    intros (n' & E%device_of_inj & Hn')%list_elem_of_fmap. subst n'.
    apply (Hdis n Hn'). left. }
  wp_step. eapply wp_set_dev; [exact Hd'|]. wp_step.
  eapply (wp_unref _ _ _ (dev_with_monitor NULL d)); [apply Hrg| |apply Hrg|].
  { cbn. by rewrite lookup_insert_eq. }
  intros s3 Hdevs3 Hn3 Hl3 Hc3 Hm3 Hw3 Hcm3 Hsts3 Hfree3. wp_step. split; [done|].
  rewrite hnode_of_device in Hn3, Hfree3. split.
  - by rewrite <- app_assoc.
  - intros p Hp. destruct (Hn3 p) as [-> ->]; [set_solver|]. cbn. apply Hnodes. set_solver.
  - intros p d' [Hp|Hp]%elem_of_app Hd2 Hone.
    + destruct (Hn3 p) as [-> ->]; [intros ->; apply (Hdis n Hp); left|]. cbn. by eapply Hfreed.
    + apply list_elem_of_singleton in Hp as ->. rewrite Hd in Hd2. injection Hd2 as <-. by apply Hfree3.
  - unfold entries. rewrite fmap_app, foldl_app. fold (entries (m_devs (s_mem s)) done).
    rewrite <- Hdevs. cbn [fmap list_fmap foldl]. rewrite Hd. cbn.
    rewrite Hdevs3. cbn. by rewrite insert_insert_eq, delete_insert_eq.
  - rewrite Hm3, Hc3, Hw3, Hcm3, Hl3, Hsts3. done.
Qed.

Lemma wp_release_devices (Q : option unit -> st W -> Prop) s mon mo bs D :
  m_mons (s_mem s) !! mon = Some mo ->
  table_rep mon (s_mem s) (mon_devices mo) bs D ->
  (length bs + length (concat bs) < fuel)%nat ->
  (forall s', release_inv s mon bs (concat bs) [] s' -> Q None s') ->
  wp (hs_htable_foreach (R := unit) (monitor_table mon) (fun cur =>
        let dev := device_of cur in
        set_dev dev (dev_with_monitor NULL) ;;;
        hs_device_unref dev ;;;
        ret Next) fuel) Q s.
Proof.
  intros Hmon Htab Hf HQ. pose proof (tr_rep _ _ _ _ _ Htab) as Hr.
  apply wp_htable_foreach with (t := mon_devices mo) (bs := bs)
    (Pre := fun i s' => exists done, release_inv s mon bs done (concat (drop i bs)) s')
    (Inv := fun i todo s' =>
       (exists done, release_inv s mon bs done (todo ++ concat (drop (S i) bs)) s') /\
       exists seen, bs !! i = Some (seen ++ todo)).
  - apply (hr_size _ _ _ Hr).
  - intros i s' [ds Hi]. apply monitor_table_eq.
    by rewrite (proj1 (rl_same _ _ _ _ _ _ Hi)).
  - intros i b s' [ds Hi] Hb. split.
    + rewrite (rl_next _ _ _ _ _ _ _ Hi).
      * apply (chain_link _ _ [] _ _ (hr_ring _ _ _ Hr _ _ Hb)).
      * intros Hin. apply (slot_not_node _ _ _ i Hr); [by eapply lookup_lt_Some|].
        rewrite (rl_split _ _ _ _ _ _ Hi). set_solver.
    + split; [|by exists []]. exists ds. by rewrite <- in_bucket_rest.
  - intros i todo s' [[ds Hi] (seen & Hb)].
    assert (rest (h_next (m_nodes (s_mem s))) (slot (mon_devices mo) (Z.of_nat i)) todo)
      as (H1 & H2 & H3) by (by eapply bucket_rest).
    pose proof (concat_nodup _ _ _ Hr) as Hnd. rewrite (rl_split _ _ _ _ _ _ Hi) in Hnd.
    apply NoDup_app in Hnd as (_ & Hdis & _).
    assert (Hs : slot (mon_devices mo) (Z.of_nat i) ∉ ds).
    { intros Hin. apply (slot_not_node _ _ _ i Hr); [by eapply lookup_lt_Some|].
      rewrite (rl_split _ _ _ _ _ _ Hi). set_solver. }
    split; [done|split].
    + change (part s') with (m_nodes (s_mem s')). by rewrite (rl_next _ _ _ _ _ _ _ Hi).
    + destruct todo as [|x xs]; [done|]. eapply chain_same; [|exact H3].
      intros p Hp. apply (rl_next _ _ _ _ _ _ _ Hi). intros Hin. apply (Hdis p Hin). set_solver.
  - intros i n todo s' [[ds Hi] (seen & Hb)].
    eapply wp_mono; [by eapply wp_release_one|]. intros r s'' [-> Hi'].
    split; [by eexists|]. exists (seen ++ [n]). by rewrite <- app_assoc.
  - intros i s' [[ds Hi] _]. by exists ds.
  - intros s' [ds Hi]. apply HQ. rewrite drop_all in Hi. cbn in Hi.
    pose proof (rl_split _ _ _ _ _ _ Hi) as E. rewrite app_nil_r in E. by rewrite E.
  - exists []. split; [by rewrite drop_0|done|set_solver|done|done].
  - done.
Qed.

Lemma heads_free_eq t (n : nat) (m : hmem) : exists m', heads_free t n m = Done (tt, m') /\
  h_key m' = h_key m /\
  (forall i, (i < n)%nat -> h_next m' !! slot t (Z.of_nat i) = None) /\
  (forall p, ~ is_slot t n p -> h_next m' !! p = h_next m !! p).
Proof.
  induction n as [|n (m' & E & Hk & Hs & Ho)]; simpl.
  - exists m. split; [done|split; [done|split; [lia|done]]].
  - eexists. split; [unfold bind; by rewrite E|]. cbn. split; [done|split].
    + intros i Hi. destruct (decide (i = n)) as [->|Hne]; [apply lookup_delete_eq|].
      rewrite lookup_delete_ne by (intros H%slot_inj; lia). apply Hs. lia.
    + intros p Hp. rewrite lookup_delete_ne.
      * apply Ho. intros (i & Hi & ->). apply Hp. exists i. split; [lia|done].
      * intros <-. apply Hp. exists n. split; [lia|done].
Qed.

(** The memory after [_hs_monitor_release]. *)
Record released s mon mo cbs bs s' : Prop := {
  re_cbs : m_cbs (s_mem s') = foldl (fun m p => delete p m) (m_cbs (s_mem s)) cbs.*1;
  re_devs : m_devs (s_mem s') = foldl (drop_ref (dev_with_monitor NULL)) (m_devs (s_mem s))
    (entries (m_devs (s_mem s)) (concat bs));
  re_slots : forall i, 0 <= i < ht_size (mon_devices mo) ->
    h_next (m_nodes (s_mem s')) !! slot (mon_devices mo) i = None;
  re_keys : forall i, h_key (m_nodes (s_mem s')) !! slot (mon_devices mo) i =
    h_key (m_nodes (s_mem s)) !! slot (mon_devices mo) i \/ slot (mon_devices mo) i ∈ concat bs;
  re_nodes : hmem_same_outside (concat (rings (mon_devices mo) bs)) (m_nodes (s_mem s)) (m_nodes (s_mem s'));
  re_freed : forall p d, p ∈ concat bs -> m_devs (s_mem s) !! device_of p = Some d -> dev_refcount d = 1 ->
    h_next (m_nodes (s_mem s')) !! p = None /\ h_key (m_nodes (s_mem s')) !! p = None;
  re_cells : cells_freed cbs.*1 (m_lists (s_mem s)) (m_lists (s_mem s'));
  re_mons : m_mons (s_mem s') = m_mons (s_mem s);
  re_statics : m_statics (s_mem s') = m_statics (s_mem s);
  re_world : s_world s' = s_world s;
  re_common : s_common s' = s_common s
}.

Lemma slot_in_rings t bs m (i : nat) : htable_rep m t bs -> (i < Z.to_nat (ht_size t))%nat ->
  slot t (Z.of_nat i) ∈ concat (rings t bs).
Proof.
  intros Hr Hi. rewrite (hr_size _ _ _ Hr), Nat2Z.id in Hi. destruct (lookup_lt_is_Some_2 _ _ Hi) as [b Hb].
  apply concat_rings. exists i, b. split; [done|]. left.
Qed.

Lemma node_in_rings t bs p : p ∈ concat bs -> p ∈ concat (rings t bs).
Proof. apply htable_in_rings. Qed.

Lemma wp_monitor_release (Q : unit -> st W -> Prop) s mon mo cbs bs D :
  mon_rep s mon mo cbs bs D -> enough fuel cbs bs ->
  (forall s', released s mon mo cbs bs s' -> Q tt s') ->
  wp (_hs_monitor_release fuel mon) Q s.
Proof.
  intros Hrep [Hf1 Hf2] HQ. unfold _hs_monitor_release. wp_step.
  pose proof (tr_rep _ _ _ _ _ (mr_tab _ _ _ _ _ _ Hrep)) as Hr.
  eapply wp_release_callbacks; [by apply (mr_cbs _ _ _ _ _ _ Hrep)|done|].
  intros s1 Hc1 Hn1 Hd1 Hm1 Hw1 Hcm1 Hst1 Hl1. wp_step.
  eapply (wp_release_devices _ s1 mon mo bs D).
  { rewrite Hm1. apply (mr_mon _ _ _ _ _ _ Hrep). }
  { eapply table_rep_frame; [exact Hn1|exact Hd1|apply (mr_tab _ _ _ _ _ _ Hrep)]. }
  { lia. }
  intros s2 [_ Hnodes Hfreed Hdevs (E1 & E2 & E3 & E4 & E5 & E6)]. wp_step.
  eapply wp_load_mon; [by rewrite E1, Hm1; apply (mr_mon _ _ _ _ _ _ Hrep)|].
  apply wp_zoom. unfold _hs_htable_release.
  destruct (heads_free_eq (mon_devices mo) (Z.to_nat (ht_size (mon_devices mo))) (part s2))
    as (m' & E & Hk & Hs & Ho).
  eapply wp_intro; [exact E|]. change (part s2) with (m_nodes (s_mem s2)) in *.
  assert (Hnext : forall p, ~ is_slot (mon_devices mo) (Z.to_nat (ht_size (mon_devices mo))) p ->
    p ∉ concat bs -> h_next m' !! p = h_next (m_nodes (s_mem s)) !! p).
  { intros p Hp Hp2. rewrite Ho by done. destruct (Hnodes p Hp2) as [-> _]. by rewrite Hn1. }
  apply HQ. split; cbn; try congruence.
  - intros i Hi. rewrite <- (Z2Nat.id i) by lia. apply Hs. lia.
  - intros i. rewrite Hk. destruct (decide (slot (mon_devices mo) i ∈ concat bs)); [by right|left].
    destruct (Hnodes _ n) as [_ ->]. by rewrite Hn1.
  - intros p Hp. assert (p ∉ concat bs) as Hp2 by (intros Hin; by apply Hp, node_in_rings).
    split; [|rewrite Hk; destruct (Hnodes p Hp2) as [_ ->]; by rewrite Hn1].
    apply Hnext; [|done]. intros (i & Hi & ->). apply Hp. by eapply slot_in_rings.
  - intros p d Hp Hd Hone. rewrite Hk. destruct (Hfreed p d Hp) as [F1 F2]; [by rewrite Hd1|done|].
    split; [|done]. rewrite Ho; [done|]. intros (i & Hi & ->).
    rewrite (hr_size _ _ _ Hr), Nat2Z.id in Hi. by apply (slot_not_node _ _ _ i Hr).
  - intros p. rewrite E5. apply Hl1.
Qed.
End Release.

(** * The abstract monitor *)

(** What a client sees: the next identifier, the callbacks in registration
    order, the registered device of each key and interface, the device
    objects, and the world. *)
Record amon (W : Type) := AMon {
  a_next : Z;
  a_cbs : list (ptr * callback);
  a_reg : gmap (string * Z) ptr;
  a_devs : gmap ptr hs_device;
  a_world : W
}.
Arguments AMon {W}.
Arguments a_next {W}.
Arguments a_cbs {W}.
Arguments a_reg {W}.
Arguments a_devs {W}.
Arguments a_world {W}.

(** The operations of monitor_priv.h and hs/monitor.h on a monitor. *)
Inductive op :=
  | Register (cb f udata : ptr)
  | Deregister (id : Z)
  | Add (dev : ptr)
  | Remove (key : string)
  | Enumerate (f udata : ptr).

Section Simulation.
Context {W : Type}.
Variable call : ptr -> ptr -> ptr -> M (st W) Z.
Variable react : ptr -> ptr -> hs_device -> ptr -> W -> Z * W.
Hypothesis call_react : calm call react.
Variable fuel : nat.
Variable mon : ptr.
Implicit Types (s : st W) (a : amon W).

Definition exec (o : op) : M (st W) Z :=
  match o with
  | Register cb f udata => hs_monitor_register_callback cb mon f udata
  | Deregister id => hs_monitor_deregister_callback fuel mon id ;;; ret 0
  | Add dev => _hs_monitor_add call fuel mon dev
  | Remove key => _hs_monitor_remove call fuel mon key ;;; ret 0
  | Enumerate f udata => hs_monitor_list call fuel mon f udata
  end.

(** Each device of [D] exactly once, with its record. *)
Definition all_devices (devs : gmap ptr hs_device) (D : gmap (string * Z) ptr)
    (P : string -> Prop) (l : list (ptr * hs_device)) : Prop :=
  NoDup l.*1 /\
  forall dev d, (dev, d) ∈ l <->
    devs !! dev = Some d /\ exists k, P k /\ D !! (k, dev_iface d) = Some dev.

(** The specification of the operations. *)
Inductive astep : amon W -> op -> Z -> amon W -> Prop :=
  | A_register n cbs D devs w cb f udata :
      astep (AMon n cbs D devs w) (Register cb f udata) n
        (AMon (n + 1) (cbs ++ [(cb, Callback n f udata)]) D devs w)
  | A_deregister n cbs D devs w id :
      astep (AMon n cbs D devs w) (Deregister id) 0
        (AMon n (without id cbs) D devs w)
  | A_add_known n cbs D devs w dev d k dev' :
      devs !! dev = Some d -> dev_key d = Some k -> D !! (k, dev_iface d) = Some dev' ->
      astep (AMon n cbs D devs w) (Add dev) 0 (AMon n cbs D devs w)
  | A_add_new n cbs D devs w dev d k r kept w' :
      devs !! dev = Some d -> dev_key d = Some k -> D !! (k, dev_iface d) = None ->
      notify react dev (onlined mon d) cbs w = (r, kept, w') ->
      astep (AMon n cbs D devs w) (Add dev) r
        (AMon n kept (<[(k, dev_iface d) := dev]> D) (<[dev := onlined mon d]> devs) w')
  | A_remove n cbs D devs w key gone kept w' :
      all_devices devs D (fun k => k = key) gone ->
      notify_gone react gone cbs w = (kept, w') ->
      astep (AMon n cbs D devs w) (Remove key) 0
        (AMon n kept (filter (fun e => e.1.1 <> key) D) (foldl drop_dev devs gone) w')
  | A_list n cbs D devs w f udata l r w' :
      all_devices devs D (fun _ => True) l ->
      visit react f udata l w = (r, w') ->
      astep (AMon n cbs D devs w) (Enumerate f udata) r (AMon n cbs D devs w').

(** The concrete state [s] implements [a]. *)
Definition implements s a : Prop :=
  exists mo bs, mon_rep s mon mo (a_cbs a) bs (a_reg a) /\
    mon_callback_id mo = a_next a /\ length bs = 64%nat /\
    m_devs (s_mem s) = a_devs a /\ s_world s = a_world a.

(** What the caller guarantees: fresh objects, valid identifiers, devices
    that are alive and in no table. *)
Definition ready s a (o : op) : Prop :=
  (length (a_cbs a) + size (a_reg a) + 65 < fuel)%nat /\
  match o with
  | Register cb f _ =>
      f <> NULL /\ cb <> NULL /\ l_prev (m_lists (s_mem s)) !! cb = None /\
      a_next a < INT_MAX
  | Deregister id => 0 <= id
  | Add dev =>
      dev <> NULL /\ hnode_of dev <> NULL /\ hnode (m_nodes (s_mem s)) (hnode_of dev) /\
      (forall p, h_next (m_nodes (s_mem s)) !! p <> Some (hnode_of dev)) /\
      exists d k, a_devs a !! dev = Some d /\ dev_key d = Some k /\
                  0 <= dev_refcount d < 2 ^ 32 - 1
  | Remove _ => True
  | Enumerate f _ => f <> NULL
  end.

Lemma registry_size m t bs D : table_rep mon m t bs D -> size D = length (concat bs).
Proof.
  intros Htab. pose proof Htab as [Hr _ Hreg Hmap].
  rewrite <- (length_fmap device_of (concat bs)).
  rewrite <- length_map_to_list, <- (length_fmap snd (map_to_list D)).
  apply Permutation_length, NoDup_Permutation.
  - apply NoDup_fmap_2_strong; [|apply NoDup_map_to_list].
    intros [[k i] dev] [[k' i'] dev'] H1 H2 E. cbn in E. subst dev'.
    apply elem_of_map_to_list in H1, H2.
    by destruct (table_rep_key _ _ _ _ _ _ _ _ _ _ Htab H1 H2) as [-> ->].
  - apply NoDup_fmap_2; [intros x y; apply device_of_inj|by eapply concat_nodup].
  - intros dev. rewrite !list_elem_of_fmap. split.
    + intros ([[k i] dev'] & -> & H). apply elem_of_map_to_list in H.
      destruct (Hmap _ _ _ H) as [Hin _]. exists (hnode_of dev').
      by rewrite device_of_hnode.
    + intros (n & -> & Hn). destruct (Hreg n Hn) as (k & d & _ & HD).
      exists ((k, dev_iface d), device_of n). split; [done|]. by apply elem_of_map_to_list.
Qed.

(** Enough fuel for the loops over the monitor, with [k] devices to come. *)
Definition room (mo : hs_monitor) (cbs : list (ptr * callback)) (D : gmap (string * Z) ptr) (k : nat) : Prop :=
  (length cbs + size D + Z.to_nat (ht_size (mon_devices mo)) + 1 + k < fuel)%nat.

Lemma room_enough s mo cbs bs D k : mon_rep s mon mo cbs bs D -> room mo cbs D k -> enough fuel cbs bs.
Proof.
  intros Hrep Hr. pose proof (mr_tab _ _ _ _ _ _ Hrep) as Htab.
  pose proof (registry_size _ _ _ _ Htab) as Hs. pose proof (hr_size _ _ _ (tr_rep _ _ _ _ _ Htab)) as Hb.
  unfold room in Hr. split; lia.
Qed.

Lemma all_devices_entries s mo cbs bs D : mon_rep s mon mo cbs bs D ->
  all_devices (m_devs (s_mem s)) D (fun _ => True)
    (entries (m_devs (s_mem s)) (concat bs)).
Proof.
  intros Hrep. destruct (entries_all _ _ _ _ _ _ Hrep) as [Hnd Hl].
  split; [done|]. intros dev d. rewrite Hl. naive_solver.
Qed.

Lemma simulation s a o : implements s a -> ready s a o ->
  wp (exec o) (fun r s' => exists a', astep a o r a' /\ implements s' a') s.
Proof.
  intros (mo & bs & Hrep & Hid & Hl & Hdevs & Hw) [Hf Ho].
  destruct a as [n cbs D devs w]. cbn in *. subst devs w n.
  assert (Hen : enough fuel cbs bs).
  { split; [lia|]. rewrite <- (registry_size _ _ _ _ (mr_tab _ _ _ _ _ _ Hrep)). lia. }
  pose proof (mr_tab _ _ _ _ _ _ Hrep) as Htab.
  destruct o as [cb f udata|id|dev|key|f udata]; cbn [exec].
  - destruct Ho as (Hf0 & Hcb & Hfresh & Hmax).
    eapply wp_register; [exact Hrep|done|done| |done|].
    { intros Hin. pose proof (proj1 (mr_cbs _ _ _ _ _ _ Hrep)) as Hd.
      destruct (dlist_node _ _ _ _ Hd Hin) as [[v Hv] _]. congruence. }
    intros s' id Hrep' Hd' _ _ _ _ Hw' _ _. eexists. split; [constructor|].
    eexists _, bs. split; [exact Hrep'|done].
  - wp_step. eapply wp_deregister; [exact Hrep|done|done|].
    intros s' Hrep' _ Hd' _ Hw' _. wp_step. eexists. split; [constructor|].
    eexists mo, bs. split; [exact Hrep'|done].
  - destruct Ho as (H1 & H2 & H3 & H4 & d & k & Hd & Hk & Hc).
    eapply (wp_monitor_add call react call_react); [exact Hrep|done| | |].
    + split; [done|exact Hd|exact Hk|done|done| |done].
      eapply unlinked_fresh; [apply Htab|done].
    + intros dev' HD. eexists. split; [by eapply A_add_known|].
      exists mo, bs. split; [exact Hrep|done].
    + intros r kept s' bs' HD En Hrep' Hd' _ _. eexists.
      split; [by eapply A_add_new|]. exists mo, bs'. split; [exact Hrep'|].
      split; [done|split; [|done]].
      pose proof (hr_size _ _ _ (tr_rep _ _ _ _ _ Htab)).
      pose proof (hr_size _ _ _ (tr_rep _ _ _ _ _ (mr_tab _ _ _ _ _ _ Hrep'))). lia.
  - wp_step. eapply (wp_monitor_remove call react call_react); [exact Hrep|done|].
    intros s' bs' cbs' gone Hrep' Hng _ Hnd Hg Hd' _ _. wp_step. eexists.
    split; [eapply A_remove; [|exact Hng]|].
    + split; [done|]. intros dev d. rewrite Hg. naive_solver.
    + exists mo, bs'. split; [exact Hrep'|]. split; [done|split; [|done]].
      pose proof (hr_size _ _ _ (tr_rep _ _ _ _ _ Htab)).
      pose proof (hr_size _ _ _ (tr_rep _ _ _ _ _ (mr_tab _ _ _ _ _ _ Hrep'))). lia.
  - eapply (wp_monitor_list call react call_react); [exact Hrep|done|done|].
    destruct (visit react f udata _ _) as [r w'] eqn:E. eexists.
    split; [eapply A_list; [by eapply all_devices_entries|exact E]|].
    exists mo, bs. split; [|done]. eapply mon_rep_notified; [exact Hrep| |done|].
    + apply (mr_cbs _ _ _ _ _ _ Hrep).
    + apply same_but_cbs_refl.
Qed.

(** The abstraction is a function of the state. *)
Lemma cbs_rep_fun s cbs cbs' : cbs_rep s mon cbs -> cbs_rep s mon cbs' -> cbs = cbs'.
Proof.
  intros [[N1 _ C1 _] F1] [[N2 _ C2 _] F2].
  assert (E : cbs.*1 = cbs'.*1).
  { eapply chain_fun; [exact C1|exact C2|exact N1|exact N2| |].
    - by apply NoDup_cons in N1 as [? _].
    - by apply NoDup_cons in N2 as [? _]. }
  clear -E F1 F2. revert cbs' E F2.
  induction cbs as [|[p c] cbs IH]; intros [|[p' c'] cbs'] E F2; try done.
  cbn in E. injection E as -> E. apply Forall_cons in F1 as [H1 F1], F2 as [H2 F2].
  cbn in *. f_equal; [congruence|auto].
Qed.

Lemma htable_rep_fun m t bs bs' : htable_rep m t bs -> htable_rep m t bs' -> bs = bs'.
Proof.
  intros H1 H2. apply list_eq_same_length with (length bs');
    [done|pose proof (hr_size _ _ _ H1); pose proof (hr_size _ _ _ H2); lia|].
  intros i b b' _ Hb Hb'.
  pose proof (htable_ring_nodup _ _ _ _ _ H1 Hb) as N1.
  pose proof (htable_ring_nodup _ _ _ _ _ H2 Hb') as N2.
  eapply chain_fun; [by apply (hr_ring _ _ _ H1)|by apply (hr_ring _ _ _ H2)|exact N1|exact N2| |].
  - by apply NoDup_cons in N1 as [? _].
  - by apply NoDup_cons in N2 as [? _].
Qed.

Lemma registry_incl m t bs D D' : table_rep mon m t bs D -> table_rep mon m t bs D' ->
  forall ki dev, D !! ki = Some dev -> D' !! ki = Some dev.
Proof.
  intros [_ _ _ Hmap] [_ _ Hreg' _] [k i] dev HD.
  destruct (Hmap _ _ _ HD) as (Hin & d & Hd & Hk & Hi).
  destruct (Hreg' _ Hin) as (k' & d' & Hrg & HD'). rewrite device_of_hnode in HD'.
  pose proof (rg_dev _ _ _ _ _ Hrg) as Hd'. pose proof (rg_key _ _ _ _ _ Hrg) as Hk'.
  rewrite device_of_hnode in Hd'. simplify_eq. congruence.
Qed.

Lemma implements_fun s a a' : implements s a -> implements s a' -> a = a'.
Proof.
  intros (mo & bs & H1 & E1 & _ & D1 & W1) (mo' & bs' & H2 & E2 & _ & D2 & W2).
  pose proof (mr_mon _ _ _ _ _ _ H1). pose proof (mr_mon _ _ _ _ _ _ H2).
  assert (mo' = mo) as -> by congruence.
  pose proof (cbs_rep_fun _ _ _ (mr_cbs _ _ _ _ _ _ H1) (mr_cbs _ _ _ _ _ _ H2)).
  pose proof (mr_tab _ _ _ _ _ _ H1) as T1. pose proof (mr_tab _ _ _ _ _ _ H2) as T2.
  rewrite (htable_rep_fun _ _ _ _ (tr_rep _ _ _ _ _ T2) (tr_rep _ _ _ _ _ T1)) in T2.
  assert (a_reg a = a_reg a').
  { apply map_eq. intros ki. apply option_eq. intros dev.
    split; [eapply registry_incl; [exact T1|exact T2]|
            eapply registry_incl; [exact T2|exact T1]]. }
  destruct a, a'. cbn in *. congruence.
Qed.

Lemma astep_add_new a dev r a' d k r' kept w :
  astep a (Add dev) r a' -> a_devs a !! dev = Some d -> dev_key d = Some k ->
  a_reg a !! (k, dev_iface d) = None ->
  notify react dev (onlined mon d) (a_cbs a) (a_world a) = (r', kept, w) ->
  a' = AMon (a_next a) kept (<[(k, dev_iface d) := dev]> (a_reg a))
         (<[dev := onlined mon d]> (a_devs a)) w.
Proof. inversion 1; cbn; intros; simplify_eq; congruence. Qed.

(** A run: each operation is ready in the state it starts from. *)
Inductive cruns : st W -> list (op * Z) -> st W -> Prop :=
  | C_nil s : cruns s [] s
  | C_cons s a o r s1 ors s2 :
      implements s a -> ready s a o -> exec o s = Done (r, s1) ->
      cruns s1 ors s2 -> cruns s ((o, r) :: ors) s2.
Inductive aruns : amon W -> list (op * Z) -> amon W -> Prop :=
  | AR_nil a : aruns a [] a
  | AR_cons a o r a1 ors a2 :
      astep a o r a1 -> aruns a1 ors a2 -> aruns a ((o, r) :: ors) a2.
End Simulation.

(** * Concrete monitors, for the witnesses *)

(** A world that records which function was called on which device. *)
Definition calls : Type := list (ptr * ptr).
Definition log_call (f dev udata : ptr) : M (st calls) Z :=
  fun s => Done (0, with_world (fun w => w ++ [(f, dev)]) s).
Definition log_react (f dev : ptr) (d : hs_device) (udata : ptr) (w : calls) : Z * calls :=
  (0, w ++ [(f, dev)]).

Lemma log_calm : calm log_call log_react.
Proof. done. Qed.

Definition MON : ptr := 4096.
Definition HEADS : ptr := 1024.

(** A keyed device, not registered yet. *)
Definition demo_dev : hs_device :=
  Device NULL 1 (Some "k") HS_DEVICE_TYPE_HID _hs_posix_device_vtable
    HS_DEVICE_STATUS_DISCONNECTED None None 0 0 None None None 0.

(** The monitor structure just allocated, the device at 64 and its node at 72. *)
Definition boot : st calls :=
  St [] (common_init false)
    (Mem (LMem {[MON := NULL]} {[MON := NULL]})
       (HMem {[72 := NULL]} {[72 := 0]}) {[64 := demo_dev]} ∅
       {[MON := Monitor 0 (Htable 0 NULL)]} ∅).

Definition after {W A} (m : M (st W) A) (s : st W) : st W :=
  match m s with Done (_, s') => s' | _ => s end.

Lemma boot_ready : init_ready boot MON (Monitor 0 (Htable 0 NULL)).
Proof. split; [done|done|split; by eexists|unfold INT_MAX; cbn; lia]. Qed.

(** A monitor without devices or callbacks, in the world [w]. *)
Definition booted {W} (w : W) : st W :=
  after (_hs_monitor_init HEADS MON)
    (St w (common_init false)
       (Mem (LMem {[MON := NULL]} {[MON := NULL]}) (HMem ∅ ∅) ∅ ∅ {[MON := Monitor 0 (Htable 0 NULL)]} ∅)).

Lemma booted_rep {W} (w : W) :
  mon_rep (booted w) MON (Monitor 0 (Htable 64 HEADS)) [] (replicate 64 []) ∅ /\ s_world (booted w) = w.
Proof.
  unfold booted. set (s0 := St w _ _). assert (Hy : init_ready s0 MON (Monitor 0 (Htable 0 NULL))).
  { split; [done|done|split; by eexists|unfold INT_MAX; cbn; lia]. }
  assert (wp (_hs_monitor_init HEADS MON) (fun _ s =>
    mon_rep s MON (Monitor 0 (Htable 64 HEADS)) [] (replicate 64 []) ∅ /\ s_world s = w) s0) as (r & s & E & Hs)%wp_inv.
  { eapply wp_monitor_init; [exact Hy|done|]. intros _ s' Hrep _ Hw _ _. by split. }
  unfold after. by rewrite E.
Qed.

Definition demo0 : st calls := after (_hs_monitor_init HEADS MON) boot.
Definition demo0_abs : amon calls := AMon 0 [] ∅ {[64 := demo_dev]} [].

Lemma demo0_implements : implements MON demo0 demo0_abs.
Proof.
  assert (wp (_hs_monitor_init HEADS MON) (fun _ s => implements MON s demo0_abs) boot)
    as (r & s & E & H)%wp_inv.
  { eapply wp_monitor_init; [exact boot_ready|done|]. intros _ s' H1 H2 H3 H4 _.
    exists (Monitor 0 (Htable 64 HEADS)), (replicate 64 []). done. }
  unfold demo0, after. by rewrite E.
Qed.

(** With a callback, then with the device. *)
Definition demo1 : st calls := after (exec log_call 200 MON (Register 8192 7 9)) demo0.
Definition demo1_abs : amon calls :=
  AMon 1 [(8192, Callback 0 7 9)] ∅ {[64 := demo_dev]} [].

Lemma demo0_ready : ready 200 demo0 demo0_abs (Register 8192 7 9).
Proof.
  split; [apply Nat.ltb_lt; by vm_compute|].
  split; [done|split; [done|split; [by vm_compute|]]]. by vm_compute.
Qed.

Lemma demo1_implements : implements MON demo1 demo1_abs.
Proof.
  pose proof (simulation log_call log_react log_calm 200 MON demo0 demo0_abs
    (Register 8192 7 9) demo0_implements demo0_ready) as H.
  apply wp_inv in H as (r & s & E & a' & Hstep & H).
  unfold demo1, after. rewrite E. by inversion Hstep; subst.
Qed.

Lemma demo1_ready : ready 200 demo1 demo1_abs (Add 64).
Proof.
  split; [apply Nat.ltb_lt; by vm_compute|]. split; [done|]. split; [done|].
  split; [by split; vm_compute; eexists|].
  split; [|exists demo_dev, "k"; done].
  intros p. change (hnode_of 64) with 72.
  assert (map_Forall (fun _ v => v <> 72) (h_next (m_nodes (s_mem demo1)))) as H.
  { apply (bool_decide_unpack _). by vm_compute. }
  intros E. by apply (H p 72).
Qed.

Definition demo2 : st calls := after (exec log_call 200 MON (Add 64)) demo1.
Definition demo2_abs : amon calls :=
  AMon 1 [(8192, Callback 0 7 9)] {[("k", 0) := 64]}
    {[64 := onlined MON demo_dev]} [(7, 64)].

Lemma demo2_implements : implements MON demo2 demo2_abs.
Proof.
  pose proof (simulation log_call log_react log_calm 200 MON demo1 demo1_abs
    (Add 64) demo1_implements demo1_ready) as H.
  apply wp_inv in H as (r & s & E & a' & Hstep & H).
  unfold demo2, after. rewrite E.
  apply (astep_add_new _ _ _ _ _ _ demo_dev "k" 0 [(8192, Callback 0 7 9)] [(7, 64)])
    in Hstep as ->; done.
Qed.

(** * Properties *)

(** C1: every operation of a monitor refines its specification. From a state
    that implements an abstract monitor, a ready operation (registering or
    deregistering a callback, adding or removing a device, enumerating)
    returns, without fault, the result of a step of the abstract monitor, in
    a state that implements the next abstract monitor: one registered device
    per key and interface, the callbacks in registration order with distinct
    identifiers, the devices with their reference counts, and the callbacks
    called on each change in order. *)
Theorem monitor_step_refines {W} (call : ptr -> ptr -> ptr -> M (st W) Z) react
    fuel mon (s : st W) a o :
  calm call react -> implements mon s a -> ready fuel s a o ->
  exists r s' a', exec call fuel mon o s = Done (r, s') /\
    astep react mon a o r a' /\ implements mon s' a'.
Proof.
  intros Hc Hi Hr. pose proof (simulation call react Hc fuel mon s a o Hi Hr) as H.
  apply wp_inv in H as (r & s' & E & a' & H1 & H2). eauto 10.
Qed.

Lemma monitor_step_refines_witness :
  exists r s' a', exec log_call 200 MON (Add 64) demo1 = Done (r, s') /\
    astep log_react MON demo1_abs (Add 64) r a' /\ implements MON s' a'.
Proof.
  apply (monitor_step_refines log_call log_react 200 MON demo1 demo1_abs (Add 64)).
  - exact log_calm.
  - exact demo1_implements.
  - exact demo1_ready.
Defined.

(** C2: a run of a monitor, of any length, is a run of its specification:
    the invariant of the representation (rings intact, one device per key and
    interface, all registered devices alive, online and referenced) holds in
    every state reached. *)
Theorem monitor_run_refines {W} (call : ptr -> ptr -> ptr -> M (st W) Z) react
    fuel mon (s s' : st W) a ors :
  calm call react -> implements mon s a -> cruns call fuel mon s ors s' ->
  exists a', aruns react mon a ors a' /\ implements mon s' a'.
Proof.
  intros Hc Hi Hrun. revert a Hi.
  induction Hrun as [s|s a' o r s1 ors s2 Hi' Hready E _ IH]; intros a Hi.
  - exists a. split; [constructor|done].
  - rewrite (implements_fun _ _ _ _ Hi' Hi) in Hready.
    pose proof (simulation call react Hc fuel mon s a o Hi Hready) as H.
    unfold wp in H. rewrite E in H. destruct H as (a1 & Hstep & Hi1).
    destruct (IH a1 Hi1) as (a2 & Hrun2 & Hi2). exists a2. split; [|done].
    by eapply AR_cons.
Qed.

Lemma monitor_run_refines_witness :
  exists a', aruns log_react MON demo0_abs [(Register 8192 7 9, 0); (Add 64, 0)] a' /\
    implements MON demo2 a'.
Proof.
  apply (monitor_run_refines log_call log_react 200 MON demo0 demo2 demo0_abs
           [(Register 8192 7 9, 0); (Add 64, 0)]).
  - exact log_calm.
  - exact demo0_implements.
  - apply C_cons with demo0_abs demo1;
      [exact demo0_implements|exact demo0_ready|vm_compute; reflexivity|].
    apply C_cons with demo1_abs demo2;
      [exact demo1_implements|exact demo1_ready|vm_compute; reflexivity|].
    constructor.
Defined.

(** [_hs_monitor_init] with the array [malloc] returned makes an empty
    monitor: 64 empty buckets, no callback, no device; without it, it reports
    [HS_ERROR_MEMORY] and allocates nothing. *)
Theorem monitor_init_correct {W} (s : st W) mon mo heads :
  init_ready s mon mo ->
  (heads <> NULL -> mon_callback_id mo = 0 ->
     exists s', _hs_monitor_init heads mon s = Done (0, s') /\
       implements mon s' (AMon 0 [] ∅ (m_devs (s_mem s)) (s_world s)) /\
       s_common s' = s_common s) /\
  (heads = NULL ->
     exists s', _hs_monitor_init heads mon s = Done (HS_ERROR_MEMORY, s') /\
       s_common s' = errored HS_ERROR_MEMORY None (s_common s) /\
       m_nodes (s_mem s') = m_nodes (s_mem s)).
Proof.
  intros Hr. split.
  - intros Hh Hid.
    assert (wp (_hs_monitor_init heads mon) (fun r s' => r = 0 /\
      implements mon s' (AMon 0 [] ∅ (m_devs (s_mem s)) (s_world s)) /\
      s_common s' = s_common s) s) as (r & s' & E & -> & H)%wp_inv; [|eauto].
    eapply wp_monitor_init; [exact Hr|done|]. intros _ s' Hrep Hc Hw Hd _.
    split; [done|split; [|done]]. do 2 eexists. split; [exact Hrep|done].
  - intros Hh.
    assert (wp (_hs_monitor_init heads mon) (fun r s' => r = HS_ERROR_MEMORY /\
      s_common s' = errored HS_ERROR_MEMORY None (s_common s) /\
      m_nodes (s_mem s') = m_nodes (s_mem s)) s) as (r & s' & E & -> & H)%wp_inv; [|eauto].
    eapply wp_monitor_init; [exact Hr| |done]. intros _ s' Hc Hw Hd Hn _. done.
Qed.

Lemma monitor_init_correct_witness :
  exists s', _hs_monitor_init HEADS MON boot = Done (0, s') /\
    implements MON s' (AMon 0 [] ∅ {[64 := demo_dev]} []).
Proof.
  destruct (monitor_init_correct boot MON (Monitor 0 (Htable 0 NULL)) HEADS boot_ready)
    as [H _].
  destruct H as (s' & E & Hi & _); [discriminate|reflexivity|].
  exists s'. split; [exact E|exact Hi].
Defined.

(** [_hs_monitor_release] frees every callback and the array of the table,
    and drops the monitor's reference of every registered device exactly once:
    a device nobody else holds is freed, the others are kept with one
    reference less and no monitor. *)
Theorem monitor_release_frees {W} fuel mon (s : st W) a :
  implements mon s a -> (length (a_cbs a) + size (a_reg a) + 65 < fuel)%nat ->
  exists s' mo gone, _hs_monitor_release fuel mon s = Done (tt, s') /\
    m_mons (s_mem s) !! mon = Some mo /\
    (forall p, p ∈ (a_cbs a).*1 -> m_cbs (s_mem s') !! p = None) /\
    (forall p, p ∉ (a_cbs a).*1 -> m_cbs (s_mem s') !! p = m_cbs (s_mem s) !! p) /\
    all_devices (a_devs a) (a_reg a) (fun _ => True) gone /\
    m_devs (s_mem s') = foldl (drop_ref (dev_with_monitor NULL)) (a_devs a) gone /\
    (forall i, 0 <= i < ht_size (mon_devices mo) ->
       h_next (m_nodes (s_mem s')) !! slot (mon_devices mo) i = None) /\
    s_world s' = s_world s.
Proof.
  intros (mo & bs & Hrep & Hid & Hl & Hdevs & Hw) Hf.
  assert (Hen : enough fuel (a_cbs a) bs).
  { split; [lia|]. rewrite <- (registry_size _ _ _ _ _ (mr_tab _ _ _ _ _ _ Hrep)). lia. }
  rewrite <- Hdevs. pose proof (all_devices_entries _ _ _ _ _ _ Hrep) as Hall.
  assert (wp (_hs_monitor_release fuel mon) (fun _ s' =>
    m_cbs (s_mem s') = foldl (fun m p => delete p m) (m_cbs (s_mem s)) (a_cbs a).*1 /\
    m_devs (s_mem s') = foldl (drop_ref (dev_with_monitor NULL)) (m_devs (s_mem s))
      (entries (m_devs (s_mem s)) (concat bs)) /\
    (forall i, 0 <= i < ht_size (mon_devices mo) ->
       h_next (m_nodes (s_mem s')) !! slot (mon_devices mo) i = None) /\
    s_world s' = s_world s) s) as ([] & s' & E & E1 & E2 & E3 & E4)%wp_inv.
  { eapply wp_monitor_release; [exact Hrep|done|]. by intros s' []. }
  exists s', mo, (entries (m_devs (s_mem s)) (concat bs)). split; [done|].
  split; [apply (mr_mon _ _ _ _ _ _ Hrep)|]. rewrite E1.
  split; [intros p Hp; by rewrite foldl_delete_lookup, decide_True|].
  split; [intros p Hp; by rewrite foldl_delete_lookup, decide_False|]. done.
Qed.

Lemma monitor_release_frees_witness :
  exists s' mo gone, _hs_monitor_release 200 MON demo2 = Done (tt, s') /\
    m_mons (s_mem demo2) !! MON = Some mo /\
    (forall p, p ∈ (a_cbs demo2_abs).*1 -> m_cbs (s_mem s') !! p = None) /\
    (forall p, p ∉ (a_cbs demo2_abs).*1 -> m_cbs (s_mem s') !! p = m_cbs (s_mem demo2) !! p) /\
    all_devices (a_devs demo2_abs) (a_reg demo2_abs) (fun _ => True) gone /\
    m_devs (s_mem s') =
      foldl (drop_ref (dev_with_monitor NULL)) (a_devs demo2_abs) gone /\
    (forall i, 0 <= i < ht_size (mon_devices mo) ->
       h_next (m_nodes (s_mem s')) !! slot (mon_devices mo) i = None) /\
    s_world s' = s_world demo2.
Proof.
  apply (monitor_release_frees 200 MON demo2 demo2_abs).
  - exact demo2_implements.
  - apply Nat.ltb_lt. vm_compute. reflexivity.
Defined.

(** The identifier counter is a signed [int] incremented without a check:
    the registration after number [INT_MAX] overflows. *)
Theorem register_callback_overflow {W} (s : st W) mon mo cb f udata :
  mon <> NULL -> f <> NULL -> cb <> NULL ->
  m_mons (s_mem s) !! mon = Some mo -> mon_callback_id mo = INT_MAX ->
  hs_monitor_register_callback cb mon f udata s = Fault SignedOverflow.
Proof.
  intros H1%Z.eqb_neq H2%Z.eqb_neq H3%Z.eqb_neq Hm Hid.
  unfold hs_monitor_register_callback, bind, assert_. rewrite H1, H2, H3.
  unfold ret, zoom, alloc_cb, load_mon, bind, modify. cbn -[Z.eqb]. rewrite Hm, Hid. done.
Qed.

Lemma register_callback_overflow_witness :
  hs_monitor_register_callback 8192 MON 7 9
    (with_mons (fun _ => {[MON := Monitor INT_MAX (Htable 0 NULL)]}) boot) =
  Fault SignedOverflow.
Proof.
  apply (register_callback_overflow _ MON (Monitor INT_MAX (Htable 0 NULL)));
    [discriminate|discriminate|discriminate|reflexivity|reflexivity].
Defined.

(** A positive result of a callback does not stop the notification: the
    callback is freed and the next ones are called. When every callback
    returns a positive number, all of them are called, [trigger_callbacks]
    returns 0 and no callback is left registered. *)
Theorem trigger_positive_deregisters {W} (call : ptr -> ptr -> ptr -> M (st W) Z) react
    fuel (s : st W) dev d cbs :
  calm call react -> (forall f x d u w, 0 < (react f x d u w).1) ->
  dev <> NULL -> m_devs (s_mem s) !! dev = Some d -> cbs_rep s (dev_monitor d) cbs ->
  (length cbs < fuel)%nat ->
  exists s', trigger_callbacks call fuel dev s = Done (0, s') /\
    cbs_rep s' (dev_monitor d) [] /\
    (forall p, p ∈ cbs.*1 -> m_cbs (s_mem s') !! p = None) /\
    s_world s' = foldl (fun w pc => (react (cb_f pc.2) dev d (cb_udata pc.2) w).2)
                   (s_world s) cbs.
Proof.
  intros Hc Hpos Hnull Hd Hrep Hf.
  assert (Hn : forall l w, notify react dev d l w =
    (0, [], foldl (fun w pc => (react (cb_f pc.2) dev d (cb_udata pc.2) w).2) w l)).
  { induction l as [|pc l IH]; intros w; simpl; [done|].
    specialize (Hpos (cb_f pc.2) dev d (cb_udata pc.2) w).
    destruct (react _ _ _ _ _) as [r w']. cbn in Hpos.
    assert (r <? 0 = false) as -> by lia. assert (r =? 0 = false) as -> by lia.
    by rewrite IH. }
  assert (wp (trigger_callbacks call fuel dev) (notified react dev d cbs s) s)
    as (r & s' & E & kept & w & En & H1 & H2 & H3 & H4)%wp_inv.
  { eapply (wp_trigger_callbacks call react Hc); eauto. }
  rewrite Hn in En. injection En as <- <- <-. exists s'. split_and!; try done.
  intros p Hp. apply H4; [done|]. cbn. set_solver.
Qed.

(** Functions that ask to be called no more. *)
Definition once_call (f dev udata : ptr) : M (st calls) Z :=
  fun s => Done (1, with_world (fun w => w ++ [(f, dev)]) s).
Definition once_react (f dev : ptr) (d : hs_device) (udata : ptr) (w : calls) : Z * calls :=
  (1, w ++ [(f, dev)]).

Lemma trigger_positive_deregisters_witness :
  exists s', trigger_callbacks once_call 200 64 demo2 = Done (0, s') /\
    cbs_rep s' MON [] /\
    (forall p, p ∈ [(8192, Callback 0 7 9)].*1 -> m_cbs (s_mem s') !! p = None) /\
    s_world s' = [(7, 64); (7, 64)].
Proof.
  apply (trigger_positive_deregisters once_call once_react 200 demo2 64
           (onlined MON demo_dev) [(8192, Callback 0 7 9)]).
  - intros f dev udata s d _ Hd. reflexivity.
  - intros f x d u w. reflexivity.
  - discriminate.
  - reflexivity.
  - destruct demo2_implements as (mo & bs & Hrep & _). exact (mr_cbs _ _ _ _ _ _ Hrep).
  - apply Nat.ltb_lt. reflexivity.
Defined.

(** A callback that deregisters the callback number 1, and the two-callback
    monitor it is used with. *)
Definition dereg_call (f dev udata : ptr) : M (st calls) Z :=
  if f =? 5 then hs_monitor_deregister_callback 200 MON 1 ;;; ret 0
  else ret 0.
Definition reentrant : st calls :=
  after (exec dereg_call 200 MON (Register 8256 7 0))
    (after (exec dereg_call 200 MON (Register 8192 5 0)) demo0).

(** Re-entrancy is not safe. A callback that deregisters the callback
    registered after it frees the node [_hs_list_foreach] saved as its
    successor: the notification of a new device then reads freed memory. *)
Theorem reentrant_deregister_use_after_free :
  exec dereg_call 200 MON (Add 64) reentrant = Fault BadAccess.
Proof. vm_compute. reflexivity. Qed.
