(* ===== verification/World.v ===== *)
(** What the commands of the library do to the world: most of them nothing, and
    those that call the system only to the part that the call is about. *)

From S2P Require Import Prelude Common DList Htable State Posix Device Heap Monitor.

Section Alters.
Context {W X : Type}.
Implicit Types (s : st W).

(** [g] is a part of the world, or a count of things in it. When [m] returns, [R]
    holds of its result and of the values of [g] before and after. *)
Definition alters {A} (g : W -> X) (m : M (st W) A) (R : A -> X -> X -> Prop) : Prop :=
  forall s a s', m s = Done (a, s') -> R a (g (s_world s)) (g (s_world s')).

(** [m] leaves [g]. *)
Definition steady {A} (g : W -> X) (m : M (st W) A) : Prop := alters g m (fun _ x y => y = x).

Variable g : W -> X.

Lemma alters_weaken {A} (m : M (st W) A) (R R' : A -> X -> X -> Prop) :
  alters g m R -> (forall a x y, R a x y -> R' a x y) -> alters g m R'.
Proof. intros Hm HR s a s' E. by apply HR, Hm. Qed.

Lemma alters_ret {A} (a : A) (R : A -> X -> X -> Prop) : (forall x, R a x x) -> alters g (ret a) R.
Proof. intros HR s a' s' [= -> ->]. apply HR. Qed.

(** First a command that leaves [g]. *)
Lemma alters_then {A B} (m : M (st W) A) (f : A -> M (st W) B) (R : B -> X -> X -> Prop) :
  steady g m -> (forall a, alters g (f a) R) -> alters g (bind m f) R.
Proof.
  intros Hm Hf s b s' E. unfold bind in E. destruct (m s) as [[a s1]| |] eqn:Em; [|done..].
  rewrite <- (Hm _ _ _ Em). by apply (Hf a).
Qed.

Lemma alters_bind {A B} (m : M (st W) A) (f : A -> M (st W) B) (R1 : A -> X -> X -> Prop) (R : B -> X -> X -> Prop) :
  alters g m R1 -> (forall a, alters g (f a) (fun b y z => forall x, R1 a x y -> R b x z)) ->
  alters g (bind m f) R.
Proof.
  intros Hm Hf s b s' E. unfold bind in E. destruct (m s) as [[a s1]| |] eqn:Em; [|done..].
  eapply (Hf a); [exact E|]. by apply Hm.
Qed.

Lemma alters_os {A} (c : sysc W A) (R : A -> X -> X -> Prop) :
  (forall w a w', c w = (a, w') -> R a (g w) (g w')) -> alters g (os c) R.
Proof.
  intros Hc s a s' E. unfold os in E. destruct (c (s_world s)) as [b w] eqn:Ec. injection E as <- <-. by apply Hc.
Qed.

Lemma alters_fault {A} f (R : A -> X -> X -> Prop) : alters g (fail f) R.
Proof. by intros s a s' E. Qed.

Lemma steady_ret {A} (a : A) : steady g (ret a).
Proof. by apply alters_ret. Qed.

Lemma steady_bind {A B} (m : M (st W) A) (f : A -> M (st W) B) :
  steady g m -> (forall a, steady g (f a)) -> steady g (bind m f).
Proof. intros Hm Hf. by apply alters_then. Qed.

Lemma steady_os {A} (c : sysc W A) : (forall w, g (c w).2 = g w) -> steady g (os c).
Proof. intros Hc. apply alters_os. intros w a w' E. specialize (Hc w). by rewrite E in Hc. Qed.

Lemma steady_if {A} (b : bool) (m1 m2 : M (st W) A) : steady g m1 -> steady g m2 -> steady g (if b then m1 else m2).
Proof. by destruct b. Qed.

(** A command that only reads, or writes the memory of the library. *)
Lemma steady_memory {A} (m : M (st W) A) :
  (forall s a s', m s = Done (a, s') -> s_world s' = s_world s) -> steady g m.
Proof. intros Hm s a s' E. by rewrite (Hm _ _ _ E). Qed.

Lemma steady_modify f : (forall s, s_world (f s) = s_world s) -> steady g (modify f).
Proof. intros Hf. apply steady_memory. intros s a s' [= _ <-]. apply Hf. Qed.

Lemma steady_zoom_lists {A} (m : M lmem A) : steady g (zoom m).
Proof. apply steady_memory. intros s a s'. unfold zoom. destruct (m _) as [[]| |]; [|done..]. by intros [= _ <-]. Qed.
Lemma steady_zoom_nodes {A} (m : M hmem A) : steady g (zoom m).
Proof. apply steady_memory. intros s a s'. unfold zoom. destruct (m _) as [[]| |]; [|done..]. by intros [= _ <-]. Qed.
Lemma steady_zoom_common {A} (m : M common A) : steady g (zoom m).
Proof. apply steady_memory. intros s a s'. unfold zoom. destruct (m _) as [[]| |]; [|done..]. by intros [= _ <-]. Qed.

Lemma steady_error err msg : steady g (error err msg).
Proof. apply steady_zoom_common. Qed.
Lemma steady_memory_error : steady g memory_error.
Proof. apply steady_zoom_common. Qed.
Lemma steady_assert b : steady g (assert_ b).
Proof. apply steady_memory. intros s a s'. unfold assert_. destruct b; [|done]. by intros [= _ <-]. Qed.
Lemma steady_fail {A} f : steady g (fail (A := A) f).
Proof. apply alters_fault. Qed.
Lemma steady_fuel {A} : steady g (out_of_fuel (A := A)).
Proof. by intros s a s' E. Qed.
Lemma steady_get : steady g get.
Proof. apply steady_memory. by intros s a s' [= _ <-]. Qed.
Lemma steady_static x : steady g (load_static x).
Proof. apply steady_memory. by intros s a s' [= _ <-]. Qed.
Lemma steady_store_static x v : steady g (store_static x v).
Proof. by apply steady_modify. Qed.

Lemma steady_load_dev p : steady g (load_dev p).
Proof. apply steady_memory. intros s a s'. unfold load_dev. case_match; [|done]. by intros [= _ <-]. Qed.
Lemma steady_store_dev p d : steady g (store_dev p d).
Proof. apply steady_memory. intros s a s'. unfold store_dev. case_match; [|done]. by intros [= _ <-]. Qed.
Lemma steady_load_cb p : steady g (load_cb p).
Proof. apply steady_memory. intros s a s'. unfold load_cb. case_match; [|done]. by intros [= _ <-]. Qed.
Lemma steady_store_cb p c : steady g (store_cb p c).
Proof. apply steady_memory. intros s a s'. unfold store_cb. case_match; [|done]. by intros [= _ <-]. Qed.
Lemma steady_load_mon p : steady g (load_mon p).
Proof. apply steady_memory. intros s a s'. unfold load_mon. case_match; [|done]. by intros [= _ <-]. Qed.
Lemma steady_store_mon p c : steady g (store_mon p c).
Proof. apply steady_memory. intros s a s'. unfold store_mon. case_match; [|done]. by intros [= _ <-]. Qed.

(** With a result of a program logic. *)
Lemma wp_steady {A} (Q : A -> st W -> Prop) (m : M (st W) A) s : wp m Q s -> steady g m ->
  wp m (fun a s' => Q a s' /\ g (s_world s') = g (s_world s)) s.
Proof.
  unfold wp. intros Hm Hs. destruct (m s) as [[a s']| |] eqn:E; [|done..]. split; [done|]. by apply (Hs _ _ _ E).
Qed.
End Alters.

Create HintDb steady.
#[export] Hint Resolve steady_ret steady_zoom_lists steady_zoom_nodes steady_zoom_common steady_error
  steady_memory_error steady_assert steady_fail steady_fuel steady_get steady_static steady_store_static
  steady_load_dev steady_store_dev steady_load_cb steady_store_cb steady_load_mon steady_store_mon : steady.

(** Goes through a command, one statement at a time. *)
Ltac steady :=
  repeat first
    [ solve [eauto with steady]
    | progress intros
    | lazymatch goal with
      | |- steady _ (bind _ _) => apply steady_bind
      | |- steady _ (modify _) => apply steady_modify; intros ?; reflexivity
      | |- steady _ (if ?b then _ else _) => destruct b
      | |- steady _ (match ?x with _ => _ end) => destruct x
      | |- steady _ (let '_ := ?x in _) => destruct x
      end ].

(** ** Counts *)

Section Counts.
Context {W : Type}.
Variable g : W -> Z.

(** [m] adds [k a] to the count [g], where [a] is its result. *)
Definition counts {A} (m : M (st W) A) (k : A -> Z) : Prop := alters g m (fun a x y => y = x + k a).

Lemma counts_bind {A B} (m : M (st W) A) (f : A -> M (st W) B) k1 k :
  counts m k1 -> (forall a, counts (f a) (fun b => k b - k1 a)) -> counts (bind m f) k.
Proof.
  intros Hm Hf. eapply alters_bind; [exact Hm|]. intros a. eapply alters_weaken; [apply Hf|].
  cbn. intros b y z -> x ->. lia.
Qed.

Lemma counts_then {A B} (m : M (st W) A) (f : A -> M (st W) B) k :
  steady g m -> (forall a, counts (f a) k) -> counts (bind m f) k.
Proof. intros Hm Hf. by apply alters_then. Qed.

Lemma counts_steady {A} (m : M (st W) A) k : steady g m -> (forall a, k a = 0) -> counts m k.
Proof. intros Hm Hk. eapply alters_weaken; [exact Hm|]. cbn. intros a x y ->. rewrite Hk. lia. Qed.

Lemma counts_ret {A} (a : A) k : k a = 0 -> counts (ret a) k.
Proof. intros Hk. apply alters_ret. intros x. lia. Qed.

Lemma counts_os {A} (c : sysc W A) k : (forall w, g (c w).2 = g w + k (c w).1) -> counts (os c) k.
Proof. intros Hc. apply alters_os. intros w a w' E. specialize (Hc w). by rewrite E in Hc. Qed.

Lemma steady_counts {A} (m : M (st W) A) k : counts m k -> (forall a, k a = 0) -> steady g m.
Proof. intros Hm Hk. eapply alters_weaken; [exact Hm|]. cbn. intros a x y ->. rewrite Hk. lia. Qed.

Lemma wp_counts {A} (Q : A -> st W -> Prop) (m : M (st W) A) k s : wp m Q s -> counts m k ->
  wp m (fun a s' => Q a s' /\ g (s_world s') = g (s_world s) + k a) s.
Proof.
  unfold wp. intros Hm Hs. destruct (m s) as [[a s']| |] eqn:E; [|done..]. split; [done|]. by apply (Hs _ _ _ E).
Qed.
End Counts.

(** * The registry *)

Section Registry.
Context {W X : Type} (g : W -> X).

Lemma steady_ring_loop {R} head load (body : ptr -> M (st W) (flow R)) fuel cur next :
  steady g head -> (forall p, steady g (load p)) -> (forall p, steady g (body p)) ->
  steady g (ring_loop head load body fuel cur next).
Proof.
  intros Hh Hl Hb. revert cur next. induction fuel as [|fuel IH]; intros cur next; cbn [ring_loop]; steady.
Qed.

Lemma steady_list_foreach {R} head (body : ptr -> M (st W) (flow R)) fuel :
  steady g head -> (forall p, steady g (body p)) -> steady g (_hs_list_foreach head body fuel).
Proof.
  intros Hh Hb. unfold _hs_list_foreach. steady. apply steady_ring_loop; steady.
Qed.

Lemma steady_foreach_hash {R} table (body : ptr -> M (st W) (flow R)) k fuel :
  steady g table -> (forall p, steady g (body p)) -> steady g (hs_htable_foreach_hash table body k fuel).
Proof.
  intros Ht Hb. unfold hs_htable_foreach_hash. steady. apply steady_ring_loop; steady.
Qed.

Lemma steady_foreach {R} table (body : ptr -> M (st W) (flow R)) fuel :
  steady g table -> (forall p, steady g (body p)) -> steady g (hs_htable_foreach table body fuel).
Proof.
  intros Ht Hb. unfold hs_htable_foreach. apply steady_bind; [done|]. intros t.
  generalize (ht_heads t) at 1 2. intros head. generalize head at 2. revert head.
  induction fuel as [|fuel IH]; intros head cur; cbn [hs_htable_foreach_loop]; steady; apply steady_ring_loop; steady.
Qed.

Lemma steady_set_dev p f : steady g (set_dev p f).
Proof. unfold set_dev. steady. Qed.
Lemma steady_alloc_dev p : steady g (alloc_dev p).
Proof. unfold alloc_dev. steady. Qed.
Lemma steady_free_dev p : steady g (free_dev p).
Proof. unfold free_dev. steady. Qed.
Lemma steady_alloc_cb p : steady g (alloc_cb p).
Proof. unfold alloc_cb. steady. Qed.
Lemma steady_free_cb p : steady g (free_cb p).
Proof. unfold free_cb. steady. Qed.
Lemma steady_alloc_mon p : steady g (alloc_mon p).
Proof. unfold alloc_mon. steady. Qed.
Lemma steady_free_mon p : steady g (free_mon p).
Proof. unfold free_mon. steady. Qed.
Lemma steady_unref p : steady g (hs_device_unref p).
Proof. pose proof (steady_free_dev p). unfold hs_device_unref. steady. Qed.
Lemma steady_ref p : steady g (hs_device_ref p).
Proof. unfold hs_device_ref. steady. Qed.
Lemma steady_table p : steady g (monitor_table p).
Proof. unfold monitor_table. steady. Qed.
Lemma steady_key_hash k : steady g (key_hash k).
Proof. unfold key_hash. steady. Qed.
Lemma steady_strcmp_eq a b : steady g (strcmp_eq a b).
Proof. unfold strcmp_eq. steady. Qed.
End Registry.

#[export] Hint Resolve steady_ring_loop steady_list_foreach steady_foreach_hash steady_foreach steady_set_dev steady_alloc_dev
  steady_free_dev steady_alloc_cb steady_free_cb steady_alloc_mon steady_free_mon steady_unref steady_ref
  steady_table steady_key_hash steady_strcmp_eq : steady.

Section Operations.
Context {W X : Type} (g : W -> X).
Variable call : ptr -> ptr -> ptr -> M (st W) Z.
Hypothesis steady_call : forall f dev udata, steady g (call f dev udata).
Variable fuel : nat.

Lemma steady_trigger dev : steady g (trigger_callbacks call fuel dev).
Proof. unfold trigger_callbacks. steady. apply steady_list_foreach; steady. Qed.

Lemma steady_monitor_add mon dev : steady g (_hs_monitor_add call fuel mon dev).
Proof.
  pose proof steady_trigger. unfold _hs_monitor_add. steady. apply steady_foreach_hash; steady.
Qed.

Lemma steady_monitor_remove mon key : steady g (_hs_monitor_remove call fuel mon key).
Proof.
  pose proof steady_trigger. unfold _hs_monitor_remove. steady. apply steady_foreach_hash; steady.
Qed.

Lemma steady_monitor_release mon : steady g (_hs_monitor_release (W := W) fuel mon).
Proof.
  unfold _hs_monitor_release. steady; [apply steady_list_foreach|apply steady_foreach]; steady.
Qed.
End Operations.

(** Callbacks that are calm do to the world what they say. *)
Lemma calm_steady {W X} (g : W -> X) call react f dev d udata w : calm call react -> dev <> NULL ->
  steady g (call f dev udata) -> g (react f dev d udata w).2 = g w.
Proof.
  intros Hc Hnull Hs. set (s := St w (common_init false) (Mem (LMem ∅ ∅) (HMem ∅ ∅) {[dev := d]} ∅ ∅ ∅)).
  pose proof (Hc f dev udata s d Hnull (lookup_singleton_eq _ _)) as E. change (s_world s) with w in E.
  destruct (react f dev d udata w) as [r w']. exact (Hs _ _ _ E).
Qed.
