(* ===== verification/Discovery.v ===== *)
(** What the discoveries of the systems share: steps on a device that was just
    allocated, what an enumeration leaves and returns, and a new device that is
    added to a monitor. *)

From S2P Require Import Prelude Common DList Htable State Posix Device Heap Monitor.

Section Discovery.
Context {W : Type}.
Implicit Types (s : st W) (m : mem) (p : ptr) (d : hs_device).

(** A field of a device just allocated is set. *)
Lemma wp_set_new (Q : unit -> st W -> Prop) p d m f s :
  s_mem s = with_new_dev p d m ->
  (forall s', s_mem s' = with_new_dev p (f d) m -> s_world s' = s_world s -> Q tt s') ->
  wp (set_dev p f) Q s.
Proof.
  intros Hm HQ. eapply wp_set_dev; [rewrite Hm; cbn; by rewrite lookup_insert_eq|].
  apply HQ; [|done]. cbn. rewrite Hm. unfold with_new_dev. cbn. by rewrite insert_insert_eq.
Qed.

Lemma wp_memory_error_mem (Q : Z -> st W -> Prop) s :
  (forall s', s_mem s' = s_mem s -> Q HS_ERROR_MEMORY s') -> wp memory_error Q s.
Proof. intros HQ. apply wp_memory_error. by apply HQ. Qed.

(** The results of an enumeration: 0, a non-zero result of the callback, or an
    error. *)
Definition enumerate_result (P : Z -> Prop) (r : Z) : Prop :=
  r = 0 \/ (r <> 0 /\ P r) \/ r = HS_ERROR_MEMORY \/ r = HS_ERROR_SYSTEM.

Lemma same_objects_refl s : same_objects s s.
Proof. by repeat split. Qed.

Lemma same_objects_mem_eq s s' : same_objects s s' ->
  exists sts, s_mem s' = Mem (m_lists (s_mem s)) (m_nodes (s_mem s)) (m_devs (s_mem s))
    (m_cbs (s_mem s)) (m_mons (s_mem s)) sts.
Proof.
  intros (H1' & H2' & H3' & H4' & H5'). exists (m_statics (s_mem s')).
  destruct (s_mem s'). cbn in *. by subst.
Qed.

(** The end of the life of a device shown to a callback [f] that leaves the
    objects as they are. *)
Lemma unref_shown p d m s s1 :
  p <> NULL -> ~ in_use m p -> ~ in_use m (hnode_of p) -> dev_refcount d = 1 ->
  s_mem s = with_new_dev p d m -> same_objects s s1 ->
  exists s2 sts, hs_device_unref p s1 = Done (tt, s2) /\ s_world s2 = s_world s1 /\
    s_mem s2 = Mem (m_lists m) (m_nodes m) (m_devs m) (m_cbs m) (m_mons m) sts.
Proof.
  intros Hp Hu Hn Hr Hm Hs1. apply same_objects_mem_eq in Hs1 as [sts Hm1]. rewrite Hm in Hm1. cbn in Hm1.
  destruct (unref_new_dev p d (Mem (m_lists m) (m_nodes m) (m_devs m) (m_cbs m) (m_mons m) sts) s1 Hp)
    as (s2 & E2 & Hm2 & Hw); [exact Hu|exact Hn|exact Hr|exact Hm1|]. by exists s2, sts.
Qed.

(** ** Commands that leave the memory *)

(** [m] does not fault, leaves the memory, and its result satisfies [P]. *)
Definition keeps {A} (m : M (st W) A) (P : A -> Prop) : Prop :=
  forall s, wp m (fun a s' => s_mem s' = s_mem s /\ P a) s.

Lemma keeps_ret {A} (a : A) (P : A -> Prop) : P a -> keeps (ret a) P.
Proof. intros HP s. by wp_step. Qed.

Lemma keeps_bind {A B} (m : M (st W) A) (f : A -> M (st W) B) P Q :
  keeps m P -> (forall a, P a -> keeps (f a) Q) -> keeps (bind m f) Q.
Proof.
  intros Hm Hf s. wp_step. eapply wp_mono; [apply Hm|]. intros a s1 [E1 Ha].
  eapply wp_mono; [by apply Hf|]. intros b s2 [E2 Hb]. split; [congruence|done].
Qed.

Lemma keeps_weaken {A} (m : M (st W) A) (P Q : A -> Prop) :
  keeps m P -> (forall a, P a -> Q a) -> keeps m Q.
Proof. intros Hm HQ s. eapply wp_mono; [apply Hm|]. intros a s' [E Ha]. auto. Qed.

Lemma keeps_os {A} (c : sysc W A) (P : A -> Prop) :
  (forall w a w', c w = (a, w') -> P a) -> keeps (os c) P.
Proof. intros Hc s. apply wp_os. intros a w E. split; [done|by eapply Hc]. Qed.

Lemma keeps_call {A} (c : sysc W A) : keeps (os c) (fun _ => True).
Proof. by apply keeps_os. Qed.

Lemma keeps_memory_error : keeps memory_error (fun r => r = HS_ERROR_MEMORY).
Proof. intros s. by apply wp_memory_error_mem. Qed.

Lemma keeps_error err msg : keeps (error err msg) (fun r => r = err).
Proof. intros s. by apply wp_error. Qed.

Lemma keeps_log level msg : keeps (zoom (hs_log level msg)) (fun _ => True).
Proof. intros s. by apply wp_zoom, wp_hs_log. Qed.

(** ** Commands on a new device *)

(** [m], from a memory where [d] is a new device at [p], leaves it a device
    related to [d] and the result. *)
Definition fills {A} (p : ptr) (m0 : mem) (m : M (st W) A) (d : hs_device)
    (P : A -> hs_device -> Prop) : Prop :=
  forall s, s_mem s = with_new_dev p d m0 ->
    wp m (fun a s' => exists d', s_mem s' = with_new_dev p d' m0 /\ P a d') s.

Lemma fills_ret {A} p m0 (a : A) d (P : A -> hs_device -> Prop) : P a d -> fills p m0 (ret a) d P.
Proof. intros HP s Hm. wp_step. by exists d. Qed.

Lemma fills_bind {A B} p m0 (m : M (st W) A) (f : A -> M (st W) B) d P Q :
  fills p m0 m d P -> (forall a d', P a d' -> fills p m0 (f a) d' Q) -> fills p m0 (bind m f) d Q.
Proof.
  intros Hm Hf s Es. wp_step. eapply wp_mono; [by apply Hm|]. intros a s1 (d1 & E1 & Ha).
  by apply (Hf a d1).
Qed.

Lemma fills_keeps {A} p m0 (m : M (st W) A) d (P : A -> Prop) :
  keeps m P -> fills p m0 m d (fun a d' => d' = d /\ P a).
Proof.
  intros Hm s Es. eapply wp_mono; [apply Hm|]. intros a s' [E Ha]. exists d. split; [congruence|done].
Qed.

(** First a command that leaves the memory. *)
Lemma fills_then {A B} p m0 (m : M (st W) A) (f : A -> M (st W) B) d (P : A -> Prop) Q :
  keeps m P -> (forall a, P a -> fills p m0 (f a) d Q) -> fills p m0 (bind m f) d Q.
Proof. intros Hm Hf. eapply fills_bind; [by apply fills_keeps|]. intros a d' [-> Ha]. auto. Qed.

Lemma fills_set {B} p m0 f (g : unit -> M (st W) B) d Q :
  fills p m0 (g tt) (f d) Q -> fills p m0 (bind (set_dev p f) g) d Q.
Proof. intros Hg s Es. wp_step. eapply wp_set_new; [done|]. intros s1 E1 _. by apply Hg. Qed.

Lemma fills_load {B} p m0 (g : hs_device -> M (st W) B) d Q :
  fills p m0 (g d) d Q -> fills p m0 (bind (load_dev p) g) d Q.
Proof.
  intros Hg s Es. wp_step. eapply wp_load_dev; [rewrite Es; apply lookup_insert_eq|]. by apply Hg.
Qed.

Lemma fills_mono {A} p m0 (m : M (st W) A) d (P Q : A -> hs_device -> Prop) :
  fills p m0 m d P -> (forall a d', P a d' -> Q a d') -> fills p m0 m d Q.
Proof. intros Hm HQ s Es. eapply wp_mono; [by apply Hm|]. intros a s' (d' & E & Ha). eauto. Qed.
End Discovery.

(** * The registered devices *)

(** The records of the devices of a registry, by key and interface. *)
Definition view (D : gmap (string * Z) ptr) (devs : gmap ptr hs_device) : gmap (string * Z) hs_device :=
  omap (fun p => devs !! p) D.

Section View.
Context {W : Type}.
Implicit Types (s : st W) (p mon : ptr) (d : hs_device) (bs : list (list ptr))
  (cbs : list (ptr * callback)) (mo : hs_monitor) (D : gmap (string * Z) ptr).

Lemma view_lookup s mon mo cbs bs D k i : mon_rep s mon mo cbs bs D ->
  view D (m_devs (s_mem s)) !! (k, i) =
    match D !! (k, i) with Some p => m_devs (s_mem s) !! p | None => None end /\
  (D !! (k, i) = None <-> view D (m_devs (s_mem s)) !! (k, i) = None).
Proof.
  intros Hrep. unfold view. rewrite lookup_omap. destruct (D !! (k, i)) as [p|] eqn:E; cbn; [|done].
  destruct (tr_map _ _ _ _ _ (mr_tab _ _ _ _ _ _ Hrep) _ _ _ E) as (_ & d & -> & _). done.
Qed.

(** The devices have the key and the interface they are registered under. *)
Lemma view_key s mon mo cbs bs D k i d : mon_rep s mon mo cbs bs D ->
  view D (m_devs (s_mem s)) !! (k, i) = Some d -> dev_key d = Some k /\ dev_iface d = i.
Proof.
  intros Hrep. rewrite (proj1 (view_lookup _ _ _ _ _ _ k i Hrep)). destruct (D !! (k, i)) as [p|] eqn:E; [|done].
  destruct (tr_map _ _ _ _ _ (mr_tab _ _ _ _ _ _ Hrep) _ _ _ E) as (_ & d' & -> & ? & ?). by intros [= ->].
Qed.

Lemma view_insert D devs k p d : (forall k', D !! k' <> Some p) ->
  view (<[k := p]> D) (<[p := d]> devs) = <[k := d]> (view D devs).
Proof.
  intros HD. apply map_eq. intros k'. unfold view. rewrite lookup_omap, !lookup_insert, lookup_omap.
  case_decide; cbn; [by rewrite lookup_insert_eq|]. destruct (D !! k') as [q|] eqn:E; [|done]. cbn.
  rewrite lookup_insert_ne; [done|]. intros ->. by apply (HD k').
Qed.

Lemma view_remove s mon mo cbs bs D key gone : mon_rep s mon mo cbs bs D ->
  (forall dev d, (dev, d) ∈ gone <-> D !! (key, dev_iface d) = Some dev /\ m_devs (s_mem s) !! dev = Some d) ->
  view (filter (fun e => e.1.1 <> key) D) (foldl drop_dev (m_devs (s_mem s)) gone) =
  filter (fun e => e.1.1 <> key) (view D (m_devs (s_mem s))).
Proof.
  intros Hrep Hg. apply map_eq. intros [k i]. unfold view. rewrite lookup_omap, !map_lookup_filter, lookup_omap.
  destruct (D !! (k, i)) as [p|] eqn:E; cbn; [|done]. destruct (decide (k = key)) as [->|Hk].
  { rewrite option_guard_False by tauto. cbn. by destruct (m_devs (s_mem s) !! p). }
  rewrite option_guard_True by done. cbn. unfold drop_dev. rewrite foldl_drop_ref_ne.
  - destruct (m_devs (s_mem s) !! p); cbn; [|done]. by rewrite option_guard_True.
  - intros ([p' d] & -> & [HD _]%Hg)%list_elem_of_fmap. cbn in E.
    by destruct (table_rep_key _ _ _ _ _ _ _ _ _ _ (mr_tab _ _ _ _ _ _ Hrep) E HD).
Qed.
End View.

(** * Registering a new device *)

Section Register.
Context {W : Type}.
Variable call : ptr -> ptr -> ptr -> M (st W) Z.
Variable react : ptr -> ptr -> hs_device -> ptr -> W -> Z * W.
Hypothesis call_react : calm call react.
Variable fuel : nat.
Implicit Types (s : st W) (mon p dev : ptr) (d : hs_device) (bs : list (list ptr))
  (cbs : list (ptr * callback)) (mo : hs_monitor) (D : gmap (string * Z) ptr).

(** A new device is none of those of a monitor. *)
Lemma mon_rep_new s s' mon mo cbs bs D p d :
  mon_rep s mon mo cbs bs D -> s_mem s' = with_new_dev p d (s_mem s) ->
  ~ in_use (s_mem s) p -> ~ in_use (s_mem s) (hnode_of p) ->
  mon_rep s' mon mo cbs bs D /\ hnode_of p ∉ concat (rings (mon_devices mo) bs) /\
  forall k i, D !! (k, i) <> Some p.
Proof.
  intros [G1 G2 [G3 G3'] G4 [Hr Hsz Hreg Hmap]] Hm Hu Hn.
  assert (hnode_of p ∉ concat (rings (mon_devices mo) bs)) as Hring.
  { intros Hin. apply concat_rings in Hin as (i & b & Hi & Hin). apply Hn. unfold in_use.
    do 5 right. left. eapply chain_dom; [exact (hr_ring _ _ _ Hr _ _ Hi)|exact Hin]. }
  assert (forall k i, D !! (k, i) <> Some p) as HD.
  { intros k i HD. destruct (Hmap _ _ _ HD) as (_ & d' & Hd' & _). apply Hu. left. by rewrite Hd'. }
  assert (forall n, n ∈ concat bs -> device_of n <> p) as Hne.
  { intros n Hin <-. destruct (Hreg n Hin) as (k & d' & Hrg & _). apply Hu. left. by rewrite (rg_dev _ _ _ _ _ Hrg). }
  split; [|by split]. split; [done|by rewrite Hm|split; by rewrite Hm|done|].
  rewrite Hm. split; [|done| |].
  - eapply htable_rep_frame; [|exact Hr]. intros q Hq. cbn.
    rewrite !lookup_insert_ne by (by intros <-). done.
  - intros n Hin. destruct (Hreg n Hin) as (k & d' & Hrg & HD'). exists k, d'. split; [|done].
    eapply registered_frame; [| |exact Hrg]; cbn.
    + rewrite lookup_insert_ne; [done|]. intros E. by apply (Hne n Hin).
    + rewrite lookup_insert_ne; [done|]. intros E. apply (Hne n Hin). by rewrite <- E, device_of_hnode.
  - intros k i dev HD'. destruct (Hmap _ _ _ HD') as (Hin & d' & Hd' & Hk).
    split; [done|]. exists d'. split; [|done]. cbn. rewrite lookup_insert_ne; [done|].
    intros <-. by apply (HD k i).
Qed.

(** A reference to a registered device that is not the last one is dropped. *)
Lemma wp_unref_registered (Q : unit -> st W -> Prop) s mon mo cbs bs D dev d k i :
  mon_rep s mon mo cbs bs D -> D !! (k, i) = Some dev -> m_devs (s_mem s) !! dev = Some d ->
  2 <= dev_refcount d ->
  (forall s', mon_rep s' mon mo cbs bs D ->
     m_devs (s_mem s') = <[dev := dev_with_refcount (dev_refcount d - 1) d]> (m_devs (s_mem s)) ->
     m_lists (s_mem s') = m_lists (s_mem s) -> s_world s' = s_world s -> s_common s' = s_common s ->
     m_statics (s_mem s') = m_statics (s_mem s) -> m_nodes (s_mem s') = m_nodes (s_mem s) ->
     m_cbs (s_mem s') = m_cbs (s_mem s) -> m_mons (s_mem s') = m_mons (s_mem s) -> Q tt s') ->
  wp (hs_device_unref dev) Q s.
Proof.
  intros [G1 G2 [G3 G3'] G4 [Hr Hsz Hreg Hmap]] HD Hd Hc HQ.
  destruct (Hmap _ _ _ HD) as (Hin & d' & Hd' & Hk & Hi). rewrite Hd in Hd'. injection Hd' as <-.
  destruct (Hreg _ Hin) as (k' & d' & Hrg & HD'). pose proof (rg_dev _ _ _ _ _ Hrg) as Hd'.
  rewrite device_of_hnode, Hd in Hd'. injection Hd' as <-. pose proof Hrg as [_ _ _ _ _ Hcnt Hnull].
  rewrite device_of_hnode in Hnull.
  eapply wp_intro; [by apply (hs_device_unref_eq _ _ d); [done|done|lia]|].
  apply HQ; try done. split; [done|done|by split|done|]. split; [done|done| |].
  - intros n Hin2. destruct (Hreg n Hin2) as (k2 & d2 & Hrg2 & HD2).
    destruct (decide (device_of n = dev)) as [<-|Hne].
    + rewrite (rg_dev _ _ _ _ _ Hrg2) in Hd. injection Hd as ->. exists k2, (dev_with_refcount (dev_refcount d - 1) d).
      split; [|done]. destruct Hrg2. split; try done; cbn; [by rewrite lookup_insert_eq|lia].
    + exists k2, d2. split; [|done]. apply (registered_frame _ (s_mem s)); [|done|exact Hrg2].
      cbn. by rewrite lookup_insert_ne.
  - intros k2 i2 dev2 HD2. destruct (Hmap _ _ _ HD2) as (Hin2 & d2 & Hd2 & Hk2).
    split; [done|]. cbn. destruct (decide (dev2 = dev)) as [->|Hne].
    + rewrite Hd in Hd2. injection Hd2 as ->. eexists. rewrite lookup_insert_eq. by split.
    + exists d2. by rewrite lookup_insert_ne.
Qed.

(** What becomes of a new device that is added to a monitor and released: when
    its key and interface are known, it is freed; otherwise the monitor has the
    only reference to it, and the callbacks saw it. *)
Lemma wp_add_new (Q : Z -> st W -> Prop) s0 s mon mo cbs bs D p d k :
  mon_rep s0 mon mo cbs bs D -> enough fuel cbs bs -> s_mem s = with_new_dev p d (s_mem s0) ->
  p <> NULL -> hnode_of p <> NULL -> ~ in_use (s_mem s0) p -> ~ in_use (s_mem s0) (hnode_of p) ->
  dev_key d = Some k -> dev_refcount d = 1 ->
  (forall dev s', D !! (k, dev_iface d) = Some dev -> s_mem s' = s_mem s0 ->
     s_world s' = s_world s -> Q 0 s') ->
  (forall r kept s' bs', D !! (k, dev_iface d) = None ->
     notify react p (onlined mon d) cbs (s_world s) = (r, kept, s_world s') ->
     mon_rep s' mon mo kept bs' (<[(k, dev_iface d) := p]> D) ->
     m_devs (s_mem s') = <[p := dev_with_refcount 1 (onlined mon d)]> (m_devs (s_mem s0)) ->
     sublist kept cbs -> reacted mon cbs kept s s' ->
     nodes_kept (hnode_of p) (concat (rings (mon_devices mo) bs)) s0 s' -> Q r s') ->
  wp (let* r := _hs_monitor_add call fuel mon p in hs_device_unref p ;;; ret r) Q s.
Proof.
  intros Hrep Hf Hm Hp Hpn Hu Hn Hk Hd Hold Hnew.
  destruct (mon_rep_new _ _ _ _ _ _ _ _ _ Hrep Hm Hu Hn) as (Hrep1 & Hring & HDp).
  assert (m_devs (s_mem s) !! p = Some d) as Hl by (rewrite Hm; apply lookup_insert_eq).
  wp_step. eapply (wp_monitor_add call react call_react); [exact Hrep1|exact Hf| | |].
  - split; try done; [lia|]; rewrite Hm; unfold hnode; cbn; rewrite !lookup_insert_eq; eauto.
  - intros dev HD. wp_step.
    destruct (unref_new_dev p d (s_mem s0) s Hp Hu Hn Hd Hm) as (s2 & E & Hm2 & Hw2).
    eapply wp_intro; [exact E|]. wp_step. by eapply Hold.
  - intros r kept s1 bs' HD En Hrep' Hdevs Hsub Hlk Hns. wp_step.
    eapply wp_unref_registered; [exact Hrep'|apply lookup_insert_eq|by rewrite Hdevs, lookup_insert_eq|cbn; lia|].
    intros s2 Hrep2 Hdevs2 Hl2 Hw2 Hc2 Hsts2 Hn2 Hcb2 Hmo2. wp_step. apply (Hnew r kept s2 bs'); try done.
    + by rewrite Hw2.
    + rewrite Hdevs2, Hdevs, insert_insert_eq, Hm. cbn. rewrite insert_insert_eq.
      f_equal. unfold onlined. cbn. rewrite Hd. done.
    + assert (cbs_freed s1 s2) as Hf2 by by apply cbs_freed_refl. destruct Hlk as [Hlk Hdr]. split.
      * eapply lists_kept_trans; [exact Hlk|]. split; [done|done|done|by rewrite Hcb2|done|by rewrite Hl2].
      * intros q Hq Hq'. apply Hf2. by apply Hdr.
    + destruct Hns as [Hns Hks]. split; intros q Hq; rewrite Hn2.
      * destruct (Hns q Hq) as [-> ->]. rewrite Hm. cbn. by rewrite !lookup_insert_ne by set_solver.
      * rewrite (Hks q Hq), Hm. cbn. by rewrite lookup_insert_ne.
Qed.
End Register.

(** The first command of a sequence leaves the memory: the calls, the log and
    the errors. *)
Create HintDb keeps.
#[export] Hint Resolve keeps_call keeps_memory_error keeps_error keeps_log : keeps.
