(* ===== verification/Lifetime.v ===== *)
(** The memory of a monitor, from [calloc] to [free]: what it owns on top of the
    memory there was before, and that releasing and freeing it gives that memory
    back. Shared by the discoveries of the three systems. *)

From S2P Require Import Prelude Common DList Htable State Posix Device Heap Monitor MonitorSpec Discovery.

Section Lifetime.
Context {W : Type}.
Implicit Types (s : st W) (p mon : ptr) (d : hs_device) (bs : list (list ptr))
  (cbs : list (ptr * callback)) (mo : hs_monitor) (D : gmap (string * Z) ptr).

(** [m] has the list nodes of [m0] and the new ones [ps]. *)
Definition new_cells (ps : list ptr) (m0 m : mem) : Prop :=
  forall p, if decide (p ∈ ps) then l_prev (m_lists m0) !! p = None /\ l_next (m_lists m0) !! p = None
            else l_prev (m_lists m) !! p = l_prev (m_lists m0) !! p /\
                 l_next (m_lists m) !! p = l_next (m_lists m0) !! p.

(** [m] has the nodes of tables of [m0] and the new ones [ns]. *)
Definition new_nodes (ns : list ptr) (m0 m : mem) : Prop :=
  forall p, if decide (p ∈ ns) then h_next (m_nodes m0) !! p = None /\ h_key (m_nodes m0) !! p = None
            else h_next (m_nodes m) !! p = h_next (m_nodes m0) !! p /\
                 h_key (m_nodes m) !! p = h_key (m_nodes m0) !! p.

(** A monitor that is not initialized, or whose initialization failed. *)
Record idle s0 mon s : Prop := {
  id_null : mon <> NULL;
  id_new : m_mons (s_mem s0) !! mon = None;
  id_nocb : m_cbs (s_mem s0) !! mon = None;
  id_mons : exists mo, m_mons (s_mem s) = <[mon := mo]> (m_mons (s_mem s0)) /\
    ht_size (mon_devices mo) = 0 /\ mon_callback_id mo = 0;
  id_node : list_node (m_lists (s_mem s)) mon;
  id_list : l_next (m_lists (s_mem s)) !! mon = Some NULL \/ dlist (m_lists (s_mem s)) mon [];
  id_cells : new_cells [mon] (s_mem s0) (s_mem s);
  id_devs : m_devs (s_mem s) = m_devs (s_mem s0);
  id_cbs : m_cbs (s_mem s) = m_cbs (s_mem s0);
  id_nodes : m_nodes (s_mem s) = m_nodes (s_mem s0)
}.

(** A monitor of which only the structure is left. *)
Record spent s0 mon s : Prop := {
  sp_new : m_mons (s_mem s0) !! mon = None;
  sp_mons : exists mo, m_mons (s_mem s) = <[mon := mo]> (m_mons (s_mem s0));
  sp_cells : new_cells [mon] (s_mem s0) (s_mem s);
  sp_devs : m_devs (s_mem s) = m_devs (s_mem s0);
  sp_cbs : m_cbs (s_mem s) = m_cbs (s_mem s0);
  sp_nodes : m_nodes (s_mem s) = m_nodes (s_mem s0)
}.

Lemma idle_spent s0 mon s : idle s0 mon s -> spent s0 mon s.
Proof. intros [_ H1 _ (mo & H2 & _) _ _ H3 H4 H5 H6]. split; eauto. Qed.

Lemma eq_lmem (l l' : lmem) : (forall p, l_prev l !! p = l_prev l' !! p /\ l_next l !! p = l_next l' !! p) -> l = l'.
Proof. destruct l, l'. cbn. intros H. f_equal; apply map_eq; intros p; apply H. Qed.

Lemma eq_hmem (l l' : hmem) : (forall p, h_next l !! p = h_next l' !! p /\ h_key l !! p = h_key l' !! p) -> l = l'.
Proof. destruct l, l'. cbn. intros H. f_equal; apply map_eq; intros p; apply H. Qed.

(** [calloc] of the structure. *)
Lemma alloc_idle s0 s mon : mon <> NULL -> ~ in_use (s_mem s) mon -> same_objects s0 s ->
  exists s', alloc_mon mon s = Done (tt, s') /\ idle s0 mon s' /\ s_world s' = s_world s /\
    m_statics (s_mem s') = m_statics (s_mem s).
Proof.
  intros Hn Hu (E1 & E2 & E3 & E4 & E5). eexists. split; [reflexivity|]. split; [|done].
  unfold in_use in Hu. rewrite E1, E2, E3, E4, E5 in Hu. split; cbn; rewrite ?E1, ?E2, ?E3, ?E4, ?E5; try done.
  - apply eq_None_not_Some. tauto.
  - apply eq_None_not_Some. tauto.
  - eexists. split; [done|]. by split.
  - split; cbn; rewrite lookup_insert_eq; eauto.
  - left. by rewrite lookup_insert_eq.
  - intros p. cbn. case_decide as Hp.
    + apply list_elem_of_singleton in Hp as ->. split; apply eq_None_not_Some; tauto.
    + by rewrite !lookup_insert_ne by set_solver.
Qed.

(** [free] of the structure gives the memory back. *)
Lemma free_spent s0 s mon : spent s0 mon s ->
  exists s', free_mon mon s = Done (tt, s') /\ same_objects s0 s' /\ s_world s' = s_world s /\
    m_statics (s_mem s') = m_statics (s_mem s).
Proof.
  intros [H1 (mo & H2) H3 H4 H5 H6]. unfold free_mon, bind, load_mon. rewrite H2, lookup_insert_eq.
  eexists. split; [reflexivity|]. split; [|done]. unfold same_objects. cbn. split_and!; try done.
  - apply eq_lmem. intros p. cbn. specialize (H3 p). case_decide as Hp.
    + apply list_elem_of_singleton in Hp as ->. rewrite !lookup_delete_eq. by destruct H3.
    + by rewrite !lookup_delete_ne by set_solver.
  - rewrite H2. by apply delete_insert_id.
Qed.

(** [_hs_monitor_release] finds nothing in an idle monitor. *)
Lemma release_idle fuel s0 s mon : idle s0 mon s -> (0 < fuel)%nat ->
  wp (_hs_monitor_release fuel mon) (fun _ s' => s' = s) s.
Proof.
  intros [Hn _ _ (mo & Hmo & Hsz & _) _ Hl _ _ _ _] Hf. unfold _hs_monitor_release. wp_step.
  assert (Htab : monitor_table mon s = Done (mon_devices mo, s)).
  { apply monitor_table_eq. by rewrite Hmo, lookup_insert_eq. }
  assert (Hrest : wp (let* _ := hs_htable_foreach (R := unit) (monitor_table mon) (fun cur =>
      let dev := device_of cur in
      set_dev dev (dev_with_monitor NULL) ;;; hs_device_unref dev ;;; ret Next) fuel in
    let* m := load_mon mon in zoom (_hs_htable_release (mon_devices m))) (fun _ s' => s' = s) s).
  { destruct fuel as [|fuel]; [lia|]. wp_step. unfold hs_htable_foreach. wp_step. eapply wp_intro; [exact Htab|].
    cbn [hs_htable_foreach_loop]. rewrite Z.eqb_refl. cbn [negb]. wp_step. eapply wp_intro; [exact Htab|].
    unfold slot. rewrite Hsz, Z.mul_0_r, Z.add_0_r, Z.ltb_irrefl. wp_step. wp_step.
    eapply wp_load_mon; [by rewrite Hmo, lookup_insert_eq|]. apply wp_zoom. unfold _hs_htable_release. rewrite Hsz.
    eapply wp_intro; [done|]. by rewrite with_same. }
  destruct Hl as [Hl|Hl].
  - unfold _hs_list_foreach. wp_step. wp_step. wp_step. apply wp_zoom. eapply wp_load_next; [exact Hl|].
    rewrite with_same. change (NULL =? NULL) with true. cbv iota. wp_step. exact Hrest.
  - apply wp_list_foreach with (h := mon) (xs := []) (Inv := fun todo s' => todo = [] /\ s' = s); try done.
    + intros todo s' [-> ->]. apply rest_ring; [apply NoDup_singleton|apply Hl].
    + by intros cur todo s' [? _].
    + by intros s' [_ ->].
Qed.

(** ** A monitor that works *)

(** What it owns: its structure, its callbacks, the array of its table, and the
    devices of its buckets, to which it has the only reference. *)
Record owns s0 s mon mo cbs bs D : Prop := {
  ow_rep : mon_rep s mon mo cbs bs D;
  ow_new : m_mons (s_mem s0) !! mon = None;
  ow_nocb : m_cbs (s_mem s0) !! mon = None;
  ow_mons : m_mons (s_mem s) = <[mon := mo]> (m_mons (s_mem s0));
  ow_cells : new_cells (mon :: cbs.*1) (s_mem s0) (s_mem s);
  ow_cbs : forall p, if decide (p ∈ cbs.*1) then m_cbs (s_mem s0) !! p = None
                     else m_cbs (s_mem s) !! p = m_cbs (s_mem s0) !! p;
  ow_devs : forall p, if decide (p ∈ device_of <$> concat bs)
    then m_devs (s_mem s0) !! p = None /\ exists d, m_devs (s_mem s) !! p = Some d /\ dev_refcount d = 1
    else m_devs (s_mem s) !! p = m_devs (s_mem s0) !! p;
  ow_nodes : new_nodes (concat (rings (mon_devices mo) bs)) (s_mem s0) (s_mem s);
  ow_keys : forall i, 0 <= i < ht_size (mon_devices mo) ->
    h_key (m_nodes (s_mem s)) !! slot (mon_devices mo) i = None
}.

(** Dropping the only references to some devices frees them. *)
Lemma foldl_drop_last f (devs : gmap ptr hs_device) gone p :
  (forall dev d, (dev, d) ∈ gone -> dev_refcount d = 1) ->
  foldl (drop_ref f) devs gone !! p = if decide (p ∈ gone.*1) then None else devs !! p.
Proof.
  revert devs. induction gone as [|[dev d] gone IH]; intros devs Hone; [by rewrite decide_False by apply not_elem_of_nil|].
  cbn [foldl drop_ref]. rewrite (Hone dev d) by left. change (1 =? 1) with true. cbv iota.
  rewrite IH by (intros dev' d' Hin; eapply Hone; by right). cbn.
  destruct (decide (p ∈ gone.*1)), (decide (p ∈ dev :: gone.*1)); try set_solver.
  - assert (p = dev) as -> by set_solver. apply lookup_delete_eq.
  - by rewrite lookup_delete_ne by set_solver.
Qed.

(** The release leaves only the structure. *)
Lemma release_owns s0 s s' mon mo cbs bs D :
  owns s0 s mon mo cbs bs D -> released s mon mo cbs bs s' -> spent s0 mon s'.
Proof.
  intros [Hrep Hnew Hnocb Hmons Hcells Hcbs Hdevs Hnodes Hkeys] [R1 R2 R3 R4 R5 R6 R7 R8 R9 R10 R11].
  pose proof (tr_rep _ _ _ _ _ (mr_tab _ _ _ _ _ _ Hrep)) as Hr.
  assert (Hone : forall n, n ∈ concat bs ->
    exists d, m_devs (s_mem s) !! device_of n = Some d /\ dev_refcount d = 1).
  { intros n Hn. specialize (Hdevs (device_of n)). rewrite decide_True in Hdevs; [apply Hdevs|].
    by apply list_elem_of_fmap_2. }
  split; [done|exists mo; by rewrite R8| | | |].
  - intros p. specialize (Hcells p). specialize (R7 p).
    pose proof (dlist_nodup _ _ _ (proj1 (mr_cbs _ _ _ _ _ _ Hrep))) as [Hm _]%NoDup_cons.
    destruct (decide (p ∈ mon :: cbs.*1)) as [Hp|Hp].
    + destruct (decide (p ∈ [mon])) as [|Hp1]; [done|].
      rewrite decide_True in R7 by set_solver. by destruct R7 as [-> ->], Hcells as [-> ->].
    + rewrite decide_False in R7 by set_solver. rewrite decide_False by set_solver.
      by destruct R7 as [-> ->], Hcells as [-> ->].
  - apply map_eq. intros p. rewrite R2, foldl_drop_last, entries_fst.
    { specialize (Hdevs p). case_decide; [|done]. by destruct Hdevs as [-> _]. }
    intros dev d (n & [= -> ->] & Hn)%list_elem_of_fmap. destruct (Hone n Hn) as (d & Hd & ?). by rewrite Hd.
  - apply map_eq. intros p. rewrite R1, foldl_delete_lookup. specialize (Hcbs p). by case_decide.
  - apply eq_hmem. intros p. specialize (Hnodes p). case_decide as Hp.
    + destruct Hnodes as [-> ->]. apply concat_rings in Hp as (i & b & Hi & Hp).
      apply lookup_lt_Some in Hi as Hlt. pose proof (hr_size _ _ _ Hr) as Hsz.
      apply elem_of_cons in Hp as [->|Hp].
      * split; [apply R3; lia|]. destruct (R4 (Z.of_nat i)) as [->|Hin]; [apply Hkeys; lia|].
        by apply (slot_not_node _ _ _ i Hr) in Hin.
      * assert (p ∈ concat bs) as Hin by (apply elem_of_concat; eauto).
        destruct (Hone p Hin) as (d & Hd & Hd1). by apply (R6 p d).
    + destruct (R5 p Hp) as [-> ->]. done.
Qed.

(** [free] after the release of either. *)
Lemma wp_free_spent (Q : unit -> st W -> Prop) s0 s mon : spent s0 mon s ->
  (forall s', same_objects s0 s' -> s_world s' = s_world s -> m_statics (s_mem s') = m_statics (s_mem s) -> Q tt s') ->
  wp (free_mon mon) Q s.
Proof.
  intros Hs HQ. destruct (free_spent s0 s mon Hs) as (s' & E & Ho & Hw & Hst).
  eapply wp_intro; [exact E|]. by apply HQ.
Qed.

(** The commands of a discovery that leave the objects leave what is owned. *)
Lemma idle_same s0 mon s s' : idle s0 mon s -> same_objects s s' -> idle s0 mon s'.
Proof.
  intros [H1 H2 H2' H3 H4 H5 H6 H7 H8 H9] (E1 & E2 & E3 & E4 & E5).
  split; unfold new_cells in *; rewrite ?E1, ?E2, ?E3, ?E4, ?E5; done.
Qed.

Lemma mon_rep_objects s s' mon mo cbs bs D :
  mon_rep s mon mo cbs bs D -> same_objects s s' -> mon_rep s' mon mo cbs bs D.
Proof.
  intros [G1 G2 [G3 G3'] G4 G5] (E1 & E2 & E3 & E4 & E5).
  split; [done|by rewrite E5|split; [by rewrite E2|by rewrite E4]|done|].
  by eapply table_rep_frame.
Qed.

Lemma owns_same s0 s s' mon mo cbs bs D :
  owns s0 s mon mo cbs bs D -> same_objects s s' -> owns s0 s' mon mo cbs bs D.
Proof.
  intros [H1 H2 H2' H3 H4 H5 H6 H7 H8] Hs. pose proof (mon_rep_objects _ _ _ _ _ _ _ H1 Hs) as Hrep.
  destruct Hs as (E1 & E2 & E3 & E4 & E5).
  split; unfold new_cells, new_nodes in *; rewrite ?E1, ?E2, ?E3, ?E4, ?E5; done.
Qed.

Lemma wp_release_idle fuel s0 s mon : idle s0 mon s -> (0 < fuel)%nat ->
  wp (_hs_monitor_release fuel mon) (fun _ s' => spent s0 mon s' /\ s_world s' = s_world s /\
    m_statics (s_mem s') = m_statics (s_mem s)) s.
Proof.
  intros Hi Hf. eapply wp_mono; [by eapply release_idle|]. intros [] s' ->. split; [by apply idle_spent|done].
Qed.

Lemma wp_release_owns fuel s0 s mon mo cbs bs D : owns s0 s mon mo cbs bs D -> enough fuel cbs bs ->
  wp (_hs_monitor_release fuel mon) (fun _ s' => spent s0 mon s' /\ s_world s' = s_world s /\
    m_statics (s_mem s') = m_statics (s_mem s)) s.
Proof.
  intros Ho Hf. eapply wp_monitor_release; [apply (ow_rep _ _ _ _ _ _ _ Ho)|done|].
  intros s' Hr. split; [by eapply release_owns|]. split; [apply (re_world _ _ _ _ _ _ Hr)|apply (re_statics _ _ _ _ _ _ Hr)].
Qed.

Section Init.
Context `{Posix W} `{Allocator W}.
Hypothesis allocs : allocator_documented.

(** [_hs_monitor_init] with the array that [malloc] returns. *)
Lemma wp_init_owns (Q : Z -> st W -> Prop) s0 s mon :
  idle s0 mon s ->
  (forall s', idle s0 mon s' -> s_world s' = (malloc_ok (s_world s)).2 ->
     m_statics (s_mem s') = m_statics (s_mem s) -> Q HS_ERROR_MEMORY s') ->
  (forall s' mo, owns s0 s' mon mo [] (replicate 64 []) ∅ -> ht_size (mon_devices mo) = 64 ->
     mon_callback_id mo = 0 -> s_world s' = (malloc_ok (s_world s)).2 ->
     m_statics (s_mem s') = m_statics (s_mem s) -> Q 0 s') ->
  wp new_block (fun heads s1 => wp (_hs_monitor_init heads mon) Q s1) s.
Proof.
  intros [Hnull Hnew Hnocb (mo & Hmons & Hsz & Hid) Hnode Hl Hcells Hdevs Hcbs Hnodes] Hno Hyes.
  assert (forall w, init_ready (with_world (fun _ => w) s) mon mo) as Hy.
  { intros w. split; [done| |done|rewrite Hid; unfold INT_MAX; lia]. cbn. by rewrite Hmons, lookup_insert_eq. }
  assert (Hcells' : forall s', lmem_same_outside [mon] (m_lists (s_mem s)) (m_lists (s_mem s')) ->
    new_cells [mon] (s_mem s0) (s_mem s')).
  { intros s' Hs' p. specialize (Hcells p). case_decide as Hp; [done|]. by destruct (Hs' p Hp) as [-> ->]. }
  apply wp_new_block; intros w Ew.
  - eapply wp_monitor_init; [apply Hy| |done]. intros _ s' _ Hw _ _ [F1 F2 F3 F4 F5 F6 F7 F8].
    apply Hno; [|by rewrite Hw, Ew|exact F4]. cbn in F1, F2, F3, F5, F7, F8. split; [done|done|done| | |by right|by apply Hcells'|congruence|congruence|].
    + eexists. rewrite F3, Hmons, insert_insert_eq. split; [done|]. by split.
    + apply (dlist_node _ _ [] mon F6). left.
    + rewrite <- Hnodes. apply eq_hmem. intros p. split; [by apply F7; intros []|by rewrite F8].
  - destruct (allocs w (s_mem s)) as [Hp Hfree].
    eapply wp_monitor_init; [apply Hy|intros E; unfold NULL in *; lia|]. intros _ s' Hrep _ Hw _ [F1 F2 F3 F4 F5 F6 F7 F8].
    set (heads := block_address w (s_mem s)) in *. cbn in F1, F2, F3, F5, F7, F8.
    apply (Hyes _ (Monitor (mon_callback_id mo) (Htable 64 heads))); [|done|done|by rewrite Hw, Ew|exact F4]. split; [exact Hrep|done|done|by rewrite F3, Hmons, insert_insert_eq|by apply Hcells'| | | |].
    + intros p. cbn. by rewrite F2, Hcbs.
    + intros p. rewrite decide_False; [by rewrite F1, Hdevs|].
      intros (n & _ & (i & b & [-> _]%lookup_replicate & Hn)%elem_of_concat)%list_elem_of_fmap. set_solver.
    + intros p. case_decide as Hin.
      * apply concat_rings in Hin as (i & b & [-> Hi]%lookup_replicate & ->%list_elem_of_singleton).
        rewrite <- Hnodes. unfold slot, PTR_SIZE. cbn. split; apply eq_None_not_Some; intros Hs;
          apply (Hfree (heads + 8 * Z.of_nat i)); unfold in_use; try lia; tauto.
      * rewrite F7, F8, Hnodes; [done|]. intros (i & Hi & ->). apply Hin. apply concat_rings.
        exists i, []. split; [by apply lookup_replicate|left].
    + intros i Hi. rewrite F8. apply eq_None_not_Some. intros Hs.
      change (slot _ i) with (heads + 8 * i) in Hs. cbn in Hi.
      apply (Hfree (heads + 8 * i)); [lia..|]. do 6 right. exact Hs.
Qed.
End Init.

(** ** A new device of a monitor without callbacks *)

(** The nodes of the buckets are those of the registered devices. *)
Lemma bucket_devices s mon mo cbs bs D n : mon_rep s mon mo cbs bs D ->
  n ∈ concat bs <-> exists k i, D !! (k, i) = Some (device_of n).
Proof.
  intros [_ _ _ _ [_ _ Hreg Hmap]]. split.
  - intros Hn. destruct (Hreg n Hn) as (k & d & _ & HD). eauto.
  - intros (k & i & HD). destruct (Hmap _ _ _ HD) as [Hin _]. by rewrite hnode_of_device in Hin.
Qed.

Lemma buckets_add s s' mon mo cbs cbs' bs bs' D k i p n :
  mon_rep s mon mo cbs bs D -> mon_rep s' mon mo cbs' bs' (<[(k, i) := p]> D) -> D !! (k, i) = None ->
  n ∈ concat bs' <-> n = hnode_of p \/ n ∈ concat bs.
Proof.
  intros H1 H2 HD. rewrite (bucket_devices _ _ _ _ _ _ _ H1), (bucket_devices _ _ _ _ _ _ _ H2). split.
  - intros (k' & i' & [[_ E]|[_ HD']]%lookup_insert_Some); [left|right; eauto].
    by rewrite E, hnode_of_device.
  - intros [->|(k' & i' & HD')]; [exists k, i|exists k', i'].
    + by rewrite device_of_hnode, lookup_insert_eq.
    + rewrite lookup_insert_ne; [done|]. intros [= <- <-]. by rewrite HD in HD'.
Qed.

Lemma rings_members s mon mo cbs bs D p : mon_rep s mon mo cbs bs D ->
  p ∈ concat (rings (mon_devices mo) bs) <->
  (exists i, 0 <= i < ht_size (mon_devices mo) /\ p = slot (mon_devices mo) i) \/ p ∈ concat bs.
Proof.
  intros Hrep. pose proof (tr_rep _ _ _ _ _ (mr_tab _ _ _ _ _ _ Hrep)) as Hr.
  pose proof (hr_size _ _ _ Hr) as Hsz. split.
  - intros (i & b & Hi & [->|Hp]%elem_of_cons)%concat_rings.
    + apply lookup_lt_Some in Hi. left. exists (Z.of_nat i). split; [lia|done].
    + right. apply elem_of_concat. eauto.
  - intros [(i & Hi & ->)|Hp]; [|by apply node_in_rings].
    rewrite <- (Z2Nat.id i) by lia. eapply slot_in_rings; [exact Hr|lia].
Qed.

(** The callbacks that were called, and those of them that were freed. *)
Lemma reacted_cells s0 s s1 s' mon mo cbs kept bs D :
  owns s0 s mon mo cbs bs D -> m_lists (s_mem s1) = m_lists (s_mem s) -> m_cbs (s_mem s1) = m_cbs (s_mem s) ->
  sublist kept cbs -> reacted mon cbs kept s1 s' ->
  new_cells (mon :: kept.*1) (s_mem s0) (s_mem s') /\
  forall p, if decide (p ∈ kept.*1) then m_cbs (s_mem s0) !! p = None
            else m_cbs (s_mem s') !! p = m_cbs (s_mem s0) !! p.
Proof.
  intros [Hrep Hnew Hnocb Hmons Hcells Hcbs _ _ _] El Ec Hsub [[_ _ _ Kcbs Kfreed Kl] Hdrop].
  rewrite El in Kl. rewrite Ec in Kcbs.
  assert (Hin : forall p, p ∈ kept.*1 -> p ∈ cbs.*1).
  { intros p. eapply sublist_subseteq. by apply fmap_sublist. }
  pose proof (dlist_nodup _ _ _ (proj1 (mr_cbs _ _ _ _ _ _ Hrep))) as [Hm _]%NoDup_cons.
  split; intros p; specialize (Hcells p); specialize (Hcbs p).
  - destruct (decide (p ∈ mon :: kept.*1)) as [Hp|Hp].
    + rewrite decide_True in Hcells; [done|]. apply elem_of_cons in Hp as [->|Hp]; [left|right; by apply Hin].
    + destruct (decide (p ∈ cbs.*1)) as [Hp2|Hp2].
      * rewrite decide_True in Hcells by by right. destruct Hcells as [-> ->].
        apply (Hdrop p); [done|set_solver].
      * assert (p ∉ mon :: cbs.*1) as Hp3 by set_solver. rewrite decide_False in Hcells by done.
        by destruct (Kl p Hp3) as [-> ->].
  - destruct (decide (p ∈ kept.*1)) as [Hp|Hp]; [by rewrite decide_True in Hcbs by auto|].
    destruct (decide (p ∈ cbs.*1)) as [Hp2|Hp2].
    + rewrite Hcbs. by destruct (Hdrop p Hp2 Hp).
    + rewrite <- Hcbs. destruct (decide (p = mon)) as [->|Hpm]; [|apply Kcbs; set_solver].
      rewrite Hcbs, Hnocb. destruct (Kfreed mon) as [_ [->|[-> _]]]; [|done]. by rewrite Ec, Hcbs.
Qed.

(** The addition of a new device [p] that the monitor keeps. *)
Lemma owns_add s0 s s1 s' mon mo cbs kept bs bs' D p d d' k i :
  owns s0 s mon mo cbs bs D -> ~ in_use (s_mem s) p -> ~ in_use (s_mem s) (hnode_of p) ->
  D !! (k, i) = None -> dev_refcount d' = 1 -> s_mem s1 = with_new_dev p d (s_mem s) ->
  mon_rep s' mon mo kept bs' (<[(k, i) := p]> D) ->
  m_devs (s_mem s') = <[p := d']> (m_devs (s_mem s)) ->
  sublist kept cbs -> reacted mon cbs kept s1 s' ->
  nodes_kept (hnode_of p) (concat (rings (mon_devices mo) bs)) s s' ->
  owns s0 s' mon mo kept bs' (<[(k, i) := p]> D).
Proof.
  intros Ho Hu Hn HD Hone Hm Hrep' Edevs Hsub Hre [Hns Hks].
  destruct (reacted_cells _ _ _ _ _ _ _ _ _ _ Ho ltac:(by rewrite Hm) ltac:(by rewrite Hm) Hsub Hre) as [Hcells' Hcbs'].
  destruct Ho as [Hrep Hnew Hnocb Hmons Hcells Hcbs Hdevs Hnodes Hkeys].
  pose proof (fun n => buckets_add _ _ _ _ _ _ _ _ _ _ _ _ n Hrep Hrep' HD) as Hin.
  assert (hnode_of p ∉ concat (rings (mon_devices mo) bs)) as Hpn.
  { pose proof (tr_rep _ _ _ _ _ (mr_tab _ _ _ _ _ _ Hrep)) as Hr. intros Hp. apply Hn. unfold in_use.
    do 5 right. left. apply concat_rings in Hp as (j & b & Hj & Hp).
    eapply chain_dom; [exact (hr_ring _ _ _ Hr _ _ Hj)|exact Hp]. }
  split; [done|done|done| |exact Hcells'|exact Hcbs'| | |].
  - rewrite (lk_mons _ _ _ (rc_lists _ _ _ _ _ Hre)), Hm. exact Hmons.
  - intros q. specialize (Hdevs q). rewrite Edevs. destruct (decide (q = p)) as [->|Hqp].
    + assert (p ∉ device_of <$> concat bs) as Hp.
      { intros (n & -> & Hin')%list_elem_of_fmap. apply Hpn, node_in_rings. by rewrite hnode_of_device. }
      rewrite decide_False in Hdevs by done. rewrite decide_True.
      * rewrite <- Hdevs, lookup_insert_eq. split; [|eauto]. apply eq_None_not_Some. unfold in_use in Hu. tauto.
      * apply list_elem_of_fmap. exists (hnode_of p). rewrite device_of_hnode. split; [done|]. apply Hin. by left.
    + rewrite lookup_insert_ne by done. case_decide as Hq.
      * rewrite decide_True; [done|]. apply list_elem_of_fmap in Hq as (n & -> & Hq). apply list_elem_of_fmap_2.
        apply Hin. by right.
      * rewrite decide_False; [done|]. intros (n & -> & [->|Hq']%Hin)%list_elem_of_fmap.
        { by rewrite device_of_hnode in Hqp. }
        apply Hq. by apply list_elem_of_fmap_2.
  - assert (Hrings : forall q, q ∈ concat (rings (mon_devices mo) bs') <->
      q = hnode_of p \/ q ∈ concat (rings (mon_devices mo) bs)).
    { intros q. rewrite (rings_members _ _ _ _ _ _ q Hrep), (rings_members _ _ _ _ _ _ q Hrep'), Hin. tauto. }
    intros q. specialize (Hnodes q). destruct (decide (q = hnode_of p)) as [->|Hq].
    + rewrite decide_False in Hnodes by done. destruct Hnodes as [<- <-]. rewrite decide_True by (apply Hrings; by left).
      unfold in_use in Hn. split; apply eq_None_not_Some; tauto.
    + destruct (decide (q ∈ concat (rings (mon_devices mo) bs))) as [Hq'|Hq'].
      * rewrite decide_True by (apply Hrings; by right). done.
      * rewrite decide_False by (intros [?|?]%Hrings; done). destruct (Hns q) as [-> ->]; [set_solver|done].
  - intros j Hj. rewrite Hks; [by apply Hkeys|]. intros E. apply Hpn. rewrite <- E.
    apply (rings_members _ _ _ _ _ _ _ Hrep). left. eauto.
Qed.

(** The removal of the devices of [key]: nobody else held them. *)
Lemma owns_remove s0 s s' mon mo cbs kept bs bs' D key gone :
  owns s0 s mon mo cbs bs D ->
  mon_rep s' mon mo kept bs' (filter (fun e => e.1.1 <> key) D) -> sublist kept cbs ->
  (forall dev d, (dev, d) ∈ gone <-> D !! (key, dev_iface d) = Some dev /\ m_devs (s_mem s) !! dev = Some d) ->
  m_devs (s_mem s') = foldl drop_dev (m_devs (s_mem s)) gone ->
  reacted mon cbs kept s s' -> nodes_dropped (concat (rings (mon_devices mo) bs)) gone s s' ->
  owns s0 s' mon mo kept bs' (filter (fun e => e.1.1 <> key) D).
Proof.
  intros Ho Hrep' Hsub Hgone Edevs Hre [Nn Nk Nf].
  destruct (reacted_cells _ _ _ _ _ _ _ _ _ _ Ho eq_refl eq_refl Hsub Hre) as [Hcells' Hcbs'].
  destruct Ho as [Hrep Hnew Hnocb Hmons Hcells Hcbs Hdevs Hnodes Hkeys].
  pose proof (mr_tab _ _ _ _ _ _ Hrep) as Htab. pose proof (tr_rep _ _ _ _ _ Htab) as Hr.
  assert (Hone : forall dev d, (dev, d) ∈ gone -> dev_refcount d = 1).
  { intros dev d [HD Hd]%Hgone. specialize (Hdevs dev). rewrite decide_True in Hdevs.
    - destruct Hdevs as (_ & d' & Hd' & ?). congruence.
    - apply list_elem_of_fmap. exists (hnode_of dev). rewrite device_of_hnode. split; [done|].
      by apply (tr_map _ _ _ _ _ Htab _ _ _ HD). }
  assert (Hg : forall p, p ∈ gone.*1 <-> exists i, D !! (key, i) = Some p).
  { intros p. split.
    - intros ([p' d] & -> & [HD _]%Hgone)%list_elem_of_fmap. eauto.
    - intros [i HD]. destruct (tr_map _ _ _ _ _ Htab _ _ _ HD) as (_ & d & Hd & _ & <-).
      apply (list_elem_of_fmap_2 fst _ (p, d)). by apply Hgone. }
  assert (Hin : forall n, n ∈ concat bs' <-> n ∈ concat bs /\ device_of n ∉ gone.*1).
  { intros n. rewrite (bucket_devices _ _ _ _ _ _ _ Hrep), (bucket_devices _ _ _ _ _ _ _ Hrep'), Hg. split.
    - intros (k & i & [HD Hk]%map_lookup_filter_Some). cbn in Hk. split; [eauto|]. intros [j HD'].
      by destruct (table_rep_key _ _ _ _ _ _ _ _ _ _ Htab HD HD').
    - intros [(k & i & HD) Hno]. exists k, i. apply map_lookup_filter_Some. split; [done|]. cbn. intros ->. eauto. }
  split; [done|done|done| |exact Hcells'|exact Hcbs'| | |].
  - by rewrite (lk_mons _ _ _ (rc_lists _ _ _ _ _ Hre)).
  - intros p. rewrite Edevs. unfold drop_dev. rewrite foldl_drop_last by done. specialize (Hdevs p).
    destruct (decide (p ∈ gone.*1)) as [Hp|Hp].
    + rewrite decide_False by (intros (n & -> & [_ Hn]%Hin)%list_elem_of_fmap; done).
      rewrite decide_True in Hdevs; [by destruct Hdevs as [-> _]|]. apply Hg in Hp as [i HD].
      apply list_elem_of_fmap. exists (hnode_of p). rewrite device_of_hnode. split; [done|].
      by apply (tr_map _ _ _ _ _ Htab _ _ _ HD).
    + destruct (decide (p ∈ device_of <$> concat bs)) as [Hp2|Hp2].
      * rewrite decide_True; [done|]. apply list_elem_of_fmap in Hp2 as (n & -> & Hn). apply list_elem_of_fmap_2.
        by apply Hin.
      * rewrite decide_False; [done|]. intros (n & -> & [Hn _]%Hin)%list_elem_of_fmap.
        apply Hp2. by apply list_elem_of_fmap_2.
  - intros q. specialize (Hnodes q). destruct (decide (q ∈ concat (rings (mon_devices mo) bs))) as [Hq|Hq].
    + case_decide as Hq2; [done|]. destruct Hnodes as [-> ->].
      apply (rings_members _ _ _ _ _ _ _ Hrep) in Hq as [Hq|Hq].
      { exfalso. apply Hq2, (rings_members _ _ _ _ _ _ _ Hrep'). by left. }
      assert (device_of q ∈ gone.*1) as ([dev d] & E & Hin')%list_elem_of_fmap.
      { destruct (decide (device_of q ∈ gone.*1)) as [|Hno]; [done|]. exfalso.
        apply Hq2, node_in_rings, Hin. by split. }
      cbn in E. rewrite <- (hnode_of_device q), E. by eapply Nf, Hone.
    + rewrite decide_False; [by destruct (Nn q Hq) as [-> ->]|].
      intros [Hs|[Hn _]%Hin]%(rings_members _ _ _ _ _ _ _ Hrep'); [|by apply Hq, node_in_rings].
      apply Hq, (rings_members _ _ _ _ _ _ _ Hrep). by left.
  - intros i Hi. destruct (Nk (slot (mon_devices mo) i)) as [->|(dev & Hd & E)]; [by apply Hkeys|]. exfalso.
    apply Hg in Hd as [j HD]. destruct (tr_map _ _ _ _ _ Htab _ _ _ HD) as [Hn _]. rewrite <- E in Hn.
    rewrite <- (Z2Nat.id i) in Hn by lia. pose proof (hr_size _ _ _ Hr).
    by apply (slot_not_node _ _ _ (Z.to_nat i) Hr) in Hn; [|lia].
Qed.
End Lifetime.

(** * The operations of a monitor that works *)

Section Working.
Context {W : Type}.
Variable call : ptr -> ptr -> ptr -> M (st W) Z.
Variable react : ptr -> ptr -> hs_device -> ptr -> W -> Z * W.
Hypothesis call_react : calm call react.
Variable fuel : nat.
Implicit Types (s : st W) (p mon cb : ptr) (bs : list (list ptr)) (mo : hs_monitor)
  (D : gmap (string * Z) ptr) (cbs : list (ptr * callback)).

(** A new device added and released by a discovery: the monitor owns it, or it
    is freed. *)
Lemma wp_owns_add (Q : Z -> st W -> Prop) s0 s1 s mon mo cbs bs D p d k :
  owns s0 s1 mon mo cbs bs D -> enough fuel cbs bs -> s_mem s = with_new_dev p d (s_mem s1) ->
  p <> NULL -> hnode_of p <> NULL -> ~ in_use (s_mem s1) p -> ~ in_use (s_mem s1) (hnode_of p) ->
  dev_key d = Some k -> dev_refcount d = 1 ->
  (forall s', is_Some (D !! (k, dev_iface d)) -> s_mem s' = s_mem s1 -> s_world s' = s_world s -> Q 0 s') ->
  (forall r kept s' bs', D !! (k, dev_iface d) = None ->
     notify react p (onlined mon d) cbs (s_world s) = (r, kept, s_world s') -> sublist kept cbs ->
     owns s0 s' mon mo kept bs' (<[(k, dev_iface d) := p]> D) ->
     m_devs (s_mem s') = <[p := dev_with_refcount 1 (onlined mon d)]> (m_devs (s_mem s1)) -> Q r s') ->
  wp (let* r := _hs_monitor_add call fuel mon p in hs_device_unref p ;;; ret r) Q s.
Proof.
  intros Ho Hf Hm Hp Hpn Hu Hn Hk Hone Hold Hnew. pose proof (ow_rep _ _ _ _ _ _ _ Ho) as Hrep.
  eapply (wp_add_new call react call_react fuel _ s1); try done.
  - intros dev s' HD Hm' Hw'. apply Hold; [by rewrite HD|done..].
  - intros r kept s' bs' HD En Hrep' Hdevs Hsub Hre Hns. apply (Hnew r kept s' bs'); try done.
    by eapply (owns_add s0 s1 s s' mon mo cbs kept bs bs' D p d (dev_with_refcount 1 (onlined mon d))).
Qed.

(** The removal of a key. *)
Lemma wp_owns_remove (Q : unit -> st W -> Prop) s0 s mon mo cbs bs D key :
  owns s0 s mon mo cbs bs D -> enough fuel cbs bs ->
  (forall s' bs' kept gone, owns s0 s' mon mo kept bs' (filter (fun e => e.1.1 <> key) D) ->
     notify_gone react gone cbs (s_world s) = (kept, s_world s') -> sublist kept cbs ->
     (forall dev d, (dev, d) ∈ gone <->
        D !! (key, dev_iface d) = Some dev /\ m_devs (s_mem s) !! dev = Some d) ->
     m_devs (s_mem s') = foldl drop_dev (m_devs (s_mem s)) gone -> Q tt s') ->
  wp (_hs_monitor_remove call fuel mon key) Q s.
Proof.
  intros Ho Hf HQ. eapply (wp_monitor_remove call react call_react); [apply (ow_rep _ _ _ _ _ _ _ Ho)|done|].
  intros s' bs' kept gone Hrep' Hng Hsub _ Hg Hdevs Hre Hns. apply (HQ s' bs' kept gone); try done.
  by eapply owns_remove.
Qed.

End Working.

Section Callbacks.
Context {W : Type}.
Variable fuel : nat.
Implicit Types (s : st W) (p mon cb : ptr) (bs : list (list ptr)) (mo : hs_monitor)
  (D : gmap (string * Z) ptr) (cbs : list (ptr * callback)).

(** A callback is registered in the block [cb], and deregistered. *)
Lemma wp_owns_register (Q : Z -> st W -> Prop) s0 s mon mo cbs bs D cb f udata :
  owns s0 s mon mo cbs bs D -> f <> NULL -> cb <> NULL -> ~ in_use (s_mem s) cb ->
  mon_callback_id mo < INT_MAX ->
  (forall s', let id := mon_callback_id mo in
     owns s0 s' mon (Monitor (id + 1) (mon_devices mo)) (cbs ++ [(cb, Callback id f udata)]) bs D ->
     m_devs (s_mem s') = m_devs (s_mem s) -> s_world s' = s_world s ->
     m_statics (s_mem s') = m_statics (s_mem s) -> Q id s') ->
  wp (hs_monitor_register_callback cb mon f udata) Q s.
Proof.
  intros [Hrep Hnew Hnocb Hmons Hcells Hcbs Hdevs Hnodes Hkeys] Hf Hcb Hu Hid HQ.
  assert (cb ∉ mon :: cbs.*1) as Hfresh.
  { intros Hin. destruct (dlist_node _ _ _ _ (proj1 (mr_cbs _ _ _ _ _ _ Hrep)) Hin) as [Hp _].
    apply Hu. unfold in_use. tauto. }
  eapply wp_register; [exact Hrep|done..|]. intros s' id Hrep' Ed En Em Ec Hl Ew _ Es.
  apply HQ; [|done..]. split; [done|done|done|by rewrite Em, Hmons, insert_insert_eq| | | | |].
  - intros p. specialize (Hcells p). rewrite fmap_app. cbn.
    destruct (decide (p = cb)) as [->|Hp].
    + rewrite decide_True by set_solver. rewrite decide_False in Hcells by done. destruct Hcells as [<- <-].
      unfold in_use in Hu. split; apply eq_None_not_Some; tauto.
    + destruct (decide (p ∈ mon :: cbs.*1)) as [Hp2|Hp2]; [rewrite decide_True by set_solver; done|].
      rewrite decide_False by set_solver. destruct (Hl p) as [-> ->]; [set_solver|done].
  - intros p. specialize (Hcbs p). rewrite fmap_app, Ec. cbn. destruct (decide (p = cb)) as [->|Hp].
    + rewrite decide_True by set_solver. rewrite decide_False in Hcbs by set_solver.
      rewrite <- Hcbs. unfold in_use in Hu. apply eq_None_not_Some. tauto.
    + rewrite lookup_insert_ne by done.
      destruct (decide (p ∈ cbs.*1)) as [Hp2|Hp2]; [by rewrite decide_True by set_solver|by rewrite decide_False by set_solver].
  - intros p. rewrite Ed. apply Hdevs.
  - unfold new_nodes in *. rewrite En. exact Hnodes.
  - rewrite En. exact Hkeys.
Qed.

Lemma wp_owns_deregister (Q : unit -> st W -> Prop) s0 s mon mo cbs bs D id :
  owns s0 s mon mo cbs bs D -> 0 <= id -> enough fuel cbs bs ->
  (forall s', owns s0 s' mon mo (without id cbs) bs D ->
     m_devs (s_mem s') = m_devs (s_mem s) -> s_world s' = s_world s ->
     m_statics (s_mem s') = m_statics (s_mem s) -> Q tt s') ->
  wp (hs_monitor_deregister_callback fuel mon id) Q s.
Proof.
  intros Ho Hid Hf HQ. pose proof (ow_rep _ _ _ _ _ _ _ Ho) as Hrep.
  eapply wp_deregister; [exact Hrep|done|done|]. intros s' Hrep' Hre Ed En Ew _.
  apply HQ; [|done|done|apply (lk_statics _ _ _ (rc_lists _ _ _ _ _ Hre))].
  destruct (reacted_cells _ _ _ _ _ _ _ _ _ _ Ho eq_refl eq_refl (sublist_filter _ _) Hre) as [Hcells' Hcbs'].
  destruct Ho as [_ Hnew Hnocb Hmons Hcells Hcbs Hdevs Hnodes Hkeys].
  split; [done|done|done| |exact Hcells'|exact Hcbs'| | |].
  - by rewrite (lk_mons _ _ _ (rc_lists _ _ _ _ _ Hre)).
  - intros p. rewrite Ed. apply Hdevs.
  - unfold new_nodes in *. rewrite En. exact Hnodes.
  - rewrite En. exact Hkeys.
Qed.
End Callbacks.
