(* ===== verification/Session.v ===== *)
(** What a program does with a monitor, on any system: it makes one, uses it, and
    frees it. The discovery of a system is an interface, [Discovery], with what it
    promises, [Promises]; a session over any discovery that keeps its promises
    returns and leaves nothing behind. *)

From S2P Require Import Prelude Common DList Htable State Posix Device Heap Monitor MonitorSpec Discovery Lifetime.

(** What a program does with a monitor. *)
Inductive action :=
  | ARegister (f udata : ptr)
  | ADeregister (id : Z)
  | ARefresh
  | AList (f udata : ptr).

(** The arguments the header asks for. *)
Definition valid (a : action) : Prop :=
  match a with
  | ARegister f _ | AList f _ => f <> NULL
  | ADeregister id => 0 <= id
  | ARefresh => True
  end.

(** The functions of monitor.h that every system has its own of, over the states
    [St] of the system; [None] is NULL. *)
Class Discovery (St : Type) := {
  monitor_handle : Type;
  monitor_addr : monitor_handle -> ptr;
  monitor_new : M St (Z * option monitor_handle);
  monitor_free : option monitor_handle -> M St unit;
  monitor_refresh : monitor_handle -> M St Z
}.

Section Session.
Context {W St : Type} `{Posix W} `{Allocator W} `{!Has (st W) St} `{!Discovery St}.
Variable fuel : nat.
Variable call : ptr -> ptr -> ptr -> M (st W) Z.

Definition perform (m : monitor_handle) (a : action) : M St Z :=
  match a with
  | ARegister f udata =>
      zoom (let* cb := new_block in hs_monitor_register_callback (W := W) cb (monitor_addr m) f udata)
  | ADeregister id => zoom (hs_monitor_deregister_callback (W := W) fuel (monitor_addr m) id) ;;; ret 0
  | ARefresh => monitor_refresh m
  | AList f udata => zoom (hs_monitor_list call fuel (monitor_addr m) f udata)
  end.

Fixpoint perform_all (m : monitor_handle) (l : list action) : M St unit :=
  match l with
  | [] => ret tt
  | a :: l => perform m a ;;; perform_all m l
  end.

(** When there is no monitor, nothing is done with it. *)
Definition session (l : list action) : M St Z :=
  let* rm := monitor_new in
  match rm.2 with
  | None => ret rm.1
  | Some m =>
      perform_all m l ;;;
      monitor_free (Some m) ;;;
      ret rm.1
  end.

(** The promises of a discovery. From a state that is [ready] for [n] actions,
    creation gives a monitor that [works] for [n] actions, or an error and the state
    is back to what it was; [works s0 m n s] is over the state [s0] before the monitor. A
    refresh is an action, and so is anything that changes the callbacks and is
    [quiet] about the world. Freeing brings back [s0];
    freeing NULL does nothing. *)
Class Promises (quiet : W -> W -> Prop) (ready : nat -> St -> Prop) (works : St -> monitor_handle -> nat -> St -> Prop)
    (gone : St -> St -> Prop) : Prop := {
  pr_quiet :: PreOrder quiet;
  pr_malloc : forall w, quiet w (malloc_ok w).2;
  pr_new : forall n s, ready n s -> wp monitor_new (fun rm s' =>
    (0 <= rm.1 /\ exists m, rm.2 = Some m /\ works s m n s') \/ (rm.1 < 0 /\ rm.2 = None /\ gone s s')) s;
  pr_free_null : forall s, monitor_free None s = Done (tt, s);
  pr_refresh : forall s0 m n s, works s0 m (S n) s -> wp (monitor_refresh m) (fun _ s' => works s0 m n s') s;
  pr_free : forall s0 m n s, works s0 m n s -> wp (monitor_free (Some m)) (fun _ s' => gone s0 s') s;
  pr_registry : forall s0 m n s, works s0 m (S n) s -> exists mo cbs bs D,
    owns (part s0) (part s) (monitor_addr m) mo cbs bs D /\ enough fuel cbs bs /\ mon_callback_id mo < INT_MAX /\
    forall y mo' cbs', owns (part s0) y (monitor_addr m) mo' cbs' bs D -> mon_devices mo' = mon_devices mo ->
      mon_callback_id mo' <= mon_callback_id mo + 1 -> (length cbs' <= S (length cbs))%nat ->
      m_statics (s_mem y) = m_statics (s_mem (part s)) -> quiet (s_world (part s)) (s_world y) ->
      works s0 m n (with_part y s)
}.

Context {quiet ready works gone} `{!Promises quiet ready works gone}.
Variable react : ptr -> ptr -> hs_device -> ptr -> W -> Z * W.
Hypothesis call_react : calm call react.
Hypothesis allocs : allocator_documented.
Hypothesis react_quiet : forall f dev d udata w, dev <> NULL -> quiet w (react f dev d udata w).2.
Implicit Types (s : St) (m : monitor_handle).

(** An action that is not used. *)
Lemma works_less s0 m n s y : works s0 m (S n) s -> same_objects (part s) y ->
  m_statics (s_mem y) = m_statics (s_mem (part s)) -> quiet (s_world (part s)) (s_world y) ->
  works s0 m n (with_part y s).
Proof.
  intros Hw Hy Es Hq. destruct (pr_registry _ _ _ _ Hw) as (mo & cbs & bs & D & Ho & _ & _ & Hkeep).
  apply (Hkeep y mo cbs); [by eapply owns_same|done|lia|lia|done|done].
Qed.

Lemma visit_quiet f udata l w : Forall (fun dev => dev <> NULL) l.*1 -> quiet w (visit react f udata l w).2.
Proof.
  revert w. induction l as [|[dev d] l IH]; intros w Hl; cbn [visit]; [done|]. apply Forall_cons in Hl as [Hdev Hl].
  pose proof (react_quiet f dev d udata w Hdev) as Hq. destruct (react f dev d udata w) as [r w'].
  destruct (r =? 0); [|done]. etrans; [exact Hq|by apply IH].
Qed.

Lemma wp_perform s0 m n s a : works s0 m (S n) s -> valid a ->
  wp (perform m a) (fun _ s' => works s0 m n s') s.
Proof.
  intros Hw Ha. destruct (pr_registry _ _ _ _ Hw) as (mo & cbs & bs & D & Ho & Hf & Hid & Hkeep).
  pose proof (ow_rep _ _ _ _ _ _ _ Ho) as Hrep.
  pose proof (fun y => works_less _ _ _ _ y Hw) as Hsame.
  destruct a as [f udata|id| |f udata]; cbn [perform] in *.
  - apply wp_zoom. wp_step. pose proof (pr_malloc (s_world (part s))) as Hmal. apply wp_new_block; intros w Ew; rewrite Ew in Hmal.
    + unfold hs_monitor_register_callback. pose proof (mr_null _ _ _ _ _ _ Hrep) as E%Z.eqb_neq. rewrite E.
      apply Z.eqb_neq in Ha. rewrite Ha. do 2 (wp_step; apply wp_assert; [done|]).
      change (NULL =? NULL) with true. cbv iota. apply wp_memory_error. by apply Hsame.
    + destruct (allocs w (s_mem (part s))) as [Hp Hfree]. set (y1 := with_world (fun _ => w) (part s)).
      assert (owns (part s0) y1 (monitor_addr m) mo cbs bs D) as Ho1 by (by eapply owns_same; [exact Ho|repeat split]).
      eapply wp_owns_register; [exact Ho1|done|unfold NULL in *; lia|apply Hfree; lia|lia|].
      intros y id Ho' _ Ew' Es. apply (Hkeep _ _ _ Ho'); [done|subst id; cbn; lia|rewrite length_app; cbn; lia|done|].
      by rewrite Ew'.
  - wp_step. apply wp_zoom. eapply wp_owns_deregister; [exact Ho|done|done|]. intros y Ho' _ Ew Es. wp_step.
    apply (Hkeep _ _ _ Ho'); [done|lia| |done|by rewrite Ew].
    pose proof (sublist_length _ _ (sublist_filter (fun pc => cb_id pc.2 <> id) cbs)). unfold without. lia.
  - by apply pr_refresh.
  - apply wp_zoom. eapply (wp_monitor_list call react call_react); [exact Hrep|done|done|].
    pose proof (visit_quiet f udata (entries (m_devs (s_mem (part s))) (concat bs)) (s_world (part s))) as Hq.
    specialize (Hq (entries_nonnull _ _ _ _ _ _ _ Hrep)).
    destruct (visit _ _ _ _ _) as [r w]. by apply Hsame.
Qed.

Lemma wp_perform_all s0 m l s : works s0 m (length l) s -> Forall valid l ->
  wp (perform_all m l) (fun _ s' => works s0 m 0 s') s.
Proof.
  intros Hw Hl. revert s Hw. induction Hl as [|a l Ha Hl IH]; intros s Hw; cbn [perform_all]; [by wp_step|].
  wp_step. eapply wp_mono; [by apply wp_perform|]. intros r s'. apply IH.
Qed.

(** A session leaves nothing. *)
Lemma wp_session l s : ready (length l) s -> Forall valid l -> wp (session l) (fun _ s' => gone s s') s.
Proof.
  intros Hr Hl. unfold session. wp_step. eapply wp_mono; [by apply pr_new|].
  intros [r [m|]] s1 [(_ & m' & E & Hw)|(_ & E & Hg)]; cbn [snd fst] in *; try done. injection E as <-.
  wp_step. eapply wp_mono; [by apply wp_perform_all|]. intros [] s2 Hw2.
  wp_step. eapply wp_mono; [by eapply pr_free|]. intros [] s3 Hg. by wp_step.
Qed.
End Session.
