(* ===== verification/MonitorLinux.v ===== *)
(** Device discovery on Linux: src/src/monitor_linux.c over libudev. The
    objects of libudev are opaque; what the library asks about a device does
    not change while it holds the object. *)

From Stdlib Require Import Ascii.
From S2P Require Import Prelude Cstring Common DList Htable State Posix Device Heap Monitor Discovery.

(** The functions of libudev and access(2). *)
Class Udev (W : Type) := {
  udev_device : Type;
  udev_enumerate : Type;
  udev_monitor : Type;
  (** queries on a device; [None] is NULL *)
  udev_device_get_subsystem : udev_device -> option string;
  udev_device_get_devnode : udev_device -> option string;
  udev_device_get_devpath : udev_device -> option string;
  udev_device_get_action : udev_device -> option string;
  udev_device_get_sysattr_value : udev_device -> string -> option string;
  udev_device_get_parent_with_subsystem_devtype :
    udev_device -> string -> string -> option udev_device;
  udev_device_unref : udev_device -> sysc W unit;
  (** the context, an address *)
  udev_new : sysc W ptr;
  pthread_mutex_lock : sysc W unit;
  pthread_mutex_unlock : sysc W unit;
  pthread_mutex_destroy : sysc W unit;
  udev_unref : ptr -> sysc W unit;
  udev_enumerate_new : ptr -> sysc W (option udev_enumerate);
  udev_enumerate_add_match_is_initialized : udev_enumerate -> sysc W unit;
  udev_enumerate_add_match_subsystem : udev_enumerate -> string -> sysc W Z;
  udev_enumerate_scan_devices : udev_enumerate -> sysc W Z;
  (** the names of the entries of the list *)
  udev_enumerate_get_list_entry : udev_enumerate -> W -> list string;
  udev_enumerate_unref : option udev_enumerate -> sysc W unit;
  (** NULL comes with [errno] *)
  udev_device_new_from_syspath : ptr -> string -> sysc W (sys udev_device);
  udev_monitor_new_from_netlink : ptr -> string -> sysc W (option udev_monitor);
  udev_monitor_filter_add_match_subsystem : udev_monitor -> string -> sysc W Z;
  udev_monitor_enable_receiving : udev_monitor -> sysc W Z;
  (** NULL comes with [errno], or leaves it 0 *)
  udev_monitor_receive_device : udev_monitor -> sysc W (udev_device + option errno);
  udev_monitor_get_fd : udev_monitor -> Z;
  udev_monitor_unref : option udev_monitor -> sysc W unit;
  (** [access(path, F_OK) == 0] *)
  access_F_OK : string -> sysc W bool
}.

(** struct hs_monitor of monitor_linux.c: the address of its common part, and
    the field [monitor]. *)
Record linux_monitor {W} `{Udev W} := LinuxMonitor {
  lm_addr : ptr;
  lm_monitor : option udev_monitor
}.
Arguments linux_monitor W {_}.
Arguments LinuxMonitor {W _}.

Definition device_subsystems : list string := ["input"; "hidraw"; "tty"].

(** The loop that replaces '.' by '-'. *)
Fixpoint dashes (s : string) : string :=
  match s with
  | EmptyString => EmptyString
  | String c s => String (if Ascii.eqb c "."%char then "-"%char else c) (dashes s)
  end.

(** The last character of a string, as a string: [buf += strlen(buf) - 1]. *)
Definition last_char (s : string) : option string :=
  match String.get (String.length s - 1) s with
  | Some c => Some (String c EmptyString)
  | None => None
  end.

Section MonitorLinux.
Context {W : Type} `{Posix W} `{Allocator W} `{Udev W}.
Variable fuel : nat.

(** * Device information *)

(** The result and [*rlocation], when it is stored. *)
Definition compute_device_location (dev : udev_device) : M (st W) (Z * option string) :=
  match udev_device_get_sysattr_value dev "busnum",
        udev_device_get_sysattr_value dev "devpath" with
  | Some busnum, Some devpath =>
      let* location := strdup ("usb-" +:+ busnum +:+ "-" +:+ devpath) in
      match location with
      | None =>
          let* r := memory_error in
          ret (r, None)
      | Some location => ret (1, Some (dashes location))
      end
  | _, _ => ret (0, None)
  end.

(** The 16-bit hexadecimal value of an attribute, when there is one. *)
Definition hex_attr (usb : udev_device) (name : string) : option Z :=
  match udev_device_get_sysattr_value usb name with
  | None => None
  | Some buf =>
      let '(v, errno) := strtoul 16 buf in
      if errno : bool then None else Some (u16 v)
  end.

(** A copy of an attribute, if it is there; whether there was memory. *)
Definition dup_attr (dev : ptr) (usb : udev_device) (name : string)
    (field : option string -> hs_device -> hs_device) : M (st W) bool :=
  match udev_device_get_sysattr_value usb name with
  | None => ret true
  | Some buf =>
      let* copy := strdup buf in
      set_dev dev (field copy) ;;;
      ret (bool_decide (is_Some copy))
  end.

Definition type_of_subsystem (buf : string) : option (hs_device_type * vtable_id) :=
  if bool_decide (buf = "hidraw") then Some (HS_DEVICE_TYPE_HID, _hs_linux_hid_vtable)
  else if bool_decide (buf = "tty") then Some (HS_DEVICE_TYPE_SERIAL, _hs_posix_device_vtable)
  else None.

(** The three optional strings and the interface number. *)
Definition fill_strings (dev : ptr) (usb iface : udev_device) : M (st W) Z :=
  let* ok := dup_attr dev usb "manufacturer" dev_with_manufacturer in
  if negb ok then memory_error
  else
    let* ok := dup_attr dev usb "product" dev_with_product in
    if negb ok then memory_error
    else
      let* ok := dup_attr dev usb "serial" dev_with_serial in
      if negb ok then memory_error
      else
        match udev_device_get_devpath iface with
        | None => fail BadAccess
        | Some buf =>
            match last_char buf with
            | None => fail OutOfBounds
            | Some buf =>
                let '(v, errno) := strtoul 10 buf in
                set_dev dev (dev_with_iface (u8 v)) ;;;
                if errno : bool then ret 0 else ret 1
            end
        end.

Definition fill_ids (dev : ptr) (usb iface : udev_device) : M (st W) Z :=
  let* rl := compute_device_location usb in
  let '(r, location) := rl in
  (match location with
   | Some _ => set_dev dev (dev_with_location location)
   | None => ret tt
   end) ;;;
  if r <=? 0 then ret r
  else
    match hex_attr usb "idVendor" with
    | None => ret 0
    | Some vid =>
        set_dev dev (dev_with_vid vid) ;;;
        match hex_attr usb "idProduct" with
        | None => ret 0
        | Some pid =>
            set_dev dev (dev_with_pid pid) ;;;
            fill_strings dev usb iface
        end
    end.

Definition fill_device_details (dev : ptr) (agg usb iface : udev_device) : M (st W) Z :=
  match udev_device_get_subsystem agg with
  | None => ret 0
  | Some buf =>
      match type_of_subsystem buf with
      | None => ret 0
      | Some (type, vtable) =>
          set_dev dev (dev_with_type type) ;;;
          set_dev dev (dev_with_vtable vtable) ;;;
          match udev_device_get_devnode agg with
          | None => ret 0
          | Some node =>
              let* there := os (access_F_OK node) in
              if negb there then ret 0
              else
                let* path := strdup node in
                set_dev dev (dev_with_path path) ;;;
                match path, udev_device_get_devpath agg with
                | None, _ => memory_error
                | Some _, None => fail BadAccess
                | Some _, Some devpath =>
                    let* key := strdup devpath in
                    set_dev dev (dev_with_key key) ;;;
                    match key with
                    | None => memory_error
                    | Some _ => fill_ids dev usb iface
                    end
                end
          end
      end
  end.

(** The result and [*rdev], NULL when it is not stored. *)
Definition read_device_information (udev_dev : udev_device) : M (st W) (Z * ptr) :=
  match udev_device_get_parent_with_subsystem_devtype udev_dev "usb" "usb_device",
        udev_device_get_parent_with_subsystem_devtype udev_dev "usb" "usb_interface" with
  | Some usb, Some iface =>
      let* dev := new_block in
      if dev =? NULL then
        let* r := memory_error in
        ret (r, NULL)
      else
        alloc_dev dev ;;;
        set_dev dev (dev_with_refcount 1) ;;;
        let* r := fill_device_details dev udev_dev usb iface in
        if r <=? 0 then
          hs_device_unref dev ;;;
          ret (r, NULL)
        else ret (1, dev)
  | _, _ => ret (0, NULL)
  end.

(** * Enumeration *)

Definition init_udev : M (st W) Z :=
  let* udev := load_static "udev" in
  if negb (udev =? NULL) then ret 0
  else
    os pthread_mutex_lock ;;;
    let* udev := load_static "udev" in
    (if udev =? NULL then
       let* udev := os udev_new in
       store_static "udev" udev
     else ret tt) ;;;
    os pthread_mutex_unlock ;;;
    let* udev := load_static "udev" in
    if udev =? NULL then error HS_ERROR_SYSTEM "udev_new() failed"
    else ret 0.

(** [_HS_EXIT()]: the destructor of the library. *)
Definition exit_linux : M (st W) unit :=
  let* udev := load_static "udev" in
  os (udev_unref udev) ;;;
  os pthread_mutex_destroy.

(** The calls of a libudev function on each of the subsystems, until one
    fails: whether all succeeded. *)
Fixpoint each_subsystem (f : string -> sysc W Z) (l : list string) : M (st W) bool :=
  match l with
  | [] => ret true
  | cur :: l =>
      let* r := os (f cur) in
      if r <? 0 then ret false else each_subsystem f l
  end.

(** The loop over the list of entries: the [r] with which [cleanup:] is
    reached. *)
Fixpoint enumerate_loop (f : ptr -> M (st W) Z) (udev : ptr) (names : list string)
    : M (st W) Z :=
  match names with
  | [] => ret 0
  | name :: names =>
      let* udev_dev := os (udev_device_new_from_syspath udev name) in
      match udev_dev with
      | Err e =>
          if bool_decide (e = ENOMEM) then memory_error
          else enumerate_loop f udev names
      | Ok udev_dev =>
          let* rd := read_device_information udev_dev in
          let '(r, dev) := rd in
          os (udev_device_unref udev_dev) ;;;
          if r <? 0 then ret r
          else if r =? 0 then enumerate_loop f udev names
          else
            let* r := f dev in
            hs_device_unref dev ;;;
            if negb (r =? 0) then ret r
            else enumerate_loop f udev names
      end
  end.

(** [f] is the callback applied to its [udata]. *)
Definition hs_enumerate (f : ptr -> M (st W) Z) : M (st W) Z :=
  let* r := init_udev in
  if r <? 0 then os (udev_enumerate_unref None) ;;; ret r
  else
    let* udev := load_static "udev" in
    let* enumerate := os (udev_enumerate_new udev) in
    match enumerate with
    | None =>
        let* r := memory_error in
        os (udev_enumerate_unref None) ;;;
        ret r
    | Some enumerate =>
        os (udev_enumerate_add_match_is_initialized enumerate) ;;;
        let* ok := each_subsystem (udev_enumerate_add_match_subsystem enumerate)
                     device_subsystems in
        let* r := (if negb ok then memory_error
                   else
                     let* r := os (udev_enumerate_scan_devices enumerate) in
                     if r <? 0 then
                       error HS_ERROR_SYSTEM "udev_enumerate_scan_devices() failed"
                     else
                       let* s := get in
                       enumerate_loop f udev
                         (udev_enumerate_get_list_entry enumerate (s_world s))) in
        os (udev_enumerate_unref (Some enumerate)) ;;;
        ret r
    end.

(** * The monitor *)

(** The functions registered by the user. *)
Variable call : ptr -> ptr -> ptr -> M (st W) Z.

Definition monitor_enumerate_callback (monitor dev : ptr) : M (st W) Z :=
  _hs_monitor_add call fuel monitor dev.

Definition hs_monitor_free (monitor : option (linux_monitor W)) : M (st W) unit :=
  match monitor with
  | None => ret tt
  | Some m =>
      _hs_monitor_release fuel (lm_addr m) ;;;
      os (udev_monitor_unref (lm_monitor m)) ;;;
      free_mon (lm_addr m)
  end.

(** [error:] of [hs_monitor_new]. *)
Definition monitor_error (r : Z) (m : option (linux_monitor W))
    : M (st W) (Z * option (linux_monitor W)) :=
  hs_monitor_free m ;;;
  ret (r, None).

(** The result and [*rmonitor], when it is stored. *)
Definition hs_monitor_new : M (st W) (Z * option (linux_monitor W)) :=
  let* r := init_udev in
  if r <? 0 then monitor_error r None
  else
    let* monitor := new_block in
    if monitor =? NULL then
      let* r := memory_error in
      monitor_error r None
    else
      alloc_mon monitor ;;;
      let* udev := load_static "udev" in
      let* um := os (udev_monitor_new_from_netlink udev "udev") in
      let m := LinuxMonitor monitor um in
      match um with
      | None =>
          let* r := error HS_ERROR_SYSTEM "udev_monitor_new_from_netlink() failed" in
          monitor_error r (Some m)
      | Some um =>
          let* ok := each_subsystem (udev_monitor_filter_add_match_subsystem um)
                       device_subsystems in
          if negb ok then
            let* r := error HS_ERROR_SYSTEM
              "udev_monitor_filter_add_match_subsystem_devtype() failed" in
            monitor_error r (Some m)
          else
            let* r := os (udev_monitor_enable_receiving um) in
            if r <? 0 then
              let* r := error HS_ERROR_SYSTEM "udev_monitor_enable_receiving() failed" in
              monitor_error r (Some m)
            else
              let* heads := new_block in
              let* r := _hs_monitor_init heads monitor in
              if r <? 0 then monitor_error r (Some m)
              else
                let* r := hs_enumerate (monitor_enumerate_callback monitor) in
                if r <? 0 then monitor_error r (Some m)
                else ret (0, Some m)
      end.

Definition hs_monitor_get_descriptor (m : linux_monitor W) : M (st W) Z :=
  match lm_monitor m with
  | Some um => ret (udev_monitor_get_fd um)
  | None => fail BadAccess
  end.

(** One event; the [r] tested at the end of the body of the loop. *)
Definition refresh_event (monitor : ptr) (udev_dev : udev_device) : M (st W) Z :=
  match udev_device_get_action udev_dev with
  | None => fail BadAccess
  | Some action =>
      if bool_decide (action = "add") then
        let* rd := read_device_information udev_dev in
        let '(r, dev) := rd in
        let* r := (if 0 <? r then _hs_monitor_add call fuel monitor dev else ret r) in
        hs_device_unref dev ;;;
        ret r
      else if bool_decide (action = "remove") then
        match udev_device_get_devpath udev_dev with
        | None => fail BadAccess
        | Some key =>
            _hs_monitor_remove call fuel monitor key ;;;
            ret 0
        end
      else ret 0
  end.

Fixpoint refresh_loop (monitor : ptr) (um : udev_monitor) (n : nat) : M (st W) Z :=
  match n with
  | O => out_of_fuel
  | S n =>
      let* received := os (udev_monitor_receive_device um) in
      match received with
      | inl udev_dev =>
          let* r := refresh_event monitor udev_dev in
          os (udev_device_unref udev_dev) ;;;
          if r <? 0 then ret r else refresh_loop monitor um n
      | inr errno =>
          if bool_decide (errno = Some ENOMEM) then memory_error else ret 0
      end
  end.

Definition hs_monitor_refresh (m : linux_monitor W) : M (st W) Z :=
  match lm_monitor m with
  | Some um => refresh_loop (lm_addr m) um fuel
  | None => fail BadAccess
  end.
End MonitorLinux.

(** * Specification of the device information *)

Section Describe.
Context {W : Type} `{Posix W} `{Allocator W} `{Udev W}.
Implicit Types (s : st W) (m : mem) (p : ptr) (d : hs_device).

(** What udev says of a device of a USB interface, as a struct hs_device. *)
Definition describe_in (agg usb iface : udev_device) : option hs_device :=
  subsystem ← udev_device_get_subsystem agg;
  tv ← type_of_subsystem subsystem;
  path ← udev_device_get_devnode agg;
  key ← udev_device_get_devpath agg;
  busnum ← udev_device_get_sysattr_value usb "busnum";
  devpath ← udev_device_get_sysattr_value usb "devpath";
  vid ← hex_attr usb "idVendor";
  pid ← hex_attr usb "idProduct";
  interface ← udev_device_get_devpath iface;
  digit ← last_char interface;
  Some (Device NULL 1 (Some key) tv.1 tv.2 HS_DEVICE_STATUS_DISCONNECTED
          (Some (dashes ("usb-" +:+ busnum +:+ "-" +:+ devpath))) (Some path) vid pid
          (udev_device_get_sysattr_value usb "manufacturer")
          (udev_device_get_sysattr_value usb "product")
          (udev_device_get_sysattr_value usb "serial") (u8 (strtoul 10 digit).1)).

Definition describe (agg : udev_device) : option hs_device :=
  usb ← udev_device_get_parent_with_subsystem_devtype agg "usb" "usb_device";
  iface ← udev_device_get_parent_with_subsystem_devtype agg "usb" "usb_interface";
  describe_in agg usb iface.

Lemma describe_new agg d : describe agg = Some d ->
  dev_state d = HS_DEVICE_STATUS_DISCONNECTED /\ dev_refcount d = 1.
Proof.
  unfold describe, describe_in. intros E. repeat (apply bind_Some in E as (? & _ & E)).
  by injection E as <-.
Qed.

Lemma describe_state agg d : describe agg = Some d -> dev_state d = HS_DEVICE_STATUS_DISCONNECTED.
Proof. intros E. by apply describe_new in E as []. Qed.

Lemma describe_refcount agg d : describe agg = Some d -> dev_refcount d = 1.
Proof. intros E. by apply describe_new in E as []. Qed.

(** The documentation of libudev: every device has a path, below /devices. *)
Definition devpath_documented : Prop :=
  forall u, exists c rest, udev_device_get_devpath u = Some (String c rest).

Definition out_of_memory : Prop := exists w w', malloc_ok w = (false, w').
Definition node_missing (agg : udev_device) : Prop :=
  exists node w w', udev_device_get_devnode agg = Some node /\ access_F_OK node w = (false, w').

Lemma wp_strdup_new (Q : option string -> st W -> Prop) x s :
  (forall s', out_of_memory -> s_mem s' = s_mem s -> Q None s') ->
  (forall s', s_mem s' = s_mem s -> Q (Some x) s') -> wp (strdup x) Q s.
Proof.
  intros Hf Ht. apply wp_strdup.
  - intros w E. apply Hf; [|done]. by exists (s_world s), w.
  - intros w E. by apply Ht.
Qed.

Lemma wp_dup_attr (Q : bool -> st W -> Prop) p d m usb name field s :
  s_mem s = with_new_dev p d m ->
  (forall s', out_of_memory -> s_mem s' = with_new_dev p (field None d) m -> Q false s') ->
  (forall s', s_mem s' = with_new_dev p
     (match udev_device_get_sysattr_value usb name with
      | Some x => field (Some x) d
      | None => d
      end) m -> Q true s') ->
  wp (dup_attr p usb name field) Q s.
Proof.
  intros Hm Hf Ht. unfold dup_attr.
  destruct (udev_device_get_sysattr_value usb name) as [x|]; [|wp_step; by apply Ht].
  wp_step. apply wp_strdup_new.
  - intros s1 Ho Hm1. wp_step. eapply wp_set_new; [by rewrite Hm1|]. intros s2 Hm2 _.
    wp_step. by apply Hf.
  - intros s1 Hm1. wp_step. eapply wp_set_new; [by rewrite Hm1|]. intros s2 Hm2 _.
    wp_step. by apply Ht.
Qed.

(** What a stage of [fill_device_details] leaves: a device with one reference,
    and the reason of the result. *)
Definition filled (p : ptr) (m : mem) (spec : option hs_device) (no : Prop)
    (r : Z) (s' : st W) : Prop :=
  exists d, s_mem s' = with_new_dev p d m /\ dev_refcount d = 1 /\
    ((r = 1 /\ spec = Some d) \/ (r = 0 /\ (spec = None \/ no)) \/
     (r = HS_ERROR_MEMORY /\ out_of_memory)).

Lemma filled_memory p m d spec no s :
  s_mem s = with_new_dev p d m -> dev_refcount d = 1 -> out_of_memory ->
  wp memory_error (filled p m spec no) s.
Proof.
  intros Hm Hd Ho. apply wp_memory_error_mem. intros s' Hm'. exists d.
  split; [congruence|]. split; [done|]. by right; right.
Qed.

Lemma filled_no p m d (no : Prop) spec s :
  s_mem s = with_new_dev p d m -> dev_refcount d = 1 -> spec = None \/ no ->
  wp (ret 0) (filled p m spec no) s.
Proof. intros Hm Hd Hn. wp_step. exists d. split; [done|]. split; [done|]. right. by left. Qed.

(** The errno of [strtoul] is not set by one character. *)
Lemma strtoul_char c : (strtoul 10 (String c EmptyString)).2 = false.
Proof. destruct c as [[] [] [] [] [] [] [] []]; reflexivity. Qed.

Lemma last_char_some c rest : exists x, last_char (String c rest) = Some (String x EmptyString).
Proof.
  unfold last_char. cbn [String.length]. rewrite Nat.sub_succ, Nat.sub_0_r.
  revert c. induction rest as [|c' rest IH]; intros c; cbn; [by eexists|]. by apply IH.
Qed.

(** The stages, each with what it adds to the device. *)
Definition with_strings (usb : udev_device) (d : hs_device) : hs_device :=
  dev_with_serial (udev_device_get_sysattr_value usb "serial")
    (dev_with_product (udev_device_get_sysattr_value usb "product")
       (dev_with_manufacturer (udev_device_get_sysattr_value usb "manufacturer") d)).

Definition add_strings (usb iface : udev_device) (d : hs_device) : option hs_device :=
  interface ← udev_device_get_devpath iface;
  digit ← last_char interface;
  Some (dev_with_iface (u8 (strtoul 10 digit).1) (with_strings usb d)).

Definition add_ids (usb iface : udev_device) (d : hs_device) : option hs_device :=
  busnum ← udev_device_get_sysattr_value usb "busnum";
  devpath ← udev_device_get_sysattr_value usb "devpath";
  vid ← hex_attr usb "idVendor";
  pid ← hex_attr usb "idProduct";
  add_strings usb iface (dev_with_pid pid (dev_with_vid vid
    (dev_with_location (Some (dashes ("usb-" +:+ busnum +:+ "-" +:+ devpath))) d))).

(** The fields that are still those of [calloc]. *)
Definition no_strings d : Prop :=
  dev_refcount d = 1 /\ dev_manufacturer d = None /\ dev_product d = None /\ dev_serial d = None.

Lemma wp_fill_strings p m d usb iface s :
  devpath_documented -> s_mem s = with_new_dev p d m -> no_strings d ->
  wp (fill_strings p usb iface) (filled p m (add_strings usb iface d) False) s.
Proof.
  intros Hdoc Hm (Hr & Hma & Hpr & Hse). unfold fill_strings, add_strings, with_strings.
  destruct d as [mon rc key ty vt sta loc path vid pid man prod ser ifc]. cbn in Hr, Hma, Hpr, Hse. subst.
  wp_step. eapply wp_dup_attr; [exact Hm|intros ? Ho Hm1; by eapply filled_memory|].
  intros s1 Hm1. cbn [negb]. wp_step. eapply wp_dup_attr;
    [exact Hm1|intros ? Ho Hm2; eapply filled_memory; [exact Hm2|by case_match|done]|].
  intros s2 Hm2. cbn [negb]. wp_step. eapply wp_dup_attr;
    [exact Hm2|intros ? Ho Hm3; eapply filled_memory; [exact Hm3|by repeat case_match|done]|].
  intros s3 Hm3. cbn [negb].
  destruct (Hdoc iface) as (c & rest & ->). destruct (last_char_some c rest) as [x Hx].
  cbn [mbind option_bind]. rewrite Hx. cbn [mbind option_bind].
  pose proof (strtoul_char x) as Hs. destruct (strtoul 10 _) as [v errno]. cbn in Hs. subst errno.
  wp_step. eapply wp_set_new; [exact Hm3|]. intros s4 Hm4 _. wp_step.
  eexists. split; [exact Hm4|]. split; [by repeat case_match|]. left. split; [done|].
  cbn. f_equal. by repeat case_match.
Qed.

Lemma wp_fill_ids p m d usb iface s :
  devpath_documented -> s_mem s = with_new_dev p d m -> no_strings d ->
  wp (fill_ids p usb iface) (filled p m (add_ids usb iface d) False) s.
Proof.
  intros Hdoc Hm Hd. pose proof Hd as (Hr & _). unfold fill_ids, compute_device_location, add_ids.
  wp_step. destruct (udev_device_get_sysattr_value usb "busnum") as [busnum|];
    [|wp_step; wp_step; wp_step; apply filled_no with d; by auto].
  destruct (udev_device_get_sysattr_value usb "devpath") as [devpath|];
    [|wp_step; wp_step; wp_step; apply filled_no with d; by auto].
  wp_step. apply wp_strdup_new.
  { intros s1 Ho Hm1. wp_step. apply wp_memory_error_mem. intros s2 Hm2. wp_step. wp_step. wp_step.
    change (HS_ERROR_MEMORY <=? 0) with true. cbv iota. wp_step. exists d. split; [congruence|]. split; [done|]. by right; right. }
  intros s1 Hm1. wp_step. wp_step. eapply wp_set_new; [by rewrite Hm1|]. intros s2 Hm2 _.
  cbn [Z.leb Z.compare mbind option_bind].
  destruct (hex_attr usb "idVendor") as [vid|]; [|by eapply filled_no; [exact Hm2|done|left]].
  wp_step. eapply wp_set_new; [exact Hm2|]. intros s3 Hm3 _. cbn [mbind option_bind].
  destruct (hex_attr usb "idProduct") as [pid|]; [|by eapply filled_no; [exact Hm3|done|left]].
  wp_step. eapply wp_set_new; [exact Hm3|]. intros s4 Hm4 _.
  by apply wp_fill_strings.
Qed.

Lemma add_ids_describe agg usb iface sub tv path key :
  udev_device_get_subsystem agg = Some sub -> type_of_subsystem sub = Some tv ->
  udev_device_get_devnode agg = Some path -> udev_device_get_devpath agg = Some key ->
  add_ids usb iface (dev_with_key (Some key) (dev_with_path (Some path)
    (dev_with_vtable tv.2 (dev_with_type tv.1 (dev_with_refcount 1 device_zero))))) =
  describe_in agg usb iface.
Proof. intros E1 E2 E3 E4. unfold describe_in. by rewrite E1; cbn; rewrite E2; cbn; rewrite E3, E4. Qed.

Lemma wp_fill_device_details p m agg usb iface s :
  devpath_documented -> s_mem s = with_new_dev p (dev_with_refcount 1 device_zero) m ->
  wp (fill_device_details p agg usb iface)
    (filled p m (describe_in agg usb iface) (node_missing agg)) s.
Proof.
  intros Hdoc Hm. unfold fill_device_details.
  destruct (udev_device_get_subsystem agg) as [sub|] eqn:Es;
    [|eapply filled_no; [done|done|left; unfold describe_in; by rewrite Es]].
  destruct (type_of_subsystem sub) as [[type vtable]|] eqn:Et;
    [|eapply filled_no; [done|done|left; unfold describe_in; rewrite Es; cbn; by rewrite Et]].
  wp_step. eapply wp_set_new; [done|]. intros s1 Hm1 _.
  wp_step. eapply wp_set_new; [done|]. intros s2 Hm2 _.
  destruct (udev_device_get_devnode agg) as [node|] eqn:En;
    [|eapply filled_no; [done|done|left; unfold describe_in; rewrite Es; cbn; rewrite Et; cbn; by rewrite En]].
  wp_step. apply wp_os. intros there w Ea. destruct there; cbn [negb];
    [|eapply filled_no; [done|done|right; by exists node, (s_world s2), w]].
  wp_step. apply wp_strdup_new.
  { intros s3 Ho Hm3. wp_step. eapply wp_set_new; [by rewrite Hm3|]. intros s4 Hm4 _.
    by eapply filled_memory. }
  intros s3 Hm3. wp_step. eapply wp_set_new; [by rewrite Hm3|]. intros s4 Hm4 _.
  destruct (Hdoc agg) as (c & rest & Ek). rewrite Ek.
  wp_step. apply wp_strdup_new.
  { intros s5 Ho Hm5. wp_step. eapply wp_set_new; [by rewrite Hm5|]. intros s6 Hm6 _.
    by eapply filled_memory. }
  intros s5 Hm5. wp_step. eapply wp_set_new; [by rewrite Hm5|]. intros s6 Hm6 _.
  eapply wp_mono; [by apply wp_fill_ids|]. intros r s7 (d & Hm7 & Hd & Hout).
  exists d. split; [done|]. split; [done|].
  pose proof (add_ids_describe agg usb iface sub (type, vtable) node (String c rest)
    Es Et En Ek) as E. cbn [fst snd] in E. rewrite E in Hout.
  naive_solver.
Qed.
End Describe.

(** * Properties *)

Section Properties.
Context {W : Type} `{Posix W} `{Allocator W} `{Udev W}.
Implicit Types (s : st W).

(** What [read_device_information] leaves. *)
Definition informed (agg : udev_device) (m : mem) (rp : Z * ptr) (s' : st W) : Prop :=
  let '(r, p) := rp in
  (r = 1 /\ exists d, describe agg = Some d /\ p <> NULL /\ ~ in_use m p /\
     ~ in_use m (hnode_of p) /\ hnode_of p <> NULL /\ s_mem s' = with_new_dev p d m) \/
  (r = 0 /\ p = NULL /\ s_mem s' = m /\ (describe agg = None \/ node_missing agg)) \/
  (r = HS_ERROR_MEMORY /\ p = NULL /\ s_mem s' = m /\ out_of_memory).

Lemma wp_read_device_information agg s :
  devpath_documented -> allocator_documented ->
  wp (read_device_information agg) (informed agg (s_mem s)) s.
Proof.
  intros Hdoc Hal. unfold read_device_information.
  assert (Hno : describe agg = None -> wp (ret (0, NULL)) (informed agg (s_mem s)) s).
  { intros Hd. wp_step. right. left. auto. }
  destruct (udev_device_get_parent_with_subsystem_devtype agg "usb" "usb_device") as [usb|] eqn:Eu;
    [|apply Hno; unfold describe; by rewrite Eu].
  destruct (udev_device_get_parent_with_subsystem_devtype agg "usb" "usb_interface")
    as [iface|] eqn:Ei; [|apply Hno; unfold describe; rewrite Eu; cbn; by rewrite Ei].
  assert (describe agg = describe_in agg usb iface) as Ed.
  { unfold describe. rewrite Eu. cbn. by rewrite Ei. }
  wp_step. apply wp_new_block; intros w Ew.
  { change (NULL =? NULL) with true. cbv iota. wp_step. apply wp_memory_error_mem.
    intros s2 Hm2. wp_step. right. right. split_and!; try done. by exists (s_world s), w. }
  set (p := block_address w (s_mem s)). destruct (Hal w (s_mem s)) as [Hp Hfree].
  fold p in Hp, Hfree. unfold NULL in Hp.
  assert (~ in_use (s_mem s) p) as Hu by (apply Hfree; lia).
  assert (~ in_use (s_mem s) (hnode_of p)) as Hn.
  { apply Hfree; unfold hnode_of, HNODE_OFFSET; lia. }
  assert (p <> NULL) as Hne by (unfold NULL; lia).
  assert (hnode_of p <> NULL) as Hne2 by (unfold hnode_of, HNODE_OFFSET, NULL; lia).
  rewrite (proj2 (Z.eqb_neq _ _)) by done. wp_step.
  destruct (alloc_dev_eq p (with_world (fun _ => w) s)) as (s1 & E1 & Hm1 & _).
  eapply wp_intro; [exact E1|]. wp_step. eapply wp_set_new; [exact Hm1|]. intros s2 Hm2 _.
  wp_step. eapply wp_mono; [by apply wp_fill_device_details|].
  intros r s3 (d & Hm3 & Hd & Hout). rewrite <- Ed in Hout.
  destruct Hout as [[-> Hs]|Hout].
  { change (1 <=? 0) with false. cbv iota. wp_step. left. split; [done|]. by exists d. }
  assert (r <= 0) as Hr by (destruct Hout as [[-> _]|[-> _]]; unfold HS_ERROR_MEMORY; lia).
  rewrite (proj2 (Z.leb_le _ _) Hr). wp_step.
  destruct (unref_new_dev p d (s_mem s) s3 Hne Hu Hn Hd Hm3) as (s4 & E4 & Hm4 & _).
  eapply wp_intro; [exact E4|]. wp_step. right.
  destruct Hout as [[-> Hs]|[-> Hs]]; [left|right]; auto.
Qed.
End Properties.

(** C30: reading the information of a device. Either the result is a new
    device with one reference that holds exactly what udev says of the device;
    or the device is not one of the library's, or has no node, and nothing is
    allocated; or memory is short, and what was allocated is freed. *)
Theorem read_device_information_correct {W} `{Posix W} `{Allocator W} `{Udev W}
    (agg : udev_device) (s : st W) :
  devpath_documented -> allocator_documented ->
  exists r p s', read_device_information agg s = Done ((r, p), s') /\
    ((r = 1 /\ exists d, describe agg = Some d /\ p <> NULL /\ ~ in_use (s_mem s) p /\
        ~ in_use (s_mem s) (hnode_of p) /\ s_mem s' = with_new_dev p d (s_mem s)) \/
     (r = 0 /\ p = NULL /\ s_mem s' = s_mem s /\ (describe agg = None \/ node_missing agg)) \/
     (r = HS_ERROR_MEMORY /\ p = NULL /\ s_mem s' = s_mem s /\ out_of_memory)).
Proof.
  intros Hdoc Hal. pose proof (wp_read_device_information agg s Hdoc Hal) as Hwp.
  apply wp_inv in Hwp as ([r p] & s' & E & Hi). exists r, p, s'.
  split; [done|]. destruct Hi as [(-> & d & ? & ? & ? & ? & _ & ?)|[Hi|Hi]]; [left; eauto 10|by right; left|by right; right].
Qed.

(** A keyboard on a USB interface: the devices 1, 2 and 3 are the hidraw
    node, the USB device and the interface. *)
Definition demo_sysattr (u : Z) (name : string) : option string :=
  if u =? 2 then
    if bool_decide (name = "busnum") then Some "1"
    else if bool_decide (name = "devpath") then Some "4.2"
    else if bool_decide (name = "idVendor") then Some "16c0"
    else if bool_decide (name = "idProduct") then Some "0486"
    else if bool_decide (name = "product") then Some "Keyboard"
    else None
  else None.

Definition demo_udev : Udev script := {|
  udev_device := Z;
  udev_enumerate := unit;
  udev_monitor := unit;
  udev_device_get_subsystem u := if u =? 1 then Some "hidraw" else Some "usb";
  udev_device_get_devnode u := if u =? 1 then Some "/dev/hidraw0" else None;
  udev_device_get_devpath u :=
    if u =? 3 then Some "/devices/usb1/1-4.2/1-4.2:1.10" else Some "/devices/usb1/x";
  udev_device_get_action _ := Some "add";
  udev_device_get_sysattr_value := demo_sysattr;
  udev_device_get_parent_with_subsystem_devtype u _ devtype :=
    if u =? 1 then Some (if bool_decide (devtype = "usb_device") then 2 else 3) else None;
  udev_device_unref _ w := (tt, w);
  udev_new w := (4096, w);
  pthread_mutex_lock w := (tt, w);
  pthread_mutex_unlock w := (tt, w);
  pthread_mutex_destroy w := (tt, w);
  udev_unref _ w := (tt, w);
  udev_enumerate_new _ w := (Some tt, w);
  udev_enumerate_add_match_is_initialized _ w := (tt, w);
  udev_enumerate_add_match_subsystem _ _ w := (0, w);
  udev_enumerate_scan_devices _ w := (0, w);
  udev_enumerate_get_list_entry _ _ := ["/sys/x"; "/sys/hidraw0"];
  udev_enumerate_unref _ w := (tt, w);
  udev_device_new_from_syspath _ name w :=
    (if bool_decide (name = "/sys/hidraw0") then Ok 1 else Err ENODEV, w);
  udev_monitor_new_from_netlink _ _ w := (Some tt, w);
  udev_monitor_filter_add_match_subsystem _ _ w := (0, w);
  udev_monitor_enable_receiving _ w := (0, w);
  udev_monitor_receive_device _ w := (inr (Some EAGAIN), w);
  udev_monitor_get_fd _ := 3;
  udev_monitor_unref _ w := (tt, w);
  access_F_OK _ w := (true, w)
|}.

Lemma demo_devpath_documented : devpath_documented (H1 := demo_udev).
Proof. intros u. cbn. case_match; eauto. Qed.

Lemma read_device_information_correct_witness :
  exists r p s', read_device_information (H0 := bump) (H1 := demo_udev) 1 (scripted quiet) =
      Done ((r, p), s') /\
    ((r = 1 /\ exists d, describe (H1 := demo_udev) 1 = Some d /\ p <> NULL /\
        ~ in_use (s_mem (scripted quiet)) p /\ ~ in_use (s_mem (scripted quiet)) (hnode_of p) /\
        s_mem s' = with_new_dev p d (s_mem (scripted quiet))) \/
     (r = 0 /\ p = NULL /\ s_mem s' = s_mem (scripted quiet) /\
        (describe (H1 := demo_udev) 1 = None \/ node_missing (H1 := demo_udev) 1)) \/
     (r = HS_ERROR_MEMORY /\ p = NULL /\ s_mem s' = s_mem (scripted quiet) /\ out_of_memory)).
Proof.
  apply (@read_device_information_correct script script_posix bump demo_udev 1 (scripted quiet)).
  - exact demo_devpath_documented.
  - exact bump_documented.
Defined.

(** The device of the example. The interface 1.10 is number 10; the last
    character of its path gives 0. *)
Example demo_description :
  describe (H1 := demo_udev) 1 =
    Some (Device NULL 1 (Some "/devices/usb1/x") HS_DEVICE_TYPE_HID _hs_linux_hid_vtable
            HS_DEVICE_STATUS_DISCONNECTED (Some "usb-1-4-2") (Some "/dev/hidraw0") 0x16C0 0x486
            None (Some "Keyboard") None 0).
Proof. reflexivity. Qed.

(** A device that [hs_enumerate] shows to its callback cannot be opened:
    nothing sets its status to ONLINE, which only [_hs_monitor_add] does. *)
Theorem enumerated_device_not_open {W K} `{Posix W} `{Allocator W} `{Udev W}
    (vts : vtable_id -> _hs_device_vtable W K) (agg : udev_device) (s : st W) p s' :
  devpath_documented -> allocator_documented ->
  read_device_information agg s = Done ((1, p), s') ->
  hs_device_get_status p s' = Done (HS_DEVICE_STATUS_DISCONNECTED, s') /\
  exists s2, hs_device_open vts p s' = Done ((HS_ERROR_NOT_FOUND, None), s2).
Proof.
  intros Hdoc Hal E. pose proof (wp_read_device_information agg s Hdoc Hal) as Hwp.
  unfold wp in Hwp. rewrite E in Hwp.
  destruct Hwp as [(_ & d & Hd & Hp & _ & _ & _ & Hm)|[(? & _)|(? & _)]]; [|discriminate..].
  assert (m_devs (s_mem s') !! p = Some d) as Hl by (rewrite Hm; apply lookup_insert_eq).
  assert (dev_state d = HS_DEVICE_STATUS_DISCONNECTED) as Hst by by eapply describe_state.
  apply Z.eqb_neq in Hp. split.
  - unfold hs_device_get_status, getter, bind, assert_, load_dev. rewrite Hp. cbn.
    unfold ret. by rewrite Hl, Hst.
  - unfold hs_device_open, bind, assert_, load_dev. rewrite Hp. cbn [negb]. unfold ret. rewrite Hl, Hst.
    rewrite bool_decide_eq_true_2 by done. unfold zoom. rewrite hs_error_errored. by eexists.
Qed.

(** The state after reading the keyboard. *)
Definition demo_enumerated : st script :=
  match read_device_information (H0 := bump) (H1 := demo_udev) 1 (scripted quiet) with
  | Done (_, s) => s
  | _ => scripted quiet
  end.

Lemma enumerated_device_not_open_witness :
  hs_device_get_status 1 demo_enumerated =
    Done (HS_DEVICE_STATUS_DISCONNECTED, demo_enumerated) /\
  exists s2, hs_device_open (H := unit) (fun _ => Vtable script unit
      (fun _ => ret (0, Some tt)) (fun _ => ret tt) (fun _ => ret 3)) 1 demo_enumerated = Done ((HS_ERROR_NOT_FOUND, None), s2).
Proof.
  apply (@enumerated_device_not_open script unit script_posix bump demo_udev _ 1 (scripted quiet)).
  - exact demo_devpath_documented.
  - exact bump_documented.
  - vm_compute. reflexivity.
Defined.

(** * Enumeration *)

Section Enumerate.
Context {W : Type} `{Posix W} `{Allocator W} `{Udev W}.
Implicit Types (s : st W).

(** A callback that leaves the objects of the library as they are: it is only
    called on a device just described. [P] holds of its results. *)
Definition enumerate_callback (f : ptr -> M (st W) Z) (P : Z -> Prop) : Prop :=
  forall p d agg s, p <> NULL -> describe agg = Some d -> m_devs (s_mem s) !! p = Some d ->
    exists r s', f p s = Done (r, s') /\ same_objects s s' /\ P r.

(** An enumeration keeps [Inv n], with [n] devices still to be shown at most,
    when its callback does, on a device just described and then released. *)
Section Invariant.
Variable f : ptr -> M (st W) Z.
Variable P : Z -> Prop.
Variable Inv : nat -> st W -> Prop.
Hypothesis devpaths : devpath_documented.
Hypothesis allocs : allocator_documented.
Hypothesis Inv_same : forall n s s', Inv n s -> same_objects s s' -> Inv n s'.
Hypothesis Inv_less : forall n s, Inv (S n) s -> Inv n s.
Hypothesis shown : forall n s0 s agg p d, Inv (S n) s0 -> describe agg = Some d ->
  p <> NULL -> hnode_of p <> NULL -> ~ in_use (s_mem s0) p -> ~ in_use (s_mem s0) (hnode_of p) ->
  s_mem s = with_new_dev p d (s_mem s0) ->
  wp (let* r := f p in hs_device_unref p ;;; ret r) (fun r s' => Inv n s' /\ P r) s.

Lemma Inv_zero n s : Inv n s -> Inv 0 s.
Proof. induction n as [|n IH]; [done|]. intros H'. by apply IH, Inv_less. Qed.

Lemma wp_enumerate_loop udev names s : Inv (length names) s ->
  wp (enumerate_loop f udev names) (fun r s' => Inv 0 s' /\ enumerate_result P r) s.
Proof.
  revert s. induction names as [|name names IH]; intros s Hi; cbn [enumerate_loop].
  { wp_step. split; [done|by left]. }
  cbn [length] in Hi. pose proof (Inv_zero _ _ Hi) as Hi0.
  assert (Hmem : forall s', s_mem s' = s_mem s -> Inv (length names) s' /\ Inv 0 s').
  { intros s' Hm. split; (eapply Inv_same; [|by apply same_objects_mem]); [by apply Inv_less|done]. }
  wp_step. apply wp_os. intros [agg|e] w Ew.
  - wp_step. eapply wp_mono; [by apply wp_read_device_information|].
    intros [r p] s1 Hr. wp_step. apply wp_os. intros [] w2 Ew2.
    destruct Hr as [(-> & d & Hd & Hp & Hu & Hn & Hpn & Hm)|[(-> & -> & Hm & _)|(-> & -> & Hm & _)]].
    + change (1 <? 0) with false. change (1 =? 0) with false. cbv iota.
      pose proof (shown _ _ (with_world (fun _ => w2) s1) _ _ _ Hi Hd Hp Hpn Hu Hn Hm) as Hf.
      wp_step. apply wp_unbind in Hf. eapply wp_mono; [exact Hf|]. cbn beta. intros r s3 Hf3.
      wp_step. apply wp_unbind in Hf3. eapply wp_mono; [exact Hf3|]. cbn beta. intros [] s4 Hf4.
      destruct Hf4 as [Hi4 Hr].
      destruct (Z.eqb_spec r 0) as [->|Hne]; cbn [negb]; [by apply IH|].
      wp_step. split; [by eapply Inv_zero|]. right. by left.
    + change (0 <? 0) with false. change (0 =? 0) with true. cbv iota. apply IH. by apply Hmem.
    + change (HS_ERROR_MEMORY <? 0) with true. cbv iota. wp_step.
      split; [by apply Hmem|]. unfold enumerate_result. tauto.
  - case_bool_decide.
    + apply wp_memory_error_mem. intros s1 Hm. split; [by apply Hmem|]. unfold enumerate_result. tauto.
    + apply IH. by apply Hmem.
Qed.
End Invariant.

Lemma wp_init_udev s :
  wp init_udev (fun r s' => same_objects s s' /\
    ((r = 0 /\ static "udev" s' <> NULL) \/ r = HS_ERROR_SYSTEM)) s.
Proof.
  unfold init_udev. wp_step. eapply wp_intro; [done|]. fold (static "udev" s).
  destruct (Z.eqb_spec (static "udev" s) NULL) as [E|E]; cbn [negb].
  2:{ wp_step. split; [apply same_objects_refl|by left]. }
  wp_step. apply wp_os. intros [] w1 _. wp_step. eapply wp_intro; [done|].
  change (static "udev" (with_world (fun _ => w1) s)) with (static "udev" s).
  rewrite E. change (NULL =? NULL) with true. cbv iota.
  wp_step. wp_step. apply wp_os. intros u w2 _. apply wp_modify.
  wp_step. apply wp_os. intros [] w3 _. wp_step. eapply wp_intro; [done|].
  assert (forall w, static "udev" (with_world w (with_statics <["udev" := u]>
    (with_world (fun _ => w2) (with_world (fun _ => w1) s)))) = u) as Eu.
  { intros w. unfold static. cbn. by rewrite lookup_insert_eq. }
  rewrite Eu. destruct (Z.eqb_spec u NULL).
  - apply wp_error. split; [by repeat split|by right].
  - wp_step. split; [by repeat split|]. left. by rewrite Eu.
Qed.

Lemma wp_each_subsystem (f : string -> sysc W Z) l s :
  wp (each_subsystem f l) (fun _ s' => s_mem s' = s_mem s) s.
Proof.
  revert s. induction l as [|x l IH]; intros s; cbn [each_subsystem]; [by wp_step|].
  wp_step. apply wp_os. intros r w _. case_match; [by wp_step|]. apply (IH (with_world (fun _ => w) s)).
Qed.
End Enumerate.

(** The whole enumeration: only the static variables may differ when its loop
    starts. *)
Lemma wp_hs_enumerate {W} `{Posix W} `{Allocator W} `{Udev W} (f : ptr -> M (st W) Z)
    (P : Z -> Prop) (Inv : nat -> st W -> Prop) (s : st W) :
  (forall udev names s', Inv (length names) s' ->
     wp (enumerate_loop f udev names) (fun r s' => Inv O s' /\ enumerate_result P r) s') ->
  (forall s', same_objects s s' -> Inv O s') ->
  (forall s' en w, same_objects s s' -> Inv (length (udev_enumerate_get_list_entry en w)) s') ->
  (forall s' w, Inv O s' -> Inv O (with_world (fun _ => w) s')) ->
  wp (hs_enumerate f) (fun r s' => Inv O s' /\ enumerate_result P r) s.
Proof.
  intros Hloop Hno Hyes Hworld. unfold hs_enumerate.
  wp_step. eapply wp_mono; [apply wp_init_udev|]. intros r s1 [Hs1 Hr].
  destruct Hr as [[-> Hu]| ->].
  2:{ change (HS_ERROR_SYSTEM <? 0) with true. cbv iota. wp_step. apply wp_os. intros [] w _.
      wp_step. split; [by apply Hno|]. unfold enumerate_result. tauto. }
  change (0 <? 0) with false. cbv iota. wp_step. eapply wp_intro; [done|].
  wp_step. apply wp_os. intros [en|] w1 _.
  2:{ wp_step. apply wp_memory_error_mem. intros s2 Hm2. wp_step. apply wp_os. intros [] w2 _.
      wp_step. split; [|unfold enumerate_result; tauto]. apply Hno.
      eapply same_objects_trans; [exact Hs1|]. apply same_objects_mem. exact Hm2. }
  wp_step. apply wp_os. intros [] w2 _. wp_step.
  eapply wp_mono; [apply wp_each_subsystem|]. intros ok s2 Hm2.
  assert (same_objects s s2) as Hs2.
  { eapply same_objects_trans; [exact Hs1|]. by apply same_objects_mem. }
  wp_step. apply wp_mono with (P := fun r s' => Inv O s' /\ enumerate_result P r).
  2:{ intros r s3 [Hs3 Hr]. wp_step. apply wp_os. intros [] w3 _. wp_step. split; [by apply Hworld|done]. }
  destruct ok; cbn [negb].
  2:{ apply wp_memory_error_mem. intros s3 Hm3. split; [|unfold enumerate_result; tauto]. apply Hno.
      eapply same_objects_trans; [exact Hs2|]. by apply same_objects_mem. }
  wp_step. apply wp_os. intros r w3 _. destruct (r <? 0).
  { apply wp_error. split; [by apply Hno|]. unfold enumerate_result. tauto. }
  wp_step. wp_step. apply Hloop, Hyes. done.
Qed.

(** An enumeration leaves the objects of the library as they are: every
    device it creates for its callback is freed, in every case. It shows the
    callback only devices that hold what udev says, stops at the first
    non-zero result and returns it; otherwise it returns 0 or an error. *)
Theorem hs_enumerate_balanced {W} `{Posix W} `{Allocator W} `{Udev W}
    (f : ptr -> M (st W) Z) (P : Z -> Prop) (s : st W) :
  devpath_documented -> allocator_documented -> enumerate_callback f P ->
  exists r s', hs_enumerate f s = Done (r, s') /\ same_objects s s' /\ enumerate_result P r.
Proof.
  intros Hdoc Hal Hf. apply wp_inv. apply (wp_hs_enumerate f P (fun _ => same_objects s)); try done.
  intros udev names s1 Hi. apply (wp_enumerate_loop f P (fun _ => same_objects s)); try done.
  - intros _ s2 s3 Hs2 Hs3. by eapply same_objects_trans.
  - intros _ s2 s3 agg p d Hs2 Hd Hp Hpn Hu Hn Hm. wp_step.
    destruct (Hf p d agg s3) as (r & s4 & E4 & Hs4 & Hr); [done|done|rewrite Hm; apply lookup_insert_eq|].
    eapply wp_intro; [exact E4|]. wp_step.
    destruct (unref_shown p d (s_mem s2) s3 s4) as (s5 & sts & E5 & _ & Hm5); try done.
    { by eapply describe_refcount. }
    eapply wp_intro; [exact E5|]. wp_step. split; [|done].
    eapply same_objects_trans; [exact Hs2|]. unfold same_objects. by rewrite Hm5.
Qed.

(** A callback that stops at the first device. *)
Lemma hs_enumerate_balanced_witness :
  exists r s', hs_enumerate (H0 := bump) (H1 := demo_udev) (fun _ => ret 7) (scripted quiet) =
      Done (r, s') /\
    same_objects (scripted quiet) s' /\ enumerate_result (fun r => r = 7) r.
Proof.
  apply (@hs_enumerate_balanced script script_posix bump demo_udev (fun _ => ret 7)
    (fun r => r = 7) (scripted quiet)).
  - exact demo_devpath_documented.
  - exact bump_documented.
  - intros p d agg s _ _ _. exists 7, s. split; [reflexivity|].
    split; [apply same_objects_refl|reflexivity].
Defined.

Example demo_enumerate :
  match hs_enumerate (H0 := bump) (H1 := demo_udev) (fun _ => ret 7) (scripted quiet) with
  | Done (r, _) => r
  | _ => 0
  end = 7.
Proof. vm_compute. reflexivity. Qed.
