(* ===== verification/MonitorLinuxSpec.v ===== *)
(** What the functions of src/src/monitor_linux.c promise: a monitor is made with
    what is plugged in, [hs_monitor_refresh] keeps its registry what the events of
    udev make of it, and it gives back all the memory at its end. *)

From S2P Require Import Prelude Cstring Common DList Htable State Posix Device Heap Monitor MonitorSpec World Discovery Lifetime MonitorLinux.

(** * The events *)

Section Event.
Context {W : Type} `{Posix W} `{Allocator W} `{Udev W}.
Variable call : ptr -> ptr -> ptr -> M (st W) Z.
Variable react : ptr -> ptr -> hs_device -> ptr -> W -> Z * W.
Hypothesis call_react : calm call react.
Hypothesis devpaths : devpath_documented.
Hypothesis allocs : allocator_documented.
Variable fuel : nat.
Variable mon : ptr.
Implicit Types (s : st W) (D : gmap (string * Z) ptr) (V : gmap (string * Z) hs_device).

(** The effect of an event on the registered devices, with the result. *)
Inductive plugged (agg : udev_device) V : Z -> gmap (string * Z) hs_device -> Prop :=
  (** not one of the library's, or without a node *)
  | pl_ignored : describe agg = None \/ node_missing agg -> plugged agg V 0 V
  | pl_memory : out_of_memory -> plugged agg V HS_ERROR_MEMORY V
  | pl_known d k : describe agg = Some d -> dev_key d = Some k -> is_Some (V !! (k, dev_iface d)) ->
      plugged agg V 0 V
  (** the result is that of the callbacks *)
  | pl_new d k r : describe agg = Some d -> dev_key d = Some k -> V !! (k, dev_iface d) = None -> r <= 0 ->
      plugged agg V r (<[(k, dev_iface d) := dev_with_refcount 1 (onlined mon d)]> V).

Definition event (agg : udev_device) V (r : Z) V' : Prop :=
  match udev_device_get_action agg, udev_device_get_devpath agg with
  | Some action, Some key =>
      if bool_decide (action = "add") then plugged agg V r V'
      else r = 0 /\ V' = (if bool_decide (action = "remove") then filter (fun e => e.1.1 <> key) V else V)
  | _, _ => False
  end.

(** [hs_monitor_refresh] reads events until there is none or one fails; those
    that are [left] stay for the next time. *)
Inductive events : list udev_device -> gmap (string * Z) hs_device -> Z -> gmap (string * Z) hs_device ->
    list udev_device -> Prop :=
  | ev_none V r : r = 0 \/ r = HS_ERROR_MEMORY -> events [] V r V []
  | ev_failed agg l V r V' : event agg V r V' -> r < 0 -> events (agg :: l) V r V' l
  | ev_next agg l V r V1 r' V' l' : event agg V r V1 -> 0 <= r -> events l V1 r' V' l' ->
      events (agg :: l) V r' V' l'.

Lemma describe_key agg d : describe agg = Some d -> exists k, dev_key d = Some k.
Proof.
  unfold describe, describe_in. intros E. repeat (apply bind_Some in E as (? & _ & E)).
  injection E as <-. eauto.
Qed.

(** What one event does to a monitor. *)
Definition follows (agg : udev_device) mo cbs bs D s (r : Z) s' : Prop :=
  exists cbs' bs' D', mon_rep s' mon mo cbs' bs' D' /\ sublist cbs' cbs /\ (size D' <= S (size D))%nat /\
    event agg (view D (m_devs (s_mem s))) r (view D' (m_devs (s_mem s'))) /\
    forall s0, owns s0 s mon mo cbs bs D -> owns s0 s' mon mo cbs' bs' D'.

Lemma follows_same agg mo cbs bs D s r s' :
  mon_rep s mon mo cbs bs D -> s_mem s' = s_mem s ->
  event agg (view D (m_devs (s_mem s))) r (view D (m_devs (s_mem s))) -> follows agg mo cbs bs D s r s'.
Proof.
  intros Hrep Hm He. pose proof (same_objects_mem _ _ Hm) as Hs. exists cbs, bs, D.
  split; [by eapply mon_rep_objects|]. split; [done|]. split; [lia|]. rewrite Hm. split; [done|].
  intros s0 Ho. by eapply owns_same.
Qed.

Lemma wp_refresh_event s mo cbs bs D agg :
  mon_rep s mon mo cbs bs D -> enough fuel cbs bs -> is_Some (udev_device_get_action agg) ->
  wp (refresh_event fuel call mon agg) (follows agg mo cbs bs D s) s.
Proof.
  intros Hrep Hf [action Ha]. destruct (devpaths agg) as (c & rest & Ekey).
  assert (Hev : forall r V', (if bool_decide (action = "add") then plugged agg (view D (m_devs (s_mem s))) r V'
      else r = 0 /\ V' = (if bool_decide (action = "remove") then filter (fun e => e.1.1 <> String c rest) (view D (m_devs (s_mem s)))
                          else view D (m_devs (s_mem s)))) -> event agg (view D (m_devs (s_mem s))) r V').
  { intros r V'. unfold event. by rewrite Ha, Ekey. }
  unfold refresh_event. rewrite Ha. case_bool_decide as Eadd; [|case_bool_decide as Erem].
  - wp_step. eapply wp_mono; [by apply wp_read_device_information|]. intros [r p] s1 Hi.
    destruct Hi as [(-> & d & Hd & Hp & Hu & Hn & Hpn & Hm)|[(-> & -> & Hm & Hwhy)|(-> & -> & Hm & Hwhy)]].
    + change (0 <? 1) with true. cbv iota. destruct (describe_key _ _ Hd) as [k Hk].
      destruct (view_lookup _ _ _ _ _ _ k (dev_iface d) Hrep) as [Hv1 Hv2].
      eapply (wp_add_new call react call_react fuel _ s); try done; [by eapply describe_refcount| |].
      * intros dev s2 HD Hm2 _. apply follows_same; [done|done|]. apply Hev. eapply pl_known; [done|done|].
        rewrite Hv1, HD. destruct (tr_map _ _ _ _ _ (mr_tab _ _ _ _ _ _ Hrep) _ _ _ HD) as (_ & d' & -> & _). done.
      * intros r kept s2 bs' HD En Hrep' Hdevs Hsub Hre Hns.
        destruct (mon_rep_new _ _ _ _ _ _ _ _ _ Hrep Hm Hu Hn) as (_ & _ & HDp).
        exists kept, bs', (<[(k, dev_iface d) := p]> D). split; [done|]. split; [done|].
        split; [by rewrite map_size_insert_None by done|]. split.
        { rewrite Hdevs, view_insert by (intros []; apply HDp). apply Hev. apply pl_new; [done|done|by apply Hv2|].
          pose proof (notify_result react p (onlined mon d) cbs (s_world s1)) as Hr. by rewrite En in Hr. }
        intros s0 Ho. by eapply (owns_add s0 s s1 s2 mon mo cbs kept bs bs' D p d (dev_with_refcount 1 (onlined mon d))).
    + change (0 <? 0) with false. cbv iota. do 3 wp_step. apply wp_intro with (a := tt) (s' := s1); [done|].
      wp_step. apply follows_same; [done|done|]. apply Hev. by apply pl_ignored.
    + change (0 <? HS_ERROR_MEMORY) with false. cbv iota. do 3 wp_step. apply wp_intro with (a := tt) (s' := s1); [done|].
      wp_step. apply follows_same; [done|done|]. apply Hev. by apply pl_memory.
  - rewrite Ekey. wp_step. eapply (wp_monitor_remove call react call_react); [exact Hrep|exact Hf|].
    intros s' bs' cbs' gone Hrep' _ Hsub _ Hg Hdevs Hre Hns. wp_step.
    exists cbs', bs', (filter (fun e => e.1.1 <> String c rest) D). split; [done|]. split; [done|].
    split; [pose proof (map_size_filter (fun e => e.1.1 <> String c rest) D); lia|]. split.
    + rewrite Hdevs. erewrite view_remove by done. by apply Hev.
    + intros s0 Ho. by eapply owns_remove.
  - wp_step. by apply follows_same; [done|done|apply Hev].
Qed.

(** The documentation of the socket of [um]: the events that are [pending] come
    one after the other, each with its action, and nothing else of the library
    changes them. When they are all read there is none, and others come later. *)
Record socket_documented (um : udev_monitor) (pending : W -> list udev_device) : Prop := {
  so_receive : forall w, match pending w with
    | [] => exists e w', udev_monitor_receive_device um w = (inr e, w')
    | agg :: l => exists w', udev_monitor_receive_device um w = (inl agg, w') /\ pending w' = l
    end;
  so_action : forall w agg, agg ∈ pending w -> is_Some (udev_device_get_action agg);
  so_malloc : forall w, pending (malloc_ok w).2 = pending w;
  so_access : forall path w, pending (access_F_OK path w).2 = pending w;
  so_unref : forall d w, pending (udev_device_unref d w).2 = pending w;
  so_call : forall f dev udata, steady pending (call f dev udata)
}.
End Event.

Section Steady.
Context {W X : Type} `{Posix W} `{Allocator W} `{Udev W}.
Variable g : W -> X.
Hypothesis mallocs : forall w, g (malloc_ok w).2 = g w.
Hypothesis accesses : forall path w, g (access_F_OK path w).2 = g w.

Lemma steady_malloc : steady g (os malloc_ok).
Proof. by apply steady_os. Qed.

Lemma steady_new_block : steady g new_block.
Proof. pose proof steady_malloc. unfold new_block. steady. Qed.
Lemma steady_strdup x : steady g (strdup x).
Proof. pose proof steady_malloc. unfold strdup. steady. Qed.
Hint Resolve steady_new_block steady_strdup : steady.

Lemma steady_dup_attr p u name f : steady g (dup_attr p u name f).
Proof. unfold dup_attr. steady. Qed.
Hint Resolve steady_dup_attr : steady.

Lemma steady_fill_strings p usb iface : steady g (fill_strings p usb iface).
Proof. unfold fill_strings. steady. Qed.
Lemma steady_compute_device_location u : steady g (compute_device_location u).
Proof. unfold compute_device_location. steady. Qed.
Hint Resolve steady_fill_strings steady_compute_device_location : steady.

Lemma steady_read_device_information agg : steady g (read_device_information agg).
Proof.
  assert (forall path, steady g (os (access_F_OK path))) by (intros path; by apply steady_os).
  unfold read_device_information, fill_device_details, fill_ids. steady.
Qed.
End Steady.

(** ** The handles of libudev *)

(** The documentation of libudev: the devices, enumerations and monitors that are
    [live]. What returns one adds it, and [unref] of one drops it. *)
Record handles_documented {W} `{Posix W} `{Udev W} (live : W -> Z) : Prop := {
  ha_device : forall udev name w, live (udev_device_new_from_syspath udev name w).2 =
    live w + match (udev_device_new_from_syspath udev name w).1 with Ok _ => 1 | Err _ => 0 end;
  ha_receive : forall um w, live (udev_monitor_receive_device um w).2 =
    live w + match (udev_monitor_receive_device um w).1 with inl _ => 1 | inr _ => 0 end;
  ha_device_unref : forall d w, live (udev_device_unref d w).2 = live w - 1;
  ha_enumerate : forall udev w, live (udev_enumerate_new udev w).2 =
    live w + match (udev_enumerate_new udev w).1 with Some _ => 1 | None => 0 end;
  ha_enumerate_unref : forall en w, live (udev_enumerate_unref en w).2 =
    live w - match en with Some _ => 1 | None => 0 end;
  ha_monitor : forall udev name w, live (udev_monitor_new_from_netlink udev name w).2 =
    live w + match (udev_monitor_new_from_netlink udev name w).1 with Some _ => 1 | None => 0 end;
  ha_monitor_unref : forall um w, live (udev_monitor_unref um w).2 =
    live w - match um with Some _ => 1 | None => 0 end;
  ha_malloc : forall w, live (malloc_ok w).2 = live w;
  ha_access : forall path w, live (access_F_OK path w).2 = live w;
  ha_new : forall w, live (udev_new w).2 = live w;
  ha_lock : forall w, live (pthread_mutex_lock w).2 = live w;
  ha_unlock : forall w, live (pthread_mutex_unlock w).2 = live w;
  ha_initialized : forall en w, live (udev_enumerate_add_match_is_initialized en w).2 = live w;
  ha_subsystem : forall en x w, live (udev_enumerate_add_match_subsystem en x w).2 = live w;
  ha_scan : forall en w, live (udev_enumerate_scan_devices en w).2 = live w;
  ha_filter : forall um x w, live (udev_monitor_filter_add_match_subsystem um x w).2 = live w;
  ha_enable : forall um w, live (udev_monitor_enable_receiving um w).2 = live w
}.

Section Handles.
Context {W : Type} `{Posix W} `{Allocator W} `{Udev W}.
Variable live : W -> Z.
Hypothesis documented : handles_documented live.

Lemma steady_init_udev : steady live init_udev.
Proof.
  destruct documented.
  assert (steady live (os pthread_mutex_lock)) by by apply steady_os.
  assert (steady live (os pthread_mutex_unlock)) by by apply steady_os.
  assert (steady live (os udev_new)) by by apply steady_os.
  unfold init_udev. steady.
Qed.

Lemma steady_each_subsystem (f : string -> sysc W Z) l :
  (forall x w, live (f x w).2 = live w) -> steady live (each_subsystem f l).
Proof.
  intros Hf. assert (forall x, steady live (os (f x))) by (intros x; by apply steady_os).
  induction l as [|x l IH]; cbn [each_subsystem]; steady.
Qed.

Lemma steady_read agg : steady live (read_device_information agg).
Proof. apply steady_read_device_information; apply documented. Qed.

Lemma counts_device_unref d : counts live (os (udev_device_unref d)) (fun _ => -1).
Proof. apply counts_os. intros w. rewrite (ha_device_unref _ documented). lia. Qed.

Section Enumerate.
Variable f : ptr -> M (st W) Z.
Hypothesis steady_f : forall p, steady live (f p).

Lemma steady_enumerate_loop udev names : steady live (enumerate_loop f udev names).
Proof.
  induction names as [|name names IH]; cbn [enumerate_loop]; [steady|].
  apply (steady_counts _ _ (fun _ => 0)); [|done].
  apply (counts_bind _ _ _ (fun d => match d with Ok _ => 1 | Err _ => 0 end));
    [apply counts_os; intros w; apply (ha_device _ documented)|].
  intros [agg|e]; [|apply counts_steady; [steady|done]].
  apply counts_then; [apply steady_read|]. intros [r dev].
  eapply counts_bind; [apply counts_device_unref|]. intros u. apply counts_steady; [steady|done].
Qed.

Lemma steady_enumerate : steady live (hs_enumerate f).
Proof.
  assert (counts live (os (udev_enumerate_unref None)) (fun _ => 0)) as Hnone.
  { apply counts_os. intros w. rewrite (ha_enumerate_unref _ documented). lia. }
  assert (steady live (os (udev_enumerate_unref None))) by (by eapply steady_counts).
  pose proof steady_init_udev. pose proof steady_enumerate_loop.
  unfold hs_enumerate. apply steady_bind; [done|]. intros r. destruct (r <? 0); [steady|].
  apply steady_bind; [steady|]. intros udev. apply (steady_counts _ _ (fun _ => 0)); [|done].
  apply (counts_bind _ _ _ (fun en => match en with Some _ => 1 | None => 0 end));
    [apply counts_os; intros w; apply (ha_enumerate _ documented)|].
  intros [en|]; [|apply counts_steady; [steady|done]].
  apply counts_then; [apply steady_os; intros w; apply (ha_initialized _ documented)|]. intros _.
  apply counts_then; [apply steady_each_subsystem; intros x w; apply (ha_subsystem _ documented)|]. intros ok.
  assert (steady live (os (udev_enumerate_scan_devices en))) by (apply steady_os; apply (ha_scan _ documented)).
  apply counts_then; [steady|]. intros r2.
  apply (counts_bind _ _ _ (fun _ => -1));
    [apply counts_os; intros w; rewrite (ha_enumerate_unref _ documented); lia|].
  intros u. by apply counts_ret.
Qed.
End Enumerate.

Variable call : ptr -> ptr -> ptr -> M (st W) Z.
Hypothesis steady_call : forall f dev udata, steady live (call f dev udata).
Variable fuel : nat.

(** The handle a monitor has. *)
Definition handle (m : option (linux_monitor W)) : Z :=
  match m with
  | Some m => match lm_monitor m with Some _ => 1 | None => 0 end
  | None => 0
  end.

Lemma counts_free m : counts live (hs_monitor_free fuel m) (fun _ => - handle m).
Proof.
  destruct m as [m|]; cbn [hs_monitor_free]; [|by apply counts_ret].
  apply counts_then; [apply steady_monitor_release|]. intros u.
  apply (counts_bind _ _ _ (fun _ => - handle (Some m))).
  - apply counts_os. intros w. rewrite (ha_monitor_unref _ documented). done.
  - intros u'. apply counts_steady; [steady|]. intros b. lia.
Qed.

Lemma counts_error r m : counts live (monitor_error fuel r m) (fun rm => handle rm.2 - handle m).
Proof.
  apply (counts_bind _ _ _ (fun _ => - handle m)); [apply counts_free|]. intros u. apply counts_ret. cbn. lia.
Qed.

Lemma counts_new : counts live (hs_monitor_new fuel call) (fun rm => handle rm.2).
Proof.
  pose proof (fun m => steady_enumerate (monitor_enumerate_callback fuel call m)
    (fun dev => steady_monitor_add live call steady_call fuel m dev)) as Henum.
  assert (forall r, counts live (monitor_error fuel r None) (fun rm => handle rm.2)) as Hnone.
  { intros r. eapply alters_weaken; [apply counts_error|]. cbn. lia. }
  pose proof (steady_new_block live (ha_malloc _ documented)) as Hblock.
  unfold hs_monitor_new. apply counts_then; [apply steady_init_udev|]. intros r.
  destruct (r <? 0); [apply Hnone|]. apply counts_then; [done|]. intros mon.
  destruct (mon =? NULL); [apply counts_then; [steady|intros r2; apply Hnone]|].
  apply counts_then; [steady|]. intros u1. apply counts_then; [steady|]. intros udev.
  apply (counts_bind _ _ _ (fun um => handle (Some (LinuxMonitor mon um)))).
  { apply counts_os. intros w. rewrite (ha_monitor _ documented). done. }
  intros [um|]; [|apply counts_then; [steady|intros r2; apply counts_error]].
  apply counts_then; [apply steady_each_subsystem; intros x w; apply (ha_filter _ documented)|]. intros ok.
  destruct (negb ok); [apply counts_then; [steady|intros r2; apply counts_error]|].
  apply counts_then; [apply steady_os; intros w; apply (ha_enable _ documented)|]. intros r2.
  destruct (r2 <? 0); [apply counts_then; [steady|intros r3; apply counts_error]|].
  apply counts_then; [done|]. intros heads.
  apply counts_then; [unfold _hs_monitor_init, _hs_htable_init; steady|]. intros r3. destruct (r3 <? 0); [apply counts_error|].
  apply counts_then; [apply Henum|]. intros r4. destruct (r4 <? 0); [apply counts_error|].
  apply counts_ret. cbn. lia.
Qed.

Lemma steady_refresh m : steady live (hs_monitor_refresh fuel call m).
Proof.
  pose proof (steady_monitor_add live call steady_call fuel). pose proof (steady_monitor_remove live call steady_call fuel).
  pose proof steady_read.
  assert (forall mon agg, steady live (refresh_event fuel call mon agg)) as Hev by (intros mon agg; unfold refresh_event; steady).
  unfold hs_monitor_refresh. destruct (lm_monitor m) as [um|]; [|steady]. generalize fuel at 2. intros n.
  induction n as [|n IH]; cbn [refresh_loop]; [steady|]. apply (steady_counts _ _ (fun _ => 0)); [|done].
  apply (counts_bind _ _ _ (fun got => match got with inl _ => 1 | inr _ => 0 end)).
  { apply counts_os. intros w. apply (ha_receive _ documented). }
  intros [agg|e]; [|apply counts_steady; [steady|done]]. apply counts_then; [apply Hev|]. intros r.
  apply (counts_bind _ _ _ (fun _ => -1)); [apply counts_device_unref|]. intros u. apply counts_steady; [steady|done].
Qed.
End Handles.

(** * The life of a monitor *)

Section Life.
Context {W : Type} `{Posix W} `{Allocator W} `{Udev W}.
Variable call : ptr -> ptr -> ptr -> M (st W) Z.
Variable react : ptr -> ptr -> hs_device -> ptr -> W -> Z * W.
Hypothesis call_react : calm call react.
Hypothesis devpaths : devpath_documented.
Hypothesis allocs : allocator_documented.
Variable fuel : nat.
Implicit Types (s : st W) (D : gmap (string * Z) ptr).

(** The registered devices are ones udev describes, with one reference. *)
Definition from_udev mon D s : Prop :=
  forall k i p, D !! (k, i) = Some p -> exists agg d, describe agg = Some d /\
    dev_key d = Some k /\ dev_iface d = i /\
    m_devs (s_mem s) !! p = Some (dev_with_refcount 1 (onlined mon d)).

(** The devices there is fuel for once the monitor is made. *)
Variable extra : nat.

(** A monitor in the making, with room for [n] more devices. *)
Definition making s0 mon (n : nat) s : Prop :=
  exists mo bs D, owns s0 s mon mo [] bs D /\ room fuel mo [] D (n + extra) /\ mon_callback_id mo = 0 /\
    from_udev mon D s.

Lemma making_same s0 mon n s s' : making s0 mon n s -> same_objects s s' -> making s0 mon n s'.
Proof.
  intros (mo & bs & D & Ho & Hr & Hid & Hd) Hs. exists mo, bs, D. split; [by eapply owns_same|].
  do 2 (split; [done|]). destruct Hs as [E _]. unfold from_udev. by rewrite E.
Qed.

(** The callback of [hs_monitor_new] adds the device. *)
Lemma wp_making_add s0 mon n s1 s agg p d : making s0 mon (S n) s1 -> describe agg = Some d ->
  p <> NULL -> hnode_of p <> NULL -> ~ in_use (s_mem s1) p -> ~ in_use (s_mem s1) (hnode_of p) ->
  s_mem s = with_new_dev p d (s_mem s1) ->
  wp (let* r := monitor_enumerate_callback fuel call mon p in hs_device_unref p ;;; ret r)
    (fun r s' => making s0 mon n s' /\ r = 0) s.
Proof.
  intros (mo & bs & D & Ho & Hroom & Hid & Hfrom) Hd Hp Hpn Hu Hn Hm.
  destruct (describe_key _ _ Hd) as [k Hk].
  assert (enough fuel [] bs) as Hf by (eapply room_enough; [apply (ow_rep _ _ _ _ _ _ _ Ho)|exact Hroom]).
  eapply (wp_owns_add call react call_react fuel); [exact Ho|exact Hf|exact Hm|done..|by eapply describe_refcount| |].
  - intros s' _ Hm' _. split; [|done]. exists mo, bs, D. split; [by eapply owns_same; [exact Ho|apply same_objects_mem]|].
    split; [unfold room in *; lia|]. split; [done|]. unfold from_udev. by rewrite Hm'.
  - intros r kept s' bs' HD [= <- <- _] _ Ho' E. split; [|done]. eexists mo, bs', _. split; [exact Ho'|]. split.
    { unfold room in *. rewrite map_size_insert_None by done. lia. }
    split; [done|]. intros k' i' q. rewrite E. intros [[[= <- <-] <-]|[Hne Hq]]%lookup_insert_Some.
    + exists agg, d. by rewrite lookup_insert_eq.
    + destruct (Hfrom _ _ _ Hq) as (agg' & d' & ? & ? & ? & Hq'). exists agg', d'.
      rewrite lookup_insert_ne; [done|]. intros ->. apply Hu. left. by rewrite Hq'.
Qed.

Lemma wp_linux_free (Q : unit -> st W -> Prop) s0 s mon um :
  wp (_hs_monitor_release fuel mon) (fun _ s1 => spent s0 mon s1 /\ s_world s1 = s_world s /\
    m_statics (s_mem s1) = m_statics (s_mem s)) s ->
  (forall s', same_objects s0 s' -> Q tt s') ->
  wp (hs_monitor_free fuel (Some (LinuxMonitor mon um))) Q s.
Proof.
  intros Hs HQ. unfold hs_monitor_free. wp_step. eapply wp_mono; [exact Hs|]. intros [] s1 [Hs1 _].
  wp_step. apply wp_os. intros [] w _. eapply wp_free_spent; [|intros s' Hs' _ _; by apply HQ].
  by destruct Hs1.
Qed.

(** [hs_monitor_new] makes a monitor of what it enumerates, or nothing. *)
Definition made s0 (rm : Z * option (linux_monitor W)) s : Prop :=
  (rm.1 = 0 /\ exists mon um, rm.2 = Some (LinuxMonitor mon (Some um)) /\ making s0 mon 0 s) \/
  (rm.1 < 0 /\ rm.2 = None /\ same_objects s0 s).

Lemma wp_idle_free s0 s mon um (r : Z) : idle s0 mon s -> (0 < fuel)%nat -> r < 0 ->
  wp (monitor_error fuel r (Some (LinuxMonitor mon um))) (made s0) s.
Proof.
  intros Hi Hf Hr. unfold monitor_error. wp_step.
  eapply wp_linux_free; [by apply wp_release_idle|]. intros s' Hs'. wp_step. right. by split.
Qed.

Lemma wp_idle_error s0 s mon um msg : idle s0 mon s -> (0 < fuel)%nat ->
  wp (let* r := error HS_ERROR_SYSTEM msg in monitor_error fuel r (Some (LinuxMonitor mon um)))
    (made s0) s.
Proof.
  intros Hi Hf. wp_step. apply wp_error. apply wp_idle_free; try done.
  eapply idle_same; [exact Hi|]. by repeat split.
Qed.

(** The entries of an enumeration are at most [n]. *)
Definition enumerable (n : nat) : Prop :=
  forall en w, (length (udev_enumerate_get_list_entry en w) <= n)%nat.

(** The enumeration of the end of [hs_monitor_new]. *)
Lemma wp_linux_populate n s0 s mon um mo :
  enumerable n -> (n + extra + 66 < fuel)%nat ->
  owns s0 s mon mo [] (replicate 64 []) ∅ -> ht_size (mon_devices mo) = 64 -> mon_callback_id mo = 0 ->
  wp (let* r := hs_enumerate (monitor_enumerate_callback fuel call mon) in
      if r <? 0 then monitor_error fuel r (Some (LinuxMonitor mon (Some um)))
      else ret (0, Some (LinuxMonitor mon (Some um)))) (made s0) s.
Proof.
  intros Hn Hf Ho Hsz Hid.
  assert (Hstart : forall k s', (k <= n)%nat -> same_objects s s' -> making s0 mon k s').
  { intros k s' Hk Hs'. exists mo, (replicate 64 []), ∅. split; [by eapply owns_same|]. split.
    - unfold room. rewrite Hsz, map_size_empty. change (length []) with O. change (Z.to_nat 64) with 64%nat. lia.
    - split; [done|]. intros k' i' p Hp. by rewrite lookup_empty in Hp. }
  wp_step. eapply wp_mono; [apply (wp_hs_enumerate _ (fun r => r = 0) (making s0 mon))|].
  - intros udev names s1 Hi. apply (wp_enumerate_loop _ _ (making s0 mon)); try done.
    + intros k s2 s3. apply making_same.
    + intros k s2 (mo2 & bs & D & ? & Hr & ? & ?). exists mo2, bs, D. split; [done|]. split; [|done].
      unfold room in *. lia.
    + intros k s2 s3 agg p d. apply wp_making_add.
  - intros s' Hs'. apply Hstart; [lia|done].
  - intros s' en w Hs'. by apply Hstart.
  - intros s' w Hi. eapply making_same; [exact Hi|done].
  - intros r s1 [Hi Hr]. assert (r = 0 \/ r < 0) as [->|Hlt].
    { destruct Hr as [?|[[? ?]|[->| ->]]]; [by left|done|by right..]. }
    + change (0 <? 0) with false. cbv iota. wp_step. left. split; [done|]. by exists mon, um.
    + rewrite (proj2 (Z.ltb_lt _ _) Hlt). unfold monitor_error. wp_step.
      destruct Hi as (mo2 & bs & D & Ho2 & Hroom & _).
      eapply wp_linux_free; [eapply wp_release_owns; [exact Ho2|]|].
      { eapply room_enough; [apply (ow_rep _ _ _ _ _ _ _ Ho2)|exact Hroom]. }
      intros s' Hs'. wp_step. right. by split.
Qed.

Lemma wp_linux_new n s : enumerable n -> (n + extra + 66 < fuel)%nat -> wp (hs_monitor_new fuel call) (made s) s.
Proof.
  intros Hn Hf. assert (0 < fuel)%nat as Hf0 by lia. unfold hs_monitor_new.
  wp_step. eapply wp_mono; [apply wp_init_udev|]. intros r s1 [Hs1 Hr].
  assert (Hnone : forall (r : Z) s', r < 0 -> same_objects s s' -> wp (monitor_error fuel r None) (made s) s').
  { intros r' s' Hr' Hs'. unfold monitor_error, hs_monitor_free. do 3 wp_step. right. by split. }
  destruct Hr as [[-> _]| ->]; [|by apply Hnone].
  change (0 <? 0) with false. cbv iota. wp_step. apply wp_new_block; intros w Ew.
  { change (NULL =? NULL) with true. cbv iota. wp_step. apply wp_memory_error. by apply Hnone. }
  destruct (allocs w (s_mem s1)) as [Hp Hfree]. set (mon := block_address w (s_mem s1)) in *.
  assert (mon <> NULL) as Hne by (unfold NULL in *; lia). rewrite (proj2 (Z.eqb_neq _ _)) by done.
  destruct (alloc_idle s (with_world (fun _ => w) s1) mon Hne) as (s2 & E2 & Hi & _).
  { apply Hfree; lia. }
  { done. }
  wp_step. eapply wp_intro; [exact E2|]. wp_step. eapply wp_intro; [done|]. wp_step. apply wp_os. intros um w3 _.
  assert (Hidle : forall s', s_mem s' = s_mem s2 -> idle s mon s').
  { intros s' Hm. eapply idle_same; [exact Hi|]. by apply same_objects_mem. }
  destruct um as [um|]; [|apply wp_idle_error; [by apply Hidle|done]].
  wp_step. eapply wp_mono; [apply wp_each_subsystem|]. intros ok s4 Hm4.
  destruct ok; cbn [negb]; [|apply wp_idle_error; [by apply Hidle|done]].
  wp_step. apply wp_os. intros r w5 _. destruct (r <? 0); [apply wp_idle_error; [by apply Hidle|done]|].
  wp_step. eapply wp_mono; [apply (wp_init_owns allocs) with (s0 := s) (mon := mon) (Q := fun r s' =>
    (r = HS_ERROR_MEMORY /\ idle s mon s') \/
    (r = 0 /\ exists mo, owns s s' mon mo [] (replicate 64 []) ∅ /\ ht_size (mon_devices mo) = 64 /\ mon_callback_id mo = 0));
    [by apply Hidle|by left|intros s' mo Ho Hsz Hid _ _; right; by eauto]|].
  cbn beta. intros heads s6 Hinit. wp_step. eapply wp_mono; [exact Hinit|].
  intros r' s7 [[-> Hi7]|(-> & mo & Ho & Hsz & Hid)]; [by apply wp_idle_free|].
  change (0 <? 0) with false. cbv iota. by eapply wp_linux_populate.
Qed.
End Life.

(** * Refresh *)

Section Refresh.
Context {W : Type} `{Posix W} `{Allocator W} `{Udev W}.
Variable call : ptr -> ptr -> ptr -> M (st W) Z.
Variable react : ptr -> ptr -> hs_device -> ptr -> W -> Z * W.
Hypothesis call_react : calm call react.
Hypothesis devpaths : devpath_documented.
Hypothesis allocs : allocator_documented.
Variable fuel : nat.
Variable mon : ptr.
Variable um : udev_monitor.
Variable pending : W -> list udev_device.
Hypothesis socket : socket_documented call um pending.
Implicit Types (s : st W) (D : gmap (string * Z) ptr).

Lemma steady_refresh_event agg : steady pending (refresh_event fuel call mon agg).
Proof.
  destruct socket as [_ _ Hm Ha _ Hc].
  pose proof (steady_read_device_information pending Hm Ha).
  pose proof (steady_monitor_add pending call Hc fuel). pose proof (steady_monitor_remove pending call Hc fuel).
  unfold refresh_event. steady.
Qed.

(** What a refresh does to a monitor. *)
Definition refreshed mo cbs bs D s (r : Z) s' : Prop :=
  exists cbs' bs' D', mon_rep s' mon mo cbs' bs' D' /\ sublist cbs' cbs /\
    (exists left, events mon (pending (s_world s)) (view D (m_devs (s_mem s))) r (view D' (m_devs (s_mem s'))) left /\
       (left = [] \/ left = pending (s_world s'))) /\
    forall s0, owns s0 s mon mo cbs bs D -> owns s0 s' mon mo cbs' bs' D'.

Lemma wp_events_loop n s mo cbs bs D :
  mon_rep s mon mo cbs bs D -> room fuel mo cbs D (length (pending (s_world s))) ->
  (length (pending (s_world s)) < n)%nat ->
  wp (refresh_loop fuel call mon um n) (refreshed mo cbs bs D s) s.
Proof.
  revert s cbs bs D. induction n as [|n IH]; intros s cbs bs D Hrep Hroom Hn; [lia|]. cbn [refresh_loop].
  pose proof (so_receive _ _ _ socket (s_world s)) as Hrec. wp_step. apply wp_os. intros got w Ew.
  destruct (pending (s_world s)) as [|agg l] eqn:Epend.
  - destruct Hrec as (e & w' & E). rewrite E in Ew. injection Ew as <- <-.
    assert (forall r s', s_mem s' = s_mem s -> r = 0 \/ r = HS_ERROR_MEMORY -> refreshed mo cbs bs D s r s') as Hend.
    { intros r s' Hm Hr. pose proof (same_objects_mem _ _ Hm) as Hs. exists cbs, bs, D.
      split; [by eapply mon_rep_objects|]. split; [done|]. split; [|intros s0 Ho; by eapply owns_same].
      exists []. rewrite Epend, Hm. split; [by apply ev_none|by left]. }
    case_bool_decide; [|wp_step; apply Hend; auto]. apply wp_memory_error. apply Hend; auto.
  - destruct Hrec as (w' & E & Hw'). rewrite E in Ew. injection Ew as <- <-. set (s1 := with_world (fun _ => w') s).
    assert (same_objects s s1) as Hs1 by by repeat split.
    pose proof (mon_rep_objects _ _ _ _ _ _ _ Hrep Hs1) as Hrep1.
    assert (is_Some (udev_device_get_action agg)) as Ha by (apply (so_action _ _ _ socket (s_world s)); rewrite Epend; left).
    wp_step. eapply wp_mono; [eapply (wp_steady pending); [|apply steady_refresh_event]|].
    { eapply (wp_refresh_event call react call_react devpaths allocs fuel mon); [exact Hrep1| |exact Ha].
      eapply room_enough; [exact Hrep1|exact Hroom]. }
    intros r s2 [(cbs2 & bs2 & D2 & Hrep2 & Hsub2 & Hsz2 & Hev2 & Hown2) Hp2]. change (s_world s1) with w' in Hp2.
    change (s_mem s1) with (s_mem s) in Hev2.
    wp_step. apply wp_os. intros [] w3 Ew3. set (s3 := with_world (fun _ => w3) s2).
    assert (same_objects s2 s3) as Hs3 by by repeat split.
    assert (pending (s_world s3) = l) as Hp3.
    { pose proof (so_unref _ _ _ socket agg (s_world s2)) as E3. rewrite Ew3 in E3. cbn in E3. cbn. congruence. }
    pose proof (mon_rep_objects _ _ _ _ _ _ _ Hrep2 Hs3) as Hrep3.
    assert (forall s0, owns s0 s mon mo cbs bs D -> owns s0 s3 mon mo cbs2 bs2 D2) as Hown3.
    { intros s0 Ho. eapply owns_same; [|exact Hs3]. apply Hown2. by eapply owns_same. }
    destruct (Z.ltb_spec r 0) as [Hr|Hr].
    + wp_step. exists cbs2, bs2, D2. split; [done|]. split; [done|]. split; [|done].
      exists l. rewrite Epend. split; [by apply ev_failed|by right].
    + eapply wp_mono; [apply (IH s3 cbs2 bs2 D2 Hrep3); rewrite Hp3|].
      * pose proof (sublist_length _ _ Hsub2). unfold room in *. cbn [length] in Hroom. lia.
      * cbn [length] in Hn. lia.
      * intros r' s4 (cbs4 & bs4 & D4 & Hrep4 & Hsub4 & (left & Hev4 & Hleft) & Hown4). exists cbs4, bs4, D4.
        split; [done|]. split; [by etrans|]. split; [|by auto]. exists left. split; [|done].
        rewrite Epend. eapply ev_next; [exact Hev2|done|]. by rewrite <- Hp3.
Qed.
End Refresh.

(** C7: [hs_monitor_refresh] makes the registered devices what the pending events
    of udev say. The arrival of a device registers the record of what udev says of
    it under its key and interface, unless it is not one of the library's, is
    already there, or memory is short; a removal removes every device of its path;
    any other event changes nothing. The events are taken in order until there is
    none or one fails; the others stay. All that is not registered is freed, and
    the handles of udev are given back: a monitor that owned its memory still does. *)
Theorem linux_refresh_correct {W} `{Posix W} `{Allocator W} `{Udev W} call react fuel mon um pending live
    mo cbs bs D (s : st W) :
  calm call react -> devpath_documented -> allocator_documented -> socket_documented call um pending ->
  handles_documented live -> (forall f dev udata, steady live (call f dev udata)) ->
  mon_rep s mon mo cbs bs D -> room fuel mo cbs D (length (pending (s_world s))) ->
  exists r s' cbs' bs' D' left, hs_monitor_refresh fuel call (LinuxMonitor mon (Some um)) s = Done (r, s') /\
    mon_rep s' mon mo cbs' bs' D' /\ sublist cbs' cbs /\
    events mon (pending (s_world s)) (view D (m_devs (s_mem s))) r (view D' (m_devs (s_mem s'))) left /\
    (left = [] \/ left = pending (s_world s')) /\
    live (s_world s') = live (s_world s) /\
    forall s0, owns s0 s mon mo cbs bs D -> owns s0 s' mon mo cbs' bs' D'.
Proof.
  intros Hc Hdoc Hal Hsock Hhand Hlive Hrep Hroom.
  enough (wp (hs_monitor_refresh fuel call (LinuxMonitor mon (Some um))) (fun r s' =>
      refreshed mon pending mo cbs bs D s r s' /\ live (s_world s') = live (s_world s)) s)
    as (r & s' & E & (cbs' & bs' & D' & ? & ? & (left & ? & ?) & ?) & ?)%wp_inv by by exists r, s', cbs', bs', D', left.
  apply wp_steady; [|by apply steady_refresh]. unfold hs_monitor_refresh. cbn [lm_monitor lm_addr].
  eapply wp_events_loop; [exact Hc|done|done|exact Hsock|exact Hrep|exact Hroom|]. unfold room in Hroom. lia.
Qed.

(** ** A computer, for the witness *)

(** Events that come together: the device 1 is the keyboard of MonitorLinux, and 4
    its removal. *)
Inductive burst := Calm | Plug | Replug | Bounce.
Definition burst_events (b : burst) : list Z :=
  match b with Calm => [] | Plug => [1] | Replug => [4; 1] | Bounce => [1; 4; 1] end.
Definition burst_rest (b : burst) : burst :=
  match b with Calm | Plug => Calm | Replug => Plug | Bounce => Replug end.

(** The handles that are live, the events that wait and those to come; what is
    printed, and how many times more the user waits for events before pressing
    RETURN (never more than 3). *)
Record linuxw := LinuxW {
  lw_live : Z;
  lw_now : burst;
  lw_later : list burst;
  lw_out : list string;
  lw_patience : nat
}.
Definition lw_queue (w : linuxw) : list Z := burst_events (lw_now w).
Definition lw_add (n : Z) (w : linuxw) : linuxw := LinuxW (lw_live w + n) (lw_now w) (lw_later w) (lw_out w) (lw_patience w).
Definition lw_turns (w : linuxw) : nat := if (lw_patience w <=? 3)%nat then lw_patience w else 0.

(** The descriptor of the monitor is 3, that of the terminal 0. *)
Definition lw_ready (fd : Z) (fds : list (Z * Z)) : list Z := (fun x => if x.1 =? fd then 1 else 0) <$> fds.

#[export] Instance linuxw_posix : Posix linuxw := {|
  malloc_ok w := (true, w);
  strerror _ := "error";
  clock_gettime w := (Ok (0, 0), w);
  poll fds _ w :=
    match lw_queue w, lw_turns w with
    | _ :: _, S k => (Ok (count_ready (lw_ready 3 fds), lw_ready 3 fds),
        LinuxW (lw_live w) (lw_now w) (lw_later w) (lw_out w) k)
    | _, _ => (Ok (count_ready (lw_ready 0 fds), lw_ready 0 fds), w)
    end;
  open _ w := (Err ENOENT, w);
  close _ w := (tt, w);
  read _ _ w := (Err EAGAIN, w);
  write _ _ w := (Err EIO, w);
  usleep _ w := (tt, w);
  ioctl_TIOCSDTR _ w := (tt, w);
  ioctl_HIDIOCGRDESCSIZE _ w := (Err EIO, w);
  ioctl_HIDIOCGRDESC _ _ w := (Err EIO, w);
  ioctl_HIDIOCGFEATURE _ _ w := (Err EIO, w);
  ioctl_HIDIOCSFEATURE _ _ w := (Err EIO, w);
  uname_release _ := "4.2.1-generic";
  POLLIN := 1; POLLOUT := 4; POLLERR := 8; POLLHUP := 16; POLLNVAL := 32
|}.

Definition linuxw_udev : Udev linuxw := {|
  udev_device := Z;
  udev_enumerate := unit;
  udev_monitor := unit;
  udev_device_get_subsystem u := if u =? 1 then Some "hidraw" else Some "usb";
  udev_device_get_devnode u := if u =? 1 then Some "/dev/hidraw0" else None;
  udev_device_get_devpath u :=
    if u =? 3 then Some "/devices/usb1/1-4.2/1-4.2:1.10" else Some "/devices/usb1/x";
  udev_device_get_action u := Some (if u =? 1 then "add" else "remove");
  udev_device_get_sysattr_value := demo_sysattr;
  udev_device_get_parent_with_subsystem_devtype u _ devtype :=
    if u =? 1 then Some (if bool_decide (devtype = "usb_device") then 2 else 3) else None;
  udev_device_unref _ w := (tt, lw_add (-1) w);
  udev_new w := (4096, w);
  pthread_mutex_lock w := (tt, w);
  pthread_mutex_unlock w := (tt, w);
  pthread_mutex_destroy w := (tt, w);
  udev_unref _ w := (tt, w);
  udev_enumerate_new _ w := (Some tt, lw_add 1 w);
  udev_enumerate_add_match_is_initialized _ w := (tt, w);
  udev_enumerate_add_match_subsystem _ _ w := (0, w);
  udev_enumerate_scan_devices _ w := (0, w);
  udev_enumerate_get_list_entry _ _ := ["/sys/x"; "/sys/hidraw0"];
  udev_enumerate_unref en w := (tt, lw_add (if en is Some _ then -1 else 0) w);
  udev_device_new_from_syspath _ name w :=
    if bool_decide (name = "/sys/hidraw0") then (Ok 1, lw_add 1 w) else (Err ENODEV, w);
  udev_monitor_new_from_netlink _ _ w := (Some tt, lw_add 1 w);
  udev_monitor_filter_add_match_subsystem _ _ w := (0, w);
  udev_monitor_enable_receiving _ w := (0, w);
  udev_monitor_receive_device _ w :=
    match lw_queue w with
    | [] => (inr (Some EAGAIN), LinuxW (lw_live w) (default Calm (head (lw_later w))) (tail (lw_later w)) (lw_out w) (lw_patience w))
    | u :: _ => (inl u, LinuxW (lw_live w + 1) (burst_rest (lw_now w)) (lw_later w) (lw_out w) (lw_patience w))
    end;
  udev_monitor_get_fd _ := 3;
  udev_monitor_unref um w := (tt, lw_add (if um is Some _ then -1 else 0) w);
  access_F_OK _ w := (true, w)
|}.

Definition lidle_call {W} (f dev udata : ptr) : M (st W) Z := ret 0.
Definition lidle_react {W} (f dev : ptr) (d : hs_device) (udata : ptr) (w : W) : Z * W := (0, w).

Lemma lidle_calm {W} : calm (W := W) lidle_call lidle_react.
Proof. intros f dev udata [] d _. reflexivity. Qed.

Lemma linuxw_socket : socket_documented (H1 := linuxw_udev) lidle_call tt lw_queue.
Proof.
  split; try done.
  - intros [n [| | |] l o k]; cbn; eauto.
  - intros f dev udata. apply steady_ret.
Qed.

Lemma linuxw_handles : handles_documented (H0 := linuxw_udev) lw_live.
Proof.
  split; try done.
  - intros udev name w. cbn. case_bool_decide; cbn; lia.
  - intros um [n [| | |] l o k]; cbn; lia.
  - intros [en|] w; cbn; lia.
  - intros [um|] w; cbn; lia.
Qed.

Lemma linuxw_devpaths : devpath_documented (H1 := linuxw_udev).
Proof. intros u. cbn. case_match; eauto. Qed.

(** The keyboard is plugged in, unplugged and plugged in again. *)
Definition ldemo : st linuxw := booted (LinuxW 1 Bounce [] [] 0).

Lemma linux_refresh_correct_witness : exists r s' cbs' bs' D' left,
  hs_monitor_refresh (H0 := bump) (H1 := linuxw_udev) 200 lidle_call (LinuxMonitor (H := linuxw_udev) MON (Some tt)) ldemo =
    Done (r, s') /\
  mon_rep s' MON (Monitor 0 (Htable 64 HEADS)) cbs' bs' D' /\ sublist cbs' [] /\
  events (H1 := linuxw_udev) MON [1; 4; 1] (view ∅ (m_devs (s_mem ldemo))) r (view D' (m_devs (s_mem s'))) left /\
  (left = [] \/ left = lw_queue (s_world s')) /\
  lw_live (s_world s') = 1 /\
  forall s0, owns s0 ldemo MON (Monitor 0 (Htable 64 HEADS)) [] (replicate 64 []) ∅ ->
    owns s0 s' MON (Monitor 0 (Htable 64 HEADS)) cbs' bs' D'.
Proof.
  destruct (booted_rep (LinuxW 1 Bounce [] [] 0)) as [Hrep Hw].
  apply (@linux_refresh_correct linuxw linuxw_posix bump linuxw_udev lidle_call lidle_react 200 MON tt lw_queue lw_live
    (Monitor 0 (Htable 64 HEADS)) [] (replicate 64 []) ∅ ldemo).
  - exact lidle_calm.
  - exact linuxw_devpaths.
  - exact bump_documented.
  - exact linuxw_socket.
  - exact linuxw_handles.
  - intros f dev udata. apply steady_ret.
  - exact Hrep.
  - unfold room. apply Nat.ltb_lt. vm_compute. reflexivity.
Defined.

(** Three events, and one device at the end. *)
Example linux_hotplug :
  match hs_monitor_refresh (H0 := bump) (H1 := linuxw_udev) 200 lidle_call
      (LinuxMonitor (H := linuxw_udev) MON (Some tt)) ldemo with
  | Done (r, s) => r = 0 /\ size (m_devs (s_mem s)) = 1%nat /\ s_world s = LinuxW 1 Calm [] [] 0
  | _ => False
  end.
Proof. vm_compute. by split_and!. Qed.

(** * The memory *)

(** C29: the memory of a monitor of Linux: [hs_monitor_new] either makes a monitor
    that owns everything it allocated, with devices that are what udev says of
    them and to which it has the only reference, or it returns an error and all
    it allocated is freed, whatever step failed. Of the handles of udev, only the
    one of the monitor it made is left. *)
Theorem linux_monitor_new_correct {W} `{Posix W} `{Allocator W} `{Udev W} call react live fuel n (s : st W) :
  calm call react -> devpath_documented -> allocator_documented -> enumerable n -> (n + 66 < fuel)%nat ->
  handles_documented live -> (forall f dev udata, steady live (call f dev udata)) ->
  exists r m s', hs_monitor_new fuel call s = Done ((r, m), s') /\
    ((r = 0 /\ exists mon um mo bs D, m = Some (LinuxMonitor mon (Some um)) /\
        owns s s' mon mo [] bs D /\ from_udev mon D s' /\ live (s_world s') = live (s_world s) + 1) \/
     (r < 0 /\ m = None /\ same_objects s s' /\ live (s_world s') = live (s_world s))).
Proof.
  intros Hc Hdoc Hal Hn Hf Hhand Hlive. pose proof (wp_linux_new call react Hc Hdoc Hal fuel 0 n s Hn ltac:(lia)) as Hwp.
  eapply (wp_counts live) in Hwp; [|by apply counts_new].
  apply wp_inv in Hwp as ([r m] & s' & E & Hm & Hl). cbn in Hl. exists r, m, s'. split; [done|].
  destruct Hm as [(Hr & mon & um & Em & mo & bs & D & Ho & _ & _ & Hd)|(Hr & Em & Hs)]; cbn in Em; subst m; [left|right].
  - split; [done|]. by exists mon, um, mo, bs, D.
  - split_and!; try done. cbn in Hl. lia.
Qed.

(** A process that has just started. *)
Definition lstart : st linuxw :=
  St (LinuxW 0 Calm [Bounce; Replug] [] 2) (common_init false) (Mem (LMem ∅ ∅) (HMem ∅ ∅) ∅ ∅ ∅ ∅).

Lemma linuxw_enumerable : enumerable (H1 := linuxw_udev) 2.
Proof. intros en w. apply le_n. Qed.

Lemma linux_monitor_new_correct_witness :
  exists r m s', hs_monitor_new (H0 := bump) (H1 := linuxw_udev) 200 lidle_call lstart = Done ((r, m), s') /\
    ((r = 0 /\ exists mon um mo bs D, m = Some (LinuxMonitor (H := linuxw_udev) mon (Some um)) /\
        owns lstart s' mon mo [] bs D /\ from_udev (H1 := linuxw_udev) mon D s' /\ lw_live (s_world s') = 1) \/
     (r < 0 /\ m = None /\ same_objects lstart s' /\ lw_live (s_world s') = 0)).
Proof.
  apply (@linux_monitor_new_correct linuxw linuxw_posix bump linuxw_udev lidle_call lidle_react lw_live 200 2 lstart).
  - exact lidle_calm.
  - exact linuxw_devpaths.
  - exact bump_documented.
  - exact linuxw_enumerable.
  - apply Nat.ltb_lt. by vm_compute.
  - exact linuxw_handles.
  - intros f dev udata. apply steady_ret.
Defined.

(** [hs_monitor_free] gives back all that a monitor owns: the callbacks that are
    still registered, the devices it has the only reference to, the array of its
    table, its structure and its handle. The memory is that from before
    [hs_monitor_new]. *)
Theorem linux_monitor_free_correct {W} `{Posix W} `{Udev W} live fuel (s0 s : st W) mon um mo cbs bs D :
  handles_documented live -> owns s0 s mon mo cbs bs D -> enough fuel cbs bs ->
  exists s', hs_monitor_free fuel (Some (LinuxMonitor mon (Some um))) s = Done (tt, s') /\ same_objects s0 s' /\
    live (s_world s') = live (s_world s) - 1.
Proof.
  intros Hhand Ho Hf.
  enough (wp (hs_monitor_free fuel (Some (LinuxMonitor mon (Some um)))) (fun _ s' => same_objects s0 s' /\
      live (s_world s') = live (s_world s) + - handle (Some (LinuxMonitor mon (Some um)))) s)
    as ([] & s' & E & Hs & Hl)%wp_inv by (exists s'; split_and!; try done; cbn in Hl; lia).
  apply (wp_counts live _ _ (fun _ => - handle (Some (LinuxMonitor mon (Some um))))); [|by apply counts_free].
  eapply wp_linux_free; [by eapply wp_release_owns|done].
Qed.

(** The monitor of the keyboard, and its end. *)
Definition lmade : st linuxw := after (hs_monitor_new (H0 := bump) (H1 := linuxw_udev) 200 lidle_call) lstart.

Lemma lmade_address :
  match hs_monitor_new (H0 := bump) (H1 := linuxw_udev) 200 lidle_call lstart with
  | Done ((r, Some m), _) => (r =? 0) && (lm_addr m =? 1)
  | _ => false
  end = true.
Proof. vm_compute. reflexivity. Qed.

Lemma lmade_owns : exists mo bs D, owns lstart lmade 1 mo [] bs D /\ enough 200 [] bs.
Proof.
  assert (2 + 0 + 66 < 200)%nat as Hf by (apply Nat.ltb_lt; by vm_compute).
  pose proof (wp_linux_new (H0 := bump) (H1 := linuxw_udev) lidle_call lidle_react lidle_calm linuxw_devpaths
    bump_documented 200 0 2 lstart linuxw_enumerable Hf) as Hwp.
  pose proof lmade_address as E. unfold lmade, after. unfold wp in Hwp.
  destruct (hs_monitor_new _ _ _) as [[[r [m|]] s]| |]; try done.
  destruct Hwp as [(_ & mon & um & [= ->] & mo & bs & D & Ho & Hr & _)|(_ & ? & _)]; [|done].
  apply andb_true_iff in E as [_ E%Z.eqb_eq]. cbn in E. subst mon.
  exists mo, bs, D. split; [done|]. eapply room_enough; [apply (ow_rep _ _ _ _ _ _ _ Ho)|exact Hr].
Qed.

Lemma linux_monitor_free_correct_witness :
  exists s', hs_monitor_free (H1 := linuxw_udev) 200 (Some (LinuxMonitor (H := linuxw_udev) 1 (Some tt))) lmade = Done (tt, s') /\
    same_objects lstart s' /\ lw_live (s_world s') = lw_live (s_world lmade) - 1.
Proof.
  destruct lmade_owns as (mo & bs & D & Ho & Hf).
  apply (@linux_monitor_free_correct linuxw linuxw_posix linuxw_udev lw_live 200 lstart lmade 1 tt mo [] bs D);
    [exact linuxw_handles|exact Ho|exact Hf].
Defined.

(** The keyboard is in the monitor, and nothing is left at the end. *)
Example linux_session :
  size (m_devs (s_mem lmade)) = 1%nat /\ lw_live (s_world lmade) = 1 /\
  match hs_monitor_free (H1 := linuxw_udev) 200 (Some (LinuxMonitor (H := linuxw_udev) 1 (Some tt))) lmade with
  | Done (_, s) => m_devs (s_mem s) = ∅ /\ m_mons (s_mem s) = ∅ /\ lw_live (s_world s) = 0
  | _ => False
  end.
Proof. vm_compute. by split_and!. Qed.
