(* ===== verification/SessionLinux.v ===== *)
(** A whole session of a program on Linux: the discovery of src/src/monitor_linux.c
    keeps the promises of [Session]. A monitor is made, used in any way, and freed;
    at the end the memory and the handles of udev are those from before. *)

From S2P Require Import Prelude Cstring Common DList Htable State Posix Device Heap Monitor MonitorSpec World Discovery Lifetime Session MonitorLinux MonitorLinuxSpec.

Definition linux_discovery {W} `{Posix W} `{Allocator W} `{Udev W} (fuel : nat)
    (call : ptr -> ptr -> ptr -> M (st W) Z) : Discovery (st W) := {|
  monitor_handle := linux_monitor W;
  monitor_addr := lm_addr;
  monitor_new := hs_monitor_new fuel call;
  monitor_free := hs_monitor_free fuel;
  monitor_refresh := hs_monitor_refresh fuel call
|}.

Section Session.
Context {W : Type} `{Posix W} `{Allocator W} `{Udev W}.
Variable fuel : nat.
Variable call : ptr -> ptr -> ptr -> M (st W) Z.
Variable react : ptr -> ptr -> hs_device -> ptr -> W -> Z * W.
Hypothesis call_react : calm call react.
Hypothesis devpaths : devpath_documented.
Hypothesis allocs : allocator_documented.
Variable pending : udev_monitor -> W -> list udev_device.
Hypothesis sockets : forall um, socket_documented call um (pending um).
(** How many events can be waiting. *)
Variable backlog : nat.
Hypothesis bounded : forall um w, (length (pending um w) <= backlog)%nat.
(** How many devices can be plugged in. *)
Variable n : nat.
Hypothesis plugged_in : enumerable n.
Variable live : W -> Z.
Hypothesis documented : handles_documented live.
Hypothesis steady_call : forall f dev udata, steady live (call f dev udata).
Implicit Types (s : st W) (D : gmap (string * Z) ptr).

(** The monitor owns its memory and one handle, and there is fuel for [k] more
    actions. *)
Definition working s0 (m : linux_monitor W) (k : nat) s : Prop :=
  is_Some (lm_monitor m) /\ live (s_world s) = live (s_world s0) + 1 /\
  exists mo cbs bs D, owns s0 s (lm_addr m) mo cbs bs D /\ room fuel mo cbs D (k * S backlog) /\
    mon_callback_id mo + Z.of_nat k <= INT_MAX.

Definition enough_for (k : nat) s : Prop := (n + k * S backlog + 66 < fuel)%nat /\ Z.of_nat k <= INT_MAX.

Definition given_back s s' : Prop := same_objects s s' /\ live (s_world s') = live (s_world s).

Lemma events_size V r V' l l' mon' : events (H := H) mon' l V r V' l' -> (size V' <= size V + length l)%nat.
Proof.
  assert (forall agg r V1 V2, event mon' agg V1 r V2 -> (size V2 <= S (size V1))%nat) as Hev.
  { intros agg r' V1 V2. unfold event.
    destruct (udev_device_get_action agg) as [action|]; [|done].
    destruct (udev_device_get_devpath agg) as [key|]; [|done]. case_bool_decide.
    - intros He. destruct He as [He|He|d k Hd Hk He|d k r' Hd Hk He Hr]; [lia..|]. by rewrite map_size_insert_None.
    - intros [_ ->]. case_bool_decide; [|lia]. pose proof (map_size_filter (fun e => e.1.1 <> key) V1). lia. }
  induction 1 as [V r Hr|agg l V r V' He Hr|agg l V r V1 r' V' l' He Hr Hevs IH]; cbn [length]; [lia| |].
  - pose proof (Hev _ _ _ _ He). lia.
  - pose proof (Hev _ _ _ _ He). lia.
Qed.

Lemma view_size s mon mo cbs bs D : mon_rep s mon mo cbs bs D -> size (view D (m_devs (s_mem s))) = size D.
Proof.
  intros Hrep. rewrite <- !size_dom. f_equal. apply set_eq. intros [k i]. rewrite !elem_of_dom.
  destruct (view_lookup _ _ _ _ _ _ k i Hrep) as [_ E]. rewrite <- !not_eq_None_Some. tauto.
Qed.

(** A refresh leaves a monitor that works. *)
Lemma working_refresh s0 m k s : working s0 m (S k) s ->
  wp (hs_monitor_refresh fuel call m) (fun _ s' => working s0 m k s') s.
Proof.
  destruct m as [mon om]. intros [[um Eum] (Hlive & mo & cbs & bs & D & Ho & Hroom & Hid)]. cbn [lm_monitor lm_addr] in *. subst om.
  pose proof (ow_rep _ _ _ _ _ _ _ Ho) as Hrep. pose proof (bounded um (s_world s)) as Hb.
  eapply wp_mono; [eapply (wp_steady live); [|by apply steady_refresh]|].
  { unfold hs_monitor_refresh. cbn [lm_monitor lm_addr].
    eapply (wp_events_loop call react call_react devpaths allocs fuel mon um (pending um) (sockets um)); [exact Hrep|..];
      unfold room in *; cbn [Nat.mul] in Hroom; lia. }
  intros r s' [(cbs' & bs' & D' & Hrep' & Hsub & (left & Hev & _) & Hown) Hl]. split; [by exists um|]. split; [congruence|].
  exists mo, cbs', bs', D'. split; [by apply Hown|].
  split; [|lia]. apply events_size in Hev. rewrite (view_size _ _ _ _ _ _ Hrep), (view_size _ _ _ _ _ _ Hrep') in Hev.
  pose proof (sublist_length _ _ Hsub). unfold room in *. cbn [Nat.mul] in Hroom. lia.
Qed.

Lemma working_new k s : enough_for k s -> wp (hs_monitor_new fuel call) (fun rm s' =>
  (0 <= rm.1 /\ exists m, rm.2 = Some m /\ working s m k s') \/ (rm.1 < 0 /\ rm.2 = None /\ given_back s s')) s.
Proof.
  intros [Hf Hk]. eapply wp_mono; [eapply (wp_counts live);
    [eapply (wp_linux_new call react call_react devpaths allocs fuel (k * S backlog) n); [done|lia]|by apply counts_new]|].
  intros [r m] s' [[(Er & mon & um & Em & mo & bs & D & Ho & Hroom & Hid & _)|(Er & Em & Hs)] Hl]; cbn in Em, Er, Hl; subst m; [left|right].
  - split; [cbn; lia|]. eexists. split; [done|]. split; [by exists um|]. split; [done|]. exists mo, [], bs, D. split; [done|]. split; [exact Hroom|lia].
  - split; [done|]. split; [done|]. split; [done|]. rewrite Hl. cbn. lia.
Qed.

Lemma working_free s0 m k s : working s0 m k s ->
  wp (hs_monitor_free fuel (Some m)) (fun _ s' => given_back s0 s') s.
Proof.
  destruct m as [mon om]. intros [[um Eum] (Hlive & mo & cbs & bs & D & Ho & Hroom & Hid)]. cbn [lm_monitor lm_addr] in *. subst om.
  eapply wp_mono; [eapply (wp_counts live _ _ (fun _ => - handle (Some (LinuxMonitor mon (Some um))))); [|by apply counts_free]|].
  - eapply (wp_linux_free fuel (fun _ s' => same_objects s0 s')); [|done]. eapply wp_release_owns; [exact Ho|].
    eapply room_enough; [apply (ow_rep _ _ _ _ _ _ _ Ho)|exact Hroom].
  - intros [] s' [Hs Hl]. split; [done|]. cbn in Hl. lia.
Qed.

#[local] Instance linux_promises : Promises (Discovery0 := linux_discovery fuel call) fuel
  (fun w w' => live w' = live w) enough_for working given_back.
Proof.
  split.
  - split; [done|]. intros w1 w2 w3 E1 E2. congruence.
  - apply (ha_malloc _ documented).
  - apply working_new.
  - done.
  - apply working_refresh.
  - apply working_free.
  - intros s0 m k s [Hm (Hlive & mo & cbs & bs & D & Ho & Hroom & Hid)]. exists mo, cbs, bs, D. split; [done|].
    split; [eapply room_enough; [apply (ow_rep _ _ _ _ _ _ _ Ho)|exact Hroom]|]. split; [lia|].
    intros y mo' cbs' Ho' Ed Eid Hlen _ El. split; [done|]. split; [cbn in *; congruence|]. exists mo', cbs', bs, D. split; [done|].
    unfold room in *. cbn [Nat.mul] in Hroom. rewrite Ed. split; lia.
Qed.

Lemma wp_linux_session l s : enough_for (length l) s -> Forall valid l ->
  wp (session (Discovery0 := linux_discovery fuel call) fuel call l) (fun _ s' => given_back s s') s.
Proof.
  intros Hl Hv. eapply (wp_session fuel call react call_react allocs); [|exact Hl|exact Hv].
  intros f dev d udata w Hdev. by apply (calm_steady live call).
Qed.
End Session.

(** C8: a session of any length leaves nothing behind. The monitor is made, or not;
    then callbacks are registered and deregistered, events are read and devices
    are listed in any order; then it is freed. Whatever fails on the way, every
    call returns without fault, and at the end the memory of the library is what it
    was, and so is the number of handles of udev. *)
Theorem linux_session_leaves_nothing {W} `{Posix W} `{Allocator W} `{Udev W} call react pending backlog live
    fuel n l (s : st W) :
  calm call react -> devpath_documented -> allocator_documented ->
  (forall um, socket_documented call um (pending um)) -> (forall um w, (length (pending um w) <= backlog)%nat) ->
  handles_documented live -> (forall f dev udata, steady live (call f dev udata)) ->
  enumerable n -> Forall valid l -> (n + length l * S backlog + 66 < fuel)%nat -> Z.of_nat (length l) <= INT_MAX ->
  exists r s', session (Discovery0 := linux_discovery fuel call) fuel call l s = Done (r, s') /\
    same_objects s s' /\ live (s_world s') = live (s_world s).
Proof.
  intros Hc Hdoc Hal Hsock Hback Hhand Hlive Hn Hl Hf Hmax.
  apply wp_inv, (wp_linux_session fuel call react Hc Hdoc Hal pending Hsock backlog Hback n Hn live Hhand Hlive); [by split|done].
Qed.

(** A callback is registered; the keyboard is unplugged and plugged in again, more
    than once; the callback is deregistered; the devices are listed. *)
Definition demo_actions : list action :=
  [ARegister 7 9; ARefresh; ARefresh; ADeregister 0; ARefresh; AList 7 9].

Lemma linux_session_leaves_nothing_witness :
  exists r s', session (H0 := bump) (Discovery0 := linux_discovery (H0 := bump) (H1 := linuxw_udev) 200 lidle_call)
      200 lidle_call demo_actions lstart = Done (r, s') /\
    same_objects lstart s' /\ lw_live (s_world s') = 0.
Proof.
  apply (@linux_session_leaves_nothing linuxw linuxw_posix bump linuxw_udev lidle_call lidle_react (fun _ => lw_queue) 3 lw_live
    200 2 demo_actions lstart).
  - exact lidle_calm.
  - exact linuxw_devpaths.
  - exact bump_documented.
  - intros []. exact linuxw_socket.
  - intros um [n [| | |] l o k]; apply Nat.leb_le; reflexivity.
  - exact linuxw_handles.
  - intros f dev udata. apply steady_ret.
  - exact linuxw_enumerable.
  - repeat constructor; discriminate.
  - apply Nat.ltb_lt. by vm_compute.
  - apply Z.leb_le. by vm_compute.
Defined.

(** The same session, run. *)
Example linux_demo_session :
  match session (H0 := bump) (Discovery0 := linux_discovery (H0 := bump) (H1 := linuxw_udev) 200 lidle_call)
      200 lidle_call demo_actions lstart with
  | Done (r, s) => r = 0 /\ m_devs (s_mem s) = ∅ /\ m_cbs (s_mem s) = ∅ /\ lw_live (s_world s) = 0 /\ lw_later (s_world s) = []
  | _ => False
  end.
Proof. vm_compute. by split_and!. Qed.
