(* ===== verification/Win32.v ===== *)
(** The Windows interface the library calls, as a class over the world [W], and
    src/src/platform_win32.c. The numbers are the documented values of the
    constants of the Windows headers. *)

From Stdlib Require Import Ascii.
From S2P Require Import Prelude Cstring Common DList Htable State Posix Platform.

(** The result of a call: its value, or a failure with [GetLastError()]. *)
Inductive wsys (A : Type) := WOk (a : A) | WErr (code : Z).
Arguments WOk {A} a.
Arguments WErr {A} code.

Definition ERROR_FILE_NOT_FOUND : Z := 2.
Definition ERROR_PATH_NOT_FOUND : Z := 3.
Definition ERROR_ACCESS_DENIED : Z := 5.
Definition ERROR_NOT_ENOUGH_MEMORY : Z := 8.
Definition ERROR_OUTOFMEMORY : Z := 14.
Definition ERROR_IO_INCOMPLETE : Z := 996.
Definition ERROR_IO_PENDING : Z := 997.
Definition INVALID_HANDLE_VALUE : Z := -1.
Definition WAIT_OBJECT_0 : Z := 0.
Definition WAIT_TIMEOUT : Z := 258.
Definition WAIT_FAILED : Z := 0xFFFFFFFF.
Definition INFINITE : Z := 0xFFFFFFFF.

(** The fields of DCB the library sets; the others are [dcb_rest]. *)
Record DCB := Dcb {
  BaudRate : Z;
  ByteSize : Z;
  fParity : bool;
  Parity : Z;
  StopBits : Z;
  fOutxCtsFlow : bool;
  fOutxDsrFlow : bool;
  fRtsControl : Z;
  fDtrControl : Z;
  fOutX : bool;
  fInX : bool;
  dcb_rest : Z
}.

Class Win32 (W : Type) := {
  (** whether [malloc] or [calloc] returns memory *)
  heap_ok : sysc W bool;
  (** the text of an error, as FormatMessage stores it; [None] when it fails *)
  FormatMessage : Z -> option string;
  (** the addresses _HS_INIT() looks up: whether they exist *)
  has_CancelIoEx : bool;
  has_GetTickCount64 : bool;
  has_RtlGetVersion : bool;
  GetTickCount64 : sysc W Z;
  QueryPerformanceFrequency : sysc W (bool * Z);
  QueryPerformanceCounter : sysc W (bool * Z);
  RtlGetVersion : sysc W (Z * Z);
  (** WaitForMultipleObjects(count, handles, FALSE, milliseconds) *)
  WaitForMultipleObjects : list Z -> Z -> sysc W (Z * Z);
  WaitForSingleObject : Z -> Z -> sysc W unit;
  (** CreateFile(path, ...), INVALID_HANDLE_VALUE on failure *)
  CreateFile : string -> sysc W (wsys Z);
  CloseHandle : Z -> sysc W unit;
  (** CreateEvent(NULL, TRUE, FALSE, NULL) *)
  CreateEvent : sysc W (wsys Z);
  SetCommTimeouts : Z -> sysc W unit;
  EscapeCommFunction_SETDTR : Z -> sysc W unit;
  GetCommState : Z -> sysc W (wsys DCB);
  SetCommState : Z -> DCB -> sysc W (wsys unit);
  GetCurrentThreadId : sysc W Z;
  CancelIo : Z -> sysc W unit;
  CancelIoEx : Z -> sysc W unit;
  (** ReadFile(handle, buf, size, NULL, ov): the start of a read *)
  ReadFile : Z -> Z -> sysc W (wsys unit);
  (** GetOverlappedResult of the read of the event: the bytes in its buffer *)
  GetOverlappedResult_read : Z -> Z -> bool -> sysc W (wsys (list Z));
  (** WriteFile(handle, buf, size, NULL, ov) and its GetOverlappedResult *)
  WriteFile : Z -> list Z -> sysc W (wsys unit);
  GetOverlappedResult_write : Z -> sysc W (wsys Z);
  (** DeviceIoControl(handle, IOCTL_HID_GET_FEATURE, buf, size, buf, size,
      NULL, ov) and its GetOverlappedResult: the length and the buffer *)
  DeviceIoControl_GET_FEATURE : Z -> list Z -> sysc W (wsys unit);
  GetOverlappedResult_feature : Z -> list Z -> sysc W (wsys (Z * list Z));
  HidD_SetFeature : Z -> list Z -> sysc W bool;
  (** HidD_GetPreparsedData, HidP_GetCaps (the usage page and the usage) and
      HidD_FreePreparsedData *)
  HidD_GetPreparsedData : Z -> sysc W (option Z);
  HidP_GetCaps : Z -> sysc W (option (Z * Z));
  HidD_FreePreparsedData : Z -> sysc W unit
}.

(** * Error messages *)

(** Whether a character is one the loop on [ptr[-1]] removes. *)
Definition newline (c : Ascii.ascii) : bool := (code c =? 10) || (code c =? 13).

(** [while (ptr > buf && (ptr[-1] == '\n' || ptr[-1] == '\r')) ptr--;] from the
    offset [ptr] in [buf]. *)
Fixpoint trim_loop (buf : string) (ptr : nat) : nat :=
  match ptr with
  | O => O
  | S p =>
      match String.get p buf with
      | Some c => if newline c then trim_loop buf p else ptr
      | None => ptr
      end
  end.

(** The loop from [buf + strlen(buf)], and [*ptr = 0]. *)
Definition trim (buf : string) : string :=
  String.substring 0 (trim_loop buf (String.length buf)) buf.

Section PlatformWin32.
Context {W : Type} `{Win32 W}.

(** [err] is GetLastError() when the argument of the C function is 0. *)
Definition hs_win32_strerror (err : Z) : string :=
  match FormatMessage err with
  | Some buf => trim buf
  | None => "(unknown)"
  end.

(** * Time and waiting *)

Definition GetTickCount64_fallback : M (st W) Z :=
  let* freq := load_static "freq" in
  (if freq =? 0 then
     let* rf := os QueryPerformanceFrequency in
     store_static "freq" rf.2 ;;;
     assert_ rf.1
   else ret tt) ;;;
  let* rn := os QueryPerformanceCounter in
  assert_ rn.1 ;;;
  let* freq := load_static "freq" in
  if freq =? 0 then fail DivisionByZero
  else ret (u64 (rn.2 * 1000) / freq).

(** What the static [GetTickCount64_] points to: NULL before _HS_INIT(), then the
    function of kernel32.dll or the fallback. *)
Definition KERNEL32_GetTickCount64 : Z := 1.
Definition FALLBACK_GetTickCount64 : Z := 2.

(** [_HS_INIT()] of platform_win32.c: the constructor of the library. *)
Definition platform_init : M (st W) unit :=
  store_static "GetTickCount64_" (if has_GetTickCount64 then KERNEL32_GetTickCount64 else NULL) ;;;
  let* GetTickCount64_ := load_static "GetTickCount64_" in
  (if GetTickCount64_ =? NULL then store_static "GetTickCount64_" FALLBACK_GetTickCount64 else ret tt) ;;;
  store_static "RtlGetVersion_" (if has_RtlGetVersion then 1 else NULL) ;;;
  let* RtlGetVersion_ := load_static "RtlGetVersion_" in
  assert_ (negb (RtlGetVersion_ =? NULL)).

Definition hs_millis : M (st W) Z :=
  let* GetTickCount64_ := load_static "GetTickCount64_" in
  if GetTickCount64_ =? NULL then fail BadAccess
  else if GetTickCount64_ =? KERNEL32_GetTickCount64 then os GetTickCount64
  else GetTickCount64_fallback.

Definition hs_poll (set : hs_descriptor_set) (timeout : Z) : M (st W) Z :=
  assert_ (negb (ds_count set =? 0)) ;;;
  assert_ (ds_count set <=? 64) ;;;
  let* rc := os (WaitForMultipleObjects (take (Z.to_nat (ds_count set)) (ds_desc set))
                   (if timeout <? 0 then INFINITE else u32 timeout)) in
  let '(r, err) := rc in
  if r =? WAIT_FAILED then
    error HS_ERROR_SYSTEM ("WaitForMultipleObjects() failed: " +:+ hs_win32_strerror err)
  else if r =? WAIT_TIMEOUT then ret 0
  else arr_get (ds_id set) (u32 (r - WAIT_OBJECT_0)).

(** [RtlGetVersion_] is not NULL once [platform_init] returned. *)
Definition hs_win32_version : M (st W) Z :=
  let* info := os RtlGetVersion in
  ret (u32 (u32 (info.1 * 100) + info.2)).
End PlatformWin32.

(** * Properties *)

(** The text [FormatMessage] is meant for: without its last line ends. *)
Definition newlines (s : string) : Prop := Forall (fun c => newline c = true) (String.list_ascii_of_string s).

Definition ends_in_newline (s : string) : Prop :=
  exists s' c, s = s' +:+ String c "" /\ newline c = true.

Lemma get_app_mid s c s' : String.get (String.length s) (s +:+ String c s') = Some c.
Proof. induction s as [|a s IH]; [done|exact IH]. Qed.

Lemma substring_app s s' : String.substring 0 (String.length s) (s +:+ s') = s.
Proof. induction s as [|a s IH]; [by destruct s'|exact (f_equal (String a) IH)]. Qed.

Lemma string_length_app s s' : String.length (s +:+ s') = (String.length s + String.length s')%nat.
Proof. induction s as [|a s IH]; [done|exact (f_equal S IH)]. Qed.

Lemma string_app_assoc (s1 s2 s3 : string) : (s1 +:+ s2) +:+ s3 = s1 +:+ (s2 +:+ s3).
Proof. induction s1 as [|a s1 IH]; [done|exact (f_equal (String a) IH)]. Qed.

(** A string is empty or ends in a character. *)
Lemma string_last s : s = "" \/ exists s' c, s = s' +:+ String c "".
Proof.
  induction s as [|a s [->|(s' & c & ->)]]; [by left|right; by exists "", a|right; by exists (String a s'), c].
Qed.

Lemma trim_loop_spec n s rest : String.length s = n -> newlines rest ->
  exists kept cut, s = kept +:+ cut /\ trim_loop (s +:+ rest) n = String.length kept /\
    newlines cut /\ ~ ends_in_newline kept.
Proof.
  revert s rest. induction n as [|n IH]; intros s rest Hn Hrest.
  - destruct s; [|done]. exists "", "". split_and!; [done..|by constructor|].
    intros (s' & c & E & _). by destruct s'.
  - destruct (string_last s) as [->|(s' & c & ->)]; [done|].
    rewrite string_length_app in Hn. cbn in Hn. assert (String.length s' = n) as <- by lia.
    rewrite string_app_assoc. change (String c "" +:+ rest) with (String c rest).
    cbn [trim_loop]. rewrite get_app_mid.
    destruct (newline c) eqn:Ec.
    + destruct (IH s' (String c rest) eq_refl) as (kept & cut & -> & El & Hc & Hk); [by constructor|].
      exists kept, (cut +:+ String c ""). split_and!; [by rewrite string_app_assoc|exact El| |done].
      unfold newlines in *. clear -Hc Ec. induction cut as [|a cut IH]; cbn in *; [by repeat constructor|].
      apply Forall_cons in Hc as [? ?]. by constructor; [|apply IH].
    + exists (s' +:+ String c ""), "". split_and!.
      * by rewrite string_app_assoc.
      * rewrite string_length_app. cbn. lia.
      * by constructor.
      * intros (s2 & c2 & E & Hc2).
        assert (String.get (String.length s') (s' +:+ String c "") = Some c) as E1 by apply get_app_mid.
        rewrite E in E1. apply (f_equal String.length) in E. rewrite !string_length_app in E. cbn in E.
        replace (String.length s') with (String.length s2) in E1 by lia.
        rewrite get_app_mid in E1. congruence.
Qed.

(** The message of an error is the text of [FormatMessage] without the line ends
    that end it, all of them and nothing else; a text of line ends only, which
    the pointer test [ptr > buf] stops in, is empty. *)
Theorem win32_strerror_trims {W} `{Win32 W} err :
  match FormatMessage err with
  | Some buf => exists cut, buf = hs_win32_strerror err +:+ cut /\ newlines cut /\
      ~ ends_in_newline (hs_win32_strerror err)
  | None => hs_win32_strerror err = "(unknown)"
  end.
Proof.
  unfold hs_win32_strerror. destruct (FormatMessage err) as [buf|]; [|done].
  destruct (trim_loop_spec (String.length buf) buf "") as (kept & cut & E & El & Hc & Hk);
    [done|by constructor|].
  assert (buf +:+ "" = buf) as E0 by (clear; induction buf as [|a b IH]; [done|exact (f_equal (String a) IH)]).
  rewrite E0 in El. exists cut. unfold trim. rewrite El. rewrite E at 2 3. by rewrite substring_app.
Qed.

Section WaitProperties.
Context {W : Type} `{Posix W} `{Win32 W}.

(** The documentation of WaitForMultipleObjects for objects that are not
    mutexes: a failure, a timeout, or the number of an object of the array; the
    wait for ever has no timeout. *)
Definition wait_documented : Prop :=
  forall handles t w r err w', WaitForMultipleObjects handles t w = ((r, err), w') -> handles <> [] ->
    r = WAIT_FAILED \/ (r = WAIT_TIMEOUT /\ t <> INFINITE) \/
    0 <= r - WAIT_OBJECT_0 < Z.of_nat (length handles).

(** [hs_poll] of Windows returns: the error of the wait, 0 for a timeout (not
    when it was negative), and otherwise the identifier of the object that is
    signaled, which is the one the wait names. *)
Theorem win32_poll_returns_signaled set timeout (s : st W) :
  wait_documented -> ds_ok set -> 0 < ds_count set ->
  exists r s' code err w,
    hs_poll set timeout s = Done (r, s') /\ s_mem s' = s_mem s /\ s_world s' = w /\
    WaitForMultipleObjects (elems set).*1 (if timeout <? 0 then INFINITE else u32 timeout) (s_world s)
      = ((code, err), w) /\
    ((code = WAIT_FAILED /\ r = HS_ERROR_SYSTEM) \/
     (code = WAIT_TIMEOUT /\ r = 0 /\ 0 <= timeout) \/
     (exists desc, elems set !! Z.to_nat (code - WAIT_OBJECT_0) = Some (desc, r))).
Proof.
  intros Hd Hok Hpos. pose proof Hok as (Hcnt & Hdesc & _). unfold DESC_MAX in Hcnt.
  assert ((elems set).*1 = take (Z.to_nat (ds_count set)) (ds_desc set)) as Efst.
  { unfold elems. apply fst_zip. destruct Hok as (_ & ? & ?). rewrite !length_take. lia. }
  destruct (WaitForMultipleObjects (elems set).*1 (if timeout <? 0 then INFINITE else u32 timeout)
    (s_world s)) as [[code err] w] eqn:E.
  assert (wp (hs_poll set timeout) (fun r s' => s_mem s' = s_mem s /\ s_world s' = w /\
    ((code = WAIT_FAILED /\ r = HS_ERROR_SYSTEM) \/
     (code = WAIT_TIMEOUT /\ r = 0 /\ 0 <= timeout) \/
     (exists desc, elems set !! Z.to_nat (code - WAIT_OBJECT_0) = Some (desc, r)))) s)
    as (r & s' & Er & H1 & H2 & H3)%wp_inv; [|by exists r, s', code, err, w].
  unfold hs_poll. wp_step. apply wp_assert; [apply negb_true_iff, Z.eqb_neq; lia|].
  wp_step. apply wp_assert; [apply Z.leb_le; lia|].
  wp_step. apply wp_os. intros [code' err'] w' E'. rewrite <- Efst, E in E'. injection E' as <- <- <-.
  destruct (Hd _ _ _ _ _ _ E) as [->|[[-> Ht]|Hr]].
  { intros E0%(f_equal length). rewrite length_fmap, elems_length in E0 by done. cbn in E0. lia. }
  - rewrite Z.eqb_refl. apply wp_error. split_and!; [done..|]. by left.
  - change (WAIT_TIMEOUT =? WAIT_FAILED) with false. rewrite Z.eqb_refl. wp_step.
    split_and!; [done..|]. right. left. split_and!; [done..|].
    by destruct (Z.ltb_spec timeout 0).
  - rewrite length_fmap, elems_length in Hr by done. unfold WAIT_OBJECT_0 in *.
    destruct (elems_lookup set (Z.to_nat code) Hok) as (desc & id & _ & Ei & Ee); [lia|].
    replace (code =? WAIT_FAILED) with false by (symmetry; apply Z.eqb_neq; unfold WAIT_FAILED; lia).
    replace (code =? WAIT_TIMEOUT) with false by (symmetry; apply Z.eqb_neq; unfold WAIT_TIMEOUT; lia).
    rewrite Z.sub_0_r in *. rewrite u32_small by lia.
    replace code with (Z.of_nat (Z.to_nat code)) at 1 by lia.
    eapply wp_intro; [by apply arr_get_eq|]. split_and!; [done..|]. right. right. by exists desc.
Qed.
End WaitProperties.

Section ClockProperties.
Context {W : Type} `{Posix W} `{Win32 W}.
Implicit Types s : st W.

Lemma load_static_eq x v (s : st W) : static x s = v -> load_static x s = Done (v, s).
Proof. by intros <-. Qed.

(** The documentation of the performance counter: it exists, the counter is not
    negative, and the frequency is fixed and positive. *)
Definition counter_documented (freq : Z) : Prop :=
  0 < freq /\ (forall w, (QueryPerformanceFrequency w).1 = (true, freq)) /\
  forall w, exists ticks, (QueryPerformanceCounter w).1 = (true, ticks) /\ 0 <= ticks.

(** The static frequency is not read yet, or it is what was read. *)
Definition freq_ok (freq : Z) s : Prop := static "freq" s = 0 \/ static "freq" s = freq.

(** Without GetTickCount64, as on Windows XP, the clock of the library is the
    performance counter in milliseconds; its frequency is read once. *)
Theorem win32_millis_fallback freq s : counter_documented freq -> freq_ok freq s ->
  static "GetTickCount64_" s = FALLBACK_GetTickCount64 ->
  exists ticks w s', hs_millis s = Done (u64 (ticks * 1000) / freq, s') /\
    (QueryPerformanceCounter w).1 = (true, ticks) /\ same_objects s s' /\
    static "freq" s' = freq /\ static "GetTickCount64_" s' = FALLBACK_GetTickCount64 /\
    (static "freq" s = freq -> w = s_world s).
Proof.
  intros (Hpos & Hfreq & Hticks) Hok Hst.
  enough (wp hs_millis (fun v s' => exists ticks w, v = u64 (ticks * 1000) / freq /\
    (QueryPerformanceCounter w).1 = (true, ticks) /\ same_objects s s' /\
    static "freq" s' = freq /\ static "GetTickCount64_" s' = FALLBACK_GetTickCount64 /\
    (static "freq" s = freq -> w = s_world s)) s) as (v & s' & E & ticks & w & -> & Hrest)%wp_inv
    by by exists ticks, w, s'.
  assert (Htail : forall s1, static "freq" s1 = freq -> static "GetTickCount64_" s1 = FALLBACK_GetTickCount64 ->
    same_objects s s1 -> (static "freq" s = freq -> s_world s1 = s_world s) ->
    wp (let* rn := os QueryPerformanceCounter in
        assert_ rn.1 ;;;
        let* freq := load_static "freq" in
        if freq =? 0 then fail DivisionByZero else ret (u64 (rn.2 * 1000) / freq))
      (fun v s' => exists ticks w, v = u64 (ticks * 1000) / freq /\
        (QueryPerformanceCounter w).1 = (true, ticks) /\ same_objects s s' /\
        static "freq" s' = freq /\ static "GetTickCount64_" s' = FALLBACK_GetTickCount64 /\
        (static "freq" s = freq -> w = s_world s)) s1).
  { intros s1 Hf1 Hg1 Ho1 Hw1. wp_step. apply wp_os. intros rn w Ew.
    destruct (Hticks (s_world s1)) as (ticks & Et & _). rewrite Ew in Et. cbn in Et. subst rn.
    wp_step. apply wp_assert; [done|]. wp_step. eapply wp_intro; [by apply load_static_eq|].
    rewrite (proj2 (Z.eqb_neq freq 0)) by lia. wp_step. exists ticks, (s_world s1).
    rewrite Ew. split_and!; [done|done|done|exact Hf1|exact Hg1|exact Hw1]. }
  unfold hs_millis. wp_step. eapply wp_intro; [by apply load_static_eq|].
  change (FALLBACK_GetTickCount64 =? NULL) with false.
  change (FALLBACK_GetTickCount64 =? KERNEL32_GetTickCount64) with false. cbv iota.
  unfold GetTickCount64_fallback. wp_step. eapply wp_intro; [done|]. wp_step.
  destruct (Z.eqb_spec (static "freq" s) 0) as [E0|E0].
  - wp_step. apply wp_os. intros rf w Ew. pose proof (Hfreq (s_world s)) as Ef. rewrite Ew in Ef. cbn in Ef. subst rf.
    wp_step. apply wp_modify. apply wp_assert; [done|]. apply Htail; [| |done|lia].
    + unfold static. cbn. by rewrite lookup_insert_eq.
    + unfold static in *. cbn. by rewrite lookup_insert_ne.
  - wp_step. destruct Hok as [?|Hf]; [done|]. by apply Htail.
Qed.

(** After the constructor the clock and the version of the system are there: the
    pointers are not NULL. *)
Theorem win32_platform_init s : has_RtlGetVersion = true ->
  exists s', platform_init s = Done (tt, s') /\ same_objects s s' /\ s_world s' = s_world s /\
    static "RtlGetVersion_" s' <> NULL /\
    static "GetTickCount64_" s' = (if has_GetTickCount64 then KERNEL32_GetTickCount64 else FALLBACK_GetTickCount64).
Proof.
  intros Hv. unfold platform_init, bind, load_static, static, store_static, modify. rewrite Hv. cbn.
  rewrite lookup_insert_eq. destruct has_GetTickCount64; cbn; rewrite lookup_insert_eq; cbn;
    (eexists; split; [done|]; cbn; split_and!; [done|done|by rewrite lookup_insert_eq|]).
  - by rewrite lookup_insert_ne, lookup_insert_eq.
  - by rewrite lookup_insert_ne, lookup_insert_eq.
Qed.
End ClockProperties.

(** * A scripted system, for the witnesses *)

(** Memory answers, the results of the next reads, and the open handles. *)
Record windows := Windows {
  ww_heap : list bool;
  ww_event : option Z;
  ww_reads : list (wsys (list Z));
  ww_opened : gset Z
}.

Definition new_handle (opened : gset Z) : Z := fresh ({[0; INVALID_HANDLE_VALUE]} ∪ opened).

Definition open_handle (w : windows) : Z * windows :=
  (new_handle (ww_opened w),
   Windows (ww_heap w) (ww_event w) (ww_reads w) ({[new_handle (ww_opened w)]} ∪ ww_opened w)).

Definition raw_dcb : DCB := Dcb 9600 8 false 0 0 false false 0 0 false false 0.

#[export] Instance windows_win32 : Win32 windows := {|
  heap_ok w :=
    (default true (head (ww_heap w)),
     Windows (tail (ww_heap w)) (ww_event w) (ww_reads w) (ww_opened w));
  FormatMessage _ := None;
  has_CancelIoEx := true;
  has_GetTickCount64 := true;
  has_RtlGetVersion := true;
  GetTickCount64 w := (0, w);
  QueryPerformanceFrequency w := ((true, 1), w);
  QueryPerformanceCounter w := ((true, 0), w);
  RtlGetVersion w := ((6, 1), w);
  WaitForMultipleObjects _ t w :=
    ((if t =? INFINITE then WAIT_OBJECT_0 else WAIT_TIMEOUT, 0), w);
  WaitForSingleObject _ _ w := (tt, w);
  CreateFile _ w := let '(f, w) := open_handle w in (WOk f, w);
  CloseHandle f w :=
    (tt, Windows (ww_heap w) (ww_event w) (ww_reads w) (ww_opened w ∖ {[f]}));
  CreateEvent w :=
    match ww_event w with
    | Some err => (WErr err, w)
    | None => let '(f, w) := open_handle w in (WOk f, w)
    end;
  SetCommTimeouts _ w := (tt, w);
  EscapeCommFunction_SETDTR _ w := (tt, w);
  GetCommState _ w := (WOk raw_dcb, w);
  SetCommState _ _ w := (WOk tt, w);
  GetCurrentThreadId w := (1, w);
  CancelIo _ w := (tt, w);
  CancelIoEx _ w := (tt, w);
  ReadFile _ _ w := (WErr ERROR_IO_PENDING, w);
  GetOverlappedResult_read _ _ _ w :=
    (match default (WErr ERROR_IO_INCOMPLETE) (head (ww_reads w)) with
     | WOk data => WOk (take 1024 data)
     | WErr e => WErr e
     end, Windows (ww_heap w) (ww_event w) (tail (ww_reads w)) (ww_opened w));
  WriteFile _ _ w := (WErr ERROR_IO_PENDING, w);
  GetOverlappedResult_write _ w := (WOk 0, w);
  DeviceIoControl_GET_FEATURE _ _ w := (WOk tt, w);
  GetOverlappedResult_feature _ buf w := (WOk (0, buf), w);
  HidD_SetFeature _ _ w := (true, w);
  HidD_GetPreparsedData _ w := (None, w);
  HidP_GetCaps _ w := (None, w);
  HidD_FreePreparsedData _ w := (tt, w)
|}.

Lemma open_handle_fresh w f w' : open_handle w = (f, w') ->
  f <> 0 /\ f <> INVALID_HANDLE_VALUE /\ f ∉ ww_opened w /\ ww_opened w' = {[f]} ∪ ww_opened w.
Proof.
  intros E. injection E as <- <-. cbn.
  pose proof (is_fresh ({[0; INVALID_HANDLE_VALUE]} ∪ ww_opened w)) as Hf.
  unfold new_handle in *. set_solver.
Qed.

(** A process with these answers and no object. *)
Definition windowed (w : windows) : st windows :=
  St w (common_init false) (Mem (LMem ∅ ∅) (HMem ∅ ∅) ∅ ∅ ∅ ∅).

Lemma windows_wait_documented : wait_documented (W := windows).
Proof.
  intros handles t w r err w' E Hne. cbn in E. destruct (Z.eqb_spec t INFINITE); injection E as <- <- <-.
  - right. right. destruct handles; [done|]. unfold WAIT_OBJECT_0. cbn [length]. lia.
  - by right; left.
Qed.

(** A wait for ever names the first object. *)
Example win32_poll_demo : exists s',
  hs_poll demo_set (-1) (windowed (Windows [] None [] ∅)) = Done (1, s').
Proof.
  destruct (win32_poll_returns_signaled demo_set (-1) (windowed (Windows [] None [] ∅)) windows_wait_documented)
    as (r & s' & code & err & w & E & _); [by split_and!|done|].
  exists s'. vm_compute in E. by injection E as <- <-.
Qed.

Example trim_demo : trim (String "a" (String (chr 10) (String "b" (String (chr 13) (String (chr 10) "")))))
  = String "a" (String (chr 10) "b").
Proof. reflexivity. Qed.
