(* ===== verification/DeviceWin32.v ===== *)
(** Handles on Windows: src/src/device_win32.c over
    src/src/device_win32_priv.h. A handle has one asynchronous read in its
    buffer at a time. *)

From S2P Require Import Prelude Common DList Htable State Posix Platform Device Win32.

(** struct hs_handle; [wh_ov] is the event of [*ov], [wh_ptr] the offset of
    [ptr] in the buffer. *)
Record win32_handle := Win32Handle {
  wh_dev : ptr;
  wh_handle : Z;
  wh_ov : option Z;
  wh_buf : option (list Z);
  wh_pending_thread : Z;
  wh_ptr : Z;
  wh_len : Z
}.

Definition with_dev (x : ptr) (h : win32_handle) : win32_handle :=
  Win32Handle x (wh_handle h) (wh_ov h) (wh_buf h) (wh_pending_thread h) (wh_ptr h) (wh_len h).
Definition with_handle (x : Z) (h : win32_handle) : win32_handle :=
  Win32Handle (wh_dev h) x (wh_ov h) (wh_buf h) (wh_pending_thread h) (wh_ptr h) (wh_len h).
Definition with_ov (x : option Z) (h : win32_handle) : win32_handle :=
  Win32Handle (wh_dev h) (wh_handle h) x (wh_buf h) (wh_pending_thread h) (wh_ptr h) (wh_len h).
Definition with_buf (x : option (list Z)) (h : win32_handle) : win32_handle :=
  Win32Handle (wh_dev h) (wh_handle h) (wh_ov h) x (wh_pending_thread h) (wh_ptr h) (wh_len h).
Definition with_pending (x : Z) (h : win32_handle) : win32_handle :=
  Win32Handle (wh_dev h) (wh_handle h) (wh_ov h) (wh_buf h) x (wh_ptr h) (wh_len h).
Definition with_ptr (x : Z) (h : win32_handle) : win32_handle :=
  Win32Handle (wh_dev h) (wh_handle h) (wh_ov h) (wh_buf h) (wh_pending_thread h) x (wh_len h).
Definition with_len (x : Z) (h : win32_handle) : win32_handle :=
  Win32Handle (wh_dev h) (wh_handle h) (wh_ov h) (wh_buf h) (wh_pending_thread h) (wh_ptr h) x.

(** [calloc(1, sizeof( *h))] *)
Definition handle_zero : win32_handle := Win32Handle NULL 0 None None 0 0 0.

Definition READ_BUFFER_SIZE : Z := 1024.

Section DeviceWin32.
Context {W : Type} `{Win32 W}.
(** [_beginthreadex(NULL, 0, overlapped_cleanup_thread, h, 0, NULL)] *)
Variable beginthreadex : win32_handle -> sysc W unit.

(** * Asynchronous reads *)

Definition event_of (h : win32_handle) : M (st W) Z :=
  match wh_ov h with
  | Some event => ret event
  | None => fail BadAccess
  end.

(** "I/O error while ... '%s'" with the path of the device. *)
Definition io_error (h : win32_handle) (what : string) : M (st W) Z :=
  let* d := load_dev (wh_dev h) in
  error HS_ERROR_IO ("I/O error while " +:+ what +:+ " '" +:+ str (dev_path d) +:+ "'").

Definition _hs_win32_start_async_read (h : win32_handle) : M (st W) (Z * win32_handle) :=
  let* r := os (ReadFile (wh_handle h) READ_BUFFER_SIZE) in
  if (match r with WErr e => negb (e =? ERROR_IO_PENDING) | WOk _ => false end) then
    os (CancelIo (wh_handle h)) ;;;
    let* r := io_error h "reading from" in
    ret (r, h)
  else
    let* thread := os GetCurrentThreadId in
    ret (0, with_pending thread h).

(** The system writes the bytes of a finished read at the start of [buf]. *)
Definition filled_buf (data : list Z) (h : win32_handle) : win32_handle :=
  with_buf (match wh_buf h with
            | Some buf => Some (data ++ drop (length data) buf)
            | None => None
            end) h.

Definition _hs_win32_finalize_async_read (h : win32_handle) (timeout : Z)
    : M (st W) (Z * win32_handle) :=
  let* event := event_of h in
  (if 0 <? timeout then os (WaitForSingleObject event timeout) else ret tt) ;;;
  let* r := os (GetOverlappedResult_read (wh_handle h) event (timeout <? 0)) in
  match r with
  | WErr e =>
      if e =? ERROR_IO_INCOMPLETE then ret (0, h)
      else
        let h := with_pending 0 h in
        let* r := io_error h "reading from" in
        ret (r, h)
  | WOk data => ret (Z.of_nat (length data), with_pending 0 (filled_buf data h))
  end.

(** * Opening and closing *)

Definition close_win32_device (h : option win32_handle) : M (st W) unit :=
  match h with
  | None => ret tt
  | Some h =>
      hs_device_unref (wh_dev h) ;;;
      let h := with_dev NULL h in
      let* thread := (if negb (wh_pending_thread h =? 0) then
                        if has_CancelIoEx then os (CancelIoEx (wh_handle h)) ;;; ret false
                        else
                          os (CancelIo (wh_handle h)) ;;;
                          let* me := os GetCurrentThreadId in
                          ret (negb (wh_pending_thread h =? me))
                      else ret false) in
      if thread : bool then os (beginthreadex h)
      else
        (if negb (wh_handle h =? 0) then os (CloseHandle (wh_handle h)) else ret tt) ;;;
        match wh_ov h with
        | Some event => if negb (event =? 0) then os (CloseHandle event) else ret tt
        | None => ret tt
        end
  end.

Definition overlapped_cleanup_thread (h : win32_handle) : M (st W) unit :=
  let* event := event_of h in
  os (WaitForSingleObject event 300000) ;;;
  let* r := os (GetOverlappedResult_read (wh_handle h) event false) in
  if (match r with WErr e => e =? ERROR_IO_INCOMPLETE | WOk _ => false end) then
    zoom (hs_log HS_LOG_WARNING
      "Cannot stop asynchronous read request, leaking handle and memory")
  else close_win32_device (Some (with_pending 0 h)).

Definition win32_closes (vt : vtable_id) (h : option win32_handle) : M (st W) unit :=
  match vt with
  | _hs_win32_device_vtable => close_win32_device h
  | _ => fail BadAccess
  end.

(** [error:] of [open_win32_device]. *)
Definition win32_error (r : Z) (h : option win32_handle)
    : M (st W) (Z * option win32_handle) :=
  hs_handle_close wh_dev win32_closes h ;;;
  ret (r, None).

(** The [switch] on GetLastError() after CreateFile. *)
Definition create_failed (err : Z) (path : string) : M (st W) Z :=
  if (err =? ERROR_FILE_NOT_FOUND) || (err =? ERROR_PATH_NOT_FOUND) then
    error HS_ERROR_NOT_FOUND ("Device '" +:+ path +:+ "' not found")
  else if (err =? ERROR_NOT_ENOUGH_MEMORY) || (err =? ERROR_OUTOFMEMORY) then memory_error
  else if err =? ERROR_ACCESS_DENIED then
    error HS_ERROR_ACCESS ("Permission denied for device '" +:+ path +:+ "'")
  else
    error HS_ERROR_SYSTEM
      ("CreateFile('" +:+ path +:+ "') failed: " +:+ hs_win32_strerror err).

Definition open_win32_device (dev : ptr) : M (st W) (Z * option win32_handle) :=
  let* ok := os heap_ok in
  if negb ok then
    let* r := memory_error in
    win32_error r None
  else
    let* dev := hs_device_ref dev in
    let* d := load_dev dev in
    match dev_path d with
    | None => fail BadAccess
    | Some path =>
        let h := with_dev dev handle_zero in
        let* file := os (CreateFile path) in
        match file with
        | WErr err =>
            let* r := create_failed err path in
            win32_error r (Some (with_handle INVALID_HANDLE_VALUE h))
        | WOk file =>
            let h := with_handle file h in
            let* ok := os heap_ok in
            if negb ok then
              let* r := memory_error in
              win32_error r (Some h)
            else
              let* event := os CreateEvent in
              match event with
              | WErr err =>
                  let* r := error HS_ERROR_SYSTEM
                    ("CreateEvent() failed: " +:+ hs_win32_strerror err) in
                  win32_error r (Some (with_ov (Some 0) h))
              | WOk event =>
                  let h := with_ov (Some event) h in
                  let* ok := os heap_ok in
                  if negb ok then
                    let* r := memory_error in
                    win32_error r (Some h)
                  else
                    let h := with_buf (Some (replicate (Z.to_nat READ_BUFFER_SIZE) 0)) h in
                    os (SetCommTimeouts file) ;;;
                    let* d := load_dev dev in
                    (if bool_decide (dev_type d = HS_DEVICE_TYPE_SERIAL)
                     then os (EscapeCommFunction_SETDTR file) else ret tt) ;;;
                    let* rh := _hs_win32_start_async_read h in
                    ret (0, Some rh.2)
              end
        end
    end.

Definition get_win32_descriptor (h : win32_handle) : M (st W) Z := event_of h.
End DeviceWin32.

(** * Specification *)

(** The documentation of the calls on handles: [opened] are the handles of the
    process. *)
Record handles_documented {W} `{Win32 W} (opened : W -> gset Z) : Prop := {
  hd_file : forall p w f w', CreateFile p w = (WOk f, w') ->
    f <> 0 /\ f <> INVALID_HANDLE_VALUE /\ f ∉ opened w /\ opened w' = {[f]} ∪ opened w;
  hd_file_err : forall p w e w', CreateFile p w = (WErr e, w') -> opened w' = opened w;
  hd_event : forall w f w', CreateEvent w = (WOk f, w') ->
    f <> 0 /\ f <> INVALID_HANDLE_VALUE /\ f ∉ opened w /\ opened w' = {[f]} ∪ opened w;
  hd_event_err : forall w e w', CreateEvent w = (WErr e, w') -> opened w' = opened w;
  hd_close : forall f w r w', CloseHandle f w = (r, w') -> opened w' = opened w ∖ {[f]};
  hd_heap : forall w r w', heap_ok w = (r, w') -> opened w' = opened w;
  hd_timeouts : forall f w r w', SetCommTimeouts f w = (r, w') -> opened w' = opened w;
  hd_setdtr : forall f w r w', EscapeCommFunction_SETDTR f w = (r, w') -> opened w' = opened w;
  hd_read : forall f n w r w', ReadFile f n w = (r, w') -> opened w' = opened w;
  hd_thread : forall w r w', GetCurrentThreadId w = (r, w') -> opened w' = opened w;
  hd_cancel : forall f w r w', CancelIo f w = (r, w') -> opened w' = opened w;
  hd_cancelex : forall f w r w', CancelIoEx f w = (r, w') -> opened w' = opened w
}.

Section Lemmas.
Context {W : Type} `{Win32 W}.
Variable opened : W -> gset Z.
Hypothesis Hdoc : handles_documented opened.
Implicit Types s : st W.

Lemma wp_io_error (Q : Z -> st W -> Prop) h what s :
  is_Some (m_devs (s_mem s) !! wh_dev h) ->
  (forall s', s_mem s' = s_mem s -> s_world s' = s_world s -> Q HS_ERROR_IO s') ->
  wp (io_error h what) Q s.
Proof.
  intros [d Hd] HQ. unfold io_error. wp_step. eapply wp_load_dev; [exact Hd|].
  apply wp_error. by apply HQ.
Qed.

Lemma wp_start_async_read (Q : Z * win32_handle -> st W -> Prop) h s :
  is_Some (m_devs (s_mem s) !! wh_dev h) ->
  (forall thread s', s_mem s' = s_mem s -> opened (s_world s') = opened (s_world s) ->
     Q (0, with_pending thread h) s') ->
  (forall s', s_mem s' = s_mem s -> opened (s_world s') = opened (s_world s) ->
     Q (HS_ERROR_IO, h) s') ->
  wp (_hs_win32_start_async_read h) Q s.
Proof.
  intros Hd Hok Herr. unfold _hs_win32_start_async_read. wp_step. apply wp_os. intros r w E.
  apply (hd_read _ Hdoc) in E. case_match.
  - wp_step. apply wp_os. intros [] w2 E2. apply (hd_cancel _ Hdoc) in E2. cbn in E2.
    wp_step. apply wp_io_error; [done|]. intros s3 Hm3 Hw3. wp_step.
    apply Herr; [done|]. rewrite Hw3. cbn. congruence.
  - wp_step. apply wp_os. intros t w2 E2. apply (hd_thread _ Hdoc) in E2. cbn in E2.
    wp_step. apply Hok; [done|]. cbn. congruence.
Qed.

(** The handles [close_win32_device] closes. *)
Definition nonzero (x : Z) : gset Z := if x =? 0 then ∅ else {[x]}.
Definition closed_of (h : win32_handle) : gset Z :=
  nonzero (wh_handle h) ∪ match wh_ov h with Some e => nonzero e | None => ∅ end.

Lemma wp_close_nonzero (Q : unit -> st W -> Prop) x s :
  (forall w, opened w = opened (s_world s) ∖ nonzero x -> Q tt (with_world (fun _ => w) s)) ->
  wp (if negb (x =? 0) then os (CloseHandle x) else ret tt) Q s.
Proof.
  intros HQ. unfold nonzero in HQ. destruct (x =? 0); cbn [negb].
  - wp_step. replace s with (with_world (fun _ => s_world s) s) by by destruct s.
    apply HQ. set_solver.
  - apply wp_os. intros [] w E. apply HQ. by apply (hd_close _ Hdoc) in E.
Qed.

(** Closing in the cases where it is done at once. *)
Lemma wp_close_win32_device bt (Q : unit -> st W -> Prop) h d s0 s :
  wh_dev h <> NULL -> m_devs (s_mem s0) !! wh_dev h = Some d ->
  1 <= dev_refcount d < 2 ^ 32 - 1 ->
  s_mem s = s_mem (set_refcount (wh_dev h) (dev_refcount d + 1) d s0) ->
  wh_pending_thread h = 0 \/ has_CancelIoEx = true ->
  (forall s', s_mem s' = s_mem s0 ->
     opened (s_world s') = opened (s_world s) ∖ closed_of h -> Q tt s') ->
  wp (close_win32_device bt (Some h)) Q s.
Proof.
  intros Hn Hd Hr Hm Hpend HQ. cbn [close_win32_device]. wp_step.
  destruct (unref_back (wh_dev h) d s0 s Hn Hd Hr Hm) as (s1 & E1 & Hm1 & Hw1).
  eapply wp_intro; [exact E1|]. cbn [with_dev wh_pending_thread wh_handle wh_ov].
  assert (Hend : forall s2, s_mem s2 = s_mem s0 -> opened (s_world s2) = opened (s_world s) ->
    wp ((if negb (wh_handle h =? 0) then os (CloseHandle (wh_handle h)) else ret tt) ;;;
        match wh_ov h with
        | Some event => if negb (event =? 0) then os (CloseHandle event) else ret tt
        | None => ret tt
        end) Q s2).
  { intros s2 Hm2 Hw2. wp_step. apply wp_close_nonzero. intros w3 Hw3.
    unfold closed_of in HQ. destruct (wh_ov h) as [e|].
    - apply wp_close_nonzero. intros w4 Hw4. apply HQ; [done|]. cbn in *. set_solver.
    - wp_step. apply HQ; [done|]. cbn in *. set_solver. }
  wp_step. destruct (Z.eqb_spec (wh_pending_thread h) 0) as [E|E]; cbn [negb].
  - wp_step. apply Hend; [done|]. by rewrite Hw1.
  - destruct Hpend as [|Hex]; [done|]. rewrite Hex. wp_step. apply wp_os. intros [] w2 E2.
    apply (hd_cancelex _ Hdoc) in E2. wp_step. apply Hend; [done|]. cbn. by rewrite E2, Hw1.
Qed.

Lemma wp_create_failed (Q : Z -> st W -> Prop) err path s :
  (forall r s', r < 0 -> s_mem s' = s_mem s -> s_world s' = s_world s -> Q r s') ->
  wp (create_failed err path) Q s.
Proof.
  intros HQ. unfold create_failed.
  repeat case_match; first [apply wp_error|apply wp_memory_error]; by apply HQ.
Qed.

(** The error path: the reference and the handles are given back. *)
Definition unopened (s0 : st W) (rh : Z * option win32_handle) (s' : st W) : Prop :=
  rh.1 < 0 /\ rh.2 = None /\ s_mem s' = s_mem s0 /\ opened (s_world s') = opened (s_world s0).

Lemma wp_win32_error bt r h d s0 s :
  wh_dev h <> NULL -> m_devs (s_mem s0) !! wh_dev h = Some d ->
  dev_vtable d = _hs_win32_device_vtable -> 1 <= dev_refcount d < 2 ^ 32 - 1 ->
  s_mem s = s_mem (set_refcount (wh_dev h) (dev_refcount d + 1) d s0) ->
  wh_pending_thread h = 0 -> r < 0 ->
  opened (s_world s) ∖ closed_of h = opened (s_world s0) ->
  wp (win32_error bt r (Some h)) (unopened s0) s.
Proof.
  intros Hn Hd Hv Hr Hm Hp Hneg Ho. unfold win32_error, hs_handle_close. wp_step. wp_step.
  eapply wp_load_dev; [rewrite Hm; apply set_refcount_lookup|].
  cbn [dev_vtable dev_with_refcount]. rewrite Hv. cbn [win32_closes].
  eapply wp_close_win32_device; [done|done|done|done|by left|].
  intros s' Hm' Hw'. wp_step. split; [done|]. split; [done|]. split; [done|]. by rewrite Hw'.
Qed.

(** The fields every reading function needs. *)
Definition handle_ready (h : win32_handle) : Prop :=
  exists event buf, wh_ov h = Some event /\ wh_buf h = Some buf /\
    Z.of_nat (length buf) = READ_BUFFER_SIZE.

Definition is_opened (dev : ptr) (d : hs_device) (s0 : st W) (rh : Z * option win32_handle)
    (s' : st W) : Prop :=
  exists h, rh = (0, Some h) /\ wh_dev h = dev /\ handle_ready h /\ wh_len h = 0 /\
    s_mem s' = s_mem (set_refcount dev (dev_refcount d + 1) d s0) /\
    opened (s_world s') = closed_of h ∪ opened (s_world s0) /\
    closed_of h ## opened (s_world s0).

(** The first read is started; whether it could be is not looked at. *)
Lemma wp_start_reading dev d h s0 s : wh_dev h = dev -> handle_ready h -> wh_len h = 0 ->
  s_mem s = s_mem (set_refcount dev (dev_refcount d + 1) d s0) ->
  opened (s_world s) = closed_of h ∪ opened (s_world s0) -> closed_of h ## opened (s_world s0) ->
  wp (let* rh := _hs_win32_start_async_read h in ret (0, Some rh.2)) (is_opened dev d s0) s.
Proof.
  intros <- Hr Hl Hm Ho Hd. wp_step. apply wp_start_async_read.
  - rewrite Hm. eexists. apply set_refcount_lookup.
  - intros t s' Hm' Hw'. wp_step. exists (with_pending t h). split_and!; [done..|by rewrite Hm'|by rewrite Hw'|done].
  - intros s' Hm' Hw'. wp_step. exists h. split_and!; [done..|by rewrite Hm'|by rewrite Hw'|done].
Qed.

Lemma wp_open_win32_device bt dev d path s :
  dev <> NULL -> m_devs (s_mem s) !! dev = Some d -> dev_path d = Some path ->
  dev_vtable d = _hs_win32_device_vtable -> 1 <= dev_refcount d < 2 ^ 32 - 1 ->
  INVALID_HANDLE_VALUE ∉ opened (s_world s) ->
  wp (open_win32_device bt dev)
    (fun rh s' => unopened s rh s' \/ is_opened dev d s rh s') s.
Proof.
  intros Hn Hd Hp Hv Hr Hinv. unfold open_win32_device.
  assert (Herr : forall r h s1, r < 0 -> wh_dev h = dev -> wh_pending_thread h = 0 ->
    s_mem s1 = s_mem (set_refcount dev (dev_refcount d + 1) d s) ->
    opened (s_world s1) ∖ closed_of h = opened (s_world s) ->
    wp (win32_error bt r (Some h)) (fun rh s' => unopened s rh s' \/ is_opened dev d s rh s') s1).
  { intros r h s1 Hneg <- Hpe Hm Ho. eapply wp_mono; [by eapply wp_win32_error|]. auto. }
  wp_step. apply wp_os. intros ok w E. apply (hd_heap _ Hdoc) in E. destruct ok; cbn [negb].
  2:{ wp_step. apply wp_memory_error. unfold win32_error. wp_steps. left. by split_and!. }
  wp_step. eapply wp_intro; [apply (hs_device_ref_eq _ _ d); [done|done|lia]|].
  wp_step. eapply wp_load_dev; [apply set_refcount_lookup|].
  cbn [dev_path dev_with_refcount]. rewrite Hp. wp_step. apply wp_os. intros file w1 E1.
  destruct file as [file|err].
  2:{ apply (hd_file_err _ Hdoc) in E1. cbn in E1. wp_step. apply wp_create_failed.
      intros r s2 Hneg Hm2 Hw2. apply Herr; [done|done|done|by rewrite Hm2|].
      rewrite Hw2. change (closed_of _) with ({[INVALID_HANDLE_VALUE]} ∪ (∅ : gset Z)).
      cbn [s_world with_world set_refcount with_devs]. rewrite E1, E. clear - Hinv. set_solver. }
  apply (hd_file _ Hdoc) in E1 as (F0 & F1 & F2 & F3). cbn in F2, F3. rewrite E in F2, F3.
  assert (Hc1 : closed_of (with_handle file (with_dev dev handle_zero)) = {[file]}).
  { unfold closed_of, nonzero. cbn. rewrite (proj2 (Z.eqb_neq _ _) F0). set_solver. }
  wp_step. apply wp_os. intros ok w2 E2. apply (hd_heap _ Hdoc) in E2. cbn in E2.
  destruct ok; cbn [negb].
  2:{ wp_step. apply wp_memory_error. apply Herr; [done|done|done|done|].
      cbn [with_error with_part]. cbn. rewrite Hc1, E2, F3. set_solver. }
  wp_step. apply wp_os. intros event w3 E3. destruct event as [event|err].
  2:{ apply (hd_event_err _ Hdoc) in E3. cbn in E3. wp_step. apply wp_error.
      apply Herr; [done|done|done|done|]. cbn. unfold closed_of, nonzero. cbn.
      rewrite (proj2 (Z.eqb_neq _ _) F0), E3, E2, F3. set_solver. }
  apply (hd_event _ Hdoc) in E3 as (G0 & G1 & G2 & G3). cbn in G2, G3. rewrite E2, F3 in G2, G3.
  assert (Hc2 : forall h, wh_handle h = file -> wh_ov h = Some event ->
    closed_of h = {[file]} ∪ {[event]}).
  { intros h Eh Eo. unfold closed_of, nonzero. rewrite Eh, Eo.
    by rewrite (proj2 (Z.eqb_neq _ _) F0), (proj2 (Z.eqb_neq _ _) G0). }
  wp_step. apply wp_os. intros ok w4 E4. apply (hd_heap _ Hdoc) in E4. cbn in E4.
  destruct ok; cbn [negb].
  2:{ wp_step. apply wp_memory_error. apply Herr; [done|done|done|done|].
      cbn. rewrite Hc2, E4, G3 by done. set_solver. }
  wp_step. apply wp_os. intros [] w5 E5. apply (hd_timeouts _ Hdoc) in E5. cbn in E5.
  wp_step. eapply wp_load_dev; [apply set_refcount_lookup|].
  wp_step. set (h := with_buf _ _).
  assert (Hfin : forall s1, s_mem s1 = s_mem (set_refcount dev (dev_refcount d + 1) d s) ->
    opened (s_world s1) = opened w5 ->
    wp (let* rh := _hs_win32_start_async_read h in ret (0, Some rh.2))
      (fun rh s' => unopened s rh s' \/ is_opened dev d s rh s') s1).
  { intros s1 Hm1 Hw1. eapply wp_mono; [apply wp_start_reading; [done| |done|exact Hm1|..]|auto].
    - by exists event, (replicate (Z.to_nat READ_BUFFER_SIZE) 0).
    - rewrite (Hc2 h) by done. rewrite Hw1, E5, E4, G3. set_solver.
    - rewrite (Hc2 h) by done. set_solver. }
  case_match.
  - apply wp_os. intros [] w6 E6. apply (hd_setdtr _ Hdoc) in E6. by apply Hfin.
  - wp_step. by apply Hfin.
Qed.
End Lemmas.


Lemma windows_handles_documented : handles_documented (W := windows) ww_opened.
Proof.
  split.
  - intros p w f w' E. apply open_handle_fresh. unfold open_handle. cbn in E.
    by injection E as <- <-.
  - intros p w e w' E. discriminate.
  - intros w f w' E. apply open_handle_fresh. unfold open_handle. cbn in E.
    destruct (ww_event w); [discriminate|]. by injection E as <- <-.
  - intros w e w' E. cbn in E. destruct (ww_event w); [by injection E as <- <-|discriminate].
  - intros f w r w' E. by injection E as <- <-.
  - intros w r w' E. by injection E as <- <-.
  - intros f w r w' E. by injection E as <- <-.
  - intros f w r w' E. by injection E as <- <-.
  - intros f n w r w' E. by injection E as <- <-.
  - intros w r w' E. by injection E as <- <-.
  - intros f w r w' E. by injection E as <- <-.
  - intros f w r w' E. by injection E as <- <-.
Qed.

(** A serial port at 64. *)
Definition com_port : hs_device :=
  Device NULL 1 (Some "USB\VID_16C0") HS_DEVICE_TYPE_SERIAL _hs_win32_device_vtable
    HS_DEVICE_STATUS_ONLINE None (Some "\\.\COM3") 0 0 None None None 0.
Definition with_com (w : windows) : st windows :=
  with_devs (fun _ => {[64 := com_port]}) (windowed w).

