(* ===== verification/SerialWin32.v ===== *)
(** Serial ports on Windows: src/src/serial_win32.c. *)

From S2P Require Import Prelude Common DList Htable State Posix Platform Device SerialPosix Win32 DeviceWin32.

Definition NOPARITY : Z := 0.
Definition ODDPARITY : Z := 1.
Definition EVENPARITY : Z := 2.
Definition TWOSTOPBITS : Z := 2.
Definition RTS_CONTROL_DISABLE : Z := 0.
Definition RTS_CONTROL_ENABLE : Z := 1.
Definition DTR_CONTROL_DISABLE : Z := 0.

Section SerialWin32.
Context {W : Type} `{Win32 W}.

Definition win32_handle_dev (type : hs_device_type) (h : win32_handle) : M (st W) hs_device :=
  let* d := load_dev (wh_dev h) in
  assert_ (bool_decide (dev_type d = type)) ;;;
  ret d.

Definition set_rate (rate : Z) (dcb : DCB) : M (st W) DCB :=
  if bool_decide (rate ∈ serial_rates) then
    ret (Dcb rate (ByteSize dcb) (fParity dcb) (Parity dcb) (StopBits dcb) (fOutxCtsFlow dcb)
           (fOutxDsrFlow dcb) (fRtsControl dcb) (fDtrControl dcb) (fOutX dcb) (fInX dcb)
           (dcb_rest dcb))
  else fail AssertFailed.

Definition with_ByteSize (x : Z) (dcb : DCB) : DCB :=
  Dcb (BaudRate dcb) x (fParity dcb) (Parity dcb) (StopBits dcb) (fOutxCtsFlow dcb)
    (fOutxDsrFlow dcb) (fRtsControl dcb) (fDtrControl dcb) (fOutX dcb) (fInX dcb) (dcb_rest dcb).
Definition with_Parity (f : bool) (x : Z) (dcb : DCB) : DCB :=
  Dcb (BaudRate dcb) (ByteSize dcb) f x (StopBits dcb) (fOutxCtsFlow dcb)
    (fOutxDsrFlow dcb) (fRtsControl dcb) (fDtrControl dcb) (fOutX dcb) (fInX dcb) (dcb_rest dcb).
Definition with_StopBits (x : Z) (dcb : DCB) : DCB :=
  Dcb (BaudRate dcb) (ByteSize dcb) (fParity dcb) (Parity dcb) x (fOutxCtsFlow dcb)
    (fOutxDsrFlow dcb) (fRtsControl dcb) (fDtrControl dcb) (fOutX dcb) (fInX dcb) (dcb_rest dcb).
Definition with_flow (cts dsr : bool) (rts dtr : Z) (outx inx : bool) (dcb : DCB) : DCB :=
  Dcb (BaudRate dcb) (ByteSize dcb) (fParity dcb) (Parity dcb) (StopBits dcb) cts dsr rts dtr
    outx inx (dcb_rest dcb).

Definition set_csize (flags : Z) (dcb : DCB) : DCB :=
  let f := Z.land flags HS_SERIAL_MASK_CSIZE in
  if f =? HS_SERIAL_CSIZE_5BITS then with_ByteSize 5 dcb
  else if f =? HS_SERIAL_CSIZE_6BITS then with_ByteSize 6 dcb
  else if f =? HS_SERIAL_CSIZE_7BITS then with_ByteSize 7 dcb
  else with_ByteSize 8 dcb.

Definition set_parity (flags : Z) (dcb : DCB) : M (st W) DCB :=
  let f := Z.land flags HS_SERIAL_MASK_PARITY in
  if f =? 0 then ret (with_Parity false NOPARITY dcb)
  else if f =? HS_SERIAL_PARITY_ODD then ret (with_Parity true ODDPARITY dcb)
  else if f =? HS_SERIAL_PARITY_EVEN then ret (with_Parity true EVENPARITY dcb)
  else fail AssertFailed.

Definition set_stop (flags : Z) (dcb : DCB) : DCB :=
  let dcb := with_StopBits 0 dcb in
  if negb (Z.land flags HS_SERIAL_STOP_2BITS =? 0) then with_StopBits TWOSTOPBITS dcb else dcb.

Definition set_flow (flags : Z) (dcb : DCB) : M (st W) DCB :=
  let dcb := with_flow false false RTS_CONTROL_DISABLE DTR_CONTROL_DISABLE false false dcb in
  let f := Z.land flags HS_SERIAL_MASK_FLOW in
  if f =? 0 then ret dcb
  else if f =? HS_SERIAL_FLOW_XONXOFF then
    ret (with_flow (fOutxCtsFlow dcb) (fOutxDsrFlow dcb) (fRtsControl dcb) (fDtrControl dcb)
           true true dcb)
  else if f =? HS_SERIAL_FLOW_RTSCTS then
    ret (with_flow true (fOutxDsrFlow dcb) RTS_CONTROL_ENABLE (fDtrControl dcb)
           (fOutX dcb) (fInX dcb) dcb)
  else fail AssertFailed.

Definition hs_serial_set_attributes (h : win32_handle) (rate flags : Z) : M (st W) Z :=
  let* _ := win32_handle_dev HS_DEVICE_TYPE_SERIAL h in
  let* r := os (GetCommState (wh_handle h)) in
  match r with
  | WErr e => error HS_ERROR_SYSTEM ("GetCommState() failed: " +:+ hs_win32_strerror e)
  | WOk dcb =>
      let* dcb := set_rate rate dcb in
      let dcb := set_csize flags dcb in
      let* dcb := set_parity flags dcb in
      let dcb := set_stop flags dcb in
      let* dcb := set_flow flags dcb in
      let* r := os (SetCommState (wh_handle h) dcb) in
      match r with
      | WErr e => error HS_ERROR_SYSTEM ("SetCommState() failed: " +:+ hs_win32_strerror e)
      | WOk _ => ret 0
      end
  end.

(** [memcpy(buf, h->ptr, size)] *)
Definition copy_out (h : win32_handle) (size : Z) : M (st W) (list Z) :=
  match wh_buf h with
  | None => fail BadAccess
  | Some buf =>
      if (0 <=? wh_ptr h) && (wh_ptr h + size <=? Z.of_nat (length buf))
      then ret (take (Z.to_nat size) (drop (Z.to_nat (wh_ptr h)) buf))
      else fail OutOfBounds
  end.

(** "Could be a transient error, try to restart it". *)
Definition restart_read (h : win32_handle) : M (st W) win32_handle :=
  if wh_len h <? 0 then
    let* rh := _hs_win32_start_async_read h in
    ret (with_len rh.1 rh.2)
  else ret h.

(** The next request, with the errors masked. *)
Definition next_read (h : win32_handle) : M (st W) win32_handle :=
  zoom (hs_error_mask HS_ERROR_IO) ;;;
  let* rh := _hs_win32_start_async_read h in
  zoom hs_error_unmask ;;;
  ret (with_len rh.1 rh.2).

(** The result, the bytes at the start of [buf] and the handle. *)
Definition hs_serial_read (h : win32_handle) (size timeout : Z)
    : M (st W) (Z * (list Z * win32_handle)) :=
  let* _ := win32_handle_dev HS_DEVICE_TYPE_SERIAL h in
  assert_ (negb (size =? 0)) ;;;
  let* h := restart_read h in
  if wh_len h <? 0 then ret (wh_len h, ([], h))
  else
    let* h := (if wh_len h =? 0 then
                 let* rh := _hs_win32_finalize_async_read h timeout in
                 let h := with_len rh.1 rh.2 in
                 ret (if wh_len h <=? 0 then h else with_ptr 0 h)
               else ret h) in
    if wh_len h <=? 0 then ret (wh_len h, ([], h))
    else
      let size := (if wh_len h <? size then wh_len h else size) in
      let* bytes := copy_out h size in
      let h := with_ptr (wh_ptr h + size) h in
      let h := with_len (wh_len h - size) h in
      let* h := (if wh_len h =? 0 then next_read h else ret h) in
      ret (size, (bytes, h)).

(** The writes of [hs_serial_write] and [hs_hid_write]. *)
Definition overlapped_write (h : win32_handle) (buf : list Z) : M (st W) Z :=
  let* r := os (WriteFile (wh_handle h) buf) in
  if (match r with WErr e => negb (e =? ERROR_IO_PENDING) | WOk _ => false end) then
    os (CancelIo (wh_handle h)) ;;;
    io_error h "writing to"
  else
    let* r := os (GetOverlappedResult_write (wh_handle h)) in
    match r with
    | WErr _ => io_error h "writing to"
    | WOk len => ret len
    end.

Definition hs_serial_write (h : win32_handle) (buf : list Z) (size : Z) : M (st W) Z :=
  let* _ := win32_handle_dev HS_DEVICE_TYPE_SERIAL h in
  if size =? 0 then ret 0
  else overlapped_write h (take (Z.to_nat size) buf).
End SerialWin32.

(** * Reading *)

(** The documentation of ReadFile and GetOverlappedResult: a read stores no
    more bytes than it was given room for. *)
Definition overlapped_documented {W} `{Win32 W} : Prop :=
  forall hd event wait w data w',
    GetOverlappedResult_read hd event wait w = (WOk data, w') ->
    Z.of_nat (length data) <= READ_BUFFER_SIZE.

(** [got] are the bytes of one finished read of the handle. *)
Definition delivered {W} `{Win32 W} (h : win32_handle) (got : list Z) : Prop :=
  exists event wait w w', GetOverlappedResult_read (wh_handle h) event wait w = (WOk got, w').

(** A handle between two calls: the unread bytes lie in the buffer. *)
Definition stream_ok (h : win32_handle) : Prop :=
  handle_ready h /\
  (0 < wh_len h -> 0 <= wh_ptr h /\ wh_ptr h + wh_len h <= READ_BUFFER_SIZE).

(** The bytes read from the system and not yet given to the user. *)
Definition buffered (h : win32_handle) : list Z :=
  match wh_buf h with
  | Some buf => take (Z.to_nat (wh_len h)) (drop (Z.to_nat (wh_ptr h)) buf)
  | None => []
  end.

Section Reading.
Context {W : Type} `{Win32 W}.
Hypothesis Hdoc : overlapped_documented.
Implicit Types (s : st W) (h : win32_handle).

(** The stack of masks has room for one more; only its top part, the log and
    the world may change. *)
Definition calls_ok s : Prop :=
  common_ok (s_common s) /\ mask_count (s_common s) < MASK_SIZE.
Definition step_ok s s' : Prop :=
  s_mem s' = s_mem s /\ mask_count (s_common s') = mask_count (s_common s) /\
  common_ok (s_common s').

Lemma step_ok_trans s1 s2 s3 : step_ok s1 s2 -> step_ok s2 s3 -> step_ok s1 s3.
Proof. unfold step_ok. intuition congruence. Qed.

Lemma step_ok_world w s : common_ok (s_common s) -> step_ok s (with_world w s).
Proof. by split. Qed.

Lemma calls_ok_step s s' : calls_ok s -> step_ok s s' -> calls_ok s'.
Proof. unfold calls_ok, step_ok. intuition congruence. Qed.

Lemma wp_io_error_ok (Q : Z -> st W -> Prop) h what s :
  is_Some (m_devs (s_mem s) !! wh_dev h) -> common_ok (s_common s) ->
  (forall s', step_ok s s' -> Q HS_ERROR_IO s') -> wp (io_error h what) Q s.
Proof.
  intros [d Hd] Hc HQ. unfold io_error. wp_step. eapply wp_load_dev; [exact Hd|].
  apply wp_error. apply HQ. split; [done|]. cbn. split; [|by apply errored_ok].
  unfold errored. case_match; [done|]. by destruct (logged_frame HS_LOG_ERROR
    (default (generic_message HS_ERROR_IO) (Some ("I/O error while " +:+ what +:+ " '" +:+
      str (dev_path d) +:+ "'"))) (s_common s)) as (_ & -> & _).
Qed.

Lemma wp_start_ok (Q : Z * win32_handle -> st W -> Prop) h s :
  is_Some (m_devs (s_mem s) !! wh_dev h) -> common_ok (s_common s) ->
  (forall thread s', step_ok s s' -> Q (0, with_pending thread h) s') ->
  (forall s', step_ok s s' -> Q (HS_ERROR_IO, h) s') ->
  wp (_hs_win32_start_async_read h) Q s.
Proof.
  intros Hd Hc Hok Herr. unfold _hs_win32_start_async_read. wp_step. apply wp_os. intros r w _.
  case_match.
  - wp_step. apply wp_os. intros [] w2 _. wp_step. apply wp_io_error_ok; [done|done|].
    intros s3 Hs3. wp_step. by apply Herr.
  - wp_step. apply wp_os. intros t w2 _. wp_step. by apply Hok.
Qed.

(** What [start_async_read] keeps of a handle. *)
Definition same_buffer h h' : Prop :=
  wh_dev h' = wh_dev h /\ wh_handle h' = wh_handle h /\ wh_ov h' = wh_ov h /\ wh_buf h' = wh_buf h /\
  wh_ptr h' = wh_ptr h.

Lemma wp_restart_read (Q : win32_handle -> st W -> Prop) h s :
  is_Some (m_devs (s_mem s) !! wh_dev h) -> common_ok (s_common s) ->
  (forall h' s', step_ok s s' -> same_buffer h h' ->
     (0 <= wh_len h /\ wh_len h' = wh_len h) \/
     (wh_len h < 0 /\ (wh_len h' = 0 \/ wh_len h' = HS_ERROR_IO)) -> Q h' s') ->
  wp (restart_read h) Q s.
Proof.
  intros Hd Hc HQ. unfold restart_read. destruct (Z.ltb_spec (wh_len h) 0).
  - wp_step. apply wp_start_ok; [done|done| |].
    + intros t s' Hs. wp_step. apply HQ; [done|by repeat split|]. right. split; [done|by left].
    + intros s' Hs. wp_step. apply HQ; [done|by repeat split|]. right. split; [done|by right].
  - wp_step. apply HQ; [by split|by repeat split|]. by left.
Qed.

Lemma wp_next_read (Q : win32_handle -> st W -> Prop) h s :
  is_Some (m_devs (s_mem s) !! wh_dev h) -> calls_ok s ->
  (forall h' s', step_ok s s' -> same_buffer h h' ->
     wh_len h' = 0 \/ wh_len h' = HS_ERROR_IO -> Q h' s') ->
  wp (next_read h) Q s.
Proof.
  intros Hd [Hc Hm] HQ. unfold next_read. wp_step. apply wp_zoom.
  destruct (hs_error_mask_pushed HS_ERROR_IO (s_common s) Hc Hm) as (E & Hc1 & _).
  eapply wp_intro; [exact E|]. wp_step.
  assert (Hlast : forall r h' s', step_ok (with_part (pushed HS_ERROR_IO (s_common s)) s) s' ->
    same_buffer h h' -> r = 0 \/ r = HS_ERROR_IO ->
    wp (zoom hs_error_unmask ;;; ret (with_len (r, h').1 (r, h').2)) Q s').
  { intros r h' s' (Hm' & Hn' & Hc') Hh Hr. cbn in Hm', Hn'. wp_step. apply wp_zoom.
    assert (0 < mask_count (s_common s')) as Hpos by (destruct Hc; lia).
    destruct (hs_error_unmask_popped (s_common s') Hc' Hpos) as (E2 & Hc2 & _).
    eapply wp_intro; [exact E2|]. wp_step. apply HQ; [|done|done].
    split; [done|]. cbn. split; [lia|done]. }
  apply wp_start_ok; [done|done| |].
  - intros t s' Hs. apply Hlast; [done|by repeat split|by left].
  - intros s' Hs. apply Hlast; [done|by repeat split|by right].
Qed.

Lemma wp_finalize (Q : Z * win32_handle -> st W -> Prop) h timeout s :
  handle_ready h -> is_Some (m_devs (s_mem s) !! wh_dev h) -> common_ok (s_common s) ->
  (forall s', step_ok s s' -> Q (0, h) s') ->
  (forall s', step_ok s s' -> Q (HS_ERROR_IO, with_pending 0 h) s') ->
  (forall got buf s', step_ok s s' -> delivered h got -> wh_buf h = Some buf ->
     Z.of_nat (length (got ++ drop (length got) buf)) = READ_BUFFER_SIZE ->
     Q (Z.of_nat (length got),
        with_pending 0 (with_buf (Some (got ++ drop (length got) buf)) h)) s') ->
  wp (_hs_win32_finalize_async_read h timeout) Q s.
Proof.
  intros (event & buf & He & Hb & Hlen) Hd Hc H0 Herr Hgot.
  unfold _hs_win32_finalize_async_read, event_of. rewrite He. wp_step. wp_step. wp_step.
  assert (Hrest : forall s1, step_ok s s1 -> wp
    (let* r := os (GetOverlappedResult_read (wh_handle h) event (timeout <? 0)) in
     match r with
     | WErr e =>
         if e =? ERROR_IO_INCOMPLETE then ret (0, h)
         else let* r := io_error (with_pending 0 h) "reading from" in ret (r, with_pending 0 h)
     | WOk data => ret (Z.of_nat (length data), with_pending 0 (filled_buf data h))
     end) Q s1).
  { intros s1 Hs1. wp_step. apply wp_os. intros [data|e] w E.
    - wp_step. unfold filled_buf. rewrite Hb. apply Hgot; [by destruct Hs1|by repeat eexists|done|].
      apply Hdoc in E. rewrite length_app, length_drop. lia.
    - case_match; [wp_step; apply H0; by destruct Hs1|]. wp_step. destruct Hs1 as (Hm & Hn & Hc1).
      apply wp_io_error_ok; [cbn; by rewrite Hm|done|].
      intros s2 Hs2. wp_step. apply Herr. eapply step_ok_trans; [|exact Hs2]. by split. }
  case_match.
  - apply wp_os. intros [] w _. by apply Hrest.
  - wp_step. by apply Hrest.
Qed.

Lemma wp_copy_out (Q : list Z -> st W -> Prop) h buf size s :
  wh_buf h = Some buf -> 0 <= wh_ptr h -> wh_ptr h + size <= Z.of_nat (length buf) ->
  Q (take (Z.to_nat size) (drop (Z.to_nat (wh_ptr h)) buf)) s -> wp (copy_out h size) Q s.
Proof.
  intros Hb Hp Hs HQ. unfold copy_out. rewrite Hb.
  rewrite (proj2 (Z.leb_le _ _)), (proj2 (Z.leb_le _ _)) by lia. cbn [andb]. by wp_step.
Qed.

(** What one read does: [bytes] are given to the user, and with the bytes left
    in the buffer they are what was in the buffer and what the system
    delivered. *)
Definition read_step h size s (res : Z * (list Z * win32_handle)) s' : Prop :=
  let '(r, (bytes, h')) := res in
  step_ok s s' /\ stream_ok h' /\ wh_dev h' = wh_dev h /\ wh_handle h' = wh_handle h /\
  Z.of_nat (length bytes) <= size /\
  ((bytes = [] /\ (r = 0 \/ r = HS_ERROR_IO)) \/ (bytes <> [] /\ r = Z.of_nat (length bytes))) /\
  exists gots, Forall (delivered h) gots /\
    bytes ++ buffered h' = buffered h ++ concat gots.

Lemma buffered_empty h : wh_len h <= 0 -> buffered h = [].
Proof.
  intros Hl. unfold buffered. destruct (wh_buf h); [|done].
  by replace (Z.to_nat (wh_len h)) with 0%nat by lia.
Qed.

Lemma buffered_same h h' : same_buffer h h' -> wh_len h' = wh_len h -> buffered h' = buffered h.
Proof. intros (_ & _ & _ & Hb & Hp) Hl. unfold buffered. by rewrite Hb, Hp, Hl. Qed.

Lemma ready_same h h' : same_buffer h h' -> handle_ready h -> handle_ready h'.
Proof. intros (_ & _ & Ho & Hb & _). unfold handle_ready. by rewrite Ho, Hb. Qed.

(** The second half of [hs_serial_read]: bytes are in the buffer. *)
Lemma wp_give_bytes h0 h d gots size s0 s :
  step_ok s0 s -> calls_ok s -> m_devs (s_mem s) !! wh_dev h = Some d ->
  wh_dev h = wh_dev h0 -> wh_handle h = wh_handle h0 -> stream_ok h -> 0 < wh_len h -> 0 < size ->
  Forall (delivered h0) gots -> buffered h = buffered h0 ++ concat gots ->
  wp (let size := (if wh_len h <? size then wh_len h else size) in
      let* bytes := copy_out h size in
      let h := with_ptr (wh_ptr h + size) h in
      let h := with_len (wh_len h - size) h in
      let* h := (if wh_len h =? 0 then next_read h else ret h) in
      ret (size, (bytes, h))) (read_step h0 size s0) s.
Proof.
  intros Hs Hc Hd Hdev Hh [Hr Hst] Hlen Hsz Hg Hb. specialize (Hst Hlen).
  assert (Hn : forall n, 0 < n <= size -> n <= wh_len h ->
    wp (let* bytes := copy_out h n in
        let h := with_ptr (wh_ptr h + n) h in
        let h := with_len (wh_len h - n) h in
        let* h := (if wh_len h =? 0 then next_read h else ret h) in
        ret (n, (bytes, h))) (read_step h0 size s0) s);
    [|cbv zeta; destruct (Z.ltb_spec (wh_len h) size); apply Hn; lia].
  intros n Hn1 Hn2. pose proof Hr as (event & buf & He & Hbuf & Hl).
  wp_step. eapply wp_copy_out; [exact Hbuf|lia|lia|]. cbv zeta. wp_step.
  set (bytes := take (Z.to_nat n) (drop (Z.to_nat (wh_ptr h)) buf)).
  assert (length bytes = Z.to_nat n) as Hlb.
  { unfold bytes. rewrite length_take, length_drop. lia. }
  assert (buffered h = bytes ++ take (Z.to_nat (wh_len h - n)) (drop (Z.to_nat (wh_ptr h + n)) buf))
    as Hsplit.
  { unfold buffered, bytes. rewrite Hbuf.
    replace (Z.to_nat (wh_len h)) with (Z.to_nat n + Z.to_nat (wh_len h - n))%nat by lia.
    replace (Z.to_nat (wh_ptr h + n)) with (Z.to_nat (wh_ptr h) + Z.to_nat n)%nat by lia.
    by rewrite <- drop_drop, take_take_drop. }
  assert (Hfin : forall h' s', step_ok s s' -> handle_ready h' -> wh_dev h' = wh_dev h ->
    wh_handle h' = wh_handle h ->
    (0 < wh_len h' -> 0 <= wh_ptr h' /\ wh_ptr h' + wh_len h' <= READ_BUFFER_SIZE) ->
    buffered h' = take (Z.to_nat (wh_len h - n)) (drop (Z.to_nat (wh_ptr h + n)) buf) ->
    read_step h0 size s0 (n, (bytes, h')) s').
  { intros h' s' Hs' Hr' Hd' Hh' Hst' Hb'. split; [by eapply step_ok_trans|].
    split; [by split|]. split; [congruence|]. split; [congruence|]. split; [lia|]. split.
    - right. split; [intros E; rewrite E in Hlb; cbn in Hlb; lia|lia].
    - exists gots. split; [done|]. by rewrite Hb', <- Hsplit. }
  cbn [with_len with_ptr wh_len wh_ptr]. destruct (Z.eqb_spec (wh_len h - n) 0) as [E|E].
  - apply wp_next_read; [cbn; by rewrite Hd|done|]. intros h' s' Hs' Hsame Hl'. wp_step.
    apply Hfin; [done|by eapply ready_same|by destruct Hsame|by destruct Hsame as (_ & ? & _)| |].
    + unfold HS_ERROR_IO in Hl'. lia.
    + rewrite E, buffered_empty; [done|]. unfold HS_ERROR_IO in Hl'. lia.
  - wp_step. wp_step. apply Hfin; [by split; [|split]; destruct Hc|done|done|done|cbn; lia|].
    unfold buffered. cbn. by rewrite Hbuf.
Qed.

(** A read that gives nothing. *)
Lemma read_nothing h size s h' r s' : 0 < size -> step_ok s s' -> handle_ready h' -> wh_dev h' = wh_dev h ->
  wh_handle h' = wh_handle h -> wh_len h <= 0 -> wh_len h' <= 0 -> r = 0 \/ r = HS_ERROR_IO ->
  read_step h size s (r, ([], h')) s'.
Proof.
  intros Hsz Hs' Hr' Hd' Hh' Hl Hl' Hres. split; [done|]. split; [split; [done|lia]|].
  split; [done|]. split; [done|]. split; [cbn; lia|]. split; [by left|].
  exists []. split; [constructor|]. by rewrite !buffered_empty by done.
Qed.

(** The end of [hs_serial_read]. *)
Definition give h (size : Z) : M (st W) (Z * (list Z * win32_handle)) :=
  if wh_len h <=? 0 then ret (wh_len h, ([], h))
  else
    let size := (if wh_len h <? size then wh_len h else size) in
    let* bytes := copy_out h size in
    let h := with_ptr (wh_ptr h + size) h in
    let h := with_len (wh_len h - size) h in
    let* h := (if wh_len h =? 0 then next_read h else ret h) in
    ret (size, (bytes, h)).

(** The buffer is empty, and no byte came: no time was left, or an error. *)
Lemma wp_give_nothing h h1 h2 size s s2 r : 0 < size -> step_ok s s2 -> handle_ready h2 -> same_buffer h h1 ->
  wh_dev h2 = wh_dev h1 -> wh_handle h2 = wh_handle h1 -> wh_len h <= 0 -> r = 0 \/ r = HS_ERROR_IO ->
  wp (ret (if wh_len (with_len r h2) <=? 0 then with_len r h2 else with_ptr 0 (with_len r h2)))
    (fun h' => wp (give h' size) (read_step h size s)) s2.
Proof.
  intros Hsz Hs Hr2 (Hd1 & Hh1 & _) Hd2 Hh2 Hl Hres. assert (r <=? 0 = true) as Hle by (by destruct Hres as [->| ->]).
  wp_step. change (wh_len (with_len r h2)) with r. rewrite Hle. unfold give.
  change (wh_len (with_len r h2)) with r. rewrite Hle. wp_step.
  apply read_nothing; [done..|cbn; congruence|cbn; congruence|done|cbn; by apply Z.leb_le|done].
Qed.

(** The buffer is empty: what the wait for the read gives. *)
Lemma wp_wait_give h h1 d size timeout s s1 :
  step_ok s s1 -> calls_ok s1 -> handle_ready h1 -> same_buffer h h1 -> m_devs (s_mem s1) !! wh_dev h1 = Some d ->
  wh_len h <= 0 -> 0 < size ->
  wp (let* h := (let* rh := _hs_win32_finalize_async_read h1 timeout in
                 let h := with_len rh.1 rh.2 in
                 ret (if wh_len h <=? 0 then h else with_ptr 0 h)) in
      give h size) (read_step h size s) s1.
Proof.
  intros Hs1 Hc1 Hr1 Hsame Hd Hl Hsz. pose proof Hsame as (Hd1 & Hh1 & _ & Hb1 & Hp1).
  wp_step. wp_step. apply wp_finalize; [done|by rewrite Hd|by destruct Hc1|..].
  - intros s2 Hs2. cbn [fst snd]. eapply wp_give_nothing; [done|by eapply step_ok_trans|done|done|done|done|done|by left].
  - intros s2 Hs2. cbn [fst snd]. eapply wp_give_nothing; [done|by eapply step_ok_trans|done|done|done|done|done|by right].
  - intros got buf s2 Hs2 Hgot Hbuf Hlen. cbn [fst snd].
    pose proof Hr1 as (ev & bf & He & Hbf & Hlb). rewrite Hbf in Hbuf. injection Hbuf as ->.
    destruct got as [|b got].
    { eapply wp_give_nothing; [done|by eapply step_ok_trans| |exact Hsame|done|done|done|by left].
      exists ev, buf. cbn. by rewrite drop_0. }
    assert (Z.of_nat (length (b :: got)) <=? 0 = false) as Hgt by (apply Z.leb_gt; cbn [length]; lia).
    wp_step. cbn [with_len wh_len]. rewrite Hgt. unfold give. cbn [with_ptr with_len wh_len]. rewrite Hgt.
    pose proof (calls_ok_step _ _ Hc1 Hs2). destruct Hs2 as (Hm2 & Hn2 & Hc2).
    eapply wp_give_bytes with (gots := [b :: got]) (d := d); [by eapply step_ok_trans|done|cbn; by rewrite Hm2|done|done| |cbn; lia|done|..].
    + split; [by eexists ev, _|].
      intros _; cbn [with_ptr with_len with_pending with_buf wh_ptr wh_len]; rewrite length_app in Hlen; lia.
    + constructor; [|constructor]. destruct Hgot as (ev' & wt & w & w' & E). exists ev', wt, w, w'. by rewrite <- Hh1.
    + rewrite (buffered_empty h) by done. unfold buffered.
      cbn [with_ptr with_len with_pending with_buf wh_ptr wh_len wh_buf concat].
      by rewrite Nat2Z.id, drop_0, take_app_length, app_nil_r.
Qed.

Lemma wp_serial_read h d size timeout s :
  stream_ok h -> calls_ok s -> m_devs (s_mem s) !! wh_dev h = Some d ->
  dev_type d = HS_DEVICE_TYPE_SERIAL -> 0 < size ->
  wp (hs_serial_read h size timeout) (read_step h size s) s.
Proof.
  intros [Hr Hst] Hc Hd Ht Hsz. unfold hs_serial_read, win32_handle_dev.
  wp_step. wp_step. eapply wp_load_dev; [done|]. wp_step.
  apply wp_assert; [by apply bool_decide_eq_true_2|]. wp_step. wp_step.
  apply wp_assert; [apply negb_true_iff, Z.eqb_neq; lia|]. wp_step.
  apply wp_restart_read; [by rewrite Hd|by destruct Hc|]. intros h1 s1 Hs1 Hsame Hl1.
  pose proof (ready_same _ _ Hsame Hr) as Hr1. pose proof Hsame as (Hd1 & Hh1 & _ & Hb1 & Hp1).
  assert (m_devs (s_mem s1) !! wh_dev h1 = Some d) as Hdev by (destruct Hs1 as (Hm1 & _); by rewrite Hd1, Hm1).
  pose proof (calls_ok_step _ _ Hc Hs1) as Hc1.
  destruct (Z.ltb_spec (wh_len h1) 0) as [Hneg|Hpos].
  { destruct Hl1 as [[? ?]|[Hl [E|E]]]; [lia|lia|]. wp_step.
    apply read_nothing; [done..|lia|lia|rewrite E; by right]. }
  destruct (Z.eqb_spec (wh_len h1) 0) as [E0|E0].
  - eapply wp_wait_give; [done..|destruct Hl1 as [[? ?]|[? _]]; lia|done].
  - assert (wh_len h1 = wh_len h) as El by (unfold HS_ERROR_IO in Hl1; lia).
    wp_step. wp_step. rewrite (proj2 (Z.leb_gt _ _)) by lia.
    eapply wp_give_bytes with (gots := []) (d := d); [done..| |lia|done|constructor|].
    + split; [done|]. rewrite Hp1, El. apply Hst.
    + rewrite app_nil_r. by apply buffered_same.
Qed.
End Reading.

(** A client that reads several times, with these sizes and timeouts. *)
Fixpoint serial_reads {W} `{Win32 W} (h : win32_handle) (l : list (Z * Z))
    : M (st W) (list (Z * list Z) * win32_handle) :=
  match l with
  | [] => ret ([], h)
  | (size, timeout) :: l =>
      let* res := hs_serial_read h size timeout in
      let* rest := serial_reads res.2.2 l in
      ret ((res.1, res.2.1) :: rest.1, rest.2)
  end.

(** A result and the bytes that come with it. *)
Definition result_of (res : Z * list Z) (size : Z) : Prop :=
  Z.of_nat (length res.2) <= size /\
  ((res.2 = [] /\ (res.1 = 0 \/ res.1 = HS_ERROR_IO)) \/
   (res.2 <> [] /\ res.1 = Z.of_nat (length res.2))).

Lemma wp_serial_reads {W} `{Win32 W} h d l (s : st W) :
  overlapped_documented -> stream_ok h -> calls_ok s ->
  m_devs (s_mem s) !! wh_dev h = Some d -> dev_type d = HS_DEVICE_TYPE_SERIAL ->
  Forall (fun st => 0 < st.1) l ->
  wp (serial_reads h l) (fun res s' => step_ok s s' /\ stream_ok res.2 /\
    Forall2 result_of res.1 l.*1 /\
    exists gots, Forall (delivered h) gots /\
      concat res.1.*2 ++ buffered res.2 = buffered h ++ concat gots) s.
Proof.
  intros Hdoc Hst Hc Hd Ht Hl. revert h s Hst Hc Hd.
  induction Hl as [|[size timeout] l Hsz _ IH]; intros h s Hst Hc Hd; cbn [serial_reads].
  - wp_step. split; [by split; destruct Hc|]. split; [done|]. split; [constructor|].
    exists []. split; [constructor|]. by rewrite app_nil_r.
  - wp_step. eapply wp_mono; [by apply (wp_serial_read Hdoc h d)|].
    intros (r & bytes & h1) s1 (Hs1 & Hst1 & Hd1 & Hh1 & Hlen & Hres & gots & Hg & Hb).
    cbn [fst snd]. wp_step. eapply wp_mono.
    + apply IH; [done|by eapply calls_ok_step|]. destruct Hs1 as (-> & _). by rewrite Hd1.
    + intros [outs h2] s2 (Hs2 & Hst2 & Hout & gots2 & Hg2 & Hb2). cbn [fst snd] in *.
      wp_step. split; [by eapply step_ok_trans|]. split; [done|]. split; [by constructor|].
      exists (gots ++ gots2). split.
      * apply Forall_app. split; [done|]. eapply Forall_impl; [exact Hg2|].
        unfold delivered. by rewrite Hh1.
      * cbn [fmap list_fmap concat snd fst]. 
        rewrite concat_app, app_assoc, <- Hb, <- !app_assoc, <- Hb2. done.
Qed.


Lemma windows_overlapped_documented : overlapped_documented (W := windows).
Proof.
  intros hd event wait w data w' E. cbn in E.
  destruct (default _ _) as [l|e]; [|done]. injection E as <- _.
  unfold READ_BUFFER_SIZE. rewrite length_take. lia.
Qed.

Definition com_handle : win32_handle :=
  Win32Handle 64 5 (Some 6) (Some (replicate 1024 0)) 1 0 0.

(** Two finished reads, cut in three, with a read that finds nothing. *)
Definition com_world : windows :=
  Windows [] None [WOk [1; 2; 3]; WErr ERROR_IO_INCOMPLETE; WOk [4; 5]] ∅.


Example com_reads :
  match serial_reads com_handle [(2, 0); (2, 0); (2, 10); (2, 10)] (with_com com_world) with
  | Done ((outs, _), _) => outs
  | _ => []
  end = [(2, [1; 2]); (1, [3]); (0, []); (2, [4; 5])].
Proof. vm_compute. reflexivity. Qed.

(** A read that finishes with no byte is not started again: every read after
    it asks for the result of the finished one. *)
Example zero_length_read :
  match serial_reads com_handle [(2, 10)] (with_com (Windows [] None [WOk []] ∅)) with
  | Done ((outs, h), _) => (outs, wh_pending_thread h, wh_len h)
  | _ => ([], 1, 1)
  end = ([(0, [])], 0, 0).
Proof. vm_compute. reflexivity. Qed.
