(* ===== verification/HidWin32.v ===== *)
(** HID devices on Windows: src/src/hid_win32.c. *)

From S2P Require Import Prelude Common DList Htable State Posix Platform Device Win32 DeviceWin32 SerialWin32.

Section HidWin32.
Context {W : Type} `{Win32 W}.

(** The result and [*rdesc], when it is stored. *)
Definition hs_hid_parse_descriptor (h : win32_handle) : M (st W) (Z * option (Z * Z)) :=
  let* _ := win32_handle_dev HS_DEVICE_TYPE_HID h in
  let* pp := os (HidD_GetPreparsedData (wh_handle h)) in
  match pp with
  | None =>
      let* r := error HS_ERROR_SYSTEM "HidD_GetPreparsedData() failed" in
      ret (r, None)
  | Some pp =>
      let* caps := os (HidP_GetCaps pp) in
      os (HidD_FreePreparsedData pp) ;;;
      match caps with
      | None =>
          let* r := error HS_ERROR_INVALID "Invalid HID descriptor" in
          ret (r, None)
      | Some caps => ret (0, Some caps)
      end
  end.

(** The result, the bytes at the start of [buf] and the handle. *)
Definition hs_hid_read (h : win32_handle) (size timeout : Z)
    : M (st W) (Z * (list Z * win32_handle)) :=
  let* _ := win32_handle_dev HS_DEVICE_TYPE_HID h in
  assert_ (negb (size =? 0)) ;;;
  let* h := restart_read h in
  if wh_len h <? 0 then ret (wh_len h, ([], h))
  else
    let* rh := _hs_win32_finalize_async_read h timeout in
    let h := with_len rh.1 rh.2 in
    if wh_len h <=? 0 then ret (wh_len h, ([], h))
    else
      let size := (if wh_len h <? size then wh_len h else size) in
      let* bytes := copy_out (with_ptr 0 h) size in
      let* h := next_read h in
      ret (size, (bytes, h)).

Definition hs_hid_write (h : win32_handle) (buf : list Z) : M (st W) Z :=
  let* _ := win32_handle_dev HS_DEVICE_TYPE_HID h in
  if Z.of_nat (length buf) <? 2 then ret 0
  else overlapped_write h buf.

(** The result and the final content of [buf]. *)
Definition hs_hid_get_feature_report (h : win32_handle) (report_id : Z) (buf : list Z)
    : M (st W) (Z * list Z) :=
  let* _ := win32_handle_dev HS_DEVICE_TYPE_HID h in
  assert_ (negb (Z.of_nat (length buf) =? 0)) ;;;
  let* buf := arr_set buf 0 report_id in
  let* r := os (DeviceIoControl_GET_FEATURE (wh_handle h) buf) in
  if (match r with WErr e => negb (e =? ERROR_IO_PENDING) | WOk _ => false end) then
    os (CancelIo (wh_handle h)) ;;;
    let* r := io_error h "writing to" in
    ret (r, buf)
  else
    let* r := os (GetOverlappedResult_feature (wh_handle h) buf) in
    match r with
    | WErr _ =>
        let* r := io_error h "writing to" in
        ret (r, buf)
    | WOk (len, buf) => ret (len + 1, buf)
    end.

Definition hs_hid_send_feature_report (h : win32_handle) (buf : list Z) : M (st W) Z :=
  let* _ := win32_handle_dev HS_DEVICE_TYPE_HID h in
  if Z.of_nat (length buf) <? 2 then ret 0
  else
    let* success := os (HidD_SetFeature (wh_handle h) buf) in
    if negb success then io_error h "writing to"
    else ret (Z.of_nat (length buf)).
End HidWin32.

Section Message.
Context {W : Type} `{Win32 W}.
Implicit Types (s : st W) (h : win32_handle).

(** What a read with a buffer of [size] bytes gives from the handle [h] and the
    state [s]. *)
Definition message h (size : Z) s (res : Z * (list Z * win32_handle)) s' : Prop :=
  let '(r, (bytes, h')) := res in
  step_ok s s' /\ handle_ready h' /\ Z.of_nat (length bytes) <= size /\
  ((bytes = [] /\ (r = 0 \/ r = HS_ERROR_IO)) \/
   (exists got, delivered h got /\ got <> [] /\ bytes = take (Z.to_nat size) got /\
      r = Z.of_nat (length bytes))).

Lemma message_none h size s s1 s2 r h2 : 0 < size -> step_ok s s1 -> step_ok s1 s2 -> handle_ready h2 ->
  r = 0 \/ r = HS_ERROR_IO -> message h size s (r, ([], h2)) s2.
Proof.
  intros Hsz Hs1 Hs2 Hr2 Hres. split; [by eapply step_ok_trans|]. split; [done|].
  split; [cbn; lia|]. by left.
Qed.

(** A report that came: its start is copied and the next request is started. *)
Lemma wp_take_message h h2 d size got rest s s2 : handle_ready h2 -> wh_buf h2 = Some (got ++ rest) ->
  calls_ok s2 -> step_ok s s2 -> m_devs (s_mem s2) !! wh_dev h2 = Some d -> delivered h got -> got <> [] -> 0 < size ->
  let n := if Z.of_nat (length got) <? size then Z.of_nat (length got) else size in
  wp (let* bytes := copy_out (with_ptr 0 h2) n in
      let* h := next_read h2 in
      ret (n, (bytes, h))) (message h size s) s2.
Proof.
  intros Hr2 Hb2 Hc2 Hs2 Hd2 Hgot Hne Hsz n.
  assert (0 < Z.of_nat (length got)) as Hpos by (destruct got; [done|cbn [length]; lia]).
  assert (0 < n <= size /\ n <= Z.of_nat (length got)) as Hn.
  { unfold n. destruct (Z.ltb_spec (Z.of_nat (length got)) size); lia. }
  wp_step. eapply wp_copy_out; [exact Hb2|cbn; lia|cbn; rewrite length_app; lia|].
  cbn [wh_ptr with_ptr]. rewrite drop_0, take_app_le by lia.
  assert (take (Z.to_nat n) got = take (Z.to_nat size) got) as ->.
  { unfold n. destruct (Z.ltb_spec (Z.of_nat (length got)) size); [|done].
    by rewrite !take_ge by lia. }
  wp_step. apply wp_next_read; [by rewrite Hd2|done|].
  intros h3 s3 Hs3 Hsame3 _. wp_step. split; [by eapply step_ok_trans|].
  split; [eapply ready_same; [exact Hsame3|exact Hr2]|].
  rewrite length_take. split; [lia|]. right. exists got. split; [done|]. split; [done|]. split; [done|].
  unfold n. destruct (Z.ltb_spec (Z.of_nat (length got)) size); lia.
Qed.
End Message.

(** C37: a HID device on Windows gives messages. A read gives the start of
    exactly one finished report, cut at the size of the user's buffer, and
    starts the next request; or nothing, with 0 when no report came in time,
    or [HS_ERROR_IO]. The copy stays inside both buffers. *)
Theorem win32_hid_read_message {W} `{Win32 W} h d size timeout (s : st W) :
  overlapped_documented -> handle_ready h -> calls_ok s ->
  m_devs (s_mem s) !! wh_dev h = Some d -> dev_type d = HS_DEVICE_TYPE_HID -> 0 < size ->
  exists r bytes h' s', hs_hid_read h size timeout s = Done ((r, (bytes, h')), s') /\
    step_ok s s' /\ handle_ready h' /\ Z.of_nat (length bytes) <= size /\
    ((bytes = [] /\ (r = 0 \/ r = HS_ERROR_IO)) \/
     (exists got, delivered h got /\ got <> [] /\ bytes = take (Z.to_nat size) got /\
        r = Z.of_nat (length bytes))).
Proof.
  intros Hdoc Hr Hc Hd Ht Hsz.
  assert (wp (hs_hid_read h size timeout) (message h size s) s) as ((r & bytes & h') & s' & E & HP)%wp_inv;
    [|by exists r, bytes, h', s'].
  unfold hs_hid_read, win32_handle_dev. wp_step. wp_step. eapply wp_load_dev; [done|]. wp_step.
  apply wp_assert; [by apply bool_decide_eq_true_2|]. wp_step. wp_step.
  apply wp_assert; [apply negb_true_iff, Z.eqb_neq; lia|]. wp_step.
  apply wp_restart_read; [by rewrite Hd|by destruct Hc|]. intros h1 s1 Hs1 Hsame Hl1.
  pose proof (ready_same _ _ Hsame Hr) as Hr1. pose proof Hsame as (Hd1 & Hh1 & _ & Hb1 & Hp1).
  destruct (Z.ltb_spec (wh_len h1) 0).
  { wp_step. apply (message_none h size s s1 s1); [done|done|by destruct Hs1 as (_ & _ & ?)|done|]. unfold HS_ERROR_IO in *. lia. }
  wp_step. pose proof Hs1 as (Hm1 & Hn1 & Hc1).
  apply wp_finalize; [done|done|rewrite Hd1, Hm1; by rewrite Hd|done|..].
  - intros s2 Hs2. cbn [fst snd with_len wh_len]. change (0 <=? 0) with true. cbv iota. wp_step.
    eapply message_none; [done|exact Hs1|exact Hs2|done|by left].
  - intros s2 Hs2. cbn [fst snd with_len wh_len].
    change (HS_ERROR_IO <=? 0) with true. cbv iota. wp_step.
    eapply message_none; [done|exact Hs1|exact Hs2|done|by right].
  - intros got buf s2 Hs2 Hgot Hbuf Hlen. cbn [fst snd with_len with_pending with_buf wh_len].
    assert (Hr2 : forall p t n, handle_ready (Win32Handle (wh_dev h1) (wh_handle h1) (wh_ov h1)
      (Some (got ++ drop (length got) buf)) t p n)).
    { intros p t n. destruct Hr1 as (ev & bf & He & _). by exists ev, (got ++ drop (length got) buf). }
    destruct (decide (got = [])) as [->|Hne].
    { change (Z.of_nat (length []) <=? 0) with true. cbv iota. wp_step.
      eapply message_none; [done|exact Hs1|exact Hs2|apply Hr2|by left]. }
    rewrite (proj2 (Z.leb_gt _ _)) by (destruct got; [done|cbn [length]; lia]). cbv zeta.
    destruct Hs2 as (Hm2 & Hn2 & Hc2).
    eapply (wp_take_message h _ d size got _ s s2); [apply Hr2|done| | |cbn; by rewrite Hd1, Hm2, Hm1| |done|done].
    + destruct Hc. split; [done|]. by rewrite Hn2, Hn1.
    + eapply step_ok_trans; [exact Hs1|by split_and!].
    + destruct Hgot as (ev & wt & w & w' & E). exists ev, wt, w, w'. by rewrite <- Hh1.
Qed.

Definition hid_port : hs_device :=
  Device NULL 1 (Some "HID\VID_16C0") HS_DEVICE_TYPE_HID _hs_win32_device_vtable
    HS_DEVICE_STATUS_ONLINE None (Some "\\?\hid#0") 0 0 None None None 0.
Definition with_hid_port (w : windows) : st windows :=
  with_devs (fun _ => {[64 := hid_port]}) (windowed w).

(** A report of three bytes, for a buffer of two. *)
Lemma win32_hid_read_message_witness :
  exists r bytes h' s',
    hs_hid_read com_handle 2 10 (with_hid_port com_world) = Done ((r, (bytes, h')), s') /\
    step_ok (with_hid_port com_world) s' /\ handle_ready h' /\ Z.of_nat (length bytes) <= 2 /\
    ((bytes = [] /\ (r = 0 \/ r = HS_ERROR_IO)) \/
     (exists got, delivered (W := windows) com_handle got /\ got <> [] /\ bytes = take 2 got /\
        r = Z.of_nat (length bytes))).
Proof.
  apply (win32_hid_read_message com_handle hid_port 2 10 (with_hid_port com_world)).
  - exact windows_overlapped_documented.
  - by exists 6, (replicate 1024 0).
  - split; [split; [reflexivity|cbn; unfold MASK_SIZE; lia]|reflexivity].
  - reflexivity.
  - reflexivity.
  - lia.
Defined.
