(* ===== verification/PlatformDarwin.v ===== *)
(** Time and polling on macOS: src/src/platform_darwin.c, over select(2) and
    the Mach clock. [hs_darwin_version] is in Platform. *)

From S2P Require Import Prelude Common State Posix Platform.

Class Mach (W : Type) := {
  (** [mach_timebase_info]: numerator and denominator *)
  mach_timebase_info : sysc W (Z * Z);
  mach_absolute_time : sysc W Z;
  (** [select(FD_SETSIZE, &fds, NULL, NULL, timeout)]: the result and the set
      that is left; the timeout is in seconds and microseconds *)
  select : list Z -> option (Z * Z) -> sysc W (sys (Z * list Z))
}.

Definition FD_SETSIZE : Z := 1024.

(** "%d" of an [int] *)
Definition print_d (n : Z) : string :=
  if n <? 0 then "-" +:+ Cstring.print_u (- n) else Cstring.print_u n.

Section PlatformDarwin.
Context {W : Type} `{Posix W} `{Mach W}.
Variable fuel : nat.

Definition hs_millis : M (st W) Z :=
  let* numer := load_static "tb.numer" in
  (if numer =? 0 then
     let* tb := os mach_timebase_info in
     store_static "tb.numer" tb.1 ;;;
     store_static "tb.denom" tb.2
   else ret tt) ;;;
  let* t := os mach_absolute_time in
  let* numer := load_static "tb.numer" in
  let* denom := load_static "tb.denom" in
  if denom =? 0 then fail DivisionByZero
  else ret (u64 (u64 t * u32 numer) / u32 denom / 1000000).

(** The loop that fills [fds], from [i] with [n] iterations left: the set, or
    the descriptor that does not fit. [FD_SET] of a negative descriptor is
    outside the array of the set. *)
Fixpoint select_fill (set : hs_descriptor_set) (i : Z) (n : nat) (fds : list Z)
    : M (st W) (list Z + Z) :=
  match n with
  | O => ret (inl fds)
  | S n =>
      let* desc := arr_get (ds_desc set) i in
      if FD_SETSIZE <=? desc then ret (inr desc)
      else if desc <? 0 then fail OutOfBounds
      else select_fill set (i + 1) n (desc :: fds)
  end.

(** One iteration of [restart:]. *)
Definition select_once (fds : list Z) (timeout start : Z) : M (st W) (sys (Z * list Z)) :=
  if 0 <=? timeout then
    let* adjusted_timeout := hs_adjust_timeout hs_millis timeout start in
    os (select fds (Some (Z.quot adjusted_timeout 1000, Z.rem adjusted_timeout 1000 * 1000)))
  else os (select fds None).

(** The loop that looks for the first descriptor that is set. *)
Fixpoint select_scan (set : hs_descriptor_set) (fds : list Z) (i : Z) (n : nat) : M (st W) Z :=
  match n with
  | O => fail AssertFailed
  | S n =>
      let* desc := arr_get (ds_desc set) i in
      if bool_decide (desc ∈ fds) then arr_get (ds_id set) i
      else select_scan set fds (i + 1) n
  end.

Definition hs_poll (set : hs_descriptor_set) (timeout : Z) : M (st W) Z :=
  assert_ (negb (ds_count set =? 0)) ;;;
  assert_ (ds_count set <=? 64) ;;;
  let* filled := select_fill set 0 (Z.to_nat (ds_count set)) [] in
  match filled with
  | inr desc =>
      error HS_ERROR_SYSTEM ("Cannot select() on file descriptor " +:+ print_d desc)
  | inl fds =>
      let* start := hs_millis in
      let* r := restart (select_once fds timeout start) fuel in
      match r with
      | Err e => error HS_ERROR_SYSTEM ("poll() failed: " +:+ strerror e)
      | Ok (r, fds) =>
          if r =? 0 then ret 0
          else select_scan set fds 0 (Z.to_nat (ds_count set))
      end
  end.
End PlatformDarwin.

(** * Properties *)

Section ClockProperties.
Context {W : Type} `{Posix W} `{Mach W}.

(** The static time base is not read yet, or it is what was read. *)
Definition timebase_ok (s : st W) : Prop :=
  static "tb.numer" s <> 0 -> static "tb.denom" s <> 0.

(** The documentation of the Mach clock: the denominator is positive, and the
    calls keep what [R] says of the system. *)
Record mach_documented (R : W -> W -> Prop) : Prop := {
  md_timebase : forall w n d w', mach_timebase_info w = ((n, d), w') -> 0 < d /\ R w w';
  md_time : forall w v w', mach_absolute_time w = (v, w') -> R w w'
}.

Lemma wp_mach_millis (R : W -> W -> Prop) `{!PreOrder R} (Q : Z -> st W -> Prop) s :
  mach_documented R -> timebase_ok s ->
  (forall v s', same_objects s s' -> timebase_ok s' -> R (s_world s) (s_world s') -> Q v s') ->
  wp hs_millis Q s.
Proof.
  intros Hm Hok HQ. unfold hs_millis, load_static. wp_step. eapply wp_intro; [done|].
  wp_step.
  eapply (wp_mono _ (fun _ s' => same_objects s s' /\ static "tb.denom" s' <> 0 /\
    R (s_world s) (s_world s'))).
  - destruct (Z.eqb_spec (static "tb.numer" s) 0); [|by wp_step; split_and!; auto].
    wp_step. apply wp_os. intros [n d] w Ew. wp_step. apply wp_modify. apply wp_modify.
    destruct (md_timebase _ Hm _ _ _ _ Ew) as (Hd & HR).
    split_and!; [done| |done]. unfold static. cbn. rewrite lookup_insert_eq. cbn. lia.
  - intros _ s1 (Ho & Hden & HR). wp_step. apply wp_os. intros v w Ew.
    apply (md_time _ Hm) in Ew.
    wp_step. eapply wp_intro; [done|]. wp_step. eapply wp_intro; [done|].
    change (static "tb.denom" (with_world (fun _ => w) s1)) with (static "tb.denom" s1).
    rewrite (proj2 (Z.eqb_neq _ _) Hden). wp_step.
    apply HQ; [done|by intros _|by transitivity (s_world s1)].
Qed.

(** [hs_adjust_timeout] over that clock: an infinite timeout stays so. *)
Lemma wp_mach_adjust (R : W -> W -> Prop) `{!PreOrder R} (Q : Z -> st W -> Prop) timeout start s :
  mach_documented R -> timebase_ok s ->
  (forall v s', same_objects s s' -> timebase_ok s' -> R (s_world s) (s_world s') ->
     (timeout < 0 -> v = -1) -> Q v s') ->
  wp (hs_adjust_timeout hs_millis timeout start) Q s.
Proof.
  intros Hm Hok HQ. unfold hs_adjust_timeout. destruct (Z.ltb_spec timeout 0).
  - wp_step. by apply HQ.
  - wp_step. eapply (wp_mach_millis R); [done..|]. intros now s' Ho Hok' HR.
    case_match; wp_step; apply HQ; by try lia.
Qed.
End ClockProperties.

Section SelectProperties.
Context {W : Type} `{Posix W} `{Mach W}.
Implicit Types (s : st W) (set : hs_descriptor_set).

(** [w'] comes after [w]: no more signals are to come. *)
Definition after (signals : W -> nat) (w w' : W) : Prop := (signals w' <= signals w)%nat.

#[local] Instance after_preorder signals : PreOrder (after signals).
Proof. unfold after. split; [by intros w|]. intros w1 w2 w3. lia. Qed.

(** The documentation of [select]: when the result is not 0, a descriptor of
    the set is left in it; finitely many signals come. *)
Record select_documented (signals : W -> nat) : Prop := {
  sd_kept : forall fds t w n kept w',
    select fds t w = (Ok (n, kept), w') -> n <> 0 -> Exists (.∈ kept) fds;
  sd_signals : forall fds t w w',
    select fds t w = (Err EINTR, w') -> (signals w' < signals w)%nat;
  sd_clock : mach_documented (after signals)
}.

(** The identifier of the first descriptor that is left. *)
Fixpoint first_kept (l : list (Z * Z)) (kept : list Z) : option Z :=
  match l with
  | [] => None
  | (desc, id) :: l => if bool_decide (desc ∈ kept) then Some id else first_kept l kept
  end.

Lemma first_kept_exists l kept : Exists (.∈ kept) l.*1 -> is_Some (first_kept l kept).
Proof.
  induction l as [|[desc id] l IH]; cbn; intros Hex; [by apply Exists_nil in Hex|].
  case_bool_decide; [done|]. apply IH. by apply Exists_cons in Hex as [?|?].
Qed.

(** The set that is filled, when every descriptor fits; otherwise the first
    that does not. *)
Lemma select_fill_eq set n (i : nat) fds s : ds_ok set ->
  Forall (fun desc => 0 <= desc) (elems set).*1 -> (i + n = Z.to_nat (ds_count set))%nat ->
  select_fill set (Z.of_nat i) n fds s =
    Done (match find (fun desc => FD_SETSIZE <=? desc) (drop i (elems set)).*1 with
          | Some desc => inr desc
          | None => inl (reverse (drop i (elems set)).*1 ++ fds)
          end, s).
Proof.
  intros Hok Hpos. revert i fds. induction n as [|n IH]; intros i fds Hi.
  - cbn. by rewrite drop_ge by (rewrite elems_length by done; lia).
  - destruct (elems_lookup set i Hok) as (desc & id & Ed & _ & Ee); [lia|].
    cbn [select_fill]. unfold bind at 1. rewrite (arr_get_eq _ _ _ _ Ed).
    rewrite (drop_S _ _ _ Ee). cbn [fmap list_fmap fst find].
    destruct (FD_SETSIZE <=? desc); [done|].
    rewrite Forall_forall in Hpos. rewrite (proj2 (Z.ltb_ge desc 0)).
    2: { apply Hpos, list_elem_of_fmap. exists (desc, id). split; [done|]. by eapply list_elem_of_lookup_2. }
    replace (Z.of_nat i + 1) with (Z.of_nat (S i)) by lia. rewrite IH by lia.
    case_match; [done|]. rewrite reverse_cons, <- app_assoc. done.
Qed.

Lemma select_scan_eq set kept n (i : nat) s id : ds_ok set ->
  (i + n = Z.to_nat (ds_count set))%nat ->
  first_kept (drop i (elems set)) kept = Some id ->
  select_scan set kept (Z.of_nat i) n s = Done (id, s).
Proof.
  intros Hok. revert i. induction n as [|n IH]; intros i Hi Hid.
  - rewrite drop_ge in Hid by (rewrite elems_length by done; lia). done.
  - destruct (elems_lookup set i Hok) as (desc & id_i & Ed & Ei & Ee); [lia|].
    rewrite (drop_S _ _ _ Ee) in Hid. cbn [first_kept] in Hid.
    cbn [select_scan]. unfold bind. rewrite (arr_get_eq _ _ _ _ Ed). case_bool_decide.
    + injection Hid as <-. by apply arr_get_eq.
    + replace (Z.of_nat i + 1) with (Z.of_nat (S i)) by lia. by apply IH; [lia|].
Qed.

(** The wait ends with the first [select] that is not interrupted; a negative
    timeout is no timeout. *)
Lemma wp_select_wait signals (Q : sys (Z * list Z) -> st W -> Prop) fuel fds timeout start s :
  select_documented signals -> timebase_ok s -> (signals (s_world s) < fuel)%nat ->
  (forall r t w s', select fds t w = (r, s_world s') -> r <> Err EINTR ->
     (timeout < 0 <-> t = None) -> same_objects s s' -> Q r s') ->
  wp (restart (select_once fds timeout start) fuel) Q s.
Proof.
  intros Hd Hok Hf HQ.
  apply (wp_restart signals) with (I := fun s' => same_objects s s' /\ timebase_ok s'); [|done|done].
  intros s1 [Ho1 Hok1].
  assert (Htail : forall t s2, same_objects s s2 -> timebase_ok s2 ->
    (signals (s_world s2) <= signals (s_world s1))%nat -> (timeout < 0 <-> t = None) ->
    wp (os (select fds t)) (fun r s' =>
      match r with
      | Err EINTR => (same_objects s s' /\ timebase_ok s') /\
          (signals (s_world s') < signals (s_world s1))%nat
      | _ => Q r s'
      end) s2).
  { intros t s2 Ho2 Hok2 Hle Ht. apply wp_os. intros r w E.
    destruct r as [a|[]]; try (eapply HQ; [exact E|discriminate|done|done]).
    split; [done|]. apply (sd_signals _ Hd) in E. cbn. lia. }
  unfold select_once. destruct (Z.leb_spec 0 timeout).
  - wp_step. eapply (wp_mach_adjust (after signals)); [apply Hd|done|].
    intros v s2 Ho2 Hok2 Hle _. apply Htail; [by eapply same_objects_trans|done|done|].
    split; [lia|discriminate].
  - by apply Htail.
Qed.

(** [hs_poll] of macOS. A descriptor [select] has no room for is an error
    before any call. Otherwise the function returns (interrupted calls are
    restarted, and the last [assert] is not reached) with the outcome of the
    first [select] that was not interrupted: 0 for a timeout,
    [HS_ERROR_SYSTEM] for an error, and otherwise the identifier of the first
    descriptor left in the set. *)
Theorem darwin_poll_returns_first_kept signals fuel set timeout s :
  select_documented signals -> timebase_ok s -> (signals (s_world s) < fuel)%nat ->
  ds_ok set -> 0 < ds_count set -> Forall (fun desc => 0 <= desc) (elems set).*1 ->
  exists r s', hs_poll fuel set timeout s = Done (r, s') /\ same_objects s s' /\
    match find (fun desc => FD_SETSIZE <=? desc) (elems set).*1 with
    | Some _ => r = HS_ERROR_SYSTEM /\ s_world s' = s_world s
    | None => exists res t w,
        select (reverse (elems set).*1) t w = (res, s_world s') /\
        (timeout < 0 <-> t = None) /\
        match res with
        | Err e => e <> EINTR /\ r = HS_ERROR_SYSTEM
        | Ok (n, kept) => if n =? 0 then r = 0 else first_kept (elems set) kept = Some r
        end
    end.
Proof.
  intros Hd Htb Hf Hok Hpos Hdesc. apply wp_inv.
  unfold hs_poll. pose proof Hok as (Hcnt & _ & _). unfold DESC_MAX in Hcnt.
  wp_step. apply wp_assert; [apply negb_true_iff, Z.eqb_neq; lia|].
  wp_step. apply wp_assert; [apply Z.leb_le; lia|].
  wp_step. eapply wp_intro; [apply (select_fill_eq set _ 0); [done|done|lia]|].
  rewrite drop_0, app_nil_r. destruct (find _ _) as [desc|]; [by apply wp_error|].
  wp_step. eapply (wp_mach_millis (after signals)); [apply Hd|done|].
  intros start s1 Ho1 Hok1 Hle1. wp_step.
  eapply (wp_select_wait signals); [done|done|unfold after in *; lia|].
  intros res t w s2 E Hne Ht Ho2. pose proof (same_objects_trans _ _ _ Ho1 Ho2) as Ho.
  destruct res as [[n kept]|e].
  - destruct (Z.eqb_spec n 0) as [->|E0].
    + wp_step. split; [done|]. eexists _, t, w. by split_and!.
    + destruct (first_kept_exists (elems set) kept) as [id Hid].
      { apply (sd_kept _ Hd _ _ _ _ _ _ E) in E0. rewrite Exists_exists in *.
        destruct E0 as (x & Hx & ?). exists x. by rewrite elem_of_reverse in Hx. }
      eapply wp_intro; [apply (select_scan_eq set kept _ 0 _ id); [done|lia|by rewrite drop_0]|].
      split; [done|]. eexists _, t, w. split_and!; [done|by apply Ht..|].
      cbn beta iota. by rewrite (proj2 (Z.eqb_neq _ _) E0).
  - apply wp_error. split; [done|]. exists (Err e), t, w.
    split_and!; [done|by apply Ht..|by intros ->|done].
Qed.
End SelectProperties.

(** A scripted [select]: the descriptors of the next result that are in the set
    are left. *)
#[export] Instance script_mach : Mach script := {|
  mach_timebase_info w := ((125, 3), w);
  mach_absolute_time w := (0, w);
  select fds _ w :=
    (match default (Ok []) (head (sc_poll w)) with
     | Ok ready => let kept := filter (.∈ ready) fds in Ok (Z.of_nat (length kept), kept)
     | Err e => Err e
     end,
     Script (sc_malloc w) (sc_clock w) (tail (sc_poll w)) (sc_open w) (sc_read w) (sc_write w)
       (sc_feature w) (sc_log w))
|}.

Lemma script_select_documented : select_documented script_signals.
Proof.
  split.
  - intros fds t w n kept w' E Hn. cbn in E. destruct (default _ _) as [ready|]; [|done].
    injection E as <- <- <-. destruct (filter (.∈ ready) fds) as [|x kept] eqn:Ef; [done|].
    apply Exists_exists. exists x. split; [|left].
    assert (x ∈ filter (.∈ ready) fds) as Hx by (rewrite Ef; left).
    by apply list_elem_of_filter in Hx as [_ Hx].
  - intros fds t w w' E. cbn in E. unfold script_signals.
    destruct (sc_poll w) as [|[ready|e] l] eqn:Ep; cbn in E; try done.
    injection E as -> <-. cbn. rewrite ?Ep. cbn. lia.
  - split; [intros w n d w' [= <- <- <-]; split; [done|unfold after; lia]|intros w v w' [= <- <-]; unfold after; lia].
Qed.

(** Interrupted once, then the second descriptor is left. *)
Lemma darwin_poll_returns_first_kept_witness :
  exists r s', hs_poll 5 demo_set 100
      (scripted (Script [] [] [Err EINTR; Ok [6]] [] [] [] [] [])) = Done (r, s') /\ r = 2.
Proof.
  destruct (darwin_poll_returns_first_kept script_signals 5 demo_set 100
    (scripted (Script [] [] [Err EINTR; Ok [6]] [] [] [] [] [])) script_select_documented)
    as (r & s' & E & _); [by intros []|vm_compute; lia|by split_and!|done|by repeat constructor|].
  exists r, s'. split; [exact E|]. vm_compute in E. by injection E as <-.
Defined.
