(* ===== verification/CoreFoundation.v ===== *)
(** The part of Core Foundation and IOKit that src/src/hid_darwin.c and
    src/src/monitor_darwin.c share: references and numbers. *)

From S2P Require Import Prelude Common State Posix.

Inductive CFNumberType :=
  | kCFNumberSInt8Type | kCFNumberSInt16Type | kCFNumberSInt32Type | kCFNumberSInt64Type.

(** A reference is an integer, 0 for NULL. *)
Class CoreFoundation (W : Type) := {
  kIOReturnSuccess : Z;
  IOObjectRelease : Z -> sysc W unit;
  CFRelease : Z -> sysc W unit;
  CFGetTypeID : Z -> W -> Z;
  CFNumberGetTypeID : W -> Z;
  (** the result and the value stored *)
  CFNumberGetValue : Z -> CFNumberType -> sysc W (bool * Z)
}.
