(* ===== verification/HidDarwin.v ===== *)
(** HID devices on macOS: src/src/hid_darwin.c. A thread per handle runs the
    callbacks of IOKit and queues the input reports; the reader takes them from
    the queue, and a pipe tells it when there is something to take.

    The handle is an object shared by the two threads, at an address like the
    reports. A thread runs in steps: a critical section of the mutex is one
    step, a system call outside of it another one. *)

From S2P Require Import Prelude Common DList Htable State Posix Platform Device Heap PlatformDarwin CoreFoundation.

(** The thread of a handle: not created, in [CFRunLoopRun], or over. *)
Inductive thread_state := NoThread | InLoop | Ended.

(** struct hs_handle of hid_darwin.c. A reference to an object of IOKit or Core
    Foundation is its value, 0 for NULL; of [buf] only matters whether it is
    allocated. The mutex is [None] before [pthread_mutex_init], then whether it
    is locked; [dh_cond] says whether [cond] is initialised. The list heads are cells at [reports_of] and [free_reports_of].
    [dh_stopping] says whether the source [shutdown] was signalled. *)
Record hid_handle := HidHandle {
  dh_dev : ptr;
  dh_service : Z;
  dh_hid : Z;
  dh_buf : bool;
  dh_size : Z;
  dh_mutex : option bool;
  dh_mutex_init : bool;
  dh_pipe : Z * Z;
  dh_thread_ret : Z;
  dh_allocated_reports : Z;
  dh_thread : thread_state;
  dh_cond : bool;
  dh_cond_init : bool;
  dh_loop : Z;
  dh_shutdown : Z;
  dh_stopping : bool
}.

Definition dh_with_dev (x : ptr) (h : hid_handle) : hid_handle :=
  HidHandle x (dh_service h) (dh_hid h) (dh_buf h) (dh_size h) (dh_mutex h) (dh_mutex_init
    h) (dh_pipe h) (dh_thread_ret h) (dh_allocated_reports h) (dh_thread h) (dh_cond h)
    (dh_cond_init h) (dh_loop h) (dh_shutdown h) (dh_stopping h).
Definition dh_with_service (x : Z) (h : hid_handle) : hid_handle :=
  HidHandle (dh_dev h) x (dh_hid h) (dh_buf h) (dh_size h) (dh_mutex h) (dh_mutex_init h)
    (dh_pipe h) (dh_thread_ret h) (dh_allocated_reports h) (dh_thread h) (dh_cond h)
    (dh_cond_init h) (dh_loop h) (dh_shutdown h) (dh_stopping h).
Definition dh_with_hid (x : Z) (h : hid_handle) : hid_handle :=
  HidHandle (dh_dev h) (dh_service h) x (dh_buf h) (dh_size h) (dh_mutex h) (dh_mutex_init
    h) (dh_pipe h) (dh_thread_ret h) (dh_allocated_reports h) (dh_thread h) (dh_cond h)
    (dh_cond_init h) (dh_loop h) (dh_shutdown h) (dh_stopping h).
Definition dh_with_buf (x : bool) (h : hid_handle) : hid_handle :=
  HidHandle (dh_dev h) (dh_service h) (dh_hid h) x (dh_size h) (dh_mutex h) (dh_mutex_init
    h) (dh_pipe h) (dh_thread_ret h) (dh_allocated_reports h) (dh_thread h) (dh_cond h)
    (dh_cond_init h) (dh_loop h) (dh_shutdown h) (dh_stopping h).
Definition dh_with_size (x : Z) (h : hid_handle) : hid_handle :=
  HidHandle (dh_dev h) (dh_service h) (dh_hid h) (dh_buf h) x (dh_mutex h) (dh_mutex_init
    h) (dh_pipe h) (dh_thread_ret h) (dh_allocated_reports h) (dh_thread h) (dh_cond h)
    (dh_cond_init h) (dh_loop h) (dh_shutdown h) (dh_stopping h).
Definition dh_with_mutex (x : option bool) (h : hid_handle) : hid_handle :=
  HidHandle (dh_dev h) (dh_service h) (dh_hid h) (dh_buf h) (dh_size h) x (dh_mutex_init
    h) (dh_pipe h) (dh_thread_ret h) (dh_allocated_reports h) (dh_thread h) (dh_cond h)
    (dh_cond_init h) (dh_loop h) (dh_shutdown h) (dh_stopping h).
Definition dh_with_mutex_init (x : bool) (h : hid_handle) : hid_handle :=
  HidHandle (dh_dev h) (dh_service h) (dh_hid h) (dh_buf h) (dh_size h) (dh_mutex h) x
    (dh_pipe h) (dh_thread_ret h) (dh_allocated_reports h) (dh_thread h) (dh_cond h)
    (dh_cond_init h) (dh_loop h) (dh_shutdown h) (dh_stopping h).
Definition dh_with_pipe (x : Z * Z) (h : hid_handle) : hid_handle :=
  HidHandle (dh_dev h) (dh_service h) (dh_hid h) (dh_buf h) (dh_size h) (dh_mutex h)
    (dh_mutex_init h) x (dh_thread_ret h) (dh_allocated_reports h) (dh_thread h) (dh_cond
    h) (dh_cond_init h) (dh_loop h) (dh_shutdown h) (dh_stopping h).
Definition dh_with_thread_ret (x : Z) (h : hid_handle) : hid_handle :=
  HidHandle (dh_dev h) (dh_service h) (dh_hid h) (dh_buf h) (dh_size h) (dh_mutex h)
    (dh_mutex_init h) (dh_pipe h) x (dh_allocated_reports h) (dh_thread h) (dh_cond h)
    (dh_cond_init h) (dh_loop h) (dh_shutdown h) (dh_stopping h).
Definition dh_with_allocated_reports (x : Z) (h : hid_handle) : hid_handle :=
  HidHandle (dh_dev h) (dh_service h) (dh_hid h) (dh_buf h) (dh_size h) (dh_mutex h)
    (dh_mutex_init h) (dh_pipe h) (dh_thread_ret h) x (dh_thread h) (dh_cond h)
    (dh_cond_init h) (dh_loop h) (dh_shutdown h) (dh_stopping h).
Definition dh_with_thread (x : thread_state) (h : hid_handle) : hid_handle :=
  HidHandle (dh_dev h) (dh_service h) (dh_hid h) (dh_buf h) (dh_size h) (dh_mutex h)
    (dh_mutex_init h) (dh_pipe h) (dh_thread_ret h) (dh_allocated_reports h) x (dh_cond h)
    (dh_cond_init h) (dh_loop h) (dh_shutdown h) (dh_stopping h).
Definition dh_with_cond (x : bool) (h : hid_handle) : hid_handle :=
  HidHandle (dh_dev h) (dh_service h) (dh_hid h) (dh_buf h) (dh_size h) (dh_mutex h)
    (dh_mutex_init h) (dh_pipe h) (dh_thread_ret h) (dh_allocated_reports h) (dh_thread h)
    x (dh_cond_init h) (dh_loop h) (dh_shutdown h) (dh_stopping h).
Definition dh_with_cond_init (x : bool) (h : hid_handle) : hid_handle :=
  HidHandle (dh_dev h) (dh_service h) (dh_hid h) (dh_buf h) (dh_size h) (dh_mutex h)
    (dh_mutex_init h) (dh_pipe h) (dh_thread_ret h) (dh_allocated_reports h) (dh_thread h)
    (dh_cond h) x (dh_loop h) (dh_shutdown h) (dh_stopping h).
Definition dh_with_loop (x : Z) (h : hid_handle) : hid_handle :=
  HidHandle (dh_dev h) (dh_service h) (dh_hid h) (dh_buf h) (dh_size h) (dh_mutex h)
    (dh_mutex_init h) (dh_pipe h) (dh_thread_ret h) (dh_allocated_reports h) (dh_thread h)
    (dh_cond h) (dh_cond_init h) x (dh_shutdown h) (dh_stopping h).
Definition dh_with_shutdown (x : Z) (h : hid_handle) : hid_handle :=
  HidHandle (dh_dev h) (dh_service h) (dh_hid h) (dh_buf h) (dh_size h) (dh_mutex h)
    (dh_mutex_init h) (dh_pipe h) (dh_thread_ret h) (dh_allocated_reports h) (dh_thread h)
    (dh_cond h) (dh_cond_init h) (dh_loop h) x (dh_stopping h).
Definition dh_with_stopping (x : bool) (h : hid_handle) : hid_handle :=
  HidHandle (dh_dev h) (dh_service h) (dh_hid h) (dh_buf h) (dh_size h) (dh_mutex h)
    (dh_mutex_init h) (dh_pipe h) (dh_thread_ret h) (dh_allocated_reports h) (dh_thread h)
    (dh_cond h) (dh_cond_init h) (dh_loop h) (dh_shutdown h) x.

(** [calloc(1, sizeof(struct hs_handle))] *)
Definition hid_handle_zero : hid_handle :=
  HidHandle NULL 0 0 false 0 None false (0, 0) 0 0 NoThread false false 0 0 false.

(** The heads [reports] and [free_reports] in a handle. *)
Definition reports_of (h : ptr) : ptr := h + 96.
Definition free_reports_of (h : ptr) : ptr := h + 120.

(** struct hid_report; its list node is its first field. *)
Record hid_report := HidReport { rp_size : Z; rp_data : list Z }.

(** The state of the library, with the handles and reports of this file. *)
Record dst (W : Type) := Dst {
  dw_st : st W;
  dw_handles : gmap ptr hid_handle;
  dw_reports : gmap ptr hid_report
}.
Arguments Dst {W}.
Arguments dw_st {W}.
Arguments dw_handles {W}.
Arguments dw_reports {W}.

#[export] Instance Has_st_dst W : Has (st W) (dst W).
Proof.
  refine {| part := dw_st; with_part := fun t s => Dst t (dw_handles s) (dw_reports s) |};
    by try intros [].
Defined.

#[export] Instance Has_lmem_dst W : Has lmem (dst W).
Proof.
  refine {| part := fun s => part (dw_st s); with_part := fun l s => with_part (with_part l (dw_st s)) s |};
    by try intros [[? ? []]].
Defined.

Inductive IOHIDReportType :=
  | kIOHIDReportTypeInput | kIOHIDReportTypeOutput | kIOHIDReportTypeFeature.

#[global] Instance IOHIDReportType_eq_dec : EqDecision IOHIDReportType.
Proof. solve_decision. Defined.

(** The HID devices of IOKit, the run loops and the threads of POSIX. *)
Class IOKit (W : Type) := {
  #[global] iokit_cf :: CoreFoundation W;
  IORegistryEntryFromPath : string -> sysc W Z;
  IOHIDDeviceCreate : Z -> sysc W Z;
  IOHIDDeviceOpen : Z -> sysc W Z;
  IOHIDDeviceClose : Z -> sysc W unit;
  (** the value of a property of a device *)
  IOHIDDeviceGetProperty : Z -> string -> sysc W Z;
  IOHIDDeviceRegisterCallbacks : Z -> Z -> sysc W unit;
  IOHIDDeviceScheduleWithRunLoop : Z -> Z -> sysc W unit;
  IOHIDDeviceUnscheduleFromRunLoop : Z -> Z -> sysc W unit;
  (** device, type, report ID and bytes: a code *)
  IOHIDDeviceSetReport : Z -> IOHIDReportType -> Z -> list Z -> sysc W Z;
  (** device, type, report ID and room: a code and the bytes stored *)
  IOHIDDeviceGetReport : Z -> IOHIDReportType -> Z -> Z -> sysc W (Z * list Z);
  CFRunLoopGetCurrent : sysc W Z;
  CFRunLoopSourceCreate : Z -> sysc W Z;
  CFRunLoopAddSource : Z -> Z -> sysc W unit;
  CFRunLoopSourceSignal : Z -> sysc W unit;
  CFRunLoopWakeUp : Z -> sysc W unit;
  (** the descriptors to read and to write *)
  pipe : sysc W (sys (Z * Z));
  (** [fcntl(fd, F_SETFL, fcntl(fd, F_GETFL, 0) | O_NONBLOCK)] *)
  fcntl_nonblock : Z -> sysc W unit;
  (** 0, or an error number *)
  pthread_mutex_init : sysc W Z;
  pthread_cond_init : sysc W Z;
  pthread_create : sysc W Z;
  strerror_r : Z -> string
}.

Section HidDarwin.
Context {W : Type} `{Posix W} `{Allocator W} `{Mach W} `{IOKit W}.
Variable fuel : nat.

(** A command of the library, and one of its lists. *)
Definition lift {A} (m : M (st W) A) : M (dst W) A := zoom m.
Definition on_list {A} (m : M lmem A) : M (dst W) A := zoom m.

(** [h->field] and [h->field = v] *)
Definition load_h (h : ptr) : M (dst W) hid_handle :=
  fun s => match dw_handles s !! h with
           | Some x => Done (x, s)
           | None => Fault BadAccess
           end.
Definition set_h (h : ptr) (f : hid_handle -> hid_handle) : M (dst W) unit :=
  fun s => match dw_handles s !! h with
           | Some x => Done (tt, Dst (dw_st s) (<[h := f x]> (dw_handles s)) (dw_reports s))
           | None => Fault BadAccess
           end.
Definition load_report (p : ptr) : M (dst W) hid_report :=
  fun s => match dw_reports s !! p with
           | Some x => Done (x, s)
           | None => Fault BadAccess
           end.
Definition store_report (p : ptr) (x : hid_report) : M (dst W) unit :=
  fun s => match dw_reports s !! p with
           | Some _ => Done (tt, Dst (dw_st s) (dw_handles s) (<[p := x]> (dw_reports s)))
           | None => Fault BadAccess
           end.

(** [calloc] and [free] of a handle and of a report with room for [n] bytes. *)
Definition alloc_handle (p : ptr) : M (dst W) unit :=
  modify (fun s => Dst (dw_st s) (<[p := hid_handle_zero]> (dw_handles s)) (dw_reports s)) ;;;
  on_list (list_alloc (reports_of p)) ;;;
  on_list (list_alloc (free_reports_of p)).
Definition free_handle (p : ptr) : M (dst W) unit :=
  let* _ := load_h p in
  modify (fun s => Dst (dw_st s) (delete p (dw_handles s)) (dw_reports s)) ;;;
  on_list (list_free (reports_of p)) ;;;
  on_list (list_free (free_reports_of p)).
Definition alloc_report (p : ptr) (n : Z) : M (dst W) unit :=
  modify (fun s => Dst (dw_st s) (dw_handles s)
                     (<[p := HidReport 0 (replicate (Z.to_nat n) 0)]> (dw_reports s))) ;;;
  on_list (list_alloc p).
Definition free_report (p : ptr) : M (dst W) unit :=
  let* _ := load_report p in
  modify (fun s => Dst (dw_st s) (dw_handles s) (delete p (dw_reports s))) ;;;
  on_list (list_free p).

(** The mutex of a handle. A thread that finds it locked waits; when no other
    thread is there to unlock it, for ever. *)
Definition pthread_mutex_lock (h : ptr) : M (dst W) unit :=
  let* x := load_h h in
  match dh_mutex x with
  | None => fail BadAccess
  | Some true => fail Deadlock
  | Some false => set_h h (dh_with_mutex (Some true))
  end.
Definition pthread_mutex_unlock (h : ptr) : M (dst W) unit :=
  let* x := load_h h in
  match dh_mutex x with
  | None => fail BadAccess
  | Some _ => set_h h (dh_with_mutex (Some false))
  end.
(** A locked mutex is not destroyed: EBUSY. *)
Definition pthread_mutex_destroy (h : ptr) : M (dst W) unit :=
  let* x := load_h h in
  match dh_mutex x with
  | None => fail BadAccess
  | Some true => ret tt
  | Some false => set_h h (dh_with_mutex None)
  end.

(** * The thread of a handle *)

Definition fire_device_event (h : ptr) : M (dst W) unit :=
  let* x := load_h h in
  let* _ := lift (os (write (dh_pipe x).2 [46])) in
  ret tt.

Definition reset_device_event (h : ptr) : M (dst W) unit :=
  let* x := load_h h in
  let* _ := lift (os (read (dh_pipe x).1 1)) in
  ret tt.

(** The critical section of [hid_removal_callback]. *)
Definition removal_locked (h : ptr) : M (dst W) unit :=
  pthread_mutex_lock h ;;;
  let* x := load_h h in
  lift (os (CFRelease (dh_hid x))) ;;;
  set_h h (dh_with_hid 0) ;;;
  lift (os (CFRunLoopSourceSignal (dh_shutdown x))) ;;;
  set_h h (dh_with_stopping true) ;;;
  set_h h (dh_with_loop 0) ;;;
  pthread_mutex_unlock h.

Definition hid_removal_callback (h : ptr) : M (dst W) unit :=
  removal_locked h ;;;
  fire_device_event h.

(** A report to fill: the first free one, or a new one. [None] when 64 are
    allocated, or when there is no memory, with the result. *)
Definition take_report (h : ptr) : M (dst W) (ptr + Z) :=
  let* report := on_list (_hs_list_get_first (free_reports_of h)) in
  if negb (report =? NULL) then
    on_list (_hs_list_remove report) ;;;
    ret (inl report)
  else
    let* x := load_h h in
    if dh_allocated_reports x =? 64 then ret (inr 0)
    else
      let* report := lift new_block in
      if report =? NULL then
        let* r := lift memory_error in
        ret (inr r)
      else
        alloc_report report (dh_size x + 1) ;;;
        set_h h (dh_with_allocated_reports (u32 (dh_allocated_reports x + 1))) ;;;
        ret (inl report).

(** [memcpy(dst + 1, src, n)] *)
Definition memcpy_from_1 (dst src : list Z) (n : Z) : M (st W) (list Z) :=
  if (n <? 0) || (Z.of_nat (length src) <? n) || (Z.of_nat (length dst) <? n + 1)
  then fail OutOfBounds
  else ret (take 1 dst ++ take (Z.to_nat n) src ++ drop (Z.to_nat n + 1) dst).

(** The report is filled and added to the queue. *)
Definition fill_report (h report : ptr) (report_id : Z) (report_data : list Z)
    (report_size : Z) : M (dst W) unit :=
  let* x := load_h h in
  let report_size := if dh_size x <? report_size then dh_size x else report_size in
  let* p := load_report report in
  let* data := lift (let* data := arr_set (rp_data p) 0 (u8 report_id) in
                     memcpy_from_1 data report_data report_size) in
  store_report report (HidReport (u64 (report_size + 1)) data) ;;;
  on_list (_hs_list_add_tail (reports_of h) report).

(** The critical section of [hid_report_callback]: whether to fire. *)
Definition report_locked (h : ptr) (report_id : Z) (report_data : list Z) (report_size : Z)
    : M (dst W) bool :=
  pthread_mutex_lock h ;;;
  let* fire := on_list (_hs_list_is_empty (reports_of h)) in
  let* report := take_report h in
  let* r :=
    (match report with
     | inr r => ret r
     | inl report =>
         fill_report h report report_id report_data report_size ;;;
         ret 0
     end) in
  (if r <? 0 then set_h h (dh_with_thread_ret r) else ret tt) ;;;
  pthread_mutex_unlock h ;;;
  ret fire.

Definition hid_report_callback (h : ptr) (report_type : IOHIDReportType) (report_id : Z)
    (report_data : list Z) (report_size : Z) : M (dst W) unit :=
  if bool_decide (report_type <> kIOHIDReportTypeInput) then ret tt
  else
    let* fire := report_locked h report_id report_data report_size in
    if fire : bool then fire_device_event h else ret tt.

(** [device_thread] up to [CFRunLoopRun()]. *)
Definition device_thread_start (h : ptr) : M (dst W) unit :=
  pthread_mutex_lock h ;;;
  let* loop := lift (os CFRunLoopGetCurrent) in
  set_h h (dh_with_loop loop) ;;;
  let* shutdown := lift (os (CFRunLoopSourceCreate loop)) in
  set_h h (dh_with_shutdown shutdown) ;;;
  if shutdown =? 0 then
    let* r := lift (error HS_ERROR_SYSTEM "CFRunLoopSourceCreate() failed") in
    set_h h (dh_with_thread_ret r) ;;;
    set_h h (dh_with_thread Ended) ;;;
    pthread_mutex_unlock h
  else
    let* x := load_h h in
    lift (os (CFRunLoopAddSource loop shutdown)) ;;;
    lift (os (IOHIDDeviceScheduleWithRunLoop (dh_hid x) loop)) ;;;
    set_h h (dh_with_thread_ret 1) ;;;
    set_h h (dh_with_thread InLoop) ;;;
    pthread_mutex_unlock h.

(** [device_thread] once [CFRunLoopRun()] returns. *)
Definition device_thread_end (h : ptr) : M (dst W) unit :=
  let* x := load_h h in
  (if negb (dh_hid x =? 0) then
     lift (os (IOHIDDeviceUnscheduleFromRunLoop (dh_hid x) (dh_loop x)))
   else ret tt) ;;;
  pthread_mutex_lock h ;;;
  set_h h (dh_with_loop 0) ;;;
  pthread_mutex_unlock h ;;;
  set_h h (dh_with_thread Ended).

(** [pthread_join]: the thread ends; its loop does when it was stopped. *)
Definition pthread_join (h : ptr) : M (dst W) unit :=
  let* x := load_h h in
  match dh_thread x with
  | NoThread => fail BadAccess
  | Ended => ret tt
  | InLoop => if dh_stopping x then device_thread_end h else fail Deadlock
  end.

(** [pthread_cond_wait]: the mutex is unlocked, the thread that
    [pthread_create] started runs until it signals the condition, and the mutex
    is locked again. *)
Definition pthread_cond_wait (h : ptr) : M (dst W) unit :=
  let* x := load_h h in
  (if dh_cond x then ret tt else fail BadAccess) ;;;
  pthread_mutex_unlock h ;;;
  device_thread_start h ;;;
  pthread_mutex_lock h.

(** * Opening and closing *)

(** The result, and the value stored in [*rn]. *)
Definition get_hid_device_property_number (dev : Z) (prop : string) (type : CFNumberType)
    : M (st W) (bool * option Z) :=
  let* data := os (IOHIDDeviceGetProperty dev prop) in
  let* s := get in
  if (data =? 0) || negb (CFGetTypeID data (s_world s) =? CFNumberGetTypeID (s_world s))
  then ret (false, None)
  else
    let* rn := os (CFNumberGetValue data type) in
    ret (rn.1, Some rn.2).

(** [free] of each report of a list. *)
Definition free_reports (h : ptr) : M (dst W) unit :=
  let* x := load_h h in
  let* _ := _hs_list_foreach (R := unit) (ret (free_reports_of h))
              (fun cur => free_report cur ;;; ret Next)
              (S (Z.to_nat (dh_allocated_reports x))) in
  ret tt.

Definition pthread_cond_destroy (h : ptr) : M (dst W) unit :=
  let* x := load_h h in
  if dh_cond x then set_h h (dh_with_cond false) else fail BadAccess.

(** The thread of [close_hid_device], stopped and joined. *)
Definition stop_thread (h : ptr) : M (dst W) unit :=
  pthread_mutex_lock h ;;;
  let* x := load_h h in
  (if negb (dh_loop x =? 0) then
     lift (os (CFRunLoopSourceSignal (dh_shutdown x))) ;;;
     set_h h (dh_with_stopping true) ;;;
     lift (os (CFRunLoopWakeUp (dh_loop x)))
   else ret tt) ;;;
  pthread_mutex_unlock h ;;;
  pthread_join h ;;;
  lift (os (CFRelease (dh_shutdown x))).

(** From [close(h->pipe[0])] on. *)
Definition release_handle (h : ptr) : M (dst W) unit :=
  let* x := load_h h in
  lift (os (close (dh_pipe x).1)) ;;;
  lift (os (close (dh_pipe x).2)) ;;;
  (if negb (dh_hid x =? 0) then
     lift (os (IOHIDDeviceClose (dh_hid x))) ;;;
     lift (os (CFRelease (dh_hid x)))
   else ret tt) ;;;
  (if negb (dh_service x =? 0) then lift (os (IOObjectRelease (dh_service x))) else ret tt) ;;;
  lift (hs_device_unref (dh_dev x)) ;;;
  free_handle h.

Definition close_hid_device (h : ptr) : M (dst W) unit :=
  if h =? NULL then ret tt
  else
    let* x := load_h h in
    (if negb (dh_shutdown x =? 0) then stop_thread h else ret tt) ;;;
    (if dh_cond_init x then pthread_cond_destroy h else ret tt) ;;;
    (if dh_mutex_init x then pthread_mutex_destroy h else ret tt) ;;;
    on_list (_hs_list_splice (free_reports_of h) (reports_of h)) ;;;
    free_reports h ;;;
    release_handle h.

(** [hs_handle_close] of device.c, on these handles. *)
Definition hs_handle_close (h : ptr) : M (dst W) unit :=
  if h =? NULL then ret tt
  else
    let* x := load_h h in
    let* d := lift (load_dev (dh_dev x)) in
    match dev_vtable d with
    | _hs_darwin_hid_vtable => close_hid_device h
    | _ => fail BadAccess
    end.

(** [error:] of [open_hid_device] *)
Definition hid_error (h : ptr) (r : Z) : M (dst W) (Z * option ptr) :=
  hs_handle_close h ;;;
  ret (r, None).

Definition not_found (path : string) : M (dst W) Z :=
  lift (error HS_ERROR_NOT_FOUND ("Device '" +:+ path +:+ "' not found")).

(** [pthread_mutex_init] and [pthread_cond_init]: a positive error is not seen. *)
Definition init_mutex (h : ptr) : M (dst W) Z :=
  let* r := lift (os pthread_mutex_init) in
  (if r =? 0 then set_h h (dh_with_mutex (Some false)) else ret tt) ;;;
  if r <? 0 then
    lift (error HS_ERROR_SYSTEM ("pthread_mutex_init() failed: " +:+ strerror_r r))
  else
    set_h h (dh_with_mutex_init true) ;;;
    ret r.
Definition init_cond (h : ptr) : M (dst W) Z :=
  let* r := lift (os pthread_cond_init) in
  (if r =? 0 then set_h h (dh_with_cond true) else ret tt) ;;;
  if r <? 0 then
    lift (error HS_ERROR_SYSTEM ("pthread_cond_init() failed: " +:+ strerror_r r))
  else
    set_h h (dh_with_cond_init true) ;;;
    ret r.

(** From [pthread_mutex_lock] on: the thread. *)
Definition start_thread (h : ptr) : M (dst W) (Z * option ptr) :=
  pthread_mutex_lock h ;;;
  let* r := lift (os pthread_create) in
  if negb (r =? 0) then
    let* r := lift (error HS_ERROR_SYSTEM ("pthread_create() failed: " +:+ strerror_r r)) in
    hid_error h r
  else
    let* x := load_h h in
    (if dh_thread_ret x =? 0 then pthread_cond_wait h else ret tt) ;;;
    let* x := load_h h in
    let r := dh_thread_ret x in
    set_h h (dh_with_thread_ret 0) ;;;
    pthread_mutex_unlock h ;;;
    if r <? 0 then hid_error h r else ret (0, Some h).

(** From [IOHIDDeviceRegisterRemovalCallback] on. *)
Definition open_events (h : ptr) : M (dst W) (Z * option ptr) :=
  let* x := load_h h in
  lift (os (IOHIDDeviceRegisterCallbacks (dh_hid x) (dh_size x))) ;;;
  let* r := lift (os pipe) in
  match r with
  | Err e =>
      let* r := lift (error HS_ERROR_SYSTEM ("pipe() failed: " +:+ strerror e)) in
      hid_error h r
  | Ok fds =>
      set_h h (dh_with_pipe fds) ;;;
      lift (os (fcntl_nonblock fds.1)) ;;;
      lift (os (fcntl_nonblock fds.2)) ;;;
      let* r := init_mutex h in
      if r <? 0 then hid_error h r
      else
        let* r := init_cond h in
        if r <? 0 then hid_error h r else start_thread h
  end.

(** The size of the reports, and the buffer for them. [h->size] is a [size_t]
    that was zero, in which an [SInt32] is stored. *)
Definition open_size (h : ptr) (path : string) : M (dst W) (Z * option ptr) :=
  let* x := load_h h in
  let* rn := lift (get_hid_device_property_number (dh_hid x) "MaxInputReportSize"
                     kCFNumberSInt32Type) in
  (match rn.2 with Some n => set_h h (dh_with_size (u32 n)) | None => ret tt end) ;;;
  if negb rn.1 then
    let* r := lift (error HS_ERROR_SYSTEM
                      ("HID device '" +:+ path +:+ "' has no valid report size key")) in
    hid_error h r
  else
    let* ok := lift (os malloc_ok) in
    if negb ok then
      let* r := lift memory_error in
      hid_error h r
    else
      set_h h (dh_with_buf true) ;;;
      open_events h.

(** From [IORegistryEntryFromPath] on. *)
Definition open_service (h : ptr) (path : string) : M (dst W) (Z * option ptr) :=
  let* service := lift (os (IORegistryEntryFromPath path)) in
  set_h h (dh_with_service service) ;;;
  if service =? 0 then
    let* r := not_found path in
    hid_error h r
  else
    let* hid := lift (os (IOHIDDeviceCreate service)) in
    set_h h (dh_with_hid hid) ;;;
    if hid =? 0 then
      let* r := not_found path in
      hid_error h r
    else
      let* kret := lift (os (IOHIDDeviceOpen hid)) in
      if negb (kret =? kIOReturnSuccess) then
        let* r := lift (error HS_ERROR_SYSTEM
                          ("Failed to open HID device '" +:+ path +:+ "'")) in
        hid_error h r
      else open_size h path.

Definition open_hid_device (dev : ptr) : M (dst W) (Z * option ptr) :=
  let* h := lift new_block in
  if h =? NULL then
    let* r := lift memory_error in
    hid_error NULL r
  else
    alloc_handle h ;;;
    let* dev := lift (hs_device_ref dev) in
    set_h h (dh_with_dev dev) ;;;
    set_h h (dh_with_pipe (-1, -1)) ;;;
    on_list (_hs_list_init (reports_of h)) ;;;
    on_list (_hs_list_init (free_reports_of h)) ;;;
    let* d := lift (load_dev dev) in
    match dev_path d with
    | None => lift (fail BadAccess)
    | Some path => open_service h path
    end.

Definition get_hid_descriptor (h : ptr) : M (dst W) Z :=
  let* x := load_h h in
  ret (dh_pipe x).1.

(** * Reports *)

Definition removed (x : hid_handle) : M (dst W) Z :=
  let* d := lift (load_dev (dh_dev x)) in
  lift (error HS_ERROR_IO ("Device '" +:+ str (dev_path d) +:+ "' was removed")).

(** [assert(h->dev->type == HS_DEVICE_TYPE_HID)] *)
Definition assert_hid (h : ptr) : M (dst W) hid_handle :=
  let* x := load_h h in
  let* d := lift (load_dev (dh_dev x)) in
  assert_ (bool_decide (dev_type d = HS_DEVICE_TYPE_HID)) ;;;
  ret x.

(** The result, and [desc]: the usage page and the usage. *)
Definition hs_hid_parse_descriptor (h : ptr) : M (dst W) (Z * option (Z * Z)) :=
  let* x := load_h h in
  if dh_hid x =? 0 then
    let* r := removed x in
    ret (r, None)
  else
    let* page := lift (get_hid_device_property_number (dh_hid x) "PrimaryUsagePage"
                         kCFNumberSInt16Type) in
    let* usage := lift (get_hid_device_property_number (dh_hid x) "PrimaryUsage"
                          kCFNumberSInt16Type) in
    ret (0, Some (u16 (default 0 page.2), u16 (default 0 usage.2))).

(** The wait of [hs_hid_read]: [None] when it goes on to read. *)
Definition wait_report (h : ptr) (timeout : Z) : M (dst W) (option Z) :=
  if timeout =? 0 then ret None
  else
    let* x := load_h h in
    let* start := lift hs_millis in
    let* r := lift (restart (let* t := hs_adjust_timeout hs_millis timeout start in
                             os (poll [((dh_pipe x).1, POLLIN)] t)) fuel) in
    match r with
    | Err e =>
        let* d := lift (load_dev (dh_dev x)) in
        let* r := lift (error HS_ERROR_SYSTEM
                          ("poll('" +:+ str (dev_path d) +:+ "') failed: " +:+ strerror e)) in
        ret (Some r)
    | Ok (n, _) => if n =? 0 then ret (Some 0) else ret None
    end.

(** [reset:] of [hs_hid_read] *)
Definition reset_if_empty (h : ptr) : M (dst W) unit :=
  let* e := on_list (_hs_list_is_empty (reports_of h)) in
  if e : bool then reset_device_event h else ret tt.

(** The critical section of [hs_hid_read]: the result and the bytes stored at
    the start of [buf]. *)
Definition read_locked (h : ptr) (size : Z) : M (dst W) (Z * list Z) :=
  pthread_mutex_lock h ;;;
  let* x := load_h h in
  let* rb :=
    (if dh_thread_ret x <? 0 then
       set_h h (dh_with_thread_ret 0) ;;;
       reset_if_empty h ;;;
       ret (dh_thread_ret x, [])
     else
       let* report := on_list (_hs_list_get_first (reports_of h)) in
       if report =? NULL then ret (0, [])
       else
         let* p := load_report report in
         let size := if rp_size p <? size then rp_size p else size in
         on_list (_hs_list_remove report) ;;;
         on_list (_hs_list_add (free_reports_of h) report) ;;;
         reset_if_empty h ;;;
         ret (size, take (Z.to_nat size) (rp_data p))) in
  pthread_mutex_unlock h ;;;
  ret rb.

Definition hs_hid_read (h : ptr) (size timeout : Z) : M (dst W) (Z * list Z) :=
  let* x := assert_hid h in
  assert_ (negb (size =? 0)) ;;;
  if dh_hid x =? 0 then
    let* r := removed x in
    ret (r, [])
  else
    let* w := wait_report h timeout in
    match w with
    | Some r => ret (r, [])
    | None => read_locked h size
    end.

(** [buf] holds [size] bytes. *)
Definition send_report (h : ptr) (type : IOHIDReportType) (buf : list Z) : M (dst W) Z :=
  let* x := load_h h in
  if dh_hid x =? 0 then removed x
  else if Z.of_nat (length buf) <? 2 then ret 0
  else
    let* report := lift (arr_get buf 0) in
    let buf := if report =? 0 then tail buf else buf in
    let* kret := lift (os (IOHIDDeviceSetReport (dh_hid x) type report buf)) in
    if negb (kret =? kIOReturnSuccess) then
      lift (error HS_ERROR_SYSTEM "IOHIDDeviceSetReport() failed")
    else ret (Z.of_nat (length buf) + (if report =? 0 then 1 else 0)).

Definition hs_hid_write (h : ptr) (buf : list Z) : M (dst W) Z :=
  assert_hid h ;;;
  send_report h kIOHIDReportTypeOutput buf.

(** The result and the final content of [buf]. *)
Definition hs_hid_get_feature_report (h : ptr) (report_id : Z) (buf : list Z)
    : M (dst W) (Z * list Z) :=
  let* x := assert_hid h in
  assert_ (negb (Z.of_nat (length buf) =? 0)) ;;;
  let* kb := lift (os (IOHIDDeviceGetReport (dh_hid x) kIOHIDReportTypeFeature report_id
                         (Z.of_nat (length buf) - 1))) in
  let got := kb.2 ++ drop (length kb.2) (tail buf) in
  if negb (kb.1 =? kIOReturnSuccess) then
    let* r := lift (error HS_ERROR_SYSTEM "IOHIDDeviceSetReport() failed") in
    ret (r, take 1 buf ++ got)
  else
    let* buf := lift (arr_set (take 1 buf ++ got) 0 report_id) in
    ret (Z.of_nat (length kb.2), buf).

Definition hs_hid_send_feature_report (h : ptr) (buf : list Z) : M (dst W) Z :=
  assert_hid h ;;;
  send_report h kIOHIDReportTypeFeature buf.
End HidDarwin.
