(* ===== verification/HidDarwinSpec.v ===== *)
(** The queue of reports of hid_darwin.c: a specification as a bounded queue
    with labelled steps, its refinement by the thread of a handle and its
    readers in any interleaving, wake-ups, delivery, and the balance of opening
    and closing. *)

From S2P Require Import Prelude Common DList Htable State Posix Platform Device Heap PlatformDarwin CoreFoundation HidDarwin.

(** * The queue *)

(** The queue of input reports: the bytes of each, its identifier first, and an
    error of the thread (0 for none). *)
Record hid_queue := HidQueue { hq_items : list (list Z); hq_error : Z }.

(** One step of the queue: a report of the device, or a read with a buffer of
    [size] bytes. *)
Inductive queue_label :=
  | QReport (report_id : Z) (data : list Z) (size : Z)
  | QFire
  | QRead (size r : Z) (bytes : list Z).

(** What is kept of a report by a handle whose reports have at most [max]
    bytes, not counting the identifier. *)
Definition kept (max report_id : Z) (data : list Z) (size : Z) : list Z :=
  u8 report_id :: take (Z.to_nat (Z.min size max)) data.

(** The specification of the queue. A report is lost when 64 wait, or when
    there is no memory for it, which a later read tells. *)
Inductive queue_step (max : Z) : hid_queue -> queue_label -> hid_queue -> Prop :=
  | queue_accept items err id data size :
      (length items < 64)%nat ->
      queue_step max (HidQueue items err) (QReport id data size)
        (HidQueue (items ++ [kept max id data size]) err)
  | queue_full items err id data size :
      length items = 64%nat ->
      queue_step max (HidQueue items err) (QReport id data size) (HidQueue items err)
  | queue_no_memory items err id data size :
      (length items < 64)%nat ->
      queue_step max (HidQueue items err) (QReport id data size)
        (HidQueue items HS_ERROR_MEMORY)
  | queue_fire q : queue_step max q QFire q
  | queue_error items err size :
      err < 0 ->
      queue_step max (HidQueue items err) (QRead size err []) (HidQueue items 0)
  | queue_empty size : queue_step max (HidQueue [] 0) (QRead size 0 []) (HidQueue [] 0)
  | queue_read item items size :
      queue_step max (HidQueue (item :: items) 0)
        (QRead size (Z.min (Z.of_nat (length item)) size) (take (Z.to_nat size) item))
        (HidQueue items 0).

Section Queue.
Context {W : Type} `{Posix W} `{Allocator W}.
Implicit Types (s : dst W) (h p : ptr) (q fr loose : list ptr).

Definition lists_of s : lmem := part (dw_st s).

(** The node [p] holds the report [item]. *)
Definition holds (x : hid_handle) s p (item : list Z) : Prop :=
  exists r, dw_reports s !! p = Some r /\ 1 <= rp_size r <= dh_size x + 1 /\
    item = take (Z.to_nat (rp_size r)) (rp_data r).

(** The handle [x] at [h], with the reports [q] queued, [fr] free and [loose]
    in neither list; [lk]: the mutex is locked. *)
Record queue_inv h (x : hid_handle) (lk : bool) s q fr loose (items : list (list Z)) : Prop := {
  qi_handle : dw_handles s !! h = Some x;
  qi_mutex : dh_mutex x = Some lk;
  qi_reports : dlist (lists_of s) (reports_of h) q;
  qi_free : dlist (lists_of s) (free_reports_of h) fr;
  qi_nodup : NoDup (reports_of h :: free_reports_of h :: q ++ fr ++ loose);
  qi_loose : forall p, p ∈ loose -> p <> NULL /\ list_node (lists_of s) p;
  qi_room : forall p, p ∈ q ++ fr ++ loose -> exists r, dw_reports s !! p = Some r /\
    Z.of_nat (length (rp_data r)) = dh_size x + 1;
  qi_items : Forall2 (holds x s) q items;
  qi_count : dh_allocated_reports x = Z.of_nat (length (q ++ fr ++ loose));
  qi_max : dh_allocated_reports x <= 64;
  qi_size : 0 <= dh_size x < 2 ^ 32
}.

(** Devices and static variables are not changed. *)
Definition same_library s s' : Prop :=
  m_devs (s_mem (dw_st s')) = m_devs (s_mem (dw_st s)) /\
  m_statics (s_mem (dw_st s')) = m_statics (s_mem (dw_st s)).

Lemma same_library_trans s1 s2 s3 :
  same_library s1 s2 -> same_library s2 s3 -> same_library s1 s3.
Proof. unfold same_library. intuition congruence. Qed.

Lemma wp_load_h (Q : hid_handle -> dst W -> Prop) s h x :
  dw_handles s !! h = Some x -> Q x s -> wp (load_h h) Q s.
Proof. unfold wp, load_h. by intros ->. Qed.

Lemma wp_set_h (Q : unit -> dst W -> Prop) s h x f :
  dw_handles s !! h = Some x ->
  Q tt (Dst (dw_st s) (<[h := f x]> (dw_handles s)) (dw_reports s)) -> wp (set_h h f) Q s.
Proof. unfold wp, set_h. by intros ->. Qed.

Lemma wp_load_report (Q : hid_report -> dst W -> Prop) s p r :
  dw_reports s !! p = Some r -> Q r s -> wp (load_report p) Q s.
Proof. unfold wp, load_report. by intros ->. Qed.

Lemma wp_store_report (Q : unit -> dst W -> Prop) s p r :
  is_Some (dw_reports s !! p) ->
  Q tt (Dst (dw_st s) (dw_handles s) (<[p := r]> (dw_reports s))) -> wp (store_report p r) Q s.
Proof. unfold wp, store_report. by intros [? ->]. Qed.

Lemma wp_lift {A} (m : M (st W) A) (Q : A -> dst W -> Prop) s :
  wp m (fun a t => Q a (Dst t (dw_handles s) (dw_reports s))) (dw_st s) -> wp (lift m) Q s.
Proof. intros HQ. by apply wp_zoom. Qed.

Lemma wp_on_list {A} (m : M lmem A) (Q : A -> dst W -> Prop) s :
  wp m (fun a l => Q a (with_part l s)) (lists_of s) -> wp (on_list m) Q s.
Proof. intros HQ. by apply wp_zoom. Qed.

(** A command of the lists that only looks. *)
Lemma wp_on_list_look {A} (m : M lmem A) (Q : A -> dst W -> Prop) s :
  wp m (fun a l => l = lists_of s /\ Q a s) (lists_of s) -> wp (on_list m) Q s.
Proof.
  intros HQ. apply wp_on_list. eapply wp_mono; [exact HQ|]. intros a l [-> Ha].
  by destruct s as [[? ? []]].
Qed.

(** The invariant sees only the lists, the handle and the reports. *)
Lemma queue_inv_state h x lk s s' q fr loose items :
  queue_inv h x lk s q fr loose items ->
  lists_of s' = lists_of s -> dw_handles s' !! h = Some x -> dw_reports s' = dw_reports s ->
  queue_inv h x lk s' q fr loose items.
Proof.
  intros [] El Eh Er. split; rewrite ?El, ?Er; try done.
  eapply Forall2_impl; [done|]. intros p i. unfold holds. by rewrite Er.
Qed.

(** Storing a field of the handle that the invariant does not mention, or the
    mutex. *)
Lemma queue_inv_set h x lk s q fr loose items f lk' :
  queue_inv h x lk s q fr loose items ->
  dh_mutex (f x) = Some lk' -> dh_size (f x) = dh_size x ->
  dh_allocated_reports (f x) = dh_allocated_reports x ->
  queue_inv h (f x) lk' (Dst (dw_st s) (<[h := f x]> (dw_handles s)) (dw_reports s)) q fr loose items.
Proof.
  intros [] Em Es Ea. split; rewrite ?Es, ?Ea; cbn; try done; [by rewrite lookup_insert_eq|].
  eapply Forall2_impl; [done|]. intros p i. unfold holds. by rewrite Es.
Qed.

Lemma wp_mutex_lock (Q : unit -> dst W -> Prop) h x s q fr loose items :
  queue_inv h x false s q fr loose items ->
  (forall s', queue_inv h (dh_with_mutex (Some true) x) true s' q fr loose items ->
     dw_st s' = dw_st s -> Q tt s') ->
  wp (pthread_mutex_lock h) Q s.
Proof.
  intros Hi HQ. unfold pthread_mutex_lock. wp_step. eapply wp_load_h; [by eapply qi_handle|].
  rewrite (qi_mutex _ _ _ _ _ _ _ _ Hi). eapply wp_set_h; [by eapply qi_handle|].
  apply HQ; [|done]. by apply (queue_inv_set _ _ _ _ _ _ _ _ (dh_with_mutex (Some true)) true Hi).
Qed.

Lemma wp_mutex_unlock (Q : unit -> dst W -> Prop) h x lk s q fr loose items :
  queue_inv h x lk s q fr loose items ->
  (forall s', queue_inv h (dh_with_mutex (Some false) x) false s' q fr loose items ->
     dw_st s' = dw_st s -> Q tt s') ->
  wp (pthread_mutex_unlock h) Q s.
Proof.
  intros Hi HQ. unfold pthread_mutex_unlock. wp_step. eapply wp_load_h; [by eapply qi_handle|].
  rewrite (qi_mutex _ _ _ _ _ _ _ _ Hi). eapply wp_set_h; [by eapply qi_handle|].
  apply HQ; [|done]. by apply (queue_inv_set _ _ _ _ _ _ _ _ (dh_with_mutex (Some false)) false Hi).
Qed.
End Queue.

Section Report.
Context {W : Type} `{Posix W} `{Allocator W}.
Implicit Types (s : dst W) (h p : ptr) (q fr loose : list ptr).

(** Only [malloc] was called, if anything. *)
Definition only_malloc s s' : Prop :=
  s_world (dw_st s') = s_world (dw_st s) \/
  exists b, malloc_ok (s_world (dw_st s)) = (b, s_world (dw_st s')).

(** A node taken out of the free list. *)
Lemma free_list_pop h x s p q fr items (Q : unit -> dst W -> Prop) :
  queue_inv h x true s q (p :: fr) [] items ->
  (forall s', queue_inv h x true s' q fr [p] items -> same_library s s' -> only_malloc s s' -> Q tt s') ->
  wp (on_list (_hs_list_remove p)) Q s.
Proof.
  intros [] HQ. apply wp_on_list. eapply (wp_list_remove _ _ _ [] p fr); [done|].
  intros l Hfr Hp Hn Hs. assert (Hperm : q ++ (p :: fr) ++ [] ≡ₚ q ++ fr ++ [p]).
  { rewrite app_nil_r. apply Permutation_app_head, Permutation_cons_append. }
  rewrite Hperm in qi_nodup0. apply HQ; [split; cbn; try done| |by left].
  - eapply dlist_outside; [done| |done]. clear -qi_nodup0.
    rewrite !NoDup_cons, !NoDup_app in qi_nodup0. set_solver.
  - intros p' ->%list_elem_of_singleton. split; [|split; eauto].
    intros ->. apply (dlist_nonnull _ _ _ qi_free0). set_solver.
  - intros p' Hp'. rewrite <- Hperm in Hp'. auto.
  - by rewrite qi_count0, Hperm.
  - by split.
Qed.

(** A report that was just allocated. *)
Lemma alloc_report_inv h x s q p items (Q : unit -> dst W -> Prop) :
  queue_inv h x true s q [] [] items -> (length q < 64)%nat ->
  p <> NULL -> l_prev (lists_of s) !! p = None ->
  (forall s', queue_inv h (dh_with_allocated_reports (u32 (dh_allocated_reports x + 1)) x)
                true s' q [] [p] items ->
     same_library s s' -> s_world (dw_st s') = s_world (dw_st s) -> Q tt s') ->
  wp (alloc_report p (dh_size x + 1) ;;;
      set_h h (dh_with_allocated_reports (u32 (dh_allocated_reports x + 1)))) Q s.
Proof.
  intros [] Hq Hp Hnew HQ. cbn in qi_count0. rewrite app_nil_r in *.
  assert (Hfresh : forall h' xs, dlist (lists_of s) h' xs -> p ∉ h' :: xs).
  { intros h' xs Hd Hin. destruct (dlist_node _ _ _ _ Hd Hin) as [[? E] _]. congruence. }
  pose proof (Hfresh _ _ qi_reports0). pose proof (Hfresh _ _ qi_free0).
  unfold alloc_report. wp_steps. apply wp_on_list. unfold list_alloc. wp_step.
  eapply wp_set_h; [done|]. apply HQ; rewrite ?u32_small by lia; cbn; [split; cbn; try done|by split|done].
  - by rewrite lookup_insert_eq.
  - eapply (dlist_outside _ _ [p]); [|set_solver|done]. intros p' Hp'. cbn.
    rewrite !lookup_insert_ne by set_solver. done.
  - eapply (dlist_outside _ _ [p]); [|set_solver|done]. intros p' Hp'. cbn.
    rewrite !lookup_insert_ne by set_solver. done.
  - by apply (NoDup_snoc (_ :: _ :: q)); [|set_solver].
  - intros p' ->%list_elem_of_singleton. split; [done|]. unfold list_node. cbn.
    by rewrite !lookup_insert_eq.
  - intros p' [Hp'| ->%list_elem_of_singleton]%elem_of_app.
    + rewrite lookup_insert_ne by set_solver. apply qi_room0. set_solver.
    + rewrite lookup_insert_eq. eexists. split; [done|]. cbn. rewrite length_replicate. lia.
  - eapply Forall2_impl_in; [done|]. intros p' i Hp'. unfold holds. cbn.
    by rewrite lookup_insert_ne by set_solver.
  - rewrite length_app. cbn. lia.
  - lia.
Qed.

Lemma wp_take_report h x s q fr items (Q : ptr + Z -> dst W -> Prop) :
  allocator_documented -> queue_inv h x true s q fr [] items ->
  (forall p x' s' fr', queue_inv h x' true s' q fr' [p] items ->
     (exists a, x' = dh_with_allocated_reports a x) ->
     same_library s s' -> only_malloc s s' -> Q (inl p) s') ->
  (length items = 64%nat -> Q (inr 0) s) ->
  (forall s', (length items < 64)%nat -> queue_inv h x true s' q fr [] items ->
     same_library s s' -> only_malloc s s' -> Q (inr HS_ERROR_MEMORY) s') ->
  wp (take_report h) Q s.
Proof.
  intros Ha Hi Htake Hfull Hmem. unfold take_report. wp_step. apply wp_on_list_look.
  eapply wp_list_get_first; [by eapply qi_free|]. split; [done|].
  destruct fr as [|p fr]; cbn.
  - wp_step. eapply wp_load_h; [by eapply qi_handle|].
    pose proof (qi_count _ _ _ _ _ _ _ _ Hi) as Hc. pose proof (qi_max _ _ _ _ _ _ _ _ Hi) as Hm.
    cbn in Hc. rewrite app_nil_r, (Forall2_length _ _ _ (qi_items _ _ _ _ _ _ _ _ Hi)) in Hc.
    destruct (Z.eqb_spec (dh_allocated_reports x) 64); [wp_step; apply Hfull; lia|].
    wp_step. apply wp_lift. apply wp_new_block; intros w Ew; cbn.
    + wp_step. apply wp_lift, wp_memory_error. wp_step. apply Hmem; [lia| |by split|right; cbn; eauto].
      eapply queue_inv_state; [done|done|apply (qi_handle _ _ _ _ _ _ _ _ Hi)|done].
    + destruct (Ha w (s_mem (dw_st s))) as [Hn Hu].
      set (p := block_address w (s_mem (dw_st s))) in *.
      assert (p =? NULL = false) as -> by (unfold NULL in *; lia).
      set (s1 := Dst _ _ _).
      assert (queue_inv h x true s1 q [] [] items) as Hi1.
      { eapply queue_inv_state; [done|done|apply (qi_handle _ _ _ _ _ _ _ _ Hi)|done]. }
      apply wp_assoc. wp_step. eapply (alloc_report_inv h x s1 q p items); [done| | | |].
      * rewrite (Forall2_length _ _ _ (qi_items _ _ _ _ _ _ _ _ Hi)). lia.
      * unfold NULL in *. lia.
      * apply eq_None_not_Some. intros Hs. apply (Hu p); [lia|lia|]. unfold in_use. tauto.
      * intros s' Hs' Hl Hw. wp_step. eapply Htake; [done|by eexists|done|].
        right. exists true. by rewrite Hw.
  - assert (p =? NULL = false) as ->.
    { apply Z.eqb_neq. intros ->. apply (dlist_nonnull _ _ _ (qi_free _ _ _ _ _ _ _ _ Hi)). set_solver. }
    cbn. wp_step. eapply free_list_pop; [done|]. intros s' Hs' Hl Hw. wp_step.
    eapply Htake; [done| |done|done]. exists (dh_allocated_reports x). by destruct x.
Qed.

(** A filled report added to the queue. *)
Lemma queue_push h x s q fr p r items (Q : unit -> dst W -> Prop) :
  queue_inv h x true s q fr [p] items ->
  1 <= rp_size r <= dh_size x + 1 -> Z.of_nat (length (rp_data r)) = dh_size x + 1 ->
  (forall s', queue_inv h x true s' (q ++ [p]) fr []
                (items ++ [take (Z.to_nat (rp_size r)) (rp_data r)]) ->
     same_library s s' -> s_world (dw_st s') = s_world (dw_st s) -> Q tt s') ->
  wp (store_report p r ;;; on_list (_hs_list_add_tail (reports_of h) p)) Q s.
Proof.
  intros Hi Hr Hl HQ. pose proof Hi as []. destruct (qi_loose0 p) as [Hp Hnode]; [set_solver|].
  destruct (qi_room0 p) as (r0 & Hr0 & _); [set_solver|].
  assert (Hperm : q ++ fr ++ [p] ≡ₚ (q ++ [p]) ++ fr ++ []).
  { rewrite app_nil_r, <- app_assoc. apply Permutation_app_head, Permutation_app_comm. }
  wp_step. eapply wp_store_report; [eauto|]. apply wp_on_list. cbn.
  assert (Hd : p ∉ reports_of h :: q /\ p ∉ free_reports_of h :: fr /\
               (reports_of h :: q) ## (free_reports_of h :: fr)).
  { clear -qi_nodup0. rewrite !NoDup_cons, !NoDup_app in qi_nodup0. set_solver. }
  destruct Hd as (Hd1 & Hd2 & Hd3).
  eapply wp_list_add_tail; [exact qi_reports0|done|done|done|].
  intros l Hq Hs. apply HQ; [split; cbn; try done|by split|done].
  - eapply dlist_outside; [done| |done]. set_solver.
  - by rewrite <- Hperm.
  - set_solver.
  - intros p' Hp'. rewrite <- Hperm in Hp'. destruct (decide (p' = p)) as [->|Hne].
    + rewrite lookup_insert_eq. eauto.
    + rewrite lookup_insert_ne by done. auto.
  - apply Forall2_app.
    + eapply Forall2_impl_in; [done|]. intros p' i Hp'. unfold holds. cbn.
      by rewrite lookup_insert_ne by set_solver.
    + constructor; [|constructor]. exists r. cbn. by rewrite lookup_insert_eq.
  - by rewrite qi_count0, Hperm.
Qed.
End Report.

(** The library and the world after steps that leave them alone. *)
Ltac quiet_steps :=
  unfold same_library, only_malloc in *; cbn in *; destruct_and?; destruct_or?;
  repeat match goal with E : dw_st _ = dw_st _ |- _ => rewrite E in * end;
  repeat match goal with E : s_world _ = s_world _ |- _ => rewrite E in * end; cbn in *;
  first [split; congruence | by left | right; eassumption].

Section Steps.
Context {W : Type} `{Posix W} `{Allocator W}.
Implicit Types (s : dst W) (h p : ptr) (q fr loose : list ptr) (Q : hid_queue).

(** Between critical sections the handle [x] at [h] has the queue [Q]. *)
Definition hid_rep h (x : hid_handle) s Q : Prop :=
  exists q fr, queue_inv h x false s q fr [] (hq_items Q) /\
    dh_thread_ret x = hq_error Q /\ hq_error Q <= 0.

(** The fields that callbacks and reads leave as they were opened. *)
Definition thread_fields (x : hid_handle) :=
  (dh_thread x, dh_loop x, dh_shutdown x, dh_stopping x, dh_cond x, dh_cond_init x, dh_mutex_init x).
Definition same_handle (x x' : hid_handle) : Prop :=
  dh_dev x' = dh_dev x /\ dh_hid x' = dh_hid x /\ dh_pipe x' = dh_pipe x /\ dh_size x' = dh_size x /\
  thread_fields x' = thread_fields x.

(** [data] filled with the report. *)
Lemma wp_fill (P : list Z -> st W -> Prop) (room data : list Z) max id n t :
  0 <= n <= max -> n <= Z.of_nat (length data) -> Z.of_nat (length room) = max + 1 ->
  (forall data', Z.of_nat (length data') = max + 1 ->
     take (Z.to_nat (n + 1)) data' = u8 id :: take (Z.to_nat n) data -> P data' t) ->
  wp (let* room := arr_set room 0 (u8 id) in memcpy_from_1 room data n) P t.
Proof.
  intros Hn Hd Hl HP. destruct room as [|b room]; [cbn in Hl; lia|].
  wp_step. eapply wp_intro; [apply (arr_set_eq (b :: room) 0 (u8 id) t); cbn; lia|].
  cbn [list_insert]. change (<[0%nat:=u8 id]> (b :: room)) with (u8 id :: room).
  unfold memcpy_from_1. cbn [List.length] in *.
  assert ((n <? 0) || (Z.of_nat (length data) <? n) || (Z.of_nat (S (length room)) <? n + 1) = false)
    as -> by (rewrite !orb_false_iff, !Z.ltb_ge; lia).
  wp_step. replace (Z.to_nat n + 1)%nat with (S (Z.to_nat n)) by lia. cbn [take drop app].
  rewrite ?take_0. cbn [app]. apply HP.
  - cbn [List.length]. rewrite length_app, length_take, length_drop. lia.
  - replace (Z.to_nat (n + 1)) with (S (Z.to_nat n)) by lia. cbn [take]. f_equal.
    rewrite take_app_le by (rewrite length_take; lia). rewrite take_take. f_equal. lia.
Qed.

Lemma wp_fill_report (P : unit -> dst W -> Prop) h x s q fr p items id data n :
  queue_inv h x true s q fr [p] items -> 0 <= n -> Z.min n (dh_size x) <= Z.of_nat (length data) ->
  (forall s', queue_inv h x true s' (q ++ [p]) fr [] (items ++ [kept (dh_size x) id data n]) ->
     same_library s s' -> s_world (dw_st s') = s_world (dw_st s) -> P tt s') ->
  wp (fill_report h p id data n) P s.
Proof.
  intros Hi Hn Hd HP. unfold fill_report. wp_step. eapply wp_load_h; [by eapply qi_handle|].
  destruct (qi_room _ _ _ _ _ _ _ _ Hi p) as (r & Hr & Hroom); [set_solver|].
  pose proof (qi_size _ _ _ _ _ _ _ _ Hi) as Hs.
  set (m := if dh_size x <? n then _ else _).
  assert (m = Z.min n (dh_size x)) as -> by (subst m; destruct (Z.ltb_spec (dh_size x) n); lia).
  wp_step. eapply wp_load_report; [done|]. wp_step. apply wp_lift.
  apply (wp_fill _ _ _ (dh_size x)); [lia|lia|done|]. intros data' Hlen Htake. cbn.
  rewrite u64_small by lia. destruct s as [t hs rs]. cbn.
  eapply queue_push; [exact Hi|cbn; lia|done|]. cbn [rp_size rp_data]. rewrite Htake. exact HP.
Qed.

Lemma wp_report_locked (P : bool -> dst W -> Prop) h x s Q id data n :
  allocator_documented -> hid_rep h x s Q -> 0 <= n -> Z.min n (dh_size x) <= Z.of_nat (length data) ->
  (forall Q' x' s', queue_step (dh_size x) Q (QReport id data n) Q' -> hid_rep h x' s' Q' ->
     same_handle x x' -> same_library s s' -> only_malloc s s' ->
     P (bool_decide (hq_items Q = [])) s') ->
  wp (report_locked h id data n) P s.
Proof.
  intros Ha (q & fr & Hi & Hret & Herr) Hn Hd HP. destruct Q as [items err]. cbn in *.
  unfold report_locked. wp_step. eapply wp_mutex_lock; [done|]. intros s1 Hi1 E1.
  wp_step. apply wp_on_list_look. eapply wp_list_is_empty; [by eapply qi_reports|]. split; [done|].
  assert (bool_decide (q = []) = bool_decide (items = [])) as ->.
  { apply bool_decide_ext. pose proof (Forall2_length _ _ _ (qi_items _ _ _ _ _ _ _ _ Hi)).
    by destruct q, items. }
  wp_step. eapply wp_take_report; [done|exact Hi1| | |].
  - intros p x2 s2 fr' Hi2 [a ->] Hl2 Hw2. wp_steps.
    eapply wp_fill_report; [done..|]. cbn. intros s3 Hi3 Hl3 Hw3. wp_steps.
    eapply wp_mutex_unlock; [done|]. intros s4 Hi4 E4. wp_step.
    eapply HP; [apply queue_accept|eexists _, _; split; [exact Hi4|done]|done|quiet_steps..].
    pose proof (qi_count _ _ _ _ _ _ _ _ Hi2) as Hc. pose proof (qi_max _ _ _ _ _ _ _ _ Hi2).
    rewrite !length_app, (Forall2_length _ _ _ (qi_items _ _ _ _ _ _ _ _ Hi2)) in Hc.
    cbn in *. lia.
  - intros Hfull. wp_steps. change (0 <? 0) with false. cbv iota. wp_steps. eapply wp_mutex_unlock; [done|]. intros s4 Hi4 E4. wp_step.
    eapply HP; [by apply queue_full|eexists _, _; split; [exact Hi4|done]|done|quiet_steps..].
  - intros s2 Hlt Hi2 Hl2 Hw2. wp_steps. cbn [Z.ltb Z.compare HS_ERROR_MEMORY].
    eapply wp_set_h; [by eapply qi_handle|]. wp_step.
    eapply wp_mutex_unlock; [by apply (queue_inv_set _ _ _ _ _ _ _ _ _ true Hi2)|].
    intros s4 Hi4 E4. wp_step.
    eapply HP; [by apply queue_no_memory|eexists _, _; split; [exact Hi4|done]|done|quiet_steps..].
Qed.
End Steps.

Section Reads.
Context {W : Type} `{Posix W} `{Allocator W}.
Implicit Types (s : dst W) (h p : ptr) (q fr loose : list ptr) (Q : hid_queue).

(** One byte was read from the pipe when [b] holds, and nothing otherwise. *)
Definition pipe_read (b : bool) (fd : Z) s s' : Prop :=
  if b then exists r, read fd 1 (s_world (dw_st s)) = (r, s_world (dw_st s'))
  else s_world (dw_st s') = s_world (dw_st s).

Lemma wp_reset_if_empty (P : unit -> dst W -> Prop) h x s q fr items :
  queue_inv h x true s q fr [] items ->
  (forall s', queue_inv h x true s' q fr [] items -> same_library s s' ->
     pipe_read (bool_decide (items = [])) (dh_pipe x).1 s s' -> P tt s') ->
  wp (reset_if_empty h) P s.
Proof.
  intros Hi HP. unfold reset_if_empty. wp_step. apply wp_on_list_look.
  eapply wp_list_is_empty; [by eapply qi_reports|]. split; [done|].
  assert (bool_decide (q = []) = bool_decide (items = [])) as ->.
  { apply bool_decide_ext. pose proof (Forall2_length _ _ _ (qi_items _ _ _ _ _ _ _ _ Hi)).
    by destruct q, items. }
  case_bool_decide; cycle 1.
  { wp_step. apply HP; [done|by split|done]. }
  unfold reset_device_event. wp_step. eapply wp_load_h; [by eapply qi_handle|].
  wp_step. apply wp_lift, wp_os. intros r w Ew. wp_step. apply HP; [|by split|by exists r].
  eapply queue_inv_state; [done|done|apply (qi_handle _ _ _ _ _ _ _ _ Hi)|done].
Qed.

(** The first report of the queue becomes the first free one. *)
Lemma queue_pop h x s p q fr item items (P : unit -> dst W -> Prop) :
  queue_inv h x true s (p :: q) fr [] (item :: items) ->
  (forall s', queue_inv h x true s' q (p :: fr) [] items -> same_library s s' ->
     s_world (dw_st s') = s_world (dw_st s) -> P tt s') ->
  wp (on_list (_hs_list_remove p) ;;; on_list (_hs_list_add (free_reports_of h) p)) P s.
Proof.
  intros [] HP. rewrite !app_nil_r in *. apply Forall2_cons in qi_items0 as [_ Hitems].
  assert (Hperm : (p :: q) ++ fr ≡ₚ q ++ p :: fr) by apply Permutation_middle.
  assert (Hd : p ∉ free_reports_of h :: fr /\ (reports_of h :: p :: q) ## (free_reports_of h :: fr) /\
               p ∉ reports_of h :: q).
  { clear -qi_nodup0. cbn in qi_nodup0. rewrite !NoDup_cons, !NoDup_app in qi_nodup0. set_solver. }
  destruct Hd as (Hd1 & Hd2 & Hd3).
  wp_step. apply wp_on_list. eapply (wp_list_remove _ _ _ [] p q); [done|].
  intros l Hq Hp Hn Hs. cbn. apply wp_on_list. cbn.
  eapply wp_list_add; [|split; eauto|exact Hd1| |].
  - eapply dlist_outside; [done| |done]. set_solver.
  - intros ->. apply (dlist_nonnull _ _ _ qi_reports0). set_solver.
  - intros l' Hfr Hs'. apply HP; [split; cbn; rewrite ?app_nil_r; try done|by split|done].
    + eapply dlist_outside; [done| |done]. set_solver.
    + by rewrite <- Hperm.
    + set_solver.
    + intros p' Hp'. rewrite <- Hperm in Hp'. auto.
    + by rewrite qi_count0, Hperm.
Qed.

(** Whether the read leaves the state "something to read" for "nothing". *)
Definition drained (Q Q' : hid_queue) : bool :=
  bool_decide (hq_items Q' = []) &&
  negb (bool_decide (hq_items Q = []) && bool_decide (hq_error Q = 0)).

Lemma wp_read_locked (P : Z * list Z -> dst W -> Prop) h x s Q size :
  hid_rep h x s Q -> 0 < size ->
  (forall Q' x' s' r bytes, queue_step (dh_size x) Q (QRead size r bytes) Q' -> hid_rep h x' s' Q' ->
     same_handle x x' -> same_library s s' -> pipe_read (drained Q Q') (dh_pipe x).1 s s' ->
     P (r, bytes) s') ->
  wp (read_locked h size) P s.
Proof.
  intros (q & fr & Hi & Hret & Herr) Hsize HP. destruct Q as [items err]. cbn in *.
  unfold read_locked. wp_step. eapply wp_mutex_lock; [done|]. intros s1 Hi1 E1.
  wp_step. eapply wp_load_h; [by eapply qi_handle|]. cbn [dh_thread_ret dh_with_mutex].
  rewrite Hret. destruct (Z.ltb_spec err 0) as [Hlt|Hge].
  - wp_step. wp_step. eapply wp_set_h; [by eapply qi_handle|].
    wp_step. eapply wp_reset_if_empty; [by apply (queue_inv_set _ _ _ _ _ _ _ _ _ true Hi1)|].
    intros s2 Hi2 Hl2 Hr2. wp_steps. eapply wp_mutex_unlock; [done|]. intros s3 Hi3 E3. wp_step.
    eapply HP; [by apply queue_error|eexists _, _; split; [exact Hi3|done]|done|quiet_steps|].
    unfold pipe_read, drained in *. cbn in *. rewrite E3, <- E1.
    rewrite (bool_decide_false (err = 0)), andb_false_r, andb_true_r by lia. done.
  - assert (err = 0) as -> by lia.
    wp_step. wp_step. apply wp_on_list_look. eapply wp_list_get_first; [by eapply qi_reports|].
    split; [done|]. destruct q as [|p q], items as [|item items];
      try by pose proof (Forall2_length _ _ _ (qi_items _ _ _ _ _ _ _ _ Hi)).
    + cbn. wp_steps. eapply wp_mutex_unlock; [done|]. intros s3 Hi3 E3. wp_step.
      eapply HP; [by apply queue_empty|eexists _, _; split; [exact Hi3|done]|done|quiet_steps|].
      unfold pipe_read, drained. cbn. by rewrite E3, E1.
    + cbn [hdp]. assert (p =? NULL = false) as ->.
      { apply Z.eqb_neq. intros ->.
        apply (dlist_nonnull _ _ _ (qi_reports _ _ _ _ _ _ _ _ Hi)). set_solver. }
      pose proof (qi_items _ _ _ _ _ _ _ _ Hi1) as Hitems.
      apply Forall2_cons in Hitems as [(r & Hr & Hlen & Hitem) _].
      destruct (qi_room _ _ _ _ _ _ _ _ Hi1 p) as (r' & Hr' & Hroom); [set_solver|].
      assert (r' = r) as -> by congruence. cbn in Hlen, Hroom.
      wp_step. eapply wp_load_report; [done|]. apply wp_assoc. wp_step.
      eapply queue_pop; [done|]. intros s2 Hi2 Hl2 Hw2. wp_step.
      eapply wp_reset_if_empty; [done|]. intros s3 Hi3 Hl3 Hr3. wp_steps.
      eapply wp_mutex_unlock; [done|]. intros s4 Hi4 E4. wp_step.
      assert (Hli : Z.of_nat (length item) = rp_size r).
      { subst item. rewrite length_take. lia. }
      set (n := if _ <? _ then _ else _).
      assert (n = Z.min (Z.of_nat (length item)) size) as ->.
      { subst n. destruct (Z.ltb_spec (rp_size r) size); lia. }
      assert (take (Z.to_nat (Z.min (Z.of_nat (length item)) size)) (rp_data r) =
              take (Z.to_nat size) item) as ->.
      { subst item. rewrite take_take. f_equal. lia. }
      eapply HP; [apply queue_read|eexists _, _; split; [exact Hi4|done]|done|quiet_steps|].
      unfold pipe_read, drained in *. cbn in *. rewrite andb_true_r, E4, <- E1, <- Hw2. done.
Qed.

Lemma wp_fire (P : unit -> dst W -> Prop) h x s Q :
  hid_rep h x s Q ->
  (forall s', hid_rep h x s' Q -> same_library s s' ->
     (exists r, write (dh_pipe x).2 [46] (s_world (dw_st s)) = (r, s_world (dw_st s'))) -> P tt s') ->
  wp (fire_device_event h) P s.
Proof.
  intros (q & fr & Hi & Hret & Herr) HP. unfold fire_device_event. wp_step.
  eapply wp_load_h; [by eapply qi_handle|]. wp_step. apply wp_lift, wp_os. intros r w Ew. wp_step.
  apply HP; [|by split|by exists r]. exists q, fr. split; [|done].
  eapply queue_inv_state; [done|done|apply (qi_handle _ _ _ _ _ _ _ _ Hi)|done].
Qed.
End Reads.

(** * Interleavings *)

Section Threads.
Context {W : Type} `{Posix W} `{Allocator W} `{Mach W}.
Implicit Types (s : dst W) (h : ptr) (Q : hid_queue) (l : queue_label).

(** The thread of the handle and a reader take turns. A state says whether the
    thread is between a critical section that found the queue empty and the
    write to the pipe that follows it. IOKit passes the buffer of the handle,
    of [h->size] bytes. *)
Inductive hid_step h : dst W * bool -> queue_label -> dst W * bool -> Prop :=
  | step_report s x id data n fire s' :
      dw_handles s !! h = Some x -> Z.of_nat (length data) = dh_size x -> 0 <= n ->
      report_locked h id data n s = Done (fire, s') ->
      hid_step h (s, false) (QReport id data n) (s', fire)
  | step_fire s s' :
      fire_device_event h s = Done (tt, s') -> hid_step h (s, true) QFire (s', false)
  | step_read s b size r bytes s' :
      0 < size -> read_locked h size s = Done ((r, bytes), s') ->
      hid_step h (s, b) (QRead size r bytes) (s', b).

(** Sequences of labelled steps. *)
Inductive steps {St L} (step : St -> L -> St -> Prop) : St -> list L -> St -> Prop :=
  | steps_nil a : steps step a [] a
  | steps_snoc a es b e c : steps step a es b -> step b e c -> steps step a (es ++ [e]) c.

Definition hid_run h := steps (hid_step h).
Definition queue_run max := steps (queue_step max).

(** Something to read. *)
Definition readable Q : Prop := hq_items Q <> [] \/ hq_error Q < 0.

(** The pipe [rd, wr], of which [bytes] counts the bytes: a write adds one, or
    the pipe is full; a read takes one if there is one. *)
Record pipe_documented (rd wr : Z) (bytes signals : W -> nat) : Prop := {
  pd_malloc : forall w b w', malloc_ok w = (b, w') -> bytes w' = bytes w;
  pd_write : forall w r w', write wr [46] w = (r, w') -> (0 < bytes w')%nat;
  pd_read : forall w r w', read rd 1 w = (r, w') -> bytes w' = pred (bytes w);
  pd_poll : forall t w r w', poll [(rd, POLLIN)] t w = (r, w') -> (0 < bytes w)%nat ->
    bytes w' = bytes w /\
    ((r = Err EINTR /\ (signals w' < signals w)%nat) \/ exists revents, r = Ok (1, revents));
  pd_timebase : forall w n d w', mach_timebase_info w = ((n, d), w') -> 0 < d /\
    bytes w' = bytes w /\ (signals w' <= signals w)%nat;
  pd_time : forall w t w', mach_absolute_time w = (t, w') ->
    bytes w' = bytes w /\ (signals w' <= signals w)%nat
}.

(** What connects a state to the queue: the invariant, and a byte in the pipe
    or a write to come when there is something to read. *)
Definition linked h x (rd wr : Z) (bytes : W -> nat) (sb : dst W * bool) Q : Prop :=
  hid_rep h x sb.1 Q /\ dh_pipe x = (rd, wr) /\
  (readable Q -> sb.2 = true \/ (0 < bytes (s_world (dw_st sb.1)))%nat).

Lemma hid_step_linked h x rd wr bytes signals sb l sb' Q :
  allocator_documented -> pipe_documented rd wr bytes signals ->
  linked h x rd wr bytes sb Q -> hid_step h sb l sb' ->
  exists x' Q', queue_step (dh_size x) Q l Q' /\ linked h x' rd wr bytes sb' Q' /\
    same_handle x x' /\ same_library sb.1 sb'.1.
Proof.
  intros Ha Hp Hlk Hstep. revert Hlk.
  destruct Hstep as [s y id data n fire s' Hy Hd Hn E|s s' E|s b size r bs s' Hs E];
    intros (Hr & Hrw & Hw); cbn in *.
  - assert (y = x) as ->. { destruct Hr as (? & ? & Hi & _). pose proof (qi_handle _ _ _ _ _ _ _ _ Hi).
      congruence. }
    assert (HP : wp (report_locked h id data n) (fun f t => exists x' Q',
      queue_step (dh_size x) Q (QReport id data n) Q' /\ hid_rep h x' t Q' /\ same_handle x x' /\
      same_library s t /\ only_malloc s t /\ f = bool_decide (hq_items Q = [])) s).
    { eapply (wp_report_locked _ h x s Q); [done|exact Hr|done|lia|]. intros Q' x' t ?????. exists x', Q'. by auto 10. }
    unfold wp in HP. rewrite E in HP. destruct HP as (x' & Q' & Hq & Hr' & Hh & Hl & Hm & ->).
    exists x', Q'. unfold linked. split_and!; [done|done|destruct Hh as (_ & _ & -> & _); done| |done|done].
    intros _. case_bool_decide; [by left|]. right. cbn.
    assert (bytes (s_world (dw_st s')) = bytes (s_world (dw_st s))) as ->.
    { destruct Hm as [->|[b Em]]; [done|]. by eapply pd_malloc. }
    destruct Hw as [?|?]; [by left|done|done].
  - assert (HP : wp (fire_device_event h) (fun _ t => hid_rep h x t Q /\ same_library s t /\
      exists r, write wr [46] (s_world (dw_st s)) = (r, s_world (dw_st t))) s).
    { eapply wp_fire; [exact Hr|]. rewrite Hrw. auto. }
    unfold wp in HP. rewrite E in HP. destruct HP as (Hr' & Hl & r & Ew).
    exists x, Q. unfold linked. split_and!; [constructor|done|done| |done|done]. intros _. right. by eapply pd_write.
  - assert (HP : wp (read_locked h size) (fun rb t => exists x' Q',
      queue_step (dh_size x) Q (QRead size rb.1 rb.2) Q' /\ hid_rep h x' t Q' /\ same_handle x x' /\
      same_library s t /\ pipe_read (drained Q Q') rd s t) s).
    { eapply wp_read_locked; [exact Hr|done|]. rewrite Hrw. intros Q' x' t ???????. exists x', Q'. by auto 10. }
    unfold wp in HP. rewrite E in HP. destruct HP as (x' & Q' & Hq & Hr' & Hh & Hl & Hm).
    exists x', Q'. unfold linked. split_and!; [done|done|destruct Hh as (_ & _ & -> & _); done| |done|done].
    assert (Hback : readable Q' -> readable Q /\ drained Q Q' = false).
    { intros Hrd. inversion Hq; subst; unfold readable, drained in *; cbn in *.
      - destruct Hrd as [?|?]; [|lia]. split; [by right|]. by rewrite bool_decide_false.
      - destruct Hrd; [done|lia].
      - destruct Hrd as [?|?]; [|lia]. split; [by left|]. by rewrite bool_decide_false. }
    intros [Hq1 Hq2]%Hback. rewrite Hq2 in Hm. cbn in *. rewrite Hm. auto.
Qed.

Lemma hid_run_linked h x rd wr bytes signals sb ls sb' Q :
  allocator_documented -> pipe_documented rd wr bytes signals ->
  linked h x rd wr bytes sb Q -> hid_run h sb ls sb' ->
  exists x' Q', queue_run (dh_size x) Q ls Q' /\ linked h x' rd wr bytes sb' Q' /\
    same_handle x x' /\ same_library sb.1 sb'.1.
Proof.
  intros Ha Hp Hl Hrun. induction Hrun as [sb|sb ls sb1 l sb2 _ IH Hstep].
  - exists x, Q. split_and!; [constructor|done|done|by split].
  - destruct (IH Hl) as (x1 & Q1 & Hq1 & Hl1 & Hx1 & Hs1).
    destruct (hid_step_linked _ _ _ _ _ _ _ _ _ _ Ha Hp Hl1 Hstep) as (x2 & Q2 & Hq2 & Hl2 & Hx2 & Hs2).
    exists x2, Q2. split; [|split; [done|split]].
    + eapply steps_snoc; [done|]. destruct Hx1 as (_ & _ & _ & <- & _). done.
    + unfold same_handle in *. destruct_and!. split_and!; congruence.
    + by eapply same_library_trans.
Qed.

(** The reports of a run, as they are kept, and what its reads delivered: the
    size of each buffer and the bytes. *)
Definition reports_in (max : Z) (ls : list queue_label) : list (list Z) :=
  omap (fun l => match l with QReport id data n => Some (kept max id data n) | _ => None end) ls.
Definition reports_out (ls : list queue_label) : list (Z * list Z) :=
  omap (fun l => match l with
                 | QRead size r bytes => if 0 <? r then Some (size, bytes) else None
                 | _ => None
                 end) ls.

Lemma reports_in_snoc max ls l :
  reports_in max (ls ++ [l]) = reports_in max ls ++ reports_in max [l].
Proof. apply omap_app. Qed.
Lemma reports_out_snoc ls l : reports_out (ls ++ [l]) = reports_out ls ++ reports_out [l].
Proof. apply omap_app. Qed.

(** First in, first out. *)
Lemma queue_run_fifo max Q ls Q' :
  queue_run max Q ls Q' -> Forall (fun l => match l with QRead n _ _ => 0 < n | _ => True end) ls ->
  Forall (fun item => item <> []) (hq_items Q) -> hq_error Q <= 0 ->
  exists accepted delivered,
    sublist accepted (reports_in max ls) /\ hq_items Q ++ accepted = delivered ++ hq_items Q' /\ Forall2 (fun o item => o.2 = take (Z.to_nat o.1) item) (reports_out ls) delivered /\ Forall (fun item => item <> []) (hq_items Q').
Proof.
  intros Hrun. induction Hrun as [Q|Q ls Q1 l Q2 _ IH Hstep]; intros Hls Hk He.
  { exists [], []. rewrite app_nil_r. split_and!; [constructor|done|constructor|done]. }
  apply Forall_app in Hls as [Hls Hl].
  destruct (IH Hls Hk He) as (acc & del & Hsub & Heq & Hdel & Hk1).
  rewrite reports_in_snoc, reports_out_snoc.
  inversion Hstep; subst; cbn in *; rewrite ?app_nil_r.
  - exists (acc ++ [kept max id data size]), del. split_and!; [by apply sublist_app| |done|].
    + by rewrite !app_assoc, Heq.
    + apply Forall_app. by split; [|constructor].
  - exists acc, del. split_and!; [by apply sublist_inserts_r|done..].
  - exists acc, del. split_and!; [by apply sublist_inserts_r|done..].
  - exists acc, del. by split_and!.
  - rewrite (proj2 (Z.ltb_ge 0 _)) by lia. rewrite app_nil_r. exists acc, del. by split_and!.
  - exists acc, del. by split_and!.
  - apply Forall_cons in Hk1 as [Hitem Hk1]. apply Forall_cons in Hl as [Hl _].
    rewrite (proj2 (Z.ltb_lt 0 _)) by (destruct item; [done|cbn; lia]).
    exists acc, (del ++ [item]). split_and!; [done| | |done].
    + by rewrite Heq, <- app_assoc.
    + apply Forall2_app; [done|]. by repeat constructor.
Qed.

Lemma hid_run_sizes h sb ls sb' :
  hid_run h sb ls sb' -> Forall (fun l => match l with QRead n _ _ => 0 < n | _ => True end) ls.
Proof.
  induction 1 as [|sb ls sb1 l sb2 _ IH Hstep]; [constructor|]. apply Forall_app. split; [done|].
  constructor; [|constructor]. by destruct Hstep.
Qed.

(** Time passes: the bytes of the pipe stay, and signals may come. *)
Definition passes (bytes signals : W -> nat) (w w' : W) : Prop :=
  bytes w' = bytes w /\ (signals w' <= signals w)%nat.

#[local] Instance passes_preorder bytes signals : PreOrder (passes bytes signals).
Proof. unfold passes. split; [by intros w|]. intros w1 w2 w3 [??] [??]. split; [congruence|lia]. Qed.

Lemma pipe_clock rd wr bytes signals :
  pipe_documented rd wr bytes signals -> mach_documented (passes bytes signals).
Proof.
  intros Hp. split; [exact (pd_timebase _ _ _ _ Hp)|exact (pd_time _ _ _ _ Hp)].
Qed.

(** With a byte in the pipe the wait goes on to read. *)
Lemma wp_wait_report (P : option Z -> dst W -> Prop) rd wr bytes signals fuel h x timeout s Q :
  pipe_documented rd wr bytes signals -> timebase_ok (dw_st s) -> (signals (s_world (dw_st s)) < fuel)%nat ->
  hid_rep h x s Q -> dh_pipe x = (rd, wr) -> (0 < bytes (s_world (dw_st s)))%nat ->
  (forall s', hid_rep h x s' Q -> same_objects (dw_st s) (dw_st s') -> P None s') ->
  wp (wait_report fuel h timeout) P s.
Proof.
  intros Hp Hok Hfuel Hr Hx Hb HP. unfold wait_report.
  destruct (Z.eqb_spec timeout 0); [wp_step; by apply HP|].
  destruct Hr as (q & fr & Hi & Hret). wp_step. eapply wp_load_h; [by eapply qi_handle|].
  assert (Hend : forall t, same_objects (dw_st s) t ->
    hid_rep h x (Dst t (dw_handles s) (dw_reports s)) Q).
  { intros t (_ & Hl & _). exists q, fr. split; [|done].
    eapply queue_inv_state; [done|exact Hl|apply (qi_handle _ _ _ _ _ _ _ _ Hi)|done]. }
  pose proof (pipe_clock _ _ _ _ Hp) as Hm.
  wp_step. apply wp_lift. eapply (wp_mach_millis (passes bytes signals)); [done|done|]. intros start t Ho Hok1 [Hb1 Hs1].
  wp_step. apply wp_lift. cbn [dw_st].
  apply (wp_restart signals) with (I := fun t => same_objects (dw_st s) t /\ timebase_ok t /\
    bytes (s_world t) = bytes (s_world (dw_st s))); [|done|lia].
  intros t1 (Ho1 & Hok2 & Hb2). wp_step.
  assert (Hpoll : forall v t2, same_objects (dw_st s) t2 -> timebase_ok t2 ->
    bytes (s_world t2) = bytes (s_world (dw_st s)) -> (signals (s_world t2) <= signals (s_world t1))%nat ->
    wp (os (poll [((dh_pipe x).1, POLLIN)] v)) (fun r t' =>
      match r with
      | Err EINTR => (same_objects (dw_st s) t' /\ timebase_ok t' /\
            bytes (s_world t') = bytes (s_world (dw_st s))) /\
          (signals (s_world t') < signals (s_world t1))%nat
      | _ => wp (match r with
             | Err e => let* d := lift (load_dev (dh_dev x)) in
                 let* r := lift (error HS_ERROR_SYSTEM
                   ("poll('" +:+ str (dev_path d) +:+ "') failed: " +:+ strerror e)) in ret (Some r)
             | Ok (n, _) => if n =? 0 then ret (Some 0) else ret None
             end) P (Dst t' (dw_handles s) (dw_reports s))
      end) t2).
  { intros v t2 Ho2 Hok3 Hb3 Hs3. apply wp_os. intros r w Ew. rewrite Hx in Ew. cbn in Ew.
    destruct (pd_poll _ _ _ _ Hp _ _ _ _ Ew) as (Hb4 & [[-> Hs4]|[revents ->]]); [lia| |].
    - cbn. split; [split_and!; [done|done|congruence]|lia].
    - apply HP; [by apply Hend|done]. }
  eapply (wp_mach_adjust (passes bytes signals)); [done|done|]. intros v t2 Ho2 Hok3 [Hb3 Hs3] _.
  apply Hpoll; [by eapply same_objects_trans|done|congruence|lia].
Qed.
End Threads.

(** * A macOS system, for the witnesses *)

(** The bytes in the pipe and the results of the next allocations. *)
Record mac := Mac { mc_bytes : nat; mc_malloc : list bool }.

(** The pipe is 3 to read and 4 to write. *)
#[export] Instance mac_posix : Posix mac := {|
  malloc_ok w := (default true (head (mc_malloc w)), Mac (mc_bytes w) (tail (mc_malloc w)));
  strerror _ := "error";
  clock_gettime w := (Ok (0, 0), w);
  poll fds _ w := (if decide (mc_bytes w = 0%nat) then Ok (0, map (fun _ => 0) fds)
                   else Ok (1, map (fun fd => fd.2) fds), w);
  open _ w := (Err ENOENT, w);
  close _ w := (tt, w);
  read _ _ w := (if decide (mc_bytes w = 0%nat) then Err EAGAIN else Ok [46],
                 Mac (pred (mc_bytes w)) (mc_malloc w));
  write _ b w := (Ok 1, Mac (S (mc_bytes w)) (mc_malloc w));
  usleep _ w := (tt, w);
  ioctl_TIOCSDTR _ w := (tt, w);
  ioctl_HIDIOCGRDESCSIZE _ w := (Err EIO, w);
  ioctl_HIDIOCGRDESC _ _ w := (Err EIO, w);
  ioctl_HIDIOCGFEATURE _ _ w := (Err EIO, w);
  ioctl_HIDIOCSFEATURE _ _ w := (Err EIO, w);
  uname_release _ := "15.0.0";
  POLLIN := 1; POLLOUT := 4; POLLERR := 8; POLLHUP := 16; POLLNVAL := 32
|}.

#[export] Instance mac_mach : Mach mac := {|
  mach_timebase_info w := ((1, 1), w);
  mach_absolute_time w := (1000000, w);
  select _ _ w := (Ok (0, []), w)
|}.

#[export] Instance mac_allocator : Allocator mac := bump.

Lemma mac_pipe : pipe_documented (W := mac) 3 4 mc_bytes (fun _ => 0%nat).
Proof.
  split.
  - intros w b w' [= <- <-]. done.
  - intros w r w' [= <- <-]. cbn. lia.
  - intros w r w' [= <- <-]. done.
  - intros t w r w' [= <- <-] Hb. split; [done|]. right. rewrite decide_False by lia. by eexists.
  - intros w n d w' [= <- <- <-]. split_and!; [lia|done|lia].
  - intros w t w' [= <- <-]. split; [done|lia].
Qed.

(** A handle that was just opened on a device whose reports have two bytes. *)
Definition demo_handle : hid_handle :=
  HidHandle 200 1 2 true 2 (Some false) true (3, 4) 0 0 InLoop true true 5 6 false.

Definition demo_device : hs_device :=
  Device NULL 2 (Some "ioservice:1") HS_DEVICE_TYPE_HID _hs_darwin_hid_vtable
    HS_DEVICE_STATUS_ONLINE (Some "usb-1-2") (Some "IOService:/hid") 0x16C0 0x0486
    None None None 0.

Definition demo_mac (mallocs : list bool) : dst mac :=
  Dst (St (Mac 0 mallocs) (common_init false)
         (Mem (LMem {[1096 := 1096; 1120 := 1120]} {[1096 := 1096; 1120 := 1120]})
            (HMem {[208 := NULL]} {[208 := 0]}) {[200 := demo_device]} ∅ ∅ ∅))
    {[1000 := demo_handle]} ∅.

Lemma demo_mac_rep mallocs : hid_rep 1000 demo_handle (demo_mac mallocs) (HidQueue [] 0).
Proof.
  exists [], []. split; [|done]. split; cbn; try done.
  - by apply dlist_empty.
  - by apply dlist_empty.
  - apply NoDup_cons. split; [set_solver|apply NoDup_singleton].
  - intros p Hp. set_solver.
  - intros p Hp. set_solver.
Qed.

(** A report, then the write to the pipe. *)
Definition demo_labels : list queue_label := [QReport 7 [1; 2] 2; QFire].

Definition demo_mid : dst mac :=
  match report_locked 1000 7 [1; 2] 2 (demo_mac []) with
  | Done (_, s) => s
  | _ => demo_mac []
  end.
Definition demo_after : dst mac :=
  match fire_device_event 1000 demo_mid with
  | Done (_, s) => s
  | _ => demo_mac []
  end.

Lemma demo_run : hid_run 1000 (demo_mac [], false) demo_labels (demo_after, false).
Proof.
  apply (steps_snoc _ _ [QReport 7 [1; 2] 2] (demo_mid, true)); [|apply step_fire; reflexivity].
  apply (steps_snoc _ _ [] (demo_mac [], false)); [constructor|].
  apply (step_report _ _ demo_handle); [reflexivity|reflexivity|lia|vm_compute; reflexivity].
Qed.

(** * Properties *)

Section Properties.
Context {W : Type} `{Posix W} `{Allocator W} `{Mach W}.
Implicit Types (s : dst W) (h : ptr) (Q : hid_queue).

(** C4: the thread of a handle and its readers implement a bounded queue. In
    whatever order the callbacks of IOKit, the writes to the pipe and the reads
    take their turns, each is a step of the queue of at most 64 reports, and
    none is undefined: the lists and the memory of the reports stay sound, and
    every next step returns. *)
Theorem hid_queue_refines h x rd wr bytes signals s ls s' fire Q :
  allocator_documented -> pipe_documented rd wr bytes signals ->
  hid_rep h x s Q -> dh_pipe x = (rd, wr) -> ~ readable Q ->
  hid_run h (s, false) ls (s', fire) ->
  exists x' Q', queue_run (dh_size x) Q ls Q' /\ hid_rep h x' s' Q' /\ same_handle x x' /\
    (forall id data n, Z.of_nat (length data) = dh_size x -> 0 <= n ->
       exists b s'', report_locked h id data n s' = Done (b, s'')) /\
    (forall size, 0 < size -> exists rb s'', read_locked h size s' = Done (rb, s'')) /\
    (exists s'', fire_device_event h s' = Done (tt, s'')).
Proof.
  intros Ha Hp Hr Hx Hq Hrun.
  destruct (hid_run_linked h x rd wr bytes signals (s, false) ls (s', fire) Q) as
    (x' & Q' & Hrun' & (Hr' & _) & Hs & _); [done|done|by split_and!|done|].
  exists x', Q'. split_and!; [done|done|done|..].
  - intros id data n Hd Hn. pose proof Hs as (_ & _ & _ & Hsize & _).
    eassert (wp (report_locked h id data n) (fun _ _ => True) s') as (b & s'' & E & _)%wp_inv;
      [|by eauto]. eapply wp_report_locked; [done|done|done|lia|done].
  - intros size Hn.
    eassert (wp (read_locked h size) (fun _ _ => True) s') as (b & s'' & E & _)%wp_inv; [|by eauto].
    by eapply wp_read_locked.
  - eassert (wp (fire_device_event h) (fun _ _ => True) s') as ([] & s'' & E & _)%wp_inv; [|by eauto].
    by eapply wp_fire.
Qed.

(** C18: reports are delivered in order, each at most once and cut only by the
    buffer of the read. What the reads of a run delivered, followed by what
    still waits, are the reports of the device in order, less those that came
    when 64 were waiting or when there was no memory. *)
Theorem hid_reports_in_order h x rd wr bytes signals s ls s' fire :
  allocator_documented -> pipe_documented rd wr bytes signals ->
  hid_rep h x s (HidQueue [] 0) -> dh_pipe x = (rd, wr) ->
  hid_run h (s, false) ls (s', fire) ->
  exists x' Q' accepted delivered,
    hid_rep h x' s' Q' /\ sublist accepted (reports_in (dh_size x) ls) /\
    accepted = delivered ++ hq_items Q' /\
    Forall2 (fun o item => o.2 = take (Z.to_nat o.1) item) (reports_out ls) delivered.
Proof.
  intros Ha Hp Hr Hx Hrun.
  destruct (hid_run_linked h x rd wr bytes signals (s, false) ls (s', fire) (HidQueue [] 0)) as
    (x' & Q' & Hrun' & (Hr' & _) & Hs & _); [done|done| |done|].
  { split_and!; [done|done|]. intros [?|?]; cbn in *; [done|lia]. }
  destruct (queue_run_fifo (dh_size x) (HidQueue [] 0) ls Q') as (acc & del & H3 & H4 & H5 & _);
    [done|by eapply hid_run_sizes|constructor|done|].
  by exists x', Q', acc, del.
Qed.

(** C11: no wake-up is lost. Whenever a report or an error waits, the pipe holds
    a byte, so that polling the descriptor of the handle succeeds, or the thread
    of the handle is about to write one. *)
Theorem hid_wakeup h x rd wr bytes signals s ls s' fire :
  allocator_documented -> pipe_documented rd wr bytes signals ->
  hid_rep h x s (HidQueue [] 0) -> dh_pipe x = (rd, wr) ->
  hid_run h (s, false) ls (s', fire) ->
  exists x' Q', queue_run (dh_size x) (HidQueue [] 0) ls Q' /\ hid_rep h x' s' Q' /\
    (readable Q' -> fire = true \/ (0 < bytes (s_world (dw_st s')))%nat).
Proof.
  intros Ha Hp Hr Hx Hrun.
  destruct (hid_run_linked h x rd wr bytes signals (s, false) ls (s', fire) (HidQueue [] 0)) as
    (x' & Q' & Hrun' & (Hr' & Hx' & Hw) & Hs & _); [done|done| |done|].
  { split_and!; [done|done|]. intros [?|?]; cbn in *; [done|lia]. }
  by exists x', Q'.
Qed.

(** C19: a report that arrived is read. After any run in which the thread wrote
    to the pipe what it had to, a reader of the oldest waiting report gets it
    from [hs_hid_read] whatever its timeout, interrupted or not: the call never
    waits for the next report and never ends empty-handed. *)
Theorem hid_read_delivers h x rd wr bytes signals fuel s ls s' size timeout d :
  allocator_documented -> pipe_documented rd wr bytes signals ->
  hid_rep h x s (HidQueue [] 0) -> dh_pipe x = (rd, wr) -> dh_hid x <> 0 ->
  m_devs (s_mem (dw_st s)) !! dh_dev x = Some d -> dev_type d = HS_DEVICE_TYPE_HID ->
  timebase_ok (dw_st s) -> hid_run h (s, false) ls (s', false) -> 0 < size ->
  (signals (s_world (dw_st s')) < fuel)%nat ->
  exists Q', queue_run (dh_size x) (HidQueue [] 0) ls Q' /\
    forall item items, Q' = HidQueue (item :: items) 0 ->
      exists s'', hs_hid_read fuel h size timeout s' =
        Done ((Z.min (Z.of_nat (length item)) size, take (Z.to_nat size) item), s'').
Proof.
  intros Ha Hp Hr Hx Hhid Hd Hty Hok Hrun Hsz Hfuel.
  destruct (hid_run_linked h x rd wr bytes signals (s, false) ls (s', false) (HidQueue [] 0)) as
    (x' & Q' & Hrun' & (Hr' & Hx' & Hw) & Hs & Hl); [done|done| |done|].
  { split_and!; [done|done|]. intros [?|?]; cbn in *; [done|lia]. }
  exists Q'. split; [done|]. intros item items ->. cbn in Hw, Hl, Hr'.
  destruct Hs as (Edev & Ehid & _). destruct Hl as [Edevs Est].
  destruct Hw as [?|Hb]; [by left|done|].
  assert (HP : wp (hs_hid_read fuel h size timeout)
    (fun rb _ => rb = (Z.min (Z.of_nat (length item)) size, take (Z.to_nat size) item)) s').
  { unfold hs_hid_read, assert_hid. destruct Hr' as (q & fr & Hi & Hret) eqn:E.
    wp_step. wp_step. eapply wp_load_h; [by eapply qi_handle|]. wp_step. apply wp_lift.
    eapply wp_load_dev; [by rewrite Edevs, Edev|]. wp_step. apply wp_assert; [by apply bool_decide_eq_true|].
    wp_step. wp_step. apply wp_assert; [by destruct (Z.eqb_spec size 0); [lia|]|].
    rewrite Ehid, (proj2 (Z.eqb_neq _ _) Hhid). wp_step.
    assert (Eta : Dst (dw_st s') (dw_handles s') (dw_reports s') = s') by by destruct s'.
    rewrite Eta.
    eapply (wp_wait_report _ rd wr bytes signals); [done| |done|exact Hr'|done|done|].
    - unfold timebase_ok, static in *. by rewrite Est.
    - intros s2 Hr2 _. eapply wp_read_locked; [exact Hr2|done|].
      intros Q2 x2 s3 r bs Hq _ _ _ _. inversion Hq; subst; [lia|done]. }
  apply wp_inv in HP as (rb & s'' & E & ->). by exists s''.
Qed.
End Properties.

Lemma hid_queue_refines_witness :
  exists x' Q', queue_run 2 (HidQueue [] 0) demo_labels Q' /\ hid_rep 1000 x' demo_after Q' /\
    same_handle demo_handle x' /\
    (forall id data n, Z.of_nat (length data) = 2 -> 0 <= n ->
       exists b s'', report_locked 1000 id data n demo_after = Done (b, s'')) /\
    (forall size, 0 < size -> exists rb s'', read_locked 1000 size demo_after = Done (rb, s'')) /\
    (exists s'', fire_device_event 1000 demo_after = Done (tt, s'')).
Proof.
  apply (hid_queue_refines 1000 demo_handle 3 4 mc_bytes (fun _ => 0%nat) (demo_mac []) demo_labels
           demo_after false (HidQueue [] 0));
    [apply bump_documented|apply mac_pipe|apply demo_mac_rep|reflexivity| |apply demo_run].
  intros [Hne|Hlt]; [by apply Hne|discriminate].
Defined.

Lemma hid_reports_in_order_witness :
  exists x' Q' accepted delivered,
    hid_rep 1000 x' demo_after Q' /\ sublist accepted (reports_in 2 demo_labels) /\
    accepted = delivered ++ hq_items Q' /\
    Forall2 (fun o item => o.2 = take (Z.to_nat o.1) item) (reports_out demo_labels) delivered.
Proof.
  apply (hid_reports_in_order 1000 demo_handle 3 4 mc_bytes (fun _ => 0%nat) (demo_mac [])
           demo_labels demo_after false);
    [apply bump_documented|apply mac_pipe|apply demo_mac_rep|reflexivity|apply demo_run].
Defined.

Lemma hid_wakeup_witness :
  exists x' Q', queue_run 2 (HidQueue [] 0) demo_labels Q' /\ hid_rep 1000 x' demo_after Q' /\
    (readable Q' -> false = true \/ (0 < mc_bytes (s_world (dw_st demo_after)))%nat).
Proof.
  apply (hid_wakeup 1000 demo_handle 3 4 mc_bytes (fun _ => 0%nat) (demo_mac []) demo_labels
           demo_after false);
    [apply bump_documented|apply mac_pipe|apply demo_mac_rep|reflexivity|apply demo_run].
Defined.

Lemma hid_read_delivers_witness :
  exists Q', queue_run 2 (HidQueue [] 0) demo_labels Q' /\
    forall item items, Q' = HidQueue (item :: items) 0 ->
      exists s'', hs_hid_read 1 1000 8 (-1) demo_after =
        Done ((Z.min (Z.of_nat (length item)) 8, take 8 item), s'').
Proof.
  apply (hid_read_delivers 1000 demo_handle 3 4 mc_bytes (fun _ => 0%nat) 1 (demo_mac []) demo_labels
           demo_after 8 (-1) demo_device);
    [apply bump_documented|apply mac_pipe|apply demo_mac_rep|reflexivity|discriminate|reflexivity|
     reflexivity|intros Hc; by destruct Hc|apply demo_run|lia|cbn; lia].
Defined.

(** * Opening and closing are balanced *)

Section OpenClose.
Context {W : Type} `{Posix W} `{Allocator W} `{Mach W} `{IOKit W}.
Implicit Types (s : dst W) (h p : ptr) (q fr : list ptr).

(** From [s0], only the handle at [h] changed, to [x], and the world. *)
Definition holding h (x : hid_handle) s0 s : Prop :=
  dw_handles s = <[h := x]> (dw_handles s0) /\ dw_reports s = dw_reports s0 /\
  s_mem (dw_st s) = s_mem (dw_st s0).

Lemma hold_load (P : hid_handle -> dst W -> Prop) h x s0 s :
  holding h x s0 s -> P x s -> wp (load_h h) P s.
Proof. intros (E & _) HP. eapply wp_load_h; [by rewrite E, lookup_insert_eq|done]. Qed.

Lemma hold_set (P : unit -> dst W -> Prop) h x s0 s f :
  holding h x s0 s -> (forall s', holding h (f x) s0 s' -> P tt s') -> wp (set_h h f) P s.
Proof.
  intros (E & Er & Em) HP. eapply wp_set_h; [by rewrite E, lookup_insert_eq|].
  apply HP. split; [|done]. cbn. by rewrite E, insert_insert_eq.
Qed.

Lemma hold_os {A} (c : sysc W A) (P : A -> dst W -> Prop) h x s0 s :
  holding h x s0 s -> (forall a s', holding h x s0 s' -> P a s') -> wp (lift (os c)) P s.
Proof. intros Hh HP. apply wp_lift, wp_os. intros a w _. by apply HP. Qed.

Lemma hold_error (P : Z -> dst W -> Prop) h x s0 s err msg :
  holding h x s0 s -> (forall s', holding h x s0 s' -> P err s') -> wp (lift (error err msg)) P s.
Proof. intros Hh HP. apply wp_lift, wp_error. by apply HP. Qed.

Lemma hold_memory_error (P : Z -> dst W -> Prop) h x s0 s :
  holding h x s0 s -> (forall s', holding h x s0 s' -> P HS_ERROR_MEMORY s') ->
  wp (lift memory_error) P s.
Proof. intros Hh HP. apply wp_lift, wp_memory_error. by apply HP. Qed.

Lemma hold_lock (P : unit -> dst W -> Prop) h x s0 s :
  holding h x s0 s -> dh_mutex x = Some false ->
  (forall s', holding h (dh_with_mutex (Some true) x) s0 s' -> P tt s') ->
  wp (pthread_mutex_lock h) P s.
Proof.
  intros Hh Hm HP. unfold pthread_mutex_lock. wp_step. eapply hold_load; [done|]. rewrite Hm.
  by eapply hold_set.
Qed.

Lemma hold_unlock (P : unit -> dst W -> Prop) h x s0 s b :
  holding h x s0 s -> dh_mutex x = Some b ->
  (forall s', holding h (dh_with_mutex (Some false) x) s0 s' -> P tt s') ->
  wp (pthread_mutex_unlock h) P s.
Proof.
  intros Hh Hm HP. unfold pthread_mutex_unlock. wp_step. eapply hold_load; [done|]. rewrite Hm.
  by eapply hold_set.
Qed.
End OpenClose.

(** One step of a command on a handle that [holding] describes. *)
Ltac hold_step :=
  first
    [ wp_step
    | eapply hold_load; [eassumption|]
    | eapply hold_set; [eassumption|intros ? ?]
    | eapply (hold_os (A := unit)); [eassumption|intros [] ? ?]
    | eapply hold_os; [eassumption|intros ? ? ?]
    | eapply hold_error; [eassumption|intros ? ?]
    | eapply hold_memory_error; [eassumption|intros ? ?]
    | eapply hold_lock; [eassumption|first [eassumption|cbn; eassumption|reflexivity]|intros ? ?]
    | eapply hold_unlock; [eassumption|first [eassumption|cbn; eassumption|reflexivity]|intros ? ?] ]; cbv beta zeta.
Ltac hold_steps := repeat hold_step.

Section Close.
Context {W : Type} `{Posix W} `{Allocator W} `{Mach W} `{IOKit W}.
Implicit Types (s : dst W) (h p : ptr) (q fr : list ptr).

(** What a thread that is to be joined needs, and what was initialised. *)
Record closable (x : hid_handle) : Prop := {
  cl_thread : dh_shutdown x <> 0 -> dh_mutex x = Some false /\
    (dh_thread x = Ended \/ dh_thread x = InLoop /\ (dh_loop x <> 0 \/ dh_stopping x = true));
  cl_cond : dh_cond_init x = true -> dh_cond x = true;
  cl_mutex : dh_mutex_init x = true -> dh_mutex x <> None
}.

(** The fields that closing still uses once the thread is joined. *)
Definition same_rest (x x' : hid_handle) : Prop :=
  dh_dev x' = dh_dev x /\ dh_allocated_reports x' = dh_allocated_reports x.

(** The thread is stopped and joined. *)
Lemma wp_stop_thread (P : unit -> dst W -> Prop) h x s0 s :
  holding h x s0 s -> closable x -> dh_shutdown x <> 0 ->
  (forall x' s', holding h x' s0 s' -> same_rest x x' ->
     dh_cond_init x' = dh_cond_init x /\ dh_mutex_init x' = dh_mutex_init x ->
     dh_cond x' = dh_cond x -> dh_mutex x' = Some false -> dh_thread x' = Ended -> P tt s') ->
  wp (stop_thread h) P s.
Proof.
  intros Hh [Hth _ _] Hs HP. destruct (Hth Hs) as [Hm Hrun]. unfold stop_thread.
  hold_step. hold_step. hold_step. hold_step. hold_step. cbn [dh_loop dh_with_mutex].
  assert (Hjoin : forall x1 s1, holding h x1 s0 s1 -> same_rest x x1 ->
    dh_cond_init x1 = dh_cond_init x /\ dh_mutex_init x1 = dh_mutex_init x ->
    dh_cond x1 = dh_cond x -> dh_mutex x1 = Some true -> dh_thread x1 = dh_thread x ->
    (dh_thread x = InLoop -> dh_stopping x1 = true) ->
    wp (pthread_mutex_unlock h ;;; pthread_join h ;;;
        lift (os (CFRelease (dh_shutdown x)))) P s1).
  { intros x1 s1 Hh1 Hr Hi Hc Hm1 Ht Hst. hold_step. hold_step. hold_step. unfold pthread_join.
    hold_step. hold_step. cbn. rewrite Ht. destruct Hrun as [E|[E _]]; rewrite E.
    - hold_steps. eapply HP; eauto. cbn. congruence.
    - rewrite (Hst E). unfold device_thread_end. hold_step. hold_step. hold_step.
      destruct (negb (dh_hid _ =? 0)); hold_steps; by eapply HP. }
  destruct (Z.eqb_spec (dh_loop x) 0) as [El|El]; cbn [negb].
  - wp_step. eapply Hjoin; [eassumption|done|done|done|done|done|]. intros E. cbn.
    destruct Hrun as [?|[_ [?|?]]]; [congruence|done|done].
  - do 5 hold_step. eapply Hjoin; [eassumption|done..].
Qed.

(** From [s0], the handle [x] at [h], the lists [l] and the reports [rs]
    changed, and the world. *)
Definition holding_lists h (x : hid_handle) (l : lmem) (rs : gmap ptr hid_report) s0 s : Prop :=
  dw_handles s = <[h := x]> (dw_handles s0) /\ dw_reports s = rs /\
  s_mem (dw_st s) = with_part l (s_mem (dw_st s0)).

Lemma holding_to_lists h x s0 s :
  holding h x s0 s -> holding_lists h x (lists_of s0) (dw_reports s0) s0 s.
Proof. intros (E & Er & Em). split_and!; [done|done|]. rewrite Em. by destruct s0 as [[? ? []]]. Qed.

Lemma wp_destroy (P : unit -> dst W -> Prop) h x s0 s :
  holding h x s0 s -> closable x ->
  (forall x' s', holding h x' s0 s' -> same_rest x x' -> P tt s') ->
  wp ((if dh_cond_init x then pthread_cond_destroy h else ret tt) ;;;
      if dh_mutex_init x then pthread_mutex_destroy h else ret tt) P s.
Proof.
  intros Hh [_ Hc Hm] HP.
  assert (Hmut : forall x1 s1, holding h x1 s0 s1 -> same_rest x x1 -> dh_mutex x1 = dh_mutex x ->
    wp (if dh_mutex_init x then pthread_mutex_destroy h else ret tt) P s1).
  { intros x1 s1 Hh1 Hr1 Em. destruct (dh_mutex_init x); [|wp_step; by eapply HP].
    unfold pthread_mutex_destroy. hold_steps. rewrite Em.
    destruct (dh_mutex x) as [[]|]; [|eapply hold_set; [done|intros; by eapply HP]|by destruct Hm].
    wp_step. by eapply HP. }
  wp_step. destruct (dh_cond_init x); [|wp_step; by eapply Hmut].
  unfold pthread_cond_destroy. hold_steps. rewrite (Hc eq_refl). hold_steps. by eapply Hmut.
Qed.

(** The reports [nodes] are freed. *)
Definition without_reports (nodes : list ptr) (rs : gmap ptr hid_report) : gmap ptr hid_report :=
  foldl (fun rs p => delete p rs) rs nodes.

Lemma without_reports_lookup nodes rs p :
  without_reports nodes rs !! p = if decide (p ∈ nodes) then None else rs !! p.
Proof.
  unfold without_reports. revert rs. induction nodes as [|n nodes IH]; intros rs; cbn.
  { by rewrite decide_False by set_solver. }
  rewrite IH. destruct (decide (p = n)) as [->|Hne].
  - rewrite lookup_delete_eq, (decide_True (P := n ∈ n :: nodes)) by set_solver. by case_decide.
  - rewrite lookup_delete_ne by done. repeat case_decide; set_solver.
Qed.

(** What closing a handle with the nodes [nodes] leaves of the lists. *)
Definition lists_without (ps : list ptr) (l l' : lmem) : Prop :=
  lmem_same_outside ps l l' /\ forall p, p ∈ ps -> l_prev l' !! p = None /\ l_next l' !! p = None.

Lemma wp_free_reports (P : unit -> dst W -> Prop) h x l s0 s nodes :
  holding_lists h x l (dw_reports s0) s0 s -> dlist l (free_reports_of h) nodes ->
  (forall p, p ∈ nodes -> is_Some (dw_reports s0 !! p)) ->
  dh_allocated_reports x = Z.of_nat (length nodes) ->
  (forall l' s', holding_lists h x l' (without_reports nodes (dw_reports s0)) s0 s' ->
     lists_without nodes l l' -> P tt s') ->
  wp (free_reports h) P s.
Proof.
  intros (E & Er & Em) Hd Hin Hc HP. unfold free_reports. wp_step.
  eapply wp_load_h; [by rewrite E, lookup_insert_eq|]. wp_step.
  assert (Hpart : forall l' (t : dst W), s_mem (dw_st t) = with_part l' (s_mem (dw_st s0)) -> lists_of t = l').
  { intros l' t Em'. unfold lists_of. cbn. rewrite Em'. by destruct (s_mem (dw_st s0)). }
  apply (wp_list_foreach (R := unit)) with (h := free_reports_of h) (xs := nodes)
    (Inv := fun todo t => exists l' seen, nodes = seen ++ todo /\
       holding_lists h x l' (without_reports seen (dw_reports s0)) s0 t /\
       lists_without seen l l' /\ rest (l_next l') (free_reports_of h) todo).
  - intros todo t (l' & seen & _ & (_ & _ & Em') & _ & Hr).
    change (l_next (part t)) with (l_next (lists_of t)). by rewrite (Hpart _ _ Em').
  - done.
  - intros cur todo t (l' & seen & Hn & (E' & Er' & Em') & [Hs1 Hs2] & Hr).
    pose proof (dlist_nodup _ _ _ Hd) as Hnd. rewrite Hn in Hnd.
    apply NoDup_cons in Hnd as [HF Hnd]. apply NoDup_app in Hnd as (_ & Hdj & Hnd).
    apply NoDup_cons in Hnd as [Hct Hnd].
    assert (Hcs : cur ∉ seen) by (intros Hc'; apply (Hdj cur Hc'); set_solver).
    destruct (Hin cur) as [r Hr']; [rewrite Hn; set_solver|].
    unfold free_report. wp_step. wp_step. eapply wp_load_report.
    { rewrite Er', without_reports_lookup, decide_False by done. exact Hr'. }
    wp_steps. apply wp_on_list. unfold list_free. wp_steps. cbn.
    exists (LMem (delete cur (l_prev l')) (delete cur (l_next l'))), (seen ++ [cur]).
    split_and!; [by rewrite <- app_assoc| |split|].
    + split_and!; cbn; [done|by unfold without_reports; rewrite foldl_app, Er'|].
      rewrite Em'. by destruct (s_mem (dw_st s0)).
    + intros p Hp. cbn. rewrite !lookup_delete_ne by set_solver. apply Hs1. set_solver.
    + intros p Hp. cbn. destruct (decide (p = cur)) as [->|Hne]; [by rewrite !lookup_delete_eq|].
      rewrite !lookup_delete_ne by done. apply Hs2. set_solver.
    + cbn. apply rest_delete; [done|set_solver|].
      destruct Hr as (Hh & Hsm & Hch). split; [set_solver|split; [done|]].
      destruct todo; [done|]. by destruct Hch.
  - intros t (l' & seen & Hn & Hh & Hs & _). rewrite app_nil_r in Hn. subst seen. wp_step. by eapply HP.
  - exists l, []. split_and!; [done|by split_and!|split; [done|set_solver]|].
    apply rest_ring; [by eapply dlist_nodup|by eapply dlist_next].
  - change (part s) with (lists_of s). by rewrite (Hpart _ _ Em).
  - lia.
Qed.

Lemma hold_lists_os {A} (c : sysc W A) (P : A -> dst W -> Prop) h x l rs s0 s :
  holding_lists h x l rs s0 s -> (forall a s', holding_lists h x l rs s0 s' -> P a s') ->
  wp (lift (os c)) P s.
Proof. intros Hh HP. apply wp_lift, wp_os. intros a w _. by apply HP. Qed.

(** What is left once the handle [x] at [h] is closed: its memory is free and
    the device has lost a reference. *)
Definition closed h (nodes : list ptr) dev (d : hs_device) s0 s' : Prop :=
  dw_handles s' = delete h (dw_handles s0) /\
  dw_reports s' = without_reports nodes (dw_reports s0) /\
  exists l', s_mem (dw_st s') =
               with_part l' (s_mem (set_refcount dev (dev_refcount d - 1) d (dw_st s0))) /\
    lists_without (reports_of h :: free_reports_of h :: nodes) (lists_of s0) l'.

Lemma wp_release (P : unit -> dst W -> Prop) h x l nodes s0 s d :
  holding_lists h x l (without_reports nodes (dw_reports s0)) s0 s ->
  lmem_same_outside (reports_of h :: free_reports_of h :: nodes) (lists_of s0) l ->
  (forall p, p ∈ nodes -> l_prev l !! p = None /\ l_next l !! p = None) ->
  dh_dev x <> NULL -> m_devs (s_mem (dw_st s0)) !! dh_dev x = Some d -> 1 < dev_refcount d < 2 ^ 32 ->
  (forall s', closed h nodes (dh_dev x) d s0 s' -> P tt s') ->
  wp (release_handle h) P s.
Proof.
  intros Hh Hs Hn Hdev Hd Hr HP. unfold release_handle. wp_step.
  eapply wp_load_h. { destruct Hh as (-> & _). apply lookup_insert_eq. }
  wp_step. eapply hold_lists_os; [eassumption|intros _ s1 K1].
  wp_step. eapply hold_lists_os; [eassumption|intros _ s2 K2'].
  assert (Hend : forall t, holding_lists h x l (without_reports nodes (dw_reports s0)) s0 t ->
    wp (lift (hs_device_unref (dh_dev x)) ;;; free_handle h) P t).
  { intros t (Eh & Er & Em). wp_step. apply wp_lift.
    eapply wp_intro; [apply (hs_device_unref_eq _ _ d); [done| |done]; by rewrite Em|].
    unfold free_handle. wp_step. eapply wp_load_h; [cbn; by rewrite Eh, lookup_insert_eq|].
    wp_steps. apply wp_on_list. unfold list_free. wp_step. apply wp_on_list. wp_step.
    apply HP. split_and!; cbn; [by rewrite Eh, delete_insert_eq|done|].
    rewrite Em. cbn. eexists. split; [by destruct (s_mem (dw_st s0))|]. cbn. split.
    - intros p Hp. cbn. rewrite !lookup_delete_ne by set_solver. by apply Hs.
    - intros p Hp. cbn. destruct (decide (p = free_reports_of h)) as [->|Hne1];
        [by rewrite !lookup_delete_eq|]. rewrite !(lookup_delete_ne _ (free_reports_of h)) by done.
      destruct (decide (p = reports_of h)) as [->|Hne2]; [by rewrite !lookup_delete_eq|].
      rewrite !lookup_delete_ne by done. apply Hn. set_solver. }
  wp_step. eapply (wp_mono _ (fun _ t => holding_lists h x l (without_reports nodes (dw_reports s0)) s0 t)).
  { destruct (negb _); [|by wp_step]. wp_step. eapply hold_lists_os; [eassumption|intros _ s3 K3].
    by eapply hold_lists_os. }
  intros _ s3 K3. wp_step.
  eapply (wp_mono _ (fun _ t => holding_lists h x l (without_reports nodes (dw_reports s0)) s0 t)).
  { destruct (negb _); [|by wp_step]. by eapply hold_lists_os. }
  intros _ s4 K4. by apply Hend.
Qed.

(** Closing a handle whose reports are [q], queued, and [fr], free. *)
Lemma wp_close (P : unit -> dst W -> Prop) h x q fr d s :
  h <> NULL -> dw_handles s !! h = Some x -> closable x ->
  dlist (lists_of s) (reports_of h) q -> dlist (lists_of s) (free_reports_of h) fr ->
  (reports_of h :: q) ## (free_reports_of h :: fr) ->
  (forall p, p ∈ q ++ fr -> is_Some (dw_reports s !! p)) ->
  dh_allocated_reports x = Z.of_nat (length (q ++ fr)) ->
  dh_dev x <> NULL -> m_devs (s_mem (dw_st s)) !! dh_dev x = Some d -> 1 < dev_refcount d < 2 ^ 32 ->
  (forall s', closed h (q ++ fr) (dh_dev x) d s s' -> P tt s') ->
  wp (close_hid_device h) P s.
Proof.
  intros Hn%Z.eqb_neq Hh Hc Hq Hfr Hdj Hin Hcount Hdev Hd Hr HP. unfold close_hid_device. rewrite Hn.
  wp_step. eapply wp_load_h; [done|].
  assert (Hhold : holding h x s s) by (split_and!; [by rewrite insert_id|done|done]).
  assert (Hrest : forall x1 s1, holding h x1 s s1 -> same_rest x x1 ->
    wp (on_list (_hs_list_splice (free_reports_of h) (reports_of h)) ;;;
        free_reports h ;;; release_handle h) P s1).
  { intros x1 s1 Hh1 [Ed Ea]. pose proof (holding_to_lists _ _ _ _ Hh1) as (Eh & Er & Em).
    assert (El : lists_of s1 = lists_of s).
    { unfold lists_of at 1. cbn. by rewrite Em. }
    wp_step. apply wp_on_list. rewrite El.
    eapply wp_list_splice; [done|done|set_solver|]. intros l Hl _ Hs. wp_step.
    eapply (wp_free_reports _ h x1 l s _ (q ++ fr)); [|done|done|by rewrite Ea| ].
    - split_and!; cbn; [done|done|]. rewrite Em. by destruct (s_mem (dw_st s)).
    - intros l' s2 Hh2 [Hs1 Hs2].
      eapply (wp_release _ h x1 l' (q ++ fr) s s2 d); rewrite ?Ed; [done| |done..].
      intros p Hp. destruct (Hs1 p) as [-> ->]; [set_solver|]. apply Hs. set_solver. }
  wp_step.
  assert (Hfin : forall x1 s1, holding h x1 s s1 -> same_rest x x1 -> closable x1 ->
    dh_cond_init x1 = dh_cond_init x -> dh_mutex_init x1 = dh_mutex_init x ->
    wp ((if dh_cond_init x then pthread_cond_destroy h else ret tt) ;;;
        (if dh_mutex_init x then pthread_mutex_destroy h else ret tt) ;;;
        on_list (_hs_list_splice (free_reports_of h) (reports_of h)) ;;;
        free_reports h ;;; release_handle h) P s1).
  { intros x1 s1 K1 K2' K3 <- <-. apply wp_assoc. wp_step. eapply wp_destroy; [done|done|].
    intros x2 s2 K4 [K5 K6]. eapply Hrest; [done|]. destruct K2'. split; congruence. }
  destruct (Z.eqb_spec (dh_shutdown x) 0); cbn [negb].
  - wp_step. by eapply Hfin.
  - eapply wp_stop_thread; [done|done|done|]. intros x1 s1 K1 K2' [K3 K3'] K4 K5 K6.
    eapply Hfin; [done|done| |done|done]. destruct Hc as [_ Hc _].
    split; [by auto|by rewrite K3, K4|by rewrite K5].
Qed.
End Close.

Section Open.
Context {W : Type} `{Posix W} `{Allocator W} `{Mach W} `{IOKit W}.
Implicit Types (s : dst W) (h p : ptr).

(** The heads of the lists of a handle are in its block. *)
Definition handles_ok s : Prop :=
  forall h x, dw_handles s !! h = Some x -> is_Some (l_prev (lists_of s) !! reports_of h).

(** The state in which the handle [h] was just allocated, for the device [d]. *)
Record new_handle h dev (d : hs_device) (s0 sb : dst W) : Prop := {
  nh_nonnull : h <> NULL;
  nh_base : delete h (dw_handles sb) = dw_handles s0;
  nh_reports : dw_reports sb = dw_reports s0;
  nh_dev : dev <> NULL;
  nh_d : m_devs (s_mem (dw_st s0)) !! dev = Some d;
  nh_vtable : dev_vtable d = _hs_darwin_hid_vtable;
  nh_count : 1 <= dev_refcount d < 2 ^ 32 - 1;
  nh_mem : exists l, s_mem (dw_st sb) =
    with_part l (s_mem (set_refcount dev (dev_refcount d + 1) d (dw_st s0))) /\
    lmem_same_outside [reports_of h; free_reports_of h] (lists_of s0) l /\
    dlist l (reports_of h) [] /\ dlist l (free_reports_of h) [];
  nh_free : forall p, p ∈ [reports_of h; free_reports_of h] ->
    l_prev (lists_of s0) !! p = None /\ l_next (lists_of s0) !! p = None
}.

(** The memory is as in [s0]; the world, the log and the last error may differ. *)
Definition given_back s0 s' : Prop :=
  s_mem (dw_st s') = s_mem (dw_st s0) /\ dw_handles s' = dw_handles s0 /\
  dw_reports s' = dw_reports s0.

Lemma lists_without_back ps l0 l l' :
  lmem_same_outside ps l0 l -> lists_without ps l l' ->
  (forall p, p ∈ ps -> l_prev l0 !! p = None /\ l_next l0 !! p = None) -> l' = l0.
Proof.
  intros Hs [Hs' Hd] Hn. destruct l' as [lp' ln'], l0 as [lp ln]. f_equal; apply map_eq; intros p;
    (destruct (decide (p ∈ ps)) as [Hp|Hp];
      [destruct (Hd p Hp) as [Hd1 Hd2], (Hn p Hp) as [Hn1 Hn2]; cbn in *; congruence|
       destruct (Hs p Hp) as [Hs1 Hs2], (Hs' p Hp) as [Hs3 Hs4]; cbn in *; congruence]).
Qed.

Lemma wp_hid_error (P : Z * option ptr -> dst W -> Prop) h x dev d (s0 sb s : dst W) r :
  new_handle h dev d s0 sb -> holding h x sb s -> closable x -> dh_dev x = dev ->
  dh_allocated_reports x = 0 -> (forall s', given_back s0 s' -> P (r, None) s') ->
  wp (hid_error h r) P s.
Proof.
  intros [] (Eh & Er & Em) Hc Hdev Ha HP. destruct nh_mem0 as (l & El & Hs & Hl1 & Hl2).
  assert (Hlists : lists_of s = l).
  { unfold lists_of. cbn. rewrite Em, El. by destruct (s_mem (dw_st s0)). }
  assert (Hdevs : m_devs (s_mem (dw_st s)) !! dev = Some (dev_with_refcount (dev_refcount d + 1) d)).
  { rewrite Em, El. cbn. by rewrite lookup_insert_eq. }
  unfold hid_error, hs_handle_close. rewrite (proj2 (Z.eqb_neq _ _) nh_nonnull0).
  wp_step. wp_step. eapply wp_load_h; [by rewrite Eh, lookup_insert_eq|]. wp_step. apply wp_lift.
  rewrite Hdev. eapply wp_load_dev; [done|]. cbn [dev_vtable dev_with_refcount]. rewrite nh_vtable0.
  assert (Eta : Dst (dw_st s) (dw_handles s) (dw_reports s) = s) by by destruct s.
  rewrite Eta. eapply (wp_close _ h x [] []); rewrite ?Hlists, ?Hdev; try done.
  - by rewrite Eh, lookup_insert_eq.
  - pose proof (dlist_nodup _ _ _ Hl1). unfold reports_of, free_reports_of. set_solver by lia.
  - set_solver.
  - cbn. lia.
  - intros s' (Kh & Kr & l' & Km & Kl). wp_step. apply HP. rewrite Hlists in Kl.
    apply (lists_without_back _ (lists_of s0)) in Kl as ->; [|done|done]. split_and!.
    + rewrite Km. cbn. rewrite Em, El. cbn. rewrite insert_insert_eq.
      replace (dev_refcount d + 1 - 1) with (dev_refcount d) by lia.
      rewrite insert_id; [by destruct s0 as [[? ? []]]|]. rewrite nh_d0. by destruct d.
    + rewrite Kh, Eh, delete_insert_eq. done.
    + by rewrite Kr, Er.
Qed.

(** The mutexes and conditions are initialised, and a thread has a run loop. *)
Record threads_documented : Prop := {
  td_mutex : forall w r w', pthread_mutex_init w = (r, w') -> r = 0;
  td_cond : forall w r w', pthread_cond_init w = (r, w') -> r = 0;
  td_loop : forall w l w', CFRunLoopGetCurrent w = (l, w') -> l <> 0
}.

(** A handle whose thread runs. *)
Record opened dev (x : hid_handle) : Prop := {
  op_dev : dh_dev x = dev;
  op_allocated : dh_allocated_reports x = 0;
  op_mutex : dh_mutex x = Some false;
  op_ret : dh_thread_ret x = 0;
  op_size : 0 <= dh_size x < 2 ^ 32;
  op_hid : dh_hid x <> 0;
  op_thread : dh_thread x = InLoop /\ dh_loop x <> 0 /\ dh_shutdown x <> 0;
  op_closable : closable x
}.

(** The outcomes of the parts of [open_hid_device]. *)
Definition open_outcome h dev s0 sb (P : Z * option ptr -> dst W -> Prop) : Prop :=
  (forall r s', r < 0 -> given_back s0 s' -> P (r, None) s') /\
  (forall x s', opened dev x -> holding h x sb s' -> P (0, Some h) s').

(** A part fails. *)
Lemma open_fails P h x dev d s0 sb s r :
  new_handle h dev d s0 sb -> open_outcome h dev s0 sb P -> holding h x sb s -> closable x ->
  dh_dev x = dev -> dh_allocated_reports x = 0 -> r < 0 -> wp (hid_error h r) P s.
Proof. intros Hn [HP _] Hh Hc Hd Ha Hr. eapply wp_hid_error; eauto. Qed.

Lemma wp_start_thread P h x dev d s0 sb s :
  threads_documented -> new_handle h dev d s0 sb -> open_outcome h dev s0 sb P -> holding h x sb s ->
  dh_dev x = dev -> dh_allocated_reports x = 0 -> dh_mutex x = Some false -> dh_thread_ret x = 0 ->
  0 <= dh_size x < 2 ^ 32 -> dh_hid x <> 0 -> dh_shutdown x = 0 -> dh_cond x = true ->
  wp (start_thread h) P s.
Proof.
  intros Ht Hn HP Hh Hdev Ha Hm Hret Hsz Hhid Hsd Hcond. unfold start_thread.
  hold_step. hold_step. wp_step. eapply hold_os; [done|]. intros r s1 K1.
  destruct (Z.eqb_spec r 0); cbn [negb]; cycle 1.
  { hold_steps. by eapply open_fails. }
  hold_step. hold_step. cbn [dh_thread_ret dh_with_mutex]. rewrite Hret.
  change (0 =? 0) with true. cbv iota.
  assert (Hend : forall x1 s2, holding h x1 sb s2 -> dh_dev x1 = dev -> dh_allocated_reports x1 = 0 ->
    dh_mutex x1 = Some true -> dh_size x1 = dh_size x -> dh_hid x1 = dh_hid x -> dh_cond x1 = true ->
    (dh_thread_ret x1 < 0 /\ dh_shutdown x1 = 0 \/
     dh_thread_ret x1 = 1 /\ dh_thread x1 = InLoop /\ dh_loop x1 <> 0 /\ dh_shutdown x1 <> 0) ->
    wp (let* x := load_h h in
        let r := dh_thread_ret x in
        set_h h (dh_with_thread_ret 0) ;;;
        pthread_mutex_unlock h ;;;
        if r <? 0 then hid_error h r else ret (0, Some h)) P s2).
  { intros x1 s2 Kh Kd Ka Km Ks Kid Kc Kr. hold_step. hold_step. hold_step. hold_step. hold_step.
    hold_step. destruct Kr as [[Kr Ksd]|(Kr & Kt & Kl & Ksd)].
    - rewrite (proj2 (Z.ltb_lt _ _) Kr). by eapply open_fails.
    - rewrite Kr. change (1 <? 0) with false. cbv iota. wp_step. eapply HP; [|eassumption].
      split; cbn; try done; [by rewrite Ks|by rewrite Kid|]. split; cbn; [auto|done|done]. }
  wp_step. unfold pthread_cond_wait. hold_step. hold_step. hold_step.
  cbn [dh_cond dh_with_mutex]. rewrite Hcond. hold_step. hold_step. hold_step.
  wp_step. unfold device_thread_start. hold_step. hold_step. wp_step. apply wp_lift, wp_os.
  intros loop w Ew. apply (td_loop Ht) in Ew.
  match goal with |- wp _ _ ?t => assert (K2 : holding h (dh_with_mutex (Some true)
    (dh_with_mutex (Some false) (dh_with_mutex (Some true) x))) sb t) by done end.
  hold_step. hold_step. hold_step. hold_step. hold_step. hold_step.
  match goal with |- context [?v =? 0] => destruct (Z.eqb_spec v 0) as [Esd|Esd] end.
  - do 8 hold_step. eapply Hend; [eassumption|try done..]. left. split; [done|exact Esd].
  - do 12 hold_step. eapply Hend; [eassumption|try done..]. right. by split_and!.
Qed.

Lemma wp_open_events P h x dev d s0 sb s :
  threads_documented -> new_handle h dev d s0 sb -> open_outcome h dev s0 sb P -> holding h x sb s ->
  dh_dev x = dev -> dh_allocated_reports x = 0 -> dh_mutex x = None -> dh_thread_ret x = 0 ->
  dh_mutex_init x = false -> dh_cond_init x = false ->
  0 <= dh_size x < 2 ^ 32 -> dh_hid x <> 0 -> dh_shutdown x = 0 ->
  wp (open_events h) P s.
Proof.
  intros Ht Hn HP Hh Hdev Ha Hm Hret Hmi Hci Hsz Hhid Hsd. unfold open_events.
  do 4 hold_step. wp_step. eapply hold_os; [eassumption|]. intros [fds|e] s1 K1; cycle 1.
  { hold_steps. eapply open_fails; try done. split; [by rewrite Hsd|by rewrite Hci|by rewrite Hmi]. }
  do 6 hold_step. wp_step. unfold init_mutex. wp_step. apply wp_lift, wp_os. intros r w Ew.
  apply (td_mutex Ht) in Ew as ->.
  match goal with |- wp _ _ ?t => assert (K2 : holding h (dh_with_pipe fds x) sb t) by done end.
  change (0 =? 0) with true. change (0 <? 0) with false. cbv iota. do 5 hold_step.
  change (0 <? 0) with false. cbv iota. wp_step. unfold init_cond. wp_step. apply wp_lift, wp_os. intros r w' Ew'.
  apply (td_cond Ht) in Ew' as ->.
  match goal with |- wp _ _ ?t => assert (K3 : holding h (dh_with_mutex_init true
    (dh_with_mutex (Some false) (dh_with_pipe fds x))) sb t) by done end.
  change (0 =? 0) with true. change (0 <? 0) with false. cbv iota. do 5 hold_step.
  change (0 <? 0) with false. cbv iota. by eapply wp_start_thread.
Qed.

(** A property of the device: only the world changes. *)
Lemma hold_property (P : bool * option Z -> dst W -> Prop) h x s0 s dev prop type :
  holding h x s0 s -> (forall rn s', holding h x s0 s' -> P rn s') ->
  wp (lift (get_hid_device_property_number dev prop type)) P s.
Proof.
  intros Hh HP. apply wp_lift. unfold get_hid_device_property_number. wp_step. apply wp_os.
  intros data w _. wp_step. wp_step. destruct (_ || _); [wp_step; by apply HP|].
  wp_step. apply wp_os. intros rn w' _. wp_step. by apply HP.
Qed.

Lemma wp_open_size P h x dev d s0 sb s path :
  threads_documented -> new_handle h dev d s0 sb -> open_outcome h dev s0 sb P -> holding h x sb s ->
  dh_dev x = dev -> dh_allocated_reports x = 0 -> dh_mutex x = None -> dh_thread_ret x = 0 ->
  dh_mutex_init x = false -> dh_cond_init x = false ->
  dh_size x = 0 -> dh_hid x <> 0 -> dh_shutdown x = 0 ->
  wp (open_size h path) P s.
Proof.
  intros Ht Hn HP Hh Hdev Ha Hm Hret Hmi Hci Hsz Hhid Hsd. unfold open_size.
  do 2 hold_step. wp_step. eapply hold_property; [eassumption|]. intros [ok n] s1 K1. cbn [fst snd].
  wp_step. eapply (wp_mono _ (fun _ t => exists m, 0 <= m < 2 ^ 32 /\ holding h (dh_with_size m x) sb t)).
  { destruct n as [n|].
    - eapply hold_set; [eassumption|]. intros t Kt. exists (u32 n). split; [apply u32_bound|done].
    - wp_step. exists 0. split; [lia|]. rewrite <- Hsz. by destruct x. }
  intros _ s2 (m & Hmb & K2). destruct ok; cbn [negb]; cycle 1.
  { hold_steps. eapply open_fails; try done. split; cbn; [by rewrite Hsd|by rewrite Hci|by rewrite Hmi]. }
  wp_step. eapply hold_os; [eassumption|]. intros [] s3 K3; cbn [negb]; cycle 1.
  { hold_steps. eapply open_fails; try done. split; cbn; [by rewrite Hsd|by rewrite Hci|by rewrite Hmi]. }
  do 2 hold_step. by eapply wp_open_events.
Qed.

Lemma wp_open_service P h x dev d s0 sb s path :
  threads_documented -> new_handle h dev d s0 sb -> open_outcome h dev s0 sb P -> holding h x sb s ->
  dh_dev x = dev -> x = dh_with_pipe (-1, -1) (dh_with_dev dev hid_handle_zero) ->
  wp (open_service h path) P s.
Proof.
  intros Ht Hn HP Hh Hdev Hx. unfold open_service, not_found.
  wp_step. eapply hold_os; [eassumption|]. intros service s1 K1. do 2 hold_step.
  destruct (Z.eqb_spec service 0).
  { hold_steps. eapply open_fails; try done; by subst x. }
  wp_step. eapply hold_os; [eassumption|]. intros hid s2 K2. do 2 hold_step.
  destruct (Z.eqb_spec hid 0).
  { hold_steps. eapply open_fails; try done; by subst x. }
  wp_step. eapply hold_os; [eassumption|]. intros kret s3 K3.
  destruct (kret =? kIOReturnSuccess); cbn [negb]; cycle 1.
  { hold_steps. eapply open_fails; try done; by subst x. }
  by eapply wp_open_size; subst x.
Qed.

Lemma opened_rep h x dev d s0 sb s :
  new_handle h dev d s0 sb -> opened dev x -> holding h x sb s -> hid_rep h x s (HidQueue [] 0).
Proof.
  intros [] [] (Eh & Er & Em). destruct nh_mem0 as (l & El & _ & Hl1 & Hl2).
  assert (Hlists : lists_of s = l).
  { unfold lists_of. cbn. rewrite Em, El. by destruct (s_mem (dw_st s0)). }
  exists [], []. split; [|cbn; by split; [|lia]]. split; rewrite ?Hlists; try done; cbn.
  - by rewrite Eh, lookup_insert_eq.
  - apply NoDup_cons. split; [|apply NoDup_singleton]. unfold reports_of, free_reports_of.
    intros ?%list_elem_of_singleton. lia.
  - intros p Hp. set_solver.
  - intros p Hp. set_solver.
  - by rewrite op_allocated0.
Qed.

Lemma wp_open P dev d path s :
  allocator_documented -> threads_documented -> handles_ok s ->
  dev <> NULL -> m_devs (s_mem (dw_st s)) !! dev = Some d -> dev_path d = Some path ->
  dev_vtable d = _hs_darwin_hid_vtable -> 1 <= dev_refcount d < 2 ^ 32 - 1 ->
  (forall r s', r < 0 -> given_back s s' -> P (r, None) s') ->
  (forall h x sb s', new_handle h dev d s sb -> opened dev x -> holding h x sb s' -> P (0, Some h) s') ->
  wp (open_hid_device dev) P s.
Proof.
  intros Ha Ht Hok Hdev Hd Hpath Hvt Hr Hfail Hopen. unfold open_hid_device. wp_step. apply wp_lift.
  apply wp_new_block; intros w Ew; cbn.
  { wp_step. apply wp_lift, wp_memory_error. unfold hid_error, hs_handle_close. cbn. wp_steps.
    by apply Hfail. }
  destruct (Ha w (s_mem (dw_st s))) as [Hn Hu]. set (h := block_address w (s_mem (dw_st s))) in *.
  assert (h =? NULL = false) as -> by (unfold NULL in *; lia).
  assert (Hfresh : forall p, p ∈ [reports_of h; free_reports_of h] ->
    l_prev (lists_of s) !! p = None /\ l_next (lists_of s) !! p = None).
  { intros p Hp. unfold in_use in Hu. split; apply eq_None_not_Some; intros Hs;
      (apply (Hu p); [| |cbn in Hs; tauto]); unfold reports_of, free_reports_of in Hp;
      repeat (apply elem_of_cons in Hp as [->|Hp]); try lia; set_solver. }
  unfold alloc_handle. wp_steps. apply wp_on_list. unfold list_alloc. wp_step. apply wp_on_list. wp_step.
  wp_step. apply wp_lift. cbn. eapply wp_intro; [apply (hs_device_ref_eq _ _ d); [done|done|lia]|].
  wp_step. eapply wp_set_h; [cbn; apply lookup_insert_eq|].
  wp_step. eapply wp_set_h; [cbn; apply lookup_insert_eq|].
  set (l0 := lists_of s) in *.
  wp_step. apply wp_on_list. eapply wp_list_init.
  { split; cbn; rewrite lookup_insert_ne, lookup_insert_eq; eauto; unfold reports_of, free_reports_of; lia. }
  { unfold reports_of, NULL in *. lia. }
  intros l1 Hl1 Hs1. wp_step. apply wp_on_list. cbn.
  eapply wp_list_init.
  { destruct (Hs1 (free_reports_of h)) as [E1 E2];
      [intros ?%list_elem_of_singleton; unfold reports_of, free_reports_of in *; lia|].
    split; cbn; rewrite ?E1, ?E2; cbn; rewrite lookup_insert_eq; eauto. }
  { unfold free_reports_of, NULL in *. lia. }
  intros l2 Hl2 Hs2. wp_step. apply wp_lift.
  match goal with |- wp _ _ (dw_st ?t) => set (sb := t) end.
  eapply wp_load_dev; [cbn; apply lookup_insert_eq|]. cbn [dev_path dev_with_refcount]. rewrite Hpath.
  assert (Eta : Dst (dw_st sb) (dw_handles sb) (dw_reports sb) = sb) by by destruct sb.
  rewrite Eta.
  assert (Hnew : new_handle h dev d s sb).
  { split; try done.
    - unfold NULL in *. lia.
    - cbn. rewrite !insert_insert_eq, delete_insert_id; [done|].
      apply eq_None_not_Some. intros [x Hx]. apply Hok in Hx. destruct (Hfresh (reports_of h)) as [E _];
        [set_solver|]. unfold l0 in E. rewrite E in Hx. by destruct Hx.
    - exists l2. split_and!; [done| | |done].
      + intros p Hp. destruct (Hs2 p) as [-> ->]; [set_solver|]. destruct (Hs1 p) as [-> ->]; [set_solver|].
        cbn. rewrite !lookup_insert_ne by set_solver. done.
      + eapply dlist_outside; [exact Hs2| |exact Hl1]. unfold reports_of, free_reports_of.
        intros p ?%list_elem_of_singleton ?%list_elem_of_singleton. lia. }
  eapply (wp_open_service _ h (dh_with_pipe (-1, -1) (dh_with_dev dev hid_handle_zero)));
    [done|done| | |done|done].
  - split; [done|]. intros x s' Ho Hh. by eapply Hopen.
  - split_and!; [|done|done]. cbn. by rewrite !insert_insert_eq.
Qed.
End Open.

Section Lifetime.
Context {W : Type} `{Posix W} `{Allocator W} `{Mach W} `{IOKit W}.
Implicit Types (s : dst W) (h p : ptr).


End Lifetime.

(** The device of [demo_device] can be opened. *)
#[export] Instance mac_cf : CoreFoundation mac := {|
  kIOReturnSuccess := 0;
  IOObjectRelease _ w := (tt, w);
  CFRelease _ w := (tt, w);
  CFGetTypeID _ _ := 22;
  CFNumberGetTypeID _ := 22;
  CFNumberGetValue _ _ w := ((true, 2), w)
|}.
#[export] Instance mac_iokit : IOKit mac := {|
  IORegistryEntryFromPath _ w := (1, w);
  IOHIDDeviceCreate _ w := (2, w);
  IOHIDDeviceOpen _ w := (0, w);
  IOHIDDeviceClose _ w := (tt, w);
  IOHIDDeviceGetProperty _ _ w := (9, w);
  IOHIDDeviceRegisterCallbacks _ _ w := (tt, w);
  IOHIDDeviceScheduleWithRunLoop _ _ w := (tt, w);
  IOHIDDeviceUnscheduleFromRunLoop _ _ w := (tt, w);
  IOHIDDeviceSetReport _ _ _ _ w := (0, w);
  IOHIDDeviceGetReport _ _ _ n w := ((0, repeat 7 (Z.to_nat n)), w);
  CFRunLoopGetCurrent w := (5, w);
  CFRunLoopSourceCreate _ w := (6, w);
  CFRunLoopAddSource _ _ w := (tt, w);
  CFRunLoopSourceSignal _ w := (tt, w);
  CFRunLoopWakeUp _ w := (tt, w);
  pipe w := (Ok (3, 4), w);
  fcntl_nonblock _ w := (tt, w);
  pthread_mutex_init w := (0, w);
  pthread_cond_init w := (0, w);
  pthread_create w := (0, w);
  strerror_r _ := "error"
|}.

Lemma mac_threads : threads_documented (W := mac).
Proof. split; intros w r w' [= <- <-]; done. Qed.

(** A device that no handle uses. *)
Definition demo_closed : dst mac :=
  Dst (St (Mac 0 []) (common_init false)
         (Mem (LMem ∅ ∅) (HMem {[208 := NULL]} {[208 := 0]}) {[200 := demo_device]} ∅ ∅ ∅)) ∅ ∅.


Lemma demo_closable : closable demo_handle.
Proof. split; cbn; [|done|done]. intros _. split; [done|]. right. split; [done|by left]. Qed.


(** Opening, a report, a read and closing: the memory is as before. *)
Example demo_session :
  match (let* rh := open_hid_device 200 in
         match rh.2 with
         | Some h =>
             hid_report_callback h kIOHIDReportTypeInput 7 [1; 2] 2 ;;;
             let* rb := hs_hid_read 1 h 64 (-1) in
             close_hid_device h ;;;
             ret (Some rb)
         | None => ret None
         end) demo_closed with
  | Done (rb, s') => rb = Some (3, [7; 1; 2]) /\ mc_bytes (s_world (dw_st s')) = 0%nat /\
      l_next (lists_of s') = ∅ /\ dw_handles s' = ∅ /\ dw_reports s' = ∅ /\
      m_devs (s_mem (dw_st s')) = {[200 := demo_device]}
  | _ => False
  end.
Proof. vm_compute. by repeat split. Qed.

(** * Two defects *)

(** The reader can take a report before the thread, which has already left its
    critical section, writes to the pipe. The byte is then written for a queue
    that is empty and nothing ever removes it: the descriptor stays readable and
    each read with an infinite timeout returns 0 at once. *)
Example stale_event :
  match (let* fire := report_locked 1000 7 [1; 2] 2 in
         let* rb := read_locked 1000 64 in
         fire_device_event 1000 ;;;
         let* rb1 := hs_hid_read 1 1000 64 (-1) in
         let* rb2 := hs_hid_read 1 1000 64 (-1) in
         ret (fire, rb, rb1, rb2)) (demo_mac []) with
  | Done (r, s') => r = (true, (3, [7; 1; 2]), (0, []), (0, [])) /\
      mc_bytes (s_world (dw_st s')) = 1%nat
  | _ => False
  end.
Proof. vm_compute. by split. Qed.

(** Without any race: an allocation fails while the queue is empty, then a
    report comes. Both write to the pipe, and only one byte is removed once the
    error and the report were read. *)
Example stale_event_after_error :
  match (hid_report_callback 1000 kIOHIDReportTypeInput 7 [1; 2] 2 ;;;
         hid_report_callback 1000 kIOHIDReportTypeInput 8 [3; 4] 2 ;;;
         let* rb := hs_hid_read 1 1000 64 (-1) in
         let* rb1 := hs_hid_read 1 1000 64 (-1) in
         let* rb2 := hs_hid_read 1 1000 64 (-1) in
         ret (rb, rb1, rb2)) (demo_mac [false]) with
  | Done (r, s') => r = ((HS_ERROR_MEMORY, []), (3, [8; 3; 4]), (0, [])) /\
      mc_bytes (s_world (dw_st s')) = 1%nat
  | _ => False
  end.
Proof. vm_compute. by split. Qed.
