(* ===== verification/UsbDarwin.v ===== *)
(** The USB topology on macOS: the first half of src/src/monitor_darwin.c, the
    properties of the I/O Registry, the location of a device and
    [process_darwin_device]. The registry is a parameter. *)

From S2P Require Import Prelude Cstring Common DList Htable State Posix Platform Location Device Heap Monitor CoreFoundation.

(** The I/O Registry and the properties of Core Foundation. A service, an
    iterator or a property is a reference, 0 for NULL. *)
Class IORegistry (W : Type) := {
  IORegistryEntryCreateCFProperty : Z -> string -> sysc W Z;
  CFStringGetTypeID : W -> Z;
  CFDataGetTypeID : W -> Z;
  (** [CFStringGetMaximumSizeForEncoding(CFStringGetLength(s), UTF8)] *)
  CFStringGetMaximumSize : Z -> W -> Z;
  (** [CFStringGetCString] with a buffer of that size: the text, or failure *)
  CFStringGetCString : Z -> Z -> sysc W (option string);
  CFDataGetLength : Z -> W -> Z;
  (** the first bytes of the data *)
  CFDataGetBytes : Z -> Z -> sysc W (list Z);
  (** service and plane: a code and the path *)
  IORegistryEntryGetPath : Z -> string -> sysc W (Z * string);
  (** service and plane: a code and the parent *)
  IORegistryEntryGetParentEntry : Z -> string -> sysc W (Z * Z);
  IOObjectConformsTo : Z -> string -> sysc W bool;
  IOObjectRetain : Z -> sysc W unit;
  IOIteratorNext : Z -> sysc W Z;
  (** [IOServiceGetMatchingServices(master, IOServiceMatching(cls), &it)] *)
  IOServiceGetMatchingServices : string -> sysc W (Z * Z)
}.

Definition kIOServicePlane : string := "IOService".
Definition kIOUSBPlane : string := "IOUSB".

(** struct usb_controller *)
Record usb_controller := UsbController { uc_index : Z; uc_path : string }.

(** The 8 bytes of a number stored at a smaller field of struct hs_device, on
    a 64-bit little-endian machine. The store at [vid] covers [pid] and 4 bytes
    of padding; the one at [pid] covers the padding and the first 2 bytes of
    the pointer [manufacturer], still NULL, which other values than 0 would
    make a wild pointer; the one at [iface] ends with the structure. *)
Definition store64_vid (n : Z) (d : hs_device) : hs_device :=
  dev_with_pid (u16 (n / 2 ^ 16)) (dev_with_vid (u16 n) d).
Definition wild_manufacturer (n : Z) : bool := negb (u64 n / 2 ^ 48 =? 0).

Section UsbDarwin.
Context {W : Type} `{Posix W} `{Allocator W} `{CoreFoundation W} `{IORegistry W}.
Variable fuel : nat.

Definition log (level : hs_log_level) (msg : string) : M (st W) unit := zoom (hs_log level msg).

(** A query that changes nothing. *)
Definition ask {A} (q : W -> A) : M (st W) A :=
  let* s := get in
  ret (q (s_world s)).

(** * The two USB stacks *)

Definition uses_new_stack : M (st W) bool :=
  let* init := load_static "stack.init" in
  (if init =? 0 then
     let* version := hs_darwin_version in
     store_static "stack.new_stack" (if 150000 <=? version then 1 else 0) ;;;
     store_static "stack.init" 1
   else ret tt) ;;;
  let* new_stack := load_static "stack.new_stack" in
  ret (negb (new_stack =? 0)).

Definition correct_class (new_stack old_stack : string) : M (st W) string :=
  let* b := uses_new_stack in
  ret (if b : bool then new_stack else old_stack).

(** * Properties *)

(** What the three functions on properties share: the property of the type
    [type] is read with [body], and released; [none] when there is none. *)
Definition with_property {A} (service : Z) (prop : string) (type : W -> Z) (none : A)
    (body : Z -> M (st W) A) : M (st W) A :=
  let* data := os (IORegistryEntryCreateCFProperty service prop) in
  let* r :=
    (if data =? 0 then ret none
     else
       let* id := ask (CFGetTypeID data) in
       let* expected := ask type in
       if negb (id =? expected) then ret none else body data) in
  (if negb (data =? 0) then os (CFRelease data) else ret tt) ;;;
  ret r.

(** The result and [*rs], when it is stored. *)
Definition get_ioregistry_value_string (service : Z) (prop : string)
    : M (st W) (Z * option string) :=
  with_property service prop CFStringGetTypeID (0, None) (fun data =>
    let* max := ask (CFStringGetMaximumSize data) in
    let size := max + 1 in
    let* ok := os malloc_ok in
    if negb ok then
      let* r := memory_error in
      ret (r, None)
    else
      let* s := os (CFStringGetCString data size) in
      match s with
      | None => ret (0, None)
      | Some s => ret (1, Some s)
      end).

(** The result and the bytes stored in [buf]. *)
Definition get_ioregistry_value_data (service : Z) (prop : string) (size : Z)
    : M (st W) (Z * list Z) :=
  with_property service prop CFDataGetTypeID (0, []) (fun data =>
    let* r := ask (CFDataGetLength data) in
    let r := if size <? r then size else r in
    let* bytes := os (CFDataGetBytes data r) in
    ret (r, bytes)).

(** The result and the value stored, when one is. *)
Definition get_ioregistry_value_number (service : Z) (prop : string) (type : CFNumberType)
    : M (st W) (bool * option Z) :=
  with_property service prop CFNumberGetTypeID (false, None) (fun data =>
    let* rn := os (CFNumberGetValue data type) in
    ret (rn.1, Some rn.2)).

(** The result and [*rpath]. *)
Definition get_ioregistry_entry_path (service : Z) : M (st W) (Z * option string) :=
  let* kp := os (IORegistryEntryGetPath service kIOServicePlane) in
  if negb (kp.1 =? kIOReturnSuccess) then
    let* r := error HS_ERROR_SYSTEM "IORegistryEntryGetPath() failed" in
    ret (r, None)
  else
    let* path := strdup kp.2 in
    match path with
    | None =>
        let* r := memory_error in
        ret (r, None)
    | Some path => ret (0, Some path)
    end.

Fixpoint clear_iterator (fuel : nat) (it : Z) : M (st W) unit :=
  match fuel with
  | O => out_of_fuel
  | S fuel =>
      let* object := os (IOIteratorNext it) in
      if object =? 0 then ret tt
      else os (IOObjectRelease object) ;;; clear_iterator fuel it
  end.

(** * The device node *)

Definition find_device_node (dev service : Z) : M (st W) Z :=
  let* serial := os (IOObjectConformsTo service "IOSerialBSDClient") in
  if serial : bool then
    set_dev dev (dev_with_type HS_DEVICE_TYPE_SERIAL) ;;;
    set_dev dev (dev_with_vtable _hs_posix_device_vtable) ;;;
    let* rp := get_ioregistry_value_string service "IOCalloutDevice" in
    (match rp.2 with Some path => set_dev dev (dev_with_path (Some path)) | None => ret tt end) ;;;
    (if rp.1 =? 0 then
       log HS_LOG_WARNING "Serial device does not have property 'IOCalloutDevice'"
     else ret tt) ;;;
    ret rp.1
  else
    let* hid := os (IOObjectConformsTo service "IOHIDDevice") in
    if hid : bool then
      set_dev dev (dev_with_type HS_DEVICE_TYPE_HID) ;;;
      set_dev dev (dev_with_vtable _hs_darwin_hid_vtable) ;;;
      let* rp := get_ioregistry_entry_path service in
      (match rp.2 with Some path => set_dev dev (dev_with_path (Some path)) | None => ret tt end) ;;;
      ret (if rp.1 =? 0 then 1 else rp.1)
    else
      log HS_LOG_WARNING "Cannot find device node for unknown device entry class" ;;;
      ret 0.

(** * The location *)

(** The result and [*rpath]. *)
Definition build_location_string (ports : list Z) (depth : Z) : M (st W) (Z * option string) :=
  let* buf := location_loop ports 0 (Z.to_nat depth) "usb" (256 - 3) in
  let* path := strdup buf in
  match path with
  | None =>
      let* r := memory_error in
      ret (r, None)
  | Some path => ret (0, Some path)
  end.

(** The loop over the list of controllers. *)
Fixpoint lookup_controller (controllers : list usb_controller) (path : string) : Z :=
  match controllers with
  | [] => 0
  | c :: controllers =>
      if bool_decide (uc_path c = path) then uc_index c else lookup_controller controllers path
  end.

Definition find_controller (controllers : list usb_controller) (service : Z) : M (st W) Z :=
  let* plane := correct_class kIOServicePlane kIOUSBPlane in
  let* kp := os (IORegistryEntryGetPath service plane) in
  if negb (kp.1 =? kIOReturnSuccess) then ret 0
  else ret (lookup_controller controllers kp.2).

Definition get_parent_and_release (service : Z) (plane : string) : M (st W) Z :=
  let* kp := os (IORegistryEntryGetParentEntry service plane) in
  os (IOObjectRelease service) ;;;
  if negb (kp.1 =? kIOReturnSuccess) then ret 0 else ret kp.2.

(** The port of [service], stored at [ports[depth]]: the array and the new
    depth. *)
Definition read_port (service : Z) (ports : list Z) (depth : Z) : M (st W) (list Z * Z) :=
  let* new_stack := uses_new_stack in
  if new_stack : bool then
    let* rb := get_ioregistry_value_data service "port" 1 in
    let* ports := (match rb.2 with b :: _ => arr_set ports depth b | [] => ret ports end) in
    ret (ports, if rb.1 =? 0 then depth else depth + 1)
  else
    let* bn := get_ioregistry_value_number service "PortNum" kCFNumberSInt8Type in
    let* ports := (match bn.2 with Some n => arr_set ports depth (u8 n) | None => ret ports end) in
    ret (ports, if bn.1 : bool then depth + 1 else depth).

(** The loop of [resolve_device_location]: the service with which it ends, and
    the array and the depth, or nothing for [goto cleanup]. *)
Fixpoint ports_loop (fuel : nat) (service : Z) (ports : list Z) (depth : Z)
    : M (st W) (Z * option (list Z * Z)) :=
  match fuel with
  | O => out_of_fuel
  | S fuel =>
      let* pd := read_port service ports depth in
      let '(ports, depth) := pd in
      if depth =? 16 then
        log HS_LOG_WARNING "Excessive USB location depth, ignoring device" ;;;
        ret (service, None)
      else
        let* plane := correct_class kIOServicePlane kIOUSBPlane in
        let* service := get_parent_and_release service plane in
        if service =? 0 then ret (0, Some (ports, depth))
        else
          let* cls := correct_class "AppleUSBHostController" "IOUSBRootHubDevice" in
          let* top := os (IOObjectConformsTo service cls) in
          if top : bool then ret (service, Some (ports, depth))
          else ports_loop fuel service ports depth
  end.

(** From the end of the loop to [cleanup:]. *)
Definition finish_location (controllers : list usb_controller) (service : Z)
    (ports : list Z) (depth : Z) : M (st W) (Z * option string) :=
  if depth =? 0 then
    log HS_LOG_WARNING "Failed to build USB device location string, ignoring" ;;;
    ret (0, None)
  else
    let* index := find_controller controllers service in
    let* ports := arr_set ports depth index in
    if index =? 0 then
      log HS_LOG_WARNING "Cannot find matching USB Host controller, ignoring device" ;;;
      ret (0, None)
    else
      let depth := depth + 1 in
      let* ports := swap_loop ports depth 0 (Z.to_nat (depth / 2)) in
      let* rl := build_location_string ports depth in
      match rl with
      | (r, None) => ret (r, None)
      | (_, Some location) => ret (1, Some location)
      end.

(** The result and [*rlocation], when it is stored. *)
Definition resolve_device_location (controllers : list usb_controller) (service : Z)
    : M (st W) (Z * option string) :=
  os (IOObjectRetain service) ;;;
  let* e := ports_loop fuel service (replicate 16 0) 0 in
  let '(service, e) := e in
  let* rl :=
    (match e with
     | None => ret (0, None)
     | Some (ports, depth) => finish_location controllers service ports depth
     end) in
  (if negb (service =? 0) then os (IOObjectRelease service) else ret tt) ;;;
  ret rl.

(** The loop of [find_conforming_parent]. *)
Fixpoint conforming_loop (fuel : nat) (service : Z) (cls : string) : M (st W) Z :=
  match fuel with
  | O => out_of_fuel
  | S fuel =>
      let* service := get_parent_and_release service kIOServicePlane in
      if service =? 0 then ret 0
      else
        let* b := os (IOObjectConformsTo service cls) in
        if b : bool then ret service else conforming_loop fuel service cls
  end.

Definition find_conforming_parent (service : Z) (cls : string) : M (st W) Z :=
  os (IOObjectRetain service) ;;;
  conforming_loop fuel service cls.

(** * A device *)

(** GET_PROPERTY_NUMBER: whether to go on, and the value stored, when one is. *)
Definition property_number (service : Z) (key : string) : M (st W) (bool * option Z) :=
  let* bn := get_ioregistry_value_number service key kCFNumberSInt64Type in
  (if bn.1 : bool then ret tt
   else log HS_LOG_WARNING ("Missing property '" +:+ key +:+ "', ignoring device")) ;;;
  ret bn.

Definition store_number (dev : ptr) (f : Z -> hs_device -> hs_device) (n : option Z)
    : M (st W) unit :=
  match n with Some n => set_dev dev (f n) | None => ret tt end.

(** The identifiers of the device: 0 for [goto cleanup]. *)
Definition read_numbers (dev dev_service iface_service : Z) : M (st W) (Z + Z) :=
  let* session := property_number dev_service "sessionID" in
  if negb session.1 then ret (inl 0)
  else
    let* vid := property_number dev_service "idVendor" in
    store_number dev store64_vid vid.2 ;;;
    if negb vid.1 then ret (inl 0)
    else
      let* pid := property_number dev_service "idProduct" in
      if wild_manufacturer (default 0 pid.2) then fail BadAccess
      else
        store_number dev (fun n => dev_with_pid (u16 n)) pid.2 ;;;
        if negb pid.1 then ret (inl 0)
        else
          let* iface := property_number iface_service "bInterfaceNumber" in
          store_number dev (fun n => dev_with_iface (u8 n)) iface.2 ;;;
          if negb iface.1 then ret (inl 0)
          else ret (inr (u64 (default 0 session.2))).

(** GET_PROPERTY_STRING: the result. *)
Definition property_string (dev service : Z) (key : string)
    (field : option string -> hs_device -> hs_device) : M (st W) Z :=
  let* rs := get_ioregistry_value_string service key in
  (match rs.2 with Some s => set_dev dev (field (Some s)) | None => ret tt end) ;;;
  ret rs.1.

(** The three optional strings. *)
Definition read_strings (dev dev_service : Z) : M (st W) Z :=
  let* r := property_string dev dev_service "USB Vendor Name" dev_with_manufacturer in
  if r <? 0 then ret r
  else
    let* r := property_string dev dev_service "USB Product Name" dev_with_product in
    if r <? 0 then ret r
    else property_string dev dev_service "USB Serial Number" dev_with_serial.

(** From the first property to [r = 1]. *)
Definition fill_darwin_device (controllers : list usb_controller) (dev service dev_service iface_service : Z)
    : M (st W) Z :=
  let* session := read_numbers dev dev_service iface_service in
  match session with
  | inl r => ret r
  | inr session =>
      let* key := strdup (print_x session) in
      match key with
      | None => memory_error
      | Some key =>
          set_dev dev (dev_with_key (Some key)) ;;;
          let* r := read_strings dev dev_service in
          if r <? 0 then ret r
          else
            let* rl := resolve_device_location controllers dev_service in
            (match rl.2 with
             | Some location => set_dev dev (dev_with_location (Some location))
             | None => ret tt
             end) ;;;
            if rl.1 <=? 0 then ret rl.1
            else
              let* r := find_device_node dev service in
              if r <=? 0 then ret r else ret 1
      end
  end.

(** From the first [calloc] to [cleanup:]: the result and [*rdev], NULL when
    it is not stored. *)
Definition new_darwin_device (controllers : list usb_controller) (service dev_service iface_service : Z)
    : M (st W) (Z * ptr) :=
  let* dev := new_block in
  if dev =? NULL then
    let* r := memory_error in
    hs_device_unref NULL ;;;
    ret (r, NULL)
  else
    alloc_dev dev ;;;
    set_dev dev (dev_with_refcount 1) ;;;
    let* r := fill_darwin_device controllers dev service dev_service iface_service in
    if r =? 1 then ret (1, dev)
    else
      hs_device_unref dev ;;;
      ret (r, NULL).

Definition process_darwin_device (controllers : list usb_controller) (service : Z)
    : M (st W) (Z * ptr) :=
  let* iface_service := find_conforming_parent service "IOUSBInterface" in
  if iface_service =? 0 then ret (0, NULL)
  else
    let* dev_service := find_conforming_parent iface_service "IOUSBDevice" in
    let* rd :=
      (if dev_service =? 0 then ret (0, NULL)
       else
         let* rd := new_darwin_device controllers service dev_service iface_service in
         os (IOObjectRelease dev_service) ;;;
         ret rd) in
    os (IOObjectRelease iface_service) ;;;
    ret rd.
End UsbDarwin.
