(* ===== verification/MonitorDarwin.v ===== *)
(** Device discovery on macOS: the second half of src/src/monitor_darwin.c,
    iterators of services, the list of controllers, [hs_enumerate] and the
    monitor. Events reach the monitor as messages on a set of Mach ports that a
    kqueue makes pollable; dispatching a message calls the functions below. *)

From S2P Require Import Prelude Cstring Common DList Htable State Posix Platform Device Heap Monitor CoreFoundation UsbDarwin.

(** A call the dispatcher makes: of [darwin_devices_attached] or of
    [darwin_devices_detached], on an iterator. *)
Inductive callout := Attached (it : Z) | Detached (it : Z).

Inductive notification_type := kIOFirstMatchNotification | kIOTerminatedNotification.

(** Notification ports, Mach ports and kqueue. *)
Class IONotification (W : Type) := {
  (** [IOServiceAddMatchingNotification]: port, type and class to a code and
      an iterator; the function called is the one of the type *)
  IOServiceAddMatchingNotification : Z -> notification_type -> string -> sysc W (Z * Z);
  IONotificationPortCreate : sysc W Z;
  IONotificationPortDestroy : Z -> sysc W unit;
  IONotificationPortGetMachPort : Z -> W -> Z;
  KERN_SUCCESS : Z;
  (** a set of ports, or failure *)
  mach_port_allocate : sysc W (option Z);
  (** member and set: a code *)
  mach_port_insert_member : Z -> Z -> sysc W Z;
  mach_port_deallocate : Z -> sysc W unit;
  kqueue : sysc W (sys Z);
  (** [kevent] that adds EVFILT_MACHPORT on a set of ports *)
  kevent_add : Z -> Z -> sysc W (sys unit);
  (** the number of an error *)
  errno_number : errno -> Z;
  (** [kevent] that does not wait: the filter of an event, when there is one *)
  kevent_poll : Z -> sysc W (sys (option Z));
  EVFILT_MACHPORT : Z;
  MACH_RCV_TIMED_OUT : Z;
  (** [mach_msg] with MACH_RCV_TIMEOUT: a message, or a code *)
  mach_msg : Z -> sysc W (Z + Z);
  (** [IODispatchCalloutFromMessage]: the calls a message stands for *)
  callouts_of_message : Z -> W -> list callout
}.

(** struct hs_monitor without _HS_MONITOR; [dm_iterators] has the
    [iterator_count] first ones of the array. *)
Record darwin_monitor := DarwinMonitor {
  dm_notify_port : Z;
  dm_iterators : list Z;
  dm_notify_ret : Z;
  dm_kqfd : Z;
  dm_port_set : Z
}.

Definition dm_with_notify_port (x : Z) (m : darwin_monitor) : darwin_monitor :=
  DarwinMonitor x (dm_iterators m) (dm_notify_ret m) (dm_kqfd m) (dm_port_set m).
Definition dm_with_iterators (x : list Z) (m : darwin_monitor) : darwin_monitor :=
  DarwinMonitor (dm_notify_port m) x (dm_notify_ret m) (dm_kqfd m) (dm_port_set m).
Definition dm_with_notify_ret (x : Z) (m : darwin_monitor) : darwin_monitor :=
  DarwinMonitor (dm_notify_port m) (dm_iterators m) x (dm_kqfd m) (dm_port_set m).
Definition dm_with_kqfd (x : Z) (m : darwin_monitor) : darwin_monitor :=
  DarwinMonitor (dm_notify_port m) (dm_iterators m) (dm_notify_ret m) x (dm_port_set m).
Definition dm_with_port_set (x : Z) (m : darwin_monitor) : darwin_monitor :=
  DarwinMonitor (dm_notify_port m) (dm_iterators m) (dm_notify_ret m) (dm_kqfd m) x.

(** [calloc(1, sizeof(struct hs_monitor))] *)
Definition darwin_monitor_zero : darwin_monitor := DarwinMonitor 0 [] 0 0 0.

(** The state of the library with the list [controllers], in its order, and the
    monitors. *)
Record mst (W : Type) := Mst {
  ms_st : st W;
  ms_controllers : list usb_controller;
  ms_monitors : gmap ptr darwin_monitor
}.
Arguments Mst {W}.
Arguments ms_st {W}.
Arguments ms_controllers {W}.
Arguments ms_monitors {W}.

#[export] Instance Has_st_mst W : Has (st W) (mst W).
Proof.
  refine {| part := ms_st; with_part := fun t s => Mst t (ms_controllers s) (ms_monitors s) |};
    by try intros [].
Defined.

(** The classes of the services the library looks for, in the old and in the
    new USB stack. *)
Definition device_classes : list (string * string) :=
  [("IOHIDDevice", "IOUSBHostHIDDevice"); ("IOSerialBSDClient", "IOSerialBSDClient")].

Section MonitorDarwin.
Context {W : Type} `{Posix W} `{Allocator W} `{CoreFoundation W} `{IORegistry W} `{IONotification W}.
Variable fuel : nat.

Definition on_st {A} (m : M (st W) A) : M (mst W) A := zoom m.

Definition load_controllers : M (mst W) (list usb_controller) :=
  fun s => Done (ms_controllers s, s).

(** [monitor->field] and [monitor->field = v] *)
Definition load_dm (m : ptr) : M (mst W) darwin_monitor :=
  fun s => match ms_monitors s !! m with
           | Some x => Done (x, s)
           | None => Fault BadAccess
           end.
Definition set_dm (m : ptr) (f : darwin_monitor -> darwin_monitor) : M (mst W) unit :=
  fun s => match ms_monitors s !! m with
           | Some x => Done (tt, Mst (ms_st s) (ms_controllers s) (<[m := f x]> (ms_monitors s)))
           | None => Fault BadAccess
           end.

(** [calloc] and [free] of a struct hs_monitor. *)
Definition alloc_monitor (m : ptr) : M (mst W) unit :=
  on_st (alloc_mon m) ;;;
  modify (fun s => Mst (ms_st s) (ms_controllers s) (<[m := darwin_monitor_zero]> (ms_monitors s))).
Definition free_monitor (m : ptr) : M (mst W) unit :=
  let* _ := load_dm m in
  modify (fun s => Mst (ms_st s) (ms_controllers s) (delete m (ms_monitors s))) ;;;
  on_st (free_mon m).

(** * Iterators *)

(** The devices of an iterator, given to the callback [f] with its [udata]. *)
Fixpoint process_iterator_devices (n : nat) (controllers : list usb_controller) (it : Z)
    (f : ptr -> M (st W) Z) : M (st W) Z :=
  match n with
  | O => out_of_fuel
  | S n =>
      let* service := os (IOIteratorNext it) in
      if service =? 0 then ret 0
      else
        let* rd := process_darwin_device fuel controllers service in
        let '(r, dev) := rd in
        os (IOObjectRelease service) ;;;
        if r <? 0 then ret r
        else if r =? 0 then process_iterator_devices n controllers it f
        else
          let* r := f dev in
          hs_device_unref dev ;;;
          if negb (r =? 0) then ret r else process_iterator_devices n controllers it f
  end.

(** The functions registered by the user. *)
Variable call : ptr -> ptr -> ptr -> M (st W) Z.

Definition monitor_enumerate_callback (m dev : ptr) : M (st W) Z :=
  _hs_monitor_add call fuel m dev.

Definition darwin_devices_attached (m : ptr) (it : Z) : M (mst W) unit :=
  let* controllers := load_controllers in
  let* r := on_st (process_iterator_devices fuel controllers it (monitor_enumerate_callback m)) in
  set_dm m (dm_with_notify_ret r).

(** [snprintf(key, sizeof(key), "%"PRIx64, session)] with its 16 bytes. *)
Definition session_key (session : Z) : string := String.substring 0 15 (print_x session).

Definition remove_device (m : ptr) (device_service : Z) : M (st W) unit :=
  let* bn := get_ioregistry_value_number device_service "sessionID" kCFNumberSInt64Type in
  if negb bn.1 then ret tt
  else _hs_monitor_remove call fuel m (session_key (u64 (default 0 bn.2))).

Fixpoint detached_loop (n : nat) (m : ptr) (it : Z) : M (st W) unit :=
  match n with
  | O => out_of_fuel
  | S n =>
      let* service := os (IOIteratorNext it) in
      if service =? 0 then ret tt
      else
        remove_device m service ;;;
        os (IOObjectRelease service) ;;;
        detached_loop n m it
  end.

Definition darwin_devices_detached (m : ptr) (it : Z) : M (mst W) unit :=
  on_st (detached_loop fuel m it).

(** * Controllers *)

(** [path] has the 128 bytes of an [io_name_t]. *)
Definition add_controller (service index : Z) : M (mst W) Z :=
  let* plane := on_st (correct_class kIOServicePlane kIOUSBPlane) in
  let* kp := on_st (os (IORegistryEntryGetPath service plane)) in
  if negb (kp.1 =? kIOReturnSuccess) then
    on_st (log HS_LOG_WARNING ("IORegistryEntryGetPath() failed: " +:+ print_u kp.1)) ;;;
    ret 0
  else if 128 <=? Z.of_nat (String.length kp.2) then fail OutOfBounds
  else
    let* ok := on_st (os malloc_ok) in
    if negb ok then on_st memory_error
    else
      modify (fun s => Mst (ms_st s) (UsbController index kp.2 :: ms_controllers s)
                         (ms_monitors s)) ;;;
      ret 1.

Fixpoint controllers_loop (n : nat) (it index : Z) : M (mst W) Z :=
  match n with
  | O => out_of_fuel
  | S n =>
      let* service := on_st (os (IOIteratorNext it)) in
      if service =? 0 then ret 0
      else if index =? UINT8_MAX then
        on_st (log HS_LOG_WARNING "Reached maximum controller ID 255, ignoring") ;;;
        ret 0
      else
        let* r := add_controller service (u8 (index + 1)) in
        on_st (os (IOObjectRelease service)) ;;;
        if r <? 0 then ret r else controllers_loop n it (u8 (index + 1))
  end.

(** [clear_iterator(it); IOObjectRelease(it);] *)
Definition drop_iterator (it : Z) : M (st W) unit :=
  clear_iterator fuel it ;;;
  os (IOObjectRelease it).

(** [_HS_EXIT()]: the destructor of the library frees the controllers; the list is
    not used after it. *)
Definition exit_darwin : M (mst W) unit := modify (fun s => Mst (ms_st s) [] (ms_monitors s)).

(** The critical section on [controllers_lock] is one step. *)
Definition populate_controllers : M (mst W) Z :=
  let* controllers := load_controllers in
  match controllers with
  | _ :: _ => ret 0
  | [] =>
      let* cls := on_st (correct_class "AppleUSBHostController" "IOUSBRootHubDevice") in
      let* ki := on_st (os (IOServiceGetMatchingServices cls)) in
      if negb (ki.1 =? kIOReturnSuccess) then
        on_st (error HS_ERROR_SYSTEM "IOServiceGetMatchingServices() failed")
      else
        let* r := controllers_loop fuel ki.2 0 in
        (if negb (ki.2 =? 0) then on_st (drop_iterator ki.2) else ret tt) ;;;
        ret r
  end.

(** * Enumeration *)

(** The classes, until one gives a result that is not 0. *)
Fixpoint classes_loop (l : list (string * string)) (f : ptr -> M (st W) Z) : M (mst W) Z :=
  match l with
  | [] => ret 0
  | (old_stack, new_stack) :: l =>
      let* cls := on_st (correct_class new_stack old_stack) in
      let* ki := on_st (os (IOServiceGetMatchingServices cls)) in
      if negb (ki.1 =? kIOReturnSuccess) then
        on_st (error HS_ERROR_SYSTEM ("IOServiceGetMatchingServices('" +:+ cls +:+ "') failed"))
      else
        let* controllers := load_controllers in
        let* r := on_st (process_iterator_devices fuel controllers ki.2 f) in
        if negb (r =? 0) then
          (if negb (ki.2 =? 0) then on_st (drop_iterator ki.2) else ret tt) ;;;
          ret r
        else
          on_st (os (IOObjectRelease ki.2)) ;;;
          classes_loop l f
  end.

Definition hs_enumerate (f : ptr -> M (st W) Z) : M (mst W) Z :=
  let* r := populate_controllers in
  if r <? 0 then ret r else classes_loop device_classes f.

(** * The monitor *)

(** The result and [*rit]. *)
Definition add_notification (m : ptr) (cls : string) (type : notification_type)
    : M (mst W) (Z * Z) :=
  let* x := load_dm m in
  let* ki := on_st (os (IOServiceAddMatchingNotification (dm_notify_port x) type cls)) in
  if negb (ki.1 =? kIOReturnSuccess) then
    let* r := on_st (error HS_ERROR_SYSTEM
      ("IOServiceAddMatchingNotification('" +:+ cls +:+ "') failed")) in
    ret (r, 0)
  else
    assert_ (Z.of_nat (length (dm_iterators x)) <? 8) ;;;
    set_dm m (dm_with_iterators (dm_iterators x ++ [ki.2])) ;;;
    ret (0, ki.2).

Fixpoint drop_iterators (l : list Z) : M (st W) unit :=
  match l with
  | [] => ret tt
  | it :: l => drop_iterator it ;;; drop_iterators l
  end.

Definition hs_monitor_free (m : ptr) : M (mst W) unit :=
  if m =? NULL then ret tt
  else
    on_st (_hs_monitor_release fuel m) ;;;
    let* x := load_dm m in
    on_st (os (close (dm_kqfd x))) ;;;
    (if negb (dm_port_set x =? 0) then on_st (os (mach_port_deallocate (dm_port_set x)))
     else ret tt) ;;;
    on_st (drop_iterators (dm_iterators x)) ;;;
    (if negb (dm_notify_port x =? 0) then on_st (os (IONotificationPortDestroy (dm_notify_port x)))
     else ret tt) ;;;
    free_monitor m.

(** [error:] of [hs_monitor_new]. *)
Definition monitor_error (r : Z) (m : ptr) : M (mst W) (Z * ptr) :=
  hs_monitor_free m ;;;
  ret (r, NULL).

(** The loop over the classes in [hs_monitor_new]: negative to go to [error]. *)
Fixpoint watch_classes (m : ptr) (l : list (string * string)) : M (mst W) Z :=
  match l with
  | [] => ret 0
  | (old_stack, new_stack) :: l =>
      let* cls := on_st (correct_class new_stack old_stack) in
      let* ri := add_notification m cls kIOFirstMatchNotification in
      if ri.1 <? 0 then ret ri.1
      else
        let* controllers := load_controllers in
        let* r := on_st (process_iterator_devices fuel controllers ri.2
                           (monitor_enumerate_callback m)) in
        if r <? 0 then ret r else watch_classes m l
  end.

(** From [_hs_monitor_init] on: the result and [*rmonitor], NULL when it is not
    stored. *)
Definition watch (m : ptr) : M (mst W) (Z * ptr) :=
  let* heads := on_st new_block in
  let* r := on_st (_hs_monitor_init heads m) in
  if r <? 0 then monitor_error r m
  else
    let* r := watch_classes m device_classes in
    if r <? 0 then monitor_error r m
    else
      let* cls := on_st (correct_class "IOUSBHostDevice" "IOUSBDevice") in
      let* ri := add_notification m cls kIOTerminatedNotification in
      if ri.1 <? 0 then monitor_error ri.1 m
      else
        on_st (clear_iterator fuel ri.2) ;;;
        ret (0, m).

(** From the allocation of the port set to the registration of the event:
    negative to go to [error]. *)
Definition open_ports (m : ptr) : M (mst W) Z :=
  let* set := on_st (os mach_port_allocate) in
  match set with
  | None => on_st (error HS_ERROR_SYSTEM "mach_port_allocate() failed")
  | Some set =>
      set_dm m (dm_with_port_set set) ;;;
      let* x := load_dm m in
      let* port := on_st (ask (IONotificationPortGetMachPort (dm_notify_port x))) in
      let* kret := on_st (os (mach_port_insert_member port set)) in
      if negb (kret =? KERN_SUCCESS) then
        on_st (error HS_ERROR_SYSTEM "mach_port_insert_member() failed")
      else
        let* r := on_st (os (kevent_add (dm_kqfd x) set)) in
        match r with
        | Err e => on_st (error HS_ERROR_SYSTEM ("kevent() failed: " +:+ print_u (errno_number e)))
        | Ok _ => ret 0
        end
  end.

(** From the creation of the notification port on. *)
Definition start (m : ptr) : M (mst W) (Z * ptr) :=
  let* port := on_st (os IONotificationPortCreate) in
  set_dm m (dm_with_notify_port port) ;;;
  if port =? 0 then
    let* r := on_st (error HS_ERROR_SYSTEM "IONotificationPortCreate() failed") in
    monitor_error r m
  else
    let* kq := on_st (os kqueue) in
    match kq with
    | Err e =>
        let* r := on_st (error HS_ERROR_SYSTEM ("kqueue() failed: " +:+ strerror e)) in
        monitor_error r m
    | Ok kq =>
        set_dm m (dm_with_kqfd kq) ;;;
        let* r := open_ports m in
        if r <? 0 then monitor_error r m else watch m
    end.

Definition hs_monitor_new : M (mst W) (Z * ptr) :=
  let* r := populate_controllers in
  if r <? 0 then monitor_error r NULL
  else
    let* m := on_st new_block in
    if m =? NULL then
      let* r := on_st memory_error in
      monitor_error r NULL
    else
      alloc_monitor m ;;;
      set_dm m (dm_with_kqfd (-1)) ;;;
      start m.

Definition hs_monitor_get_descriptor (m : ptr) : M (mst W) Z :=
  assert_ (negb (m =? NULL)) ;;;
  let* x := load_dm m in
  ret (dm_kqfd x).

(** [IODispatchCalloutFromMessage] *)
Fixpoint dispatch (m : ptr) (l : list callout) : M (mst W) unit :=
  match l with
  | [] => ret tt
  | Attached it :: l => darwin_devices_attached m it ;;; dispatch m l
  | Detached it :: l => darwin_devices_detached m it ;;; dispatch m l
  end.

(** The loop of [hs_monitor_refresh]. *)
Fixpoint messages_loop (n : nat) (m : ptr) : M (mst W) Z :=
  match n with
  | O => out_of_fuel
  | S n =>
      let* x := load_dm m in
      let* msg := on_st (os (mach_msg (dm_port_set x))) in
      match msg with
      | inl mret =>
          if mret =? MACH_RCV_TIMED_OUT then ret 0
          else on_st (error HS_ERROR_SYSTEM "mach_msg() failed")
      | inr msg =>
          let* l := on_st (ask (callouts_of_message msg)) in
          dispatch m l ;;;
          let* x := load_dm m in
          if negb (dm_notify_ret x =? 0) then
            set_dm m (dm_with_notify_ret 0) ;;;
            ret (dm_notify_ret x)
          else messages_loop n m
      end
  end.

Definition hs_monitor_refresh (m : ptr) : M (mst W) Z :=
  assert_ (negb (m =? NULL)) ;;;
  let* x := load_dm m in
  let* ev := on_st (os (kevent_poll (dm_kqfd x))) in
  match ev with
  | Err e => on_st (error HS_ERROR_SYSTEM ("kevent() failed: " +:+ strerror e))
  | Ok None => ret 0
  | Ok (Some filter) =>
      assert_ (filter =? EVFILT_MACHPORT) ;;;
      messages_loop fuel m
  end.
End MonitorDarwin.
