(* ===== verification/UsbDarwinSpec.v ===== *)
(** What the first half of monitor_darwin.c promises: over the I/O Registry, a
    device that is found holds what the registry says of it, its location is
    its path of ports, and every reference that is taken to a service or to a
    property is given back.

    A command is described by the view it has of the state before and after:
    the memory of the library but its static variables, the multiset of the
    references the process holds, and what it has of the kernel. *)

From stdpp Require Import gmultiset.
From S2P Require Import Prelude Cstring Common DList Htable State Posix Platform Location Device Heap Monitor Discovery CoreFoundation UsbDarwin MonitorDarwin.

(** * The I/O Registry *)

(** Property values. *)
Inductive cf_value := CFString (s : string) | CFData (l : list Z) | CFNumber (n : Z) | CFOther.
Inductive cf_type := CFStringType | CFDataType | CFNumberType | CFOtherType.

Definition cf_type_of (x : cf_value) : cf_type :=
  match x with
  | CFString _ => CFStringType
  | CFData _ => CFDataType
  | CFNumber _ => CFNumberType
  | CFOther => CFOtherType
  end.

(** The numbers that a type of number can hold. *)
Definition fits (type : CoreFoundation.CFNumberType) (n : Z) : bool :=
  let half :=
    match type with
    | kCFNumberSInt8Type => 2 ^ 7
    | kCFNumberSInt16Type => 2 ^ 15
    | kCFNumberSInt32Type => 2 ^ 31
    | kCFNumberSInt64Type => 2 ^ 63
    end in
  (- half <=? n) && (n <? half).

(** What the process has of the kernel but references to objects: its ports and
    queues, *)
Inductive port := NotifyPort (x : Z) | PortSet (x : Z) | Kqueue (fd : Z).

#[global] Instance port_eq_dec : EqDecision port.
Proof. solve_decision. Defined.
#[global] Instance port_countable : Countable port.
Proof.
  apply (inj_countable'
    (fun p => match p with NotifyPort x => inl x | PortSet x => inr (inl x) | Kqueue x => inr (inr x) end)
    (fun x => match x with inl x => NotifyPort x | inr (inl x) => PortSet x | inr (inr x) => Kqueue x end)).
  by intros [].
Defined.

(** and with them what is left in its iterators and the messages that are still
    to come, each with the calls it stands for and the services that it brings
    to the iterators. *)
Record kernel_side := KernelSide {
  ks_items : gmap Z (list Z);
  ks_todo : list (list (callout * list Z));
  ks_ports : gmultiset port
}.

Definition ks_set (it : Z) (l : list Z) (k : kernel_side) : kernel_side :=
  KernelSide (<[it := l]> (ks_items k)) (ks_todo k) (ks_ports k).

(** A registry over the worlds [W]: its services with their parents and paths in
    each plane, their classes and their properties; and, of a world, the
    references of the process and its side of the kernel. *)
Record io_registry (W : Type) := IoRegistry {
  ir_parent : string -> Z -> option Z;
  ir_path : string -> Z -> option string;
  ir_conforms : Z -> string -> bool;
  ir_value : Z -> string -> option cf_value;
  ir_matching : string -> list Z;
  ir_cf : Z -> cf_value;
  ir_type_id : cf_type -> Z;
  ir_release : string;
  ir_refs : W -> gmultiset Z;
  ir_kernel : W -> kernel_side
}.
Arguments ir_parent {W}.
Arguments ir_path {W}.
Arguments ir_conforms {W}.
Arguments ir_value {W}.
Arguments ir_matching {W}.
Arguments ir_cf {W}.
Arguments ir_type_id {W}.
Arguments ir_release {W}.
Arguments ir_refs {W}.
Arguments ir_kernel {W}.

(** A service has at most [n] ancestors. *)
Fixpoint rooted {W} (t : io_registry W) (plane : string) (n : nat) (service : Z) : Prop :=
  match ir_parent t plane service with
  | None => True
  | Some parent => match n with O => False | S n => rooted t plane n parent end
  end.

Definition same_refs {W} (t : io_registry W) (w w' : W) : Prop :=
  ir_refs t w' = ir_refs t w /\ ir_kernel t w' = ir_kernel t w.
Definition takes_ref {W} (t : io_registry W) (x : Z) (w w' : W) : Prop :=
  ir_refs t w' = {[+ x +]} ⊎ ir_refs t w /\ ir_kernel t w' = ir_kernel t w.
Definition drops_ref {W} (t : io_registry W) (x : Z) (w w' : W) : Prop :=
  {[+ x +]} ⊎ ir_refs t w' = ir_refs t w /\ ir_kernel t w' = ir_kernel t w.

(** The documentation of the calls on the registry [t]. Functions with "Create",
    "Next", "Matching" or "Parent" in their name give a reference; a release
    of an object that is held drops one. *)
Record registry_documented {W} `{Posix W} `{CoreFoundation W} `{IORegistry W} (t : io_registry W)
    (fuel : nat) : Prop := {
  rd_malloc : forall w b w', malloc_ok w = (b, w') -> same_refs t w w';
  rd_uname : forall w, uname_release w = ir_release t;
  rd_create : forall service prop w d w', IORegistryEntryCreateCFProperty service prop w = (d, w') ->
    match ir_value t service prop with
    | None => d = 0 /\ same_refs t w w'
    | Some x => d <> 0 /\ ir_cf t d = x /\ takes_ref t d w w'
    end;
  rd_cf_release : forall d w u w', d ∈ ir_refs t w -> CFRelease d w = (u, w') -> drops_ref t d w w';
  rd_type_id : forall d w, CFGetTypeID d w = ir_type_id t (cf_type_of (ir_cf t d));
  rd_string_type : forall w, CFStringGetTypeID w = ir_type_id t CFStringType;
  rd_data_type : forall w, CFDataGetTypeID w = ir_type_id t CFDataType;
  rd_number_type : forall w, CFNumberGetTypeID w = ir_type_id t CFNumberType;
  rd_types : forall a b, ir_type_id t a = ir_type_id t b -> a = b;
  rd_string : forall d s n w0 w o w', ir_cf t d = CFString s -> CFStringGetMaximumSize d w0 < n ->
    CFStringGetCString d n w = (o, w') -> same_refs t w w' /\ o = Some s;
  rd_data_length : forall d l w, ir_cf t d = CFData l -> CFDataGetLength d w = Z.of_nat (length l);
  rd_data_bytes : forall d l n w r w', ir_cf t d = CFData l -> CFDataGetBytes d n w = (r, w') ->
    same_refs t w w' /\ r = take (Z.to_nat n) l;
  rd_bytes : forall service prop l, ir_value t service prop = Some (CFData l) -> Forall (fun b => 0 <= b < 256) l;
  rd_number : forall d n type w r w', ir_cf t d = CFNumber n -> CFNumberGetValue d type w = (r, w') ->
    same_refs t w w' /\ r.1 = fits type n /\ (fits type n = true -> r.2 = n);
  rd_product : forall service n, ir_value t service "idProduct" = Some (CFNumber n) -> 0 <= n < 2 ^ 16;
  rd_path : forall service plane w r w', IORegistryEntryGetPath service plane w = (r, w') ->
    same_refs t w w' /\
    match ir_path t plane service with
    | Some p => r = (kIOReturnSuccess, p)
    | None => r.1 <> kIOReturnSuccess
    end;
  rd_parent : forall service plane w r w', IORegistryEntryGetParentEntry service plane w = (r, w') ->
    match ir_parent t plane service with
    | Some p => r = (kIOReturnSuccess, p) /\ p <> 0 /\ takes_ref t p w w'
    | None => r.1 <> kIOReturnSuccess /\ same_refs t w w'
    end;
  rd_conforms : forall service cls w r w', IOObjectConformsTo service cls w = (r, w') ->
    same_refs t w w' /\ r = ir_conforms t service cls;
  rd_retain : forall x w u w', IOObjectRetain x w = (u, w') -> takes_ref t x w w';
  rd_io_release : forall x w u w', x ∈ ir_refs t w -> IOObjectRelease x w = (u, w') -> drops_ref t x w w';
  rd_next : forall it w r w', IOIteratorNext it w = (r, w') ->
    match ks_items (ir_kernel t w) !! it with
    | Some (x :: l) => r = x /\ x <> 0 /\ ir_refs t w' = {[+ x +]} ⊎ ir_refs t w /\
        ir_kernel t w' = ks_set it l (ir_kernel t w)
    | _ => r = 0 /\ same_refs t w w'
    end;
  rd_matching : forall cls w r w', IOServiceGetMatchingServices cls w = (r, w') ->
    (r.1 <> kIOReturnSuccess /\ same_refs t w w') \/
    (r.1 = kIOReturnSuccess /\ r.2 <> 0 /\ ir_refs t w' = {[+ r.2 +]} ⊎ ir_refs t w /\
       ir_kernel t w' = ks_set r.2 (ir_matching t cls) (ir_kernel t w));
  rd_rooted : forall plane service, exists n, (n < fuel)%nat /\ rooted t plane n service
}.

(** The properties of a service by their type. *)
Definition text_at {W} (t : io_registry W) (service : Z) (prop : string) : option string :=
  match ir_value t service prop with Some (CFString s) => Some s | _ => None end.
Definition data_at {W} (t : io_registry W) (service : Z) (prop : string) : option (list Z) :=
  match ir_value t service prop with Some (CFData l) => Some l | _ => None end.
Definition number_at {W} (t : io_registry W) (service : Z) (prop : string) : option Z :=
  match ir_value t service prop with Some (CFNumber n) => Some n | _ => None end.

(** The version of the system, and whether it has the new USB stack. *)
Definition darwin_version_of (release : string) : Z :=
  let l := sscanf_u 3 release in
  u32 (u32 (u32 (field l 0 * 10000) + u32 (field l 1 * 100)) + field l 2).
Definition new_stack_of {W} (t : io_registry W) : bool := 150000 <=? darwin_version_of (ir_release t).
Definition usb_plane {W} (t : io_registry W) : string :=
  if new_stack_of t then kIOServicePlane else kIOUSBPlane.

(** * Views *)

Definition set_statics (x : gmap string Z) (m : mem) : mem :=
  Mem (m_lists m) (m_nodes m) (m_devs m) (m_cbs m) (m_mons m) x.

Record view := View { v_mem : mem; v_refs : gmultiset Z; v_kernel : kernel_side }.

Definition v_gain (x : Z) (v : view) : view := View (v_mem v) ({[+ x +]} ⊎ v_refs v) (v_kernel v).
(** A reference is held unless it is NULL. *)
Definition v_own (x : Z) (v : view) : view := if x =? 0 then v else v_gain x v.
(** The memory with a new device. *)
Definition v_dev (p : ptr) (d : hs_device) (v : view) : view :=
  View (with_new_dev p d (v_mem v)) (v_refs v) (v_kernel v).

Lemma v_gain_comm x y v : v_gain x (v_gain y v) = v_gain y (v_gain x v).
Proof.
  assert (E : {[+ x +]} ⊎ ({[+ y +]} ⊎ v_refs v) = {[+ y +]} ⊎ ({[+ x +]} ⊎ v_refs v)) by multiset_solver.
  unfold v_gain. cbn [v_refs v_mem v_kernel]. by rewrite E.
Qed.

Section Views.
Context {W : Type} `{Posix W} `{Allocator W} `{CoreFoundation W} `{IORegistry W}.
Variables (t : io_registry W) (fuel : nat).
Hypothesis Hdoc : registry_documented t fuel.
Implicit Types (s : st W) (v : view).

(** What the static variables remember of the version. *)
Record stack_known s : Prop := {
  sk_version : static "version" s = 0 \/ static "version" s = darwin_version_of (ir_release t);
  sk_stack : static "stack.init" s <> 0 ->
    static "stack.new_stack" s = if new_stack_of t then 1 else 0
}.

Record seen v s : Prop := {
  se_mem : s_mem s = set_statics (m_statics (s_mem s)) (v_mem v);
  se_refs : ir_refs t (s_world s) = v_refs v;
  se_kernel : ir_kernel t (s_world s) = v_kernel v;
  se_stack : stack_known s
}.

(** [c] does not fault from the view [v]; its result and its view then are
    related by [P]. *)
Definition does {A} v (c : M (st W) A) (P : A -> view -> Prop) : Prop :=
  forall s, seen v s -> wp c (fun a s' => exists v', seen v' s' /\ P a v') s.

(** [c] leaves the view as it is. *)
Definition rests {A} v (c : M (st W) A) (P : A -> Prop) : Prop :=
  does v c (fun a v' => v' = v /\ P a).

Lemma does_ret {A} v (a : A) (P : A -> view -> Prop) : P a v -> does v (ret a) P.
Proof. intros HP s Hs. wp_step. by exists v. Qed.

Lemma does_bind {A B} v (c : M (st W) A) (f : A -> M (st W) B) P Q :
  does v c P -> (forall a v', P a v' -> does v' (f a) Q) -> does v (bind c f) Q.
Proof.
  intros Hc Hf s Hs. wp_step. eapply wp_mono; [by apply Hc|]. intros a s' (v' & Hs' & Ha).
  by apply (Hf a v' Ha).
Qed.

Lemma does_mono {A} v (c : M (st W) A) (P Q : A -> view -> Prop) :
  does v c P -> (forall a v', P a v' -> Q a v') -> does v c Q.
Proof. intros Hc HPQ s Hs. eapply wp_mono; [by apply Hc|]. intros a s' (v' & Hs' & Ha). eauto. Qed.

Lemma rests_ret {A} v (a : A) (P : A -> Prop) : P a -> rests v (ret a) P.
Proof. intros HP. by apply does_ret. Qed.

(** First a command that leaves the view. *)
Lemma does_then {A B} v (c : M (st W) A) (f : A -> M (st W) B) (P : A -> Prop) Q :
  rests v c P -> (forall a, P a -> does v (f a) Q) -> does v (bind c f) Q.
Proof. intros Hc Hf. eapply does_bind; [exact Hc|]. intros a v' [-> Ha]. auto. Qed.

Lemma rests_mono {A} v (c : M (st W) A) (P Q : A -> Prop) :
  rests v c P -> (forall a, P a -> Q a) -> rests v c Q.
Proof. intros Hc HPQ. eapply does_mono; [exact Hc|]. intros a v' [-> Ha]. auto. Qed.

(** ** Calls *)

Lemma seen_world v s f v' :
  seen v s -> v_mem v' = v_mem v -> ir_refs t (f (s_world s)) = v_refs v' ->
  ir_kernel t (f (s_world s)) = v_kernel v' -> seen v' (with_world f s).
Proof.
  intros [E1 E2 E3 [E4 E5]] Em Er Ei. split; [by rewrite Em|done|done|by split].
Qed.

Lemma does_os {A} v (c : sysc W A) (P : A -> view -> Prop) :
  (forall w a w', ir_refs t w = v_refs v -> ir_kernel t w = v_kernel v -> c w = (a, w') ->
     exists v', v_mem v' = v_mem v /\ ir_refs t w' = v_refs v' /\ ir_kernel t w' = v_kernel v' /\ P a v') ->
  does v (os c) P.
Proof.
  intros Hc s Hs. apply wp_os. intros a w E. pose proof Hs as [_ E2 E3 _].
  destruct (Hc _ _ _ E2 E3 E) as (v' & Em & Er & Ei & HP). exists v'. split; [|done].
  by eapply seen_world.
Qed.

Lemma rests_os {A} v (c : sysc W A) (P : A -> Prop) :
  (forall w a w', c w = (a, w') -> same_refs t w w' /\ P a) -> rests v (os c) P.
Proof.
  intros Hc. apply does_os. intros w a w' Er Ei E. destruct (Hc _ _ _ E) as [[F1 F2] HP].
  exists v. split_and!; [done|congruence|congruence|done|done].
Qed.

Lemma rests_ask {A} v (q : W -> A) (P : A -> Prop) : (forall w, P (q w)) -> rests v (ask q) P.
Proof. intros HP s Hs. unfold ask. wp_steps. by exists v. Qed.

Lemma rests_log v level msg : rests v (log level msg) (fun _ => True).
Proof.
  intros s [E1 E2 E3 [E4 E5]]. apply wp_zoom, wp_hs_log. exists v. split; [|done].
  split; [done|done|done|by split].
Qed.

Lemma rests_error v err msg : rests v (error err msg) (fun r => r = err).
Proof.
  intros s [E1 E2 E3 [E4 E5]]. apply wp_error. exists v. split; [|done].
  split; [done|done|done|by split].
Qed.

Lemma rests_memory_error v : rests v memory_error (fun r => r = HS_ERROR_MEMORY).
Proof.
  intros s [E1 E2 E3 [E4 E5]]. apply wp_memory_error. exists v. split; [|done].
  split; [done|done|done|by split].
Qed.

Lemma rests_malloc v : rests v (os malloc_ok) (fun _ => True).
Proof. apply rests_os. intros w b w' E. split; [by eapply (rd_malloc t fuel Hdoc)|done]. Qed.

Lemma rests_strdup v x : rests v (strdup x) (fun o => o = None \/ o = Some x).
Proof. unfold strdup. eapply does_then; [apply rests_malloc|]. intros [] _; apply rests_ret; auto. Qed.

Lemma does_retain v x : does v (os (IOObjectRetain x)) (fun _ v' => v' = v_gain x v).
Proof.
  apply does_os. intros w [] w' Er Ei E. destruct (rd_retain t fuel Hdoc _ _ _ _ E) as [F1 F2].
  exists (v_gain x v). split_and!; [done|by rewrite F1, Er|by rewrite F2, Ei|done].
Qed.

Lemma drops_gain x v w w' : ir_refs t w = v_refs (v_gain x v) -> ir_kernel t w = v_kernel v ->
  drops_ref t x w w' -> ir_refs t w' = v_refs v /\ ir_kernel t w' = v_kernel v.
Proof.
  intros Er Ei [F1 F2]. split; [|congruence]. rewrite Er in F1. cbn [v_gain v_refs] in F1.
  by apply (inj (disj_union {[+ x +]})) in F1.
Qed.

Lemma does_io_release v x : does (v_gain x v) (os (IOObjectRelease x)) (fun _ v' => v' = v).
Proof.
  apply does_os. intros w [] w' Er Ei E. destruct (drops_gain x v w w' Er Ei) as [F1 F2].
  { eapply (rd_io_release t fuel Hdoc); [|done]. rewrite Er. cbn [v_gain v_refs]. multiset_solver. }
  exists v. by split_and!.
Qed.

Lemma does_cf_release v x : does (v_gain x v) (os (CFRelease x)) (fun _ v' => v' = v).
Proof.
  apply does_os. intros w [] w' Er Ei E. destruct (drops_gain x v w w' Er Ei) as [F1 F2].
  { eapply (rd_cf_release t fuel Hdoc); [|done]. rewrite Er. cbn [v_gain v_refs]. multiset_solver. }
  exists v. by split_and!.
Qed.

(** The release of a service that may be NULL. *)
Lemma does_release_own v x :
  does (v_own x v) (if negb (x =? 0) then os (IOObjectRelease x) else ret tt) (fun _ v' => v' = v).
Proof. unfold v_own. destruct (x =? 0); cbn [negb]; [by apply does_ret|apply does_io_release]. Qed.

(** ** The stack *)

Lemma rests_uses_new_stack v : rests v uses_new_stack (fun b => b = new_stack_of t).
Proof.
  intros s Hs. pose proof Hs as [E1 E2 E3 [E4 E5]]. unfold uses_new_stack, load_static, store_static.
  assert (Hend : forall s2, seen v s2 -> static "stack.init" s2 <> 0 ->
    wp (let* new_stack := (fun s => Done (static "stack.new_stack" s, s)) in ret (negb (new_stack =? 0)))
      (fun b s' => exists v', seen v' s' /\ v' = v /\ b = new_stack_of t) s2).
  { intros s2 Hs2 Hi. wp_step. eapply wp_intro; [done|]. wp_step. exists v. split; [done|]. split; [done|].
    destruct Hs2 as [_ _ _ [_ Hst]]. rewrite (Hst Hi). by destruct (new_stack_of t). }
  wp_step. eapply wp_intro; [done|]. wp_step. destruct (Z.eqb_spec (static "stack.init" s) 0) as [Ei|Ei].
  2:{ wp_step. by apply Hend. }
  assert (Hv : wp hs_darwin_version (fun ver s' => ver = darwin_version_of (ir_release t) /\
    seen v s' /\ static "stack.init" s' = 0) s).
  { unfold hs_darwin_version, load_static, store_static. wp_step. eapply wp_intro; [done|].
    destruct (Z.eqb_spec (static "version" s) 0) as [Ev|Ev]; cbn [negb].
    - wp_step. wp_step. cbv zeta. wp_step. wp_step. wp_step. rewrite (rd_uname t fuel Hdoc).
      split; [done|]. split; [|unfold static; cbn; by rewrite lookup_insert_ne].
      split; [cbn; by rewrite E1|done|done|]. split.
      + right. unfold static. cbn. by rewrite lookup_insert_eq.
      + unfold static. cbn. by rewrite !lookup_insert_ne by done.
    - wp_step. destruct E4 as [|E4]; [done|]. by split. }
  wp_step. eapply wp_mono; [exact Hv|]. intros ver s1 (-> & [F1 F2 F3 [F4 F5]] & Ei1).
  wp_step. wp_step. wp_step. apply Hend.
  - split; [cbn; by rewrite F1|done|done|]. split.
    + unfold static. cbn. rewrite !lookup_insert_ne by done. exact F4.
    + intros _. unfold static. cbn. rewrite lookup_insert_ne, lookup_insert_eq by done. cbn.
      unfold new_stack_of. by destruct (150000 <=? _).
  - unfold static. cbn. by rewrite lookup_insert_eq.
Qed.

Lemma rests_correct_class v new old :
  rests v (correct_class new old) (fun c => c = if new_stack_of t then new else old).
Proof.
  unfold correct_class. eapply does_then; [apply rests_uses_new_stack|]. intros b ->. by apply rests_ret.
Qed.

(** ** Properties *)

Lemma rests_with_property {A} v service prop type ty (none : A) body (P : A -> Prop) :
  (forall w, type w = ir_type_id t ty) ->
  ((forall x, ir_value t service prop = Some x -> cf_type_of x <> ty) -> P none) ->
  (forall d x, ir_value t service prop = Some x -> cf_type_of x = ty -> ir_cf t d = x ->
     rests (v_gain d v) (body d) P) ->
  rests v (with_property service prop type none body) P.
Proof.
  intros Hty Hnone Hbody. unfold with_property.
  eapply does_bind with (P := fun d v' => match ir_value t service prop with
    | None => d = 0 /\ v' = v
    | Some x => d <> 0 /\ ir_cf t d = x /\ v' = v_gain d v
    end).
  { apply does_os. intros w d w' Er Ei E. pose proof (rd_create t fuel Hdoc _ _ _ _ _ E) as Hc.
    destruct (ir_value t service prop).
    - destruct Hc as (Hd & Hx & F1 & F2). exists (v_gain d v). split_and!; try done; [by rewrite F1, Er|by rewrite F2, Ei].
    - destruct Hc as (Hd & F1 & F2). exists v. split_and!; try done; congruence. }
  intros d v' Hd. destruct (ir_value t service prop) as [x|] eqn:Ex.
  - destruct Hd as (Hd & Hx & ->). rewrite (proj2 (Z.eqb_neq d 0)) by done. cbn [negb].
    eapply does_then with (P := P).
    + eapply does_then; [apply (rests_ask _ _ (fun a => a = ir_type_id t (cf_type_of x)))|].
      { intros w. rewrite (rd_type_id t fuel Hdoc). by rewrite Hx. }
      intros a ->. eapply does_then; [apply (rests_ask _ _ (fun a => a = ir_type_id t ty)), Hty|].
      intros b ->. destruct (Z.eqb_spec (ir_type_id t (cf_type_of x)) (ir_type_id t ty)) as [E|E]; cbn [negb].
      * apply (rd_types t fuel Hdoc) in E. by eapply Hbody.
      * apply rests_ret, Hnone. intros y [= <-]. congruence.
    + intros a Ha. eapply does_bind; [apply does_cf_release|]. intros [] v' ->. by apply does_ret.
  - destruct Hd as [-> ->]. change (0 =? 0) with true. cbn [negb].
    eapply does_then with (P := P); [by apply rests_ret, Hnone|].
    intros a Ha. eapply does_then with (P := fun _ => True); [by apply rests_ret|]. intros _ _. by apply does_ret.
Qed.

Lemma rests_get_string v service prop :
  rests v (get_ioregistry_value_string service prop) (fun rs =>
    rs = (HS_ERROR_MEMORY, None) \/
    match text_at t service prop with Some x => rs = (1, Some x) | None => rs = (0, None) end).
Proof.
  unfold get_ioregistry_value_string, text_at.
  eapply rests_with_property; [apply (rd_string_type t fuel Hdoc)| |].
  - intros Hno. right. destruct (ir_value t service prop) as [[]|] eqn:Ex; try done. by specialize (Hno _ eq_refl).
  - intros d x Ex Hty Hd. destruct x as [x| | |]; try done. rewrite Ex.
    eapply does_then; [by apply (rests_ask _ _ (fun max => exists w, max = CFStringGetMaximumSize d w)); eauto|].
    intros max [w0 ->]. cbv zeta. eapply does_then; [apply rests_malloc|]. intros [] _; cbn [negb].
    + eapply does_then; [apply rests_os; intros w o w' E; eapply (rd_string t fuel Hdoc _ _ _ w0); [done| |exact E]; lia|].
      intros o ->. apply rests_ret. by right.
    + eapply does_then; [apply rests_memory_error|]. intros r ->. apply rests_ret. by left.
Qed.

(** The first byte of a property. *)
Lemma rests_get_data v service prop :
  rests v (get_ioregistry_value_data service prop 1) (fun rb =>
    match data_at t service prop with
    | Some (b :: _) => rb = (1, [b]) /\ 0 <= b < 256
    | _ => rb = (0, [])
    end).
Proof.
  unfold get_ioregistry_value_data, data_at.
  eapply rests_with_property; [apply (rd_data_type t fuel Hdoc)| |].
  - intros Hno. destruct (ir_value t service prop) as [[]|] eqn:Ex; try done. by specialize (Hno _ eq_refl).
  - intros d x Ex Hty Hd. destruct x as [|l| |]; try done. rewrite Ex.
    eapply does_then; [apply (rests_ask _ _ (fun n => n = Z.of_nat (length l)))|].
    { intros w. by apply (rd_data_length t fuel Hdoc). }
    intros n ->. cbv zeta. eapply does_then; [apply rests_os; intros w o w'; by apply (rd_data_bytes t fuel Hdoc)|].
    intros bytes ->. apply rests_ret. pose proof (rd_bytes t fuel Hdoc _ _ _ Ex) as Hb. destruct l as [|b l]; [done|].
    apply Forall_cons in Hb as [Hb _]. split; [|done]. cbn [length]. destruct (Z.ltb_spec 1 (Z.of_nat (S (length l)))).
    + done.
    + by destruct l; [|cbn in *; lia].
Qed.

Lemma rests_get_number v service prop type :
  rests v (get_ioregistry_value_number service prop type) (fun bn =>
    match number_at t service prop with
    | Some n => bn.1 = fits type n /\ (fits type n = true -> bn.2 = Some n) /\ is_Some bn.2
    | None => bn = (false, None)
    end).
Proof.
  unfold get_ioregistry_value_number, number_at.
  eapply rests_with_property; [apply (rd_number_type t fuel Hdoc)| |].
  - intros Hno. destruct (ir_value t service prop) as [[]|] eqn:Ex; try done. by specialize (Hno _ eq_refl).
  - intros d x Ex Hty Hd. destruct x as [| |n|]; try done. rewrite Ex.
    eapply does_then; [apply rests_os; intros w o w'; by apply (rd_number t fuel Hdoc)|].
    intros [b m] [Hb Hm]. cbn in *. apply rests_ret. cbn. split; [done|]. split; [|eauto]. intros Hf. by rewrite Hm.
Qed.

Lemma rests_entry_path v service :
  rests v (get_ioregistry_entry_path service) (fun rp =>
    rp = (HS_ERROR_SYSTEM, None) \/ rp = (HS_ERROR_MEMORY, None) \/
    exists p, ir_path t kIOServicePlane service = Some p /\ rp = (0, Some p)).
Proof.
  unfold get_ioregistry_entry_path.
  eapply does_then; [apply rests_os; intros w o w'; apply (rd_path t fuel Hdoc)|]. intros [k p] Hp. cbn [fst snd] in *.
  destruct (ir_path t kIOServicePlane service) as [q|].
  - injection Hp as -> ->. rewrite Z.eqb_refl. cbn [negb].
    eapply does_then; [apply rests_strdup|]. intros o [-> | ->].
    + eapply does_then; [apply rests_memory_error|]. intros r ->. apply rests_ret. auto.
    + apply rests_ret. right. right. eauto.
  - rewrite (proj2 (Z.eqb_neq _ _)) by done. cbn [negb].
    eapply does_then; [apply rests_error|]. intros r ->. apply rests_ret. by left.
Qed.

Lemma rests_conforms v service cls :
  rests v (os (IOObjectConformsTo service cls)) (fun b => b = ir_conforms t service cls).
Proof. apply rests_os. intros w r w'. apply (rd_conforms t fuel Hdoc). Qed.

(** ** The parents of a service *)

Lemma does_get_parent v service plane :
  does (v_gain service v) (get_parent_and_release service plane) (fun p v' =>
    v' = v_own p v /\
    match ir_parent t plane service with Some q => p = q /\ q <> 0 | None => p = 0 end).
Proof.
  unfold get_parent_and_release.
  eapply does_bind with (P := fun kp v' => match ir_parent t plane service with
    | Some q => kp = (kIOReturnSuccess, q) /\ q <> 0 /\ v' = v_gain service (v_gain q v)
    | None => kp.1 <> kIOReturnSuccess /\ v' = v_gain service v
    end).
  { apply does_os. intros w kp w' Er Ei E. pose proof (rd_parent t fuel Hdoc _ _ _ _ _ E) as Hp.
    destruct (ir_parent t plane service) as [q|].
    - destruct Hp as (-> & Hq & F1 & F2). exists (v_gain q (v_gain service v)).
      split_and!; try done; [by rewrite F1, Er|by rewrite F2, Ei|apply v_gain_comm].
    - destruct Hp as (Hk & F1 & F2). exists (v_gain service v). split_and!; try done; congruence. }
  intros [k p] v' Hp. cbn [fst snd] in *. destruct (ir_parent t plane service) as [q|].
  - destruct Hp as ([= -> ->] & Hq & ->). eapply does_bind; [apply does_io_release|]. intros [] v' ->.
    rewrite Z.eqb_refl. cbn [negb]. apply does_ret. unfold v_own. by rewrite (proj2 (Z.eqb_neq q 0)).
  - destruct Hp as [Hk ->]. eapply does_bind; [apply does_io_release|]. intros [] v' ->.
    rewrite (proj2 (Z.eqb_neq _ _)) by done. cbn [negb]. by apply does_ret.
Qed.

(** [first_conforming service a]: [a] is the nearest ancestor of the class, 0
    when there is none. *)
Inductive first_conforming (cls : string) : Z -> Z -> Prop :=
  | fc_none service : ir_parent t kIOServicePlane service = None -> first_conforming cls service 0
  | fc_here service p :
      ir_parent t kIOServicePlane service = Some p -> ir_conforms t p cls = true ->
      first_conforming cls service p
  | fc_up service p a :
      ir_parent t kIOServicePlane service = Some p -> ir_conforms t p cls = false ->
      first_conforming cls p a -> first_conforming cls service a.

Lemma first_conforming_det cls service a b :
  first_conforming cls service a -> first_conforming cls service b -> a = b.
Proof. intros Ha. revert b. induction Ha; inversion 1; subst; try congruence; apply IHHa; congruence. Qed.

Lemma does_conforming_loop cls n : forall gas service v, rooted t kIOServicePlane n service -> (n < gas)%nat ->
  does (v_gain service v) (conforming_loop gas service cls) (fun a v' =>
    v' = v_own a v /\ first_conforming cls service a).
Proof.
  induction n as [|n IH]; intros [|gas] service v Hr Hg; try lia; cbn [conforming_loop];
    (eapply does_bind; [apply does_get_parent|]); intros p v' [-> Hp]; cbn [rooted] in Hr;
    destruct (ir_parent t kIOServicePlane service) as [q|] eqn:Eq; try done.
  1,3: subst p; change (0 =? 0) with true; apply does_ret; split; [done|by constructor].
  destruct Hp as [-> Hq]. unfold v_own at 1. rewrite (proj2 (Z.eqb_neq q 0)) by done.
  eapply does_then; [apply rests_conforms|]. intros b ->. destruct (ir_conforms t q cls) eqn:Ec.
  - apply does_ret. unfold v_own. rewrite (proj2 (Z.eqb_neq q 0)) by done. split; [done|by eapply fc_here].
  - eapply does_mono; [apply IH; [done|lia]|]. intros a v' [-> Ha]. split; [done|]. by eapply fc_up.
Qed.

Lemma does_find_conforming v service cls :
  does v (find_conforming_parent fuel service cls) (fun a v' =>
    v' = v_own a v /\ first_conforming cls service a).
Proof.
  destruct (rd_rooted t fuel Hdoc kIOServicePlane service) as (n & Hn & Hr). unfold find_conforming_parent.
  eapply does_bind; [apply does_retain|]. intros [] v' ->. by eapply does_conforming_loop.
Qed.

(** ** The location *)

(** The port a service says it is on. *)
Definition port_at (service : Z) : option Z :=
  if new_stack_of t then
    match data_at t service "port" with Some (b :: _) => Some b | _ => None end
  else
    match number_at t service "PortNum" with
    | Some n => if fits kCFNumberSInt8Type n then Some (u8 n) else None
    | None => None
    end.
Definition port_list (service : Z) : list Z := match port_at service with Some p => [p] | None => [] end.


Definition host_class : string :=
  if new_stack_of t then "AppleUSBHostController" else "IOUSBRootHubDevice".

(** [usb_path n service ports top]: the way up from [service] ends after [n]
    steps at the host [top], or at 0, and [ports] are the ports on it. *)
Inductive usb_path : nat -> Z -> list Z -> Z -> Prop :=
  | up_none service :
      ir_parent t (usb_plane t) service = None -> usb_path 0 service (port_list service) 0
  | up_host service p :
      ir_parent t (usb_plane t) service = Some p -> ir_conforms t p host_class = true ->
      usb_path 0 service (port_list service) p
  | up_more n service p ports top :
      ir_parent t (usb_plane t) service = Some p -> ir_conforms t p host_class = false ->
      usb_path n p ports top -> usb_path (S n) service (port_list service ++ ports) top.

Lemma usb_path_det n service ports top m ports' top' :
  usb_path n service ports top -> usb_path m service ports' top' -> ports = ports' /\ top = top'.
Proof.
  intros Hp. revert m ports' top'. induction Hp as [|? q|? ? q ? ? ? ? ? IH];
    intros m ports' top' Hp'; inversion Hp'; subst; try (split; congruence); try congruence.
  assert (Eq : q = p) by congruence. subst q. edestruct IH as [-> ->]; done.
Qed.

Lemma usb_path_exists n service : rooted t (usb_plane t) n service ->
  exists m ports top, (m <= n)%nat /\ usb_path m service ports top.
Proof.
  revert service. induction n as [|n IH]; intros service; cbn [rooted];
    destruct (ir_parent t (usb_plane t) service) as [p|] eqn:Ep; try done.
  1,3: intros _; do 3 eexists; split; [|by constructor]; lia.
  intros Hr. destruct (ir_conforms t p host_class) eqn:Ec.
  - do 3 eexists. split; [|by eapply up_host]. lia.
  - destruct (IH p Hr) as (m & ports & top & Hm & Hp). do 3 eexists. split; [|by eapply up_more]. lia.
Qed.

Lemma rests_arr_set {A} v (l : list A) (i : nat) x : (i < length l)%nat ->
  rests v (arr_set l (Z.of_nat i) x) (fun l' => l' = <[i := x]> l).
Proof. intros Hi s Hs. eapply wp_intro; [by apply arr_set_eq|]. by exists v. Qed.

Lemma take_push {A} (l : list A) acc x : (length acc < length l)%nat -> take (length acc) l = acc ->
  take (length acc + 1) (<[length acc := x]> l) = acc ++ [x].
Proof.
  intros Hl Ht. rewrite Nat.add_1_r, (take_S_r _ _ x) by by rewrite list_lookup_insert_eq by lia.
  by rewrite take_insert_ge, Ht by lia.
Qed.

Lemma rests_read_port v service arr acc : length arr = 16%nat -> (length acc < 16)%nat ->
  take (length acc) arr = acc ->
  rests v (read_port service arr (Z.of_nat (length acc))) (fun pd => exists arr',
    pd = (arr', Z.of_nat (length (acc ++ port_list service))) /\ length arr' = 16%nat /\
    take (length (acc ++ port_list service)) arr' = acc ++ port_list service).
Proof.
  intros Hl Ha Ht. unfold read_port, port_list, port_at. eapply does_then; [apply rests_uses_new_stack|].
  assert (Hnone : forall arr', length arr' = 16%nat -> take (length acc) arr' = acc ->
    exists arr'', (arr', Z.of_nat (length acc)) = (arr'', Z.of_nat (length (acc ++ []))) /\
      length arr'' = 16%nat /\ take (length (acc ++ [])) arr'' = acc ++ []).
  { intros arr' Hl' Ht'. exists arr'. by rewrite app_nil_r. }
  assert (Hpush : forall x, exists arr'', (<[length acc := x]> arr, Z.of_nat (length acc) + 1) =
      (arr'', Z.of_nat (length (acc ++ [x]))) /\
      length arr'' = 16%nat /\ take (length (acc ++ [x])) arr'' = acc ++ [x]).
  { intros x. exists (<[length acc := x]> arr). rewrite length_app, length_insert. cbn [length].
    split; [f_equal; lia|]. split; [done|]. apply take_push; [lia|done]. }
  intros b ->. destruct (new_stack_of t).
  - eapply does_then; [apply rests_get_data|]. intros rb Hrb.
    destruct (data_at t service "port") as [[|x l]|].
    2:{ destruct Hrb as [-> Hx]. cbn [fst snd]. eapply does_then; [apply rests_arr_set; lia|]. intros arr' ->.
        apply rests_ret. apply Hpush. }
    all: subst rb; eapply does_then with (P := fun a => a = arr); [by apply rests_ret|].
    all: intros arr' ->; apply rests_ret; by apply Hnone.
  - eapply does_then; [apply rests_get_number|]. intros bn Hbn.
    destruct (number_at t service "PortNum") as [n|].
    + destruct Hbn as (Hb & Hf & [m Hm]). rewrite Hm. eapply does_then; [apply rests_arr_set; lia|]. intros arr' ->.
      apply rests_ret. rewrite Hb. destruct (fits kCFNumberSInt8Type n).
      * rewrite Hf in Hm by done. injection Hm as ->. apply Hpush.
      * apply Hnone; [by rewrite length_insert|]. by rewrite take_insert_ge by lia.
    + subst bn. eapply does_then with (P := fun a => a = arr); [by apply rests_ret|].
      intros arr' ->. apply rests_ret. by apply Hnone.
Qed.

(** How the loop over the parents ends, with [total] ports on the way. *)
Definition ports_end (total : list Z) (top : Z) v (e : Z * option (list Z * Z)) v' : Prop :=
  v' = v_own e.1 v /\
  ((e.2 = None /\ (16 <= length total)%nat) \/
   exists arr, e = (top, Some (arr, Z.of_nat (length total))) /\ length arr = 16%nat /\
     take (length total) arr = total /\ (length total < 16)%nat).

Lemma does_ports_loop n service ports top : usb_path n service ports top ->
  forall gas arr acc v, (n < gas)%nat -> length arr = 16%nat -> (length acc < 16)%nat ->
  take (length acc) arr = acc -> service <> 0 ->
  does (v_gain service v) (ports_loop gas service arr (Z.of_nat (length acc)))
    (ports_end (acc ++ ports) top v).
Proof.
  intros Hp. induction Hp as [service Hpar|service p Hpar Hc|n service p ports top Hpar Hc Hp IH];
    intros [|gas] arr acc v Hg Hl Ha Ht Hs; try lia; cbn [ports_loop].
  all: eapply does_then; [by apply rests_read_port|]; intros pd (arr' & -> & Hl' & Ht'); cbv beta iota.
  all: set (acc' := acc ++ port_list service) in *.
  all: assert (Hlen : (length acc' <= 16)%nat)
    by (rewrite <- Hl', <- Ht' at 1; rewrite length_take; lia).
  all: destruct (Z.eqb_spec (Z.of_nat (length acc')) 16) as [E16|E16];
    [eapply does_then; [apply rests_log|]; intros _ _; apply does_ret; split;
       [cbn; unfold v_own; by rewrite (proj2 (Z.eqb_neq _ 0))|left; split; [done|]]|].
  1,3: fold acc'; lia.
  3: rewrite app_assoc, length_app; fold acc'; lia.
  all: eapply does_then; [apply rests_correct_class|]; intros plane ->.
  all: fold (usb_plane t).
  all: eapply does_bind; [apply does_get_parent|]; intros q v' [-> Hq]; rewrite Hpar in Hq.
  - subst q. change (0 =? 0) with true. cbv iota. apply does_ret. split; [done|]. right. exists arr'.
    fold acc'. split; [done|]. split; [done|]. split; [done|lia].
  - destruct Hq as [-> Hne]. unfold v_own at 1. rewrite (proj2 (Z.eqb_neq p 0)) by done.
    eapply does_then; [apply rests_correct_class|]. intros cls ->. fold host_class.
    eapply does_then; [apply rests_conforms|]. intros b ->. rewrite Hc. apply does_ret.
    split; [cbn; unfold v_own; by rewrite (proj2 (Z.eqb_neq p 0))|]. right. exists arr'.
    fold acc'. split; [done|]. split; [done|]. split; [done|lia].
  - destruct Hq as [-> Hne]. unfold v_own at 1. rewrite (proj2 (Z.eqb_neq p 0)) by done.
    eapply does_then; [apply rests_correct_class|]. intros cls ->. fold host_class.
    eapply does_then; [apply rests_conforms|]. intros b ->. rewrite Hc.
    rewrite app_assoc. apply IH; fold acc'; [lia|done|lia|done|done].
Qed.

(** The controllers the library knows have one-byte indices. *)
Definition controllers_ok (controllers : list usb_controller) : Prop :=
  Forall (fun c => 0 <= uc_index c < 256) controllers.

Lemma lookup_controller_byte controllers path : controllers_ok controllers ->
  0 <= lookup_controller controllers path < 256.
Proof. induction 1 as [|c l Hc _ IH]; cbn; [lia|]. by case_bool_decide. Qed.

Definition controller_of (controllers : list usb_controller) (service : Z) : Z :=
  match ir_path t (usb_plane t) service with
  | Some path => lookup_controller controllers path
  | None => 0
  end.

Lemma rests_find_controller v controllers service :
  rests v (find_controller controllers service) (fun i => i = controller_of controllers service).
Proof.
  unfold find_controller. eapply does_then; [apply rests_correct_class|]. intros plane ->. fold (usb_plane t).
  eapply does_then; [apply rests_os; intros w o w'; apply (rd_path t fuel Hdoc)|]. intros [k p] Hp.
  unfold controller_of. cbn [fst snd] in *. destruct (ir_path t (usb_plane t) service) as [path|].
  - injection Hp as -> ->. rewrite Z.eqb_refl. by apply rests_ret.
  - rewrite (proj2 (Z.eqb_neq _ _)) by done. by apply rests_ret.
Qed.

(** [located controllers service text]: the ports on the way up from [service]
    to a known controller, at most 15, in the order from the controller down. *)
Definition located (controllers : list usb_controller) (service : Z) (text : string) : Prop :=
  exists n ports top, usb_path n service ports top /\ ports <> [] /\ (length ports < 16)%nat /\
    controller_of controllers top <> 0 /\
    text = location_text (controller_of controllers top :: reverse ports).

(** The results of the functions that can fail. *)
Definition darwin_failure (r : Z) : Prop := r = HS_ERROR_MEMORY \/ r = HS_ERROR_SYSTEM.

Lemma darwin_failure_neg r : darwin_failure r -> r < 0.
Proof. unfold darwin_failure, HS_ERROR_MEMORY, HS_ERROR_SYSTEM. lia. Qed.

Lemma usb_path_bytes n service ports top : usb_path n service ports top ->
  Forall (fun p => 0 <= p < 256) ports.
Proof.
  assert (Hb : forall service, Forall (fun p => 0 <= p < 256) (port_list service)).
  { intros s. unfold port_list, port_at, data_at, number_at.
    destruct (new_stack_of t).
    - destruct (ir_value t s "port") as [[]|] eqn:E; try done.
      pose proof (rd_bytes t fuel Hdoc _ _ _ E) as Hl. destruct l as [|b l]; [done|].
      apply Forall_cons in Hl as [Hl _]. by apply Forall_singleton.
    - destruct (ir_value t s "PortNum") as [[| |m|]|]; try done.
      destruct (fits kCFNumberSInt8Type m); [|done]. apply Forall_singleton, u8_bound. }
  induction 1; [done|done|]. by apply Forall_app.
Qed.

Lemma rests_build_location_string v ports depth :
  Forall (fun p => 0 <= p < 256) (take depth ports) ->
  (length ports <= 16)%nat -> (depth <= length ports)%nat ->
  rests v (build_location_string ports (Z.of_nat depth)) (fun rl =>
    rl = (0, Some (location_text (take depth ports))) \/ rl = (HS_ERROR_MEMORY, None)).
Proof.
  intros Hb Hl Hd. unfold build_location_string.
  eapply does_then with (P := fun b => b = location_text (take depth ports)).
  { intros s Hs. rewrite Nat2Z.id. eapply wp_intro; [apply (location_loop_eq ports depth 0); [done|lia|lia]|].
    exists v. by rewrite drop_0. }
  intros b ->. eapply does_then; [apply rests_strdup|]. intros o [-> | ->].
  - eapply does_then; [apply rests_memory_error|]. intros r ->. apply rests_ret. by right.
  - apply rests_ret. by left.
Qed.

Lemma rests_swap v arr depth : (depth <= length arr)%nat ->
  rests v (swap_loop arr (Z.of_nat depth) 0 (Z.to_nat (Z.of_nat depth / 2)))
    (fun arr' => length arr' = length arr /\ take depth arr' = reverse (take depth arr)).
Proof.
  intros Hd s Hs. destruct (swap_loop_reverse arr depth s Hd) as (arr' & E & Hl & Ht).
  eapply wp_intro; [exact E|]. by exists v.
Qed.

(** A location that is found, or the result that says why there is none. *)
Definition location_result (controllers : list usb_controller) (service : Z) (rl : Z * option string)
    : Prop :=
  (exists text, rl = (1, Some text) /\ located controllers service text) \/
  (rl.2 = None /\ ((rl.1 = 0 /\ forall text, ~ located controllers service text) \/ darwin_failure rl.1)).

Lemma not_located controllers service n ports top : usb_path n service ports top ->
  ports = [] \/ (16 <= length ports)%nat \/ controller_of controllers top = 0 ->
  forall text, ~ located controllers service text.
Proof.
  intros Hp Hwhy text (m & ports' & top' & Hp' & Hne & Hlt & Hc & _).
  destruct (usb_path_det _ _ _ _ _ _ _ Hp Hp') as [-> ->]. destruct Hwhy as [|[|]]; [done|lia|done].
Qed.

Lemma rests_finish_location v controllers service n ports top arr : controllers_ok controllers ->
  usb_path n service ports top -> (length ports < 16)%nat -> length arr = 16%nat ->
  take (length ports) arr = ports ->
  rests v (finish_location controllers top arr (Z.of_nat (length ports)))
    (location_result controllers service).
Proof.
  intros Hc Hp Hlt Hl Ht. unfold finish_location.
  destruct (Z.eqb_spec (Z.of_nat (length ports)) 0) as [E0|E0].
  { eapply does_then; [apply rests_log|]. intros _ _. apply rests_ret. right. split; [done|]. left. split; [done|].
    eapply not_located; [done|]. left. destruct ports; [done|cbn in E0; lia]. }
  eapply does_then; [apply rests_find_controller|]. intros i ->. set (c := controller_of controllers top).
  eapply does_then; [apply rests_arr_set; lia|]. intros arr1 ->.
  destruct (Z.eqb_spec c 0) as [Ec|Ec].
  { eapply does_then; [apply rests_log|]. intros _ _. apply rests_ret. right. split; [done|]. left. split; [done|].
    eapply not_located; [done|]. auto. }
  cbv zeta. replace (Z.of_nat (length ports) + 1) with (Z.of_nat (length ports + 1)) by lia.
  eapply does_then; [apply rests_swap; rewrite length_insert; lia|]. intros arr2 [Hl2 Ht2].
  rewrite length_insert in Hl2. rewrite take_push in Ht2 by (done || lia). rewrite reverse_app in Ht2.
  (* the text only depends on the ports in use *)
  assert (Hbytes : Forall (fun p => 0 <= p < 256) (take (length ports + 1) arr2)).
  { rewrite Ht2. apply Forall_app. split.
    - apply Forall_singleton. unfold c, controller_of. case_match; [by apply lookup_controller_byte|lia].
    - apply Forall_reverse. by eapply usb_path_bytes. }
  eapply does_then with (P := fun rl => rl = (0, Some (location_text (c :: reverse ports))) \/
    rl = (HS_ERROR_MEMORY, None)).
  { eapply rests_mono; [apply rests_build_location_string; [done|lia|lia]|]. by rewrite Ht2. }
  intros rl [-> | ->].
  - apply rests_ret. left. eexists. split; [done|]. exists n, ports, top. split_and!; try done. by intros ->.
  - apply rests_ret. right. split; [done|]. right. by left.
Qed.

Lemma rests_resolve v controllers service : controllers_ok controllers -> service <> 0 ->
  rests v (resolve_device_location fuel controllers service) (location_result controllers service).
Proof.
  intros Hc Hs. unfold resolve_device_location.
  destruct (rd_rooted t fuel Hdoc (usb_plane t) service) as (n & Hn & Hr).
  destruct (usb_path_exists n service Hr) as (m & ports & top & Hm & Hp).
  eapply does_bind; [apply does_retain|]. intros [] v' ->.
  eapply does_bind; [apply (does_ports_loop m service ports top Hp fuel (replicate 16 0) []); try done; [lia|cbn; lia]|].
  intros [service' e] v' [-> He]. cbn [app] in He. cbv beta iota. cbn [fst snd] in *.
  eapply does_then with (P := location_result controllers service).
  - destruct He as [[-> Hge]|(arr & [= -> ->] & Hl & Ht & Hlt)].
    + apply rests_ret. right. split; [done|]. left. split; [done|]. eapply not_located; [done|]. auto.
    + by eapply rests_finish_location.
  - intros rl Hrl. eapply does_bind; [apply does_release_own|]. intros [] v' ->. by apply does_ret.
Qed.

(** * A device *)

(** A command on a new device, then the rest. *)
Lemma does_set {B} v p d f (g : unit -> M (st W) B) Q :
  does (v_dev p (f d) v) (g tt) Q -> does (v_dev p d v) (bind (set_dev p f) g) Q.
Proof.
  intros Hg. eapply does_bind with (P := fun _ v' => v' = v_dev p (f d) v); [|by intros [] v' ->].
  intros s [E1 E2 E3 [E4 E5]]. set (sts := m_statics (s_mem s)) in *.
  change (set_statics sts (v_mem (v_dev p d v))) with (with_new_dev p d (set_statics sts (v_mem v))) in E1.
  eapply wp_set_dev; [rewrite E1; cbn; by rewrite lookup_insert_eq|].
  exists (v_dev p (f d) v). split; [|done]. split; [|done|done|by split].
  cbn [s_mem with_devs]. rewrite E1. unfold with_new_dev, set_statics. cbn. by rewrite insert_insert_eq.
Qed.

Lemma does_drop {A} v p d r (P : A -> hs_device -> Prop) : P r d ->
  does (v_dev p d v) (ret r) (fun r v' => exists d', v' = v_dev p d' v /\ P r d').
Proof. intros HP. apply does_ret. eauto. Qed.

(** [P] of the device when the result is 1; it is 0 because of [N], or an
    error. *)
Definition filled (P : hs_device -> Prop) (N : Prop) (r : Z) (d : hs_device) : Prop :=
  dev_refcount d = 1 /\ ((r = 1 /\ P d) \/ (r = 0 /\ N) \/ darwin_failure r).

Lemma filled_not P (N : Prop) r d : dev_refcount d = 1 -> (r = 0 /\ N) \/ darwin_failure r -> filled P N r d.
Proof. split; [done|]. by right. Qed.

(** A number of 64 bits of a service. *)
Definition long_at (service : Z) (key : string) (n : Z) : Prop :=
  number_at t service key = Some n /\ fits kCFNumberSInt64Type n = true.

Lemma rests_property_number v service key :
  rests v (property_number service key) (fun bn =>
    (bn.1 = false \/ (bn.1 = true /\ exists n, bn.2 = Some n /\ long_at service key n)) /\
    (forall n, long_at service key n -> bn = (true, Some n)) /\
    (number_at t service key = None -> bn.2 = None)).
Proof.
  unfold property_number. eapply does_then; [apply rests_get_number|]. intros [b o] Hbn.
  eapply does_then with (P := fun _ => True).
  { cbn [fst]. destruct b; [by apply rests_ret|apply rests_log]. }
  intros _ _. apply rests_ret. cbn [fst snd] in *. unfold long_at.
  destruct (number_at t service key) as [n|].
  - destruct Hbn as (-> & Hf & Ho). destruct (fits kCFNumberSInt64Type n) eqn:Ef.
    + rewrite (Hf eq_refl). split; [right; split; [done|]; by exists n|]. split; [by intros ? [[= ->] _]|done].
    + split; [by left|]. split; [|done]. intros m [[= <-] Hm]. congruence.
  - injection Hbn as -> ->. split; [by left|]. split; [by intros ? [? _]|done].
Qed.

Lemma does_store_number {B} v p d f o (g : unit -> M (st W) B) Q :
  does (v_dev p (match o with Some n => f n d | None => d end) v) (g tt) Q ->
  does (v_dev p d v) (bind (store_number p f o) g) Q.
Proof.
  intros Hg. unfold store_number. destruct o as [n|]; [by apply does_set|].
  eapply does_then with (P := fun _ => True); [by apply rests_ret|]. by intros [] _.
Qed.

(** One of the numbers is missing. *)
Definition not_numbered (usb iface : Z) : Prop :=
  (forall n, ~ long_at usb "sessionID" n) \/ (forall n, ~ long_at usb "idVendor" n) \/
  (forall n, ~ long_at usb "idProduct" n) \/ (forall n, ~ long_at iface "bInterfaceNumber" n).

(** The numbers of the device, and the session. *)
Record numbered (usb iface : Z) (d d' : hs_device) (session : Z) : Prop := {
  nu_session : exists n, long_at usb "sessionID" n /\ session = u64 n;
  nu_vid : exists n, long_at usb "idVendor" n /\ dev_vid d' = u16 n;
  nu_pid : exists n, long_at usb "idProduct" n /\ dev_pid d' = u16 n;
  nu_iface : exists n, long_at iface "bInterfaceNumber" n /\ dev_iface d' = u8 n;
  nu_rest : d' = dev_with_iface (dev_iface d') (dev_with_pid (dev_pid d') (dev_with_vid (dev_vid d') d))
}.

Lemma does_read_numbers v p d usb iface :
  does (v_dev p d v) (read_numbers p usb iface) (fun x v' => exists d', v' = v_dev p d' v /\
    match x with
    | inl r => r = 0 /\ dev_refcount d' = dev_refcount d /\ not_numbered usb iface
    | inr session => numbered usb iface d d' session
    end).
Proof.
  unfold read_numbers. eapply does_then; [apply rests_property_number|].
  intros [b1 o1] ([Hb1|(Hb1 & n1 & Ho1 & L1)] & Hs2 & _); cbn [fst snd] in *; rewrite Hb1; cbn [negb].
  { apply does_drop. split_and!; [done|done|]. left. intros n L. specialize (Hs2 n L). congruence. }
  eapply does_then; [apply rests_property_number|]. intros [b2 o2] (Hv & Hv2 & _). cbn [fst snd] in *.
  apply does_store_number. destruct Hv as [Hb2|(Hb2 & n2 & Ho2 & L2)]; rewrite Hb2; cbn [negb].
  { apply does_drop. split_and!; [done|by destruct o2|]. right. left. intros n L. specialize (Hv2 n L). congruence. }
  rewrite Ho2. eapply does_then; [apply rests_property_number|]. intros [b3 o3] (Hp & Hp2 & Hp3). cbn [fst snd] in *.
  assert (Hwild : wild_manufacturer (default 0 o3) = false).
  { destruct (number_at t usb "idProduct") as [n|] eqn:En; [|by rewrite Hp3].
    assert (Hn : 0 <= n < 2 ^ 16).
    { unfold number_at in En. destruct (ir_value t usb "idProduct") as [[| |m|]|] eqn:Em; try done.
      injection En as ->. by eapply (rd_product t fuel Hdoc). }
    assert (L : long_at usb "idProduct" n).
    { split; [done|]. unfold fits. apply andb_true_iff. rewrite Z.leb_le, Z.ltb_lt. lia. }
    specialize (Hp2 n L). injection Hp2 as -> ->. cbn. unfold wild_manufacturer, u64.
    rewrite Z.mod_small, Z.div_small by lia. done. }
  rewrite Hwild. apply does_store_number. destruct Hp as [Hb3|(Hb3 & n3 & Ho3 & L3)]; rewrite Hb3; cbn [negb].
  { apply does_drop. split_and!; [done|by destruct o3|]. do 2 right. left. intros n L. specialize (Hp2 n L). congruence. }
  rewrite Ho3. eapply does_then; [apply rests_property_number|]. intros [b4 o4] (Hi & Hi2 & _). cbn [fst snd] in *.
  apply does_store_number. destruct Hi as [Hb4|(Hb4 & n4 & Ho4 & L4)]; rewrite Hb4; cbn [negb].
  { apply does_drop. split_and!; [done|by destruct o4|]. do 3 right. intros n L. specialize (Hi2 n L). congruence. }
  rewrite Ho4. apply does_drop. split; [by exists n1; rewrite Ho1|by exists n2|by exists n3|by exists n4|].
  by destruct d.
Qed.

Lemma does_property_string v p d service key field :
  (forall x, dev_refcount (field x d) = dev_refcount d) -> field None d = d ->
  does (v_dev p d v) (property_string p service key field) (fun r v' =>
    (v' = v_dev p d v /\ r = HS_ERROR_MEMORY) \/
    (v' = v_dev p (field (text_at t service key) d) v /\ 0 <= r)).
Proof.
  intros Hf Hn. unfold property_string. eapply does_then; [apply rests_get_string|].
  intros rs [->|Hrs]; [|destruct (text_at t service key) as [x|]; subst rs]; cbn [fst snd].
  - eapply does_then with (P := fun _ => True); [by apply rests_ret|]; intros _ _. apply does_ret. by left.
  - apply does_set, does_ret. right. split; [done|lia].
  - eapply does_then with (P := fun _ => True); [by apply rests_ret|]; intros _ _. apply does_ret. right.
    rewrite Hn. split; [done|lia].
Qed.

(** The type, the functions and the node of the device of [service]. *)
Definition node_of (service : Z) (d : hs_device) : Prop :=
  (ir_conforms t service "IOSerialBSDClient" = true /\ dev_type d = HS_DEVICE_TYPE_SERIAL /\
     dev_vtable d = _hs_posix_device_vtable /\
     exists p, text_at t service "IOCalloutDevice" = Some p /\ dev_path d = Some p) \/
  (ir_conforms t service "IOSerialBSDClient" = false /\ ir_conforms t service "IOHIDDevice" = true /\
     dev_type d = HS_DEVICE_TYPE_HID /\ dev_vtable d = _hs_darwin_hid_vtable /\
     exists p, ir_path t kIOServicePlane service = Some p /\ dev_path d = Some p).

Lemma does_find_device_node v p d service : dev_refcount d = 1 ->
  does (v_dev p d v) (find_device_node p service) (fun r v' => exists d', v' = v_dev p d' v /\
    filled (fun d' => node_of service d' /\
      d' = dev_with_path (dev_path d') (dev_with_vtable (dev_vtable d') (dev_with_type (dev_type d') d)))
      (forall d', ~ node_of service d') r d').
Proof.
  intros Hd. unfold find_device_node.
  eapply does_then; [apply rests_conforms|]. intros b ->.
  destruct (ir_conforms t service "IOSerialBSDClient") eqn:Es.
  - do 2 apply does_set. eapply does_then; [apply rests_get_string|].
    intros rs [->|Hrs]; [|destruct (text_at t service "IOCalloutDevice") as [x|] eqn:Ex; subst rs]; cbn [fst snd].
    2:{ apply does_set. eapply does_then with (P := fun _ => True); [by apply rests_ret|]. intros _ _.
        apply does_drop. split; [done|]. left. split; [done|]. split; [|by destruct d].
        left. split_and!; try done. by exists x. }
    all: eapply does_then with (P := fun _ => True); [by apply rests_ret|]; intros _ _.
    all: eapply does_then with (P := fun _ => True); [by first [apply rests_log|apply rests_ret]|]; intros _ _.
    all: apply does_drop, filled_not; [done|].
    + right. by left.
    + left. split; [done|]. intros d' [(_ & _ & _ & q & Hq & _)|(Hq & _)]; congruence.
  - eapply does_then; [apply rests_conforms|]. intros b ->.
    destruct (ir_conforms t service "IOHIDDevice") eqn:Eh.
    + do 2 apply does_set. eapply does_then; [apply rests_entry_path|].
      intros rp [->|[->|(x & Hx & ->)]]; cbn [fst snd].
      1,2: eapply does_then with (P := fun _ => True); [by apply rests_ret|]; intros _ _;
        apply does_drop, filled_not; [done|].
      * right. by right.
      * right. by left.
      * apply does_set, does_drop. split; [done|]. left. split; [done|]. split; [|by destruct d].
        right. split_and!; try done. by exists x.
    + eapply does_then; [apply rests_log|]. intros _ _. apply does_drop, filled_not; [done|]. left.
      split; [done|]. intros d' [(Hq & _)|(_ & Hq & _)]; congruence.
Qed.

(** What a device found for [service] holds. *)
Record described (controllers : list usb_controller) (service : Z) (d : hs_device) : Prop := {
  ds_new : dev_monitor d = NULL /\ dev_refcount d = 1 /\ dev_state d = HS_DEVICE_STATUS_DISCONNECTED;
  ds_node : node_of service d;
  ds_usb : exists iface usb, first_conforming "IOUSBInterface" service iface /\ iface <> 0 /\
    first_conforming "IOUSBDevice" iface usb /\ usb <> 0 /\
    (exists n, long_at usb "sessionID" n /\ dev_key d = Some (print_x (u64 n))) /\
    (exists n, long_at usb "idVendor" n /\ dev_vid d = u16 n) /\
    (exists n, long_at usb "idProduct" n /\ dev_pid d = u16 n) /\
    (exists n, long_at iface "bInterfaceNumber" n /\ dev_iface d = u8 n) /\
    dev_manufacturer d = text_at t usb "USB Vendor Name" /\
    dev_product d = text_at t usb "USB Product Name" /\
    dev_serial d = text_at t usb "USB Serial Number" /\
    exists text, located controllers usb text /\ dev_location d = Some text
}.

(** The three strings of a service. *)
Definition with_texts (usb : Z) (d : hs_device) : hs_device :=
  dev_with_serial (text_at t usb "USB Serial Number") (dev_with_product (text_at t usb "USB Product Name")
    (dev_with_manufacturer (text_at t usb "USB Vendor Name") d)).

Lemma does_read_strings v p d usb : dev_manufacturer d = None -> dev_product d = None -> dev_serial d = None ->
  dev_refcount d = 1 ->
  does (v_dev p d v) (read_strings p usb) (fun r v' => exists d', v' = v_dev p d' v /\ dev_refcount d' = 1 /\
    ((r = HS_ERROR_MEMORY) \/ (0 <= r /\ d' = with_texts usb d))).
Proof.
  intros Ha Hb Hc Hd. unfold read_strings.
  eapply does_bind; [apply does_property_string; [done|by destruct d; cbn in *; subst]|].
  intros r v1 [[-> ->]|[-> Hr]].
  { change (HS_ERROR_MEMORY <? 0) with true. apply does_ret. exists d. auto. }
  rewrite (proj2 (Z.ltb_ge r 0)) by done.
  eapply does_bind; [apply does_property_string; [done|by destruct d; cbn in *; subst]|].
  intros r2 v2 [[-> ->]|[-> Hr2]].
  { change (HS_ERROR_MEMORY <? 0) with true. apply does_ret. eexists. split; [done|]. auto. }
  rewrite (proj2 (Z.ltb_ge r2 0)) by done.
  eapply does_mono; [apply does_property_string; [done|by destruct d; cbn in *; subst]|].
  intros r3 v3 [[-> ->]|[-> Hr3]]; (eexists; split; [done|]); auto.
Qed.

(** The device [process_darwin_device] starts from. *)
Definition fresh_device : hs_device := dev_with_refcount 1 device_zero.

Lemma does_fill v p controllers service usb iface : controllers_ok controllers ->
  first_conforming "IOUSBInterface" service iface -> iface <> 0 ->
  first_conforming "IOUSBDevice" iface usb -> usb <> 0 ->
  does (v_dev p fresh_device v) (fill_darwin_device fuel controllers p service usb iface) (fun r v' =>
    exists d, v' = v_dev p d v /\
      filled (described controllers service) (forall d, ~ described controllers service d) r d).
Proof.
  intros Hc Hi Hi0 Hu Hu0. unfold fill_darwin_device.
  assert (Hsame : forall d, described controllers service d -> (forall k, not_numbered usb iface -> k) /\
    (exists text, located controllers usb text) /\ node_of service d).
  { intros d [_ Hnode (i & u & Hi' & _ & Hu' & _ & (? & Hn1 & _) & (? & Hn2 & _) & (? & Hn3 & _) & (? & Hn4 & _) &
      _ & _ & _ & text & Ht & _)].
    pose proof (first_conforming_det _ _ _ _ Hi Hi'). subst i.
    pose proof (first_conforming_det _ _ _ _ Hu Hu'). subst u.
    split; [|by eauto]. intros k [Hn|[Hn|[Hn|Hn]]]; exfalso; by eapply Hn. }
  eapply does_bind; [apply does_read_numbers|]. intros [r|session] v1 (d1 & -> & H1').
  { destruct H1' as (-> & Hd1 & Hno). apply does_drop, filled_not; [done|]. left. split; [done|].
    intros d Hd. destruct (Hsame d Hd) as [Hk _]. by apply Hk. }
  destruct H1' as [N1 N2 N3 N4 N5]. eapply does_then; [apply rests_strdup|]. intros o [-> | ->].
  { eapply does_mono; [apply rests_memory_error|]. intros r v' [-> ->]. exists d1. split; [done|].
    apply filled_not; [by rewrite N5|right; by left]. }
  apply does_set. set (d2 := dev_with_key (Some (print_x session)) d1).
  eapply does_bind; [apply does_read_strings; unfold d2; by rewrite N5|].
  intros r v2 (d3 & -> & Hd3 & Hr). destruct Hr as [->|[Hr Ed3]].
  { change (HS_ERROR_MEMORY <? 0) with true. apply does_drop, filled_not; [done|]. right. by left. }
  rewrite (proj2 (Z.ltb_ge r 0)) by done.
  eapply does_then; [by apply rests_resolve|]. intros [q l] [(text & [= -> ->] & Htext)|[Hl Hq]]; cbn [fst snd] in *.
  2:{ subst l. eapply does_then with (P := fun _ => True); [by apply rests_ret|]. intros _ _.
      rewrite (proj2 (Z.leb_le q 0)) by (destruct Hq as [[-> _]|Hq]; [lia|apply darwin_failure_neg in Hq; lia]).
      apply does_drop, filled_not; [done|]. destruct Hq as [[-> Hno]|Hq]; [left|by right]. split; [done|].
      intros d Hd. destruct (Hsame d Hd) as (_ & (text & Ht) & _). by apply (Hno text). }
  apply does_set. change (1 <=? 0) with false. cbv iota.
  eapply does_bind; [by apply does_find_device_node|]. intros r2 v3 (d5 & -> & Hd5 & Hr2).
  destruct Hr2 as [[-> [Hnode Hd5']]|Hr2].
  2:{ rewrite (proj2 (Z.leb_le r2 0)) by (destruct Hr2 as [[-> _]|Hr2]; [lia|apply darwin_failure_neg in Hr2; lia]).
      apply does_drop, filled_not; [done|]. destruct Hr2 as [[-> Hno]|Hr2]; [left|by right]. split; [done|].
      intros d Hd. destruct (Hsame d Hd) as (_ & _ & Hd'). by apply (Hno d). }
  change (1 <=? 0) with false. cbv iota. apply does_drop. split; [done|]. left. split; [done|].
  rewrite Ed3 in Hd5'. unfold d2 in Hd5'. rewrite N5 in Hd5'. destruct N1 as (n & Ln & ->). split.
  - by rewrite Hd5'.
  - done.
  - exists iface, usb. rewrite Hd5'. cbn. split_and!; try done; eauto.
Qed.

(** What [process_darwin_device] leaves: a new device, or the view as it was. *)
Definition processed (controllers : list usb_controller) (service : Z) v (rp : Z * ptr) v' : Prop :=
  (rp.1 = 1 /\ exists d, described controllers service d /\ rp.2 <> NULL /\ hnode_of rp.2 <> NULL /\
     ~ in_use (v_mem v) rp.2 /\ ~ in_use (v_mem v) (hnode_of rp.2) /\ v' = v_dev rp.2 d v) \/
  (((rp.1 = 0 /\ forall d, ~ described controllers service d) \/ darwin_failure rp.1) /\
     rp.2 = NULL /\ v' = v).

Lemma in_use_statics x m p : in_use (set_statics x m) p <-> in_use m p.
Proof. done. Qed.

(** The memory for a device, or none. *)
Lemma does_new_block v : allocator_documented ->
  does v new_block (fun p v' => v' = v /\ (p = NULL \/
    (p <> NULL /\ hnode_of p <> NULL /\ ~ in_use (v_mem v) p /\ ~ in_use (v_mem v) (hnode_of p)))).
Proof.
  intros Hal s Hs. pose proof Hs as [E1 E2 E3 E4]. apply wp_new_block; intros w Ew.
  all: destruct (rd_malloc t fuel Hdoc _ _ _ Ew) as [F1 F2].
  all: assert (seen v (with_world (fun _ => w) s)) by (eapply seen_world; [done|done|congruence|congruence]).
  all: exists v; split; [done|]; split; [done|].
  - by left.
  - right. set (p := block_address w (s_mem s)). destruct (Hal w (s_mem s)) as [Hp Hfree]. fold p in Hp, Hfree.
    unfold NULL in *.
    assert (Hu : forall q, p <= q -> q < p + 4096 -> ~ in_use (v_mem v) q).
    { intros q Hq1 Hq2. rewrite <- (in_use_statics (m_statics (s_mem s))), <- E1. auto. }
    split_and!; unfold hnode_of, HNODE_OFFSET; [lia|lia|apply Hu; lia|apply Hu; lia].
Qed.

(** The last reference to a device just made is dropped. *)
Lemma does_unref_new v p d : p <> NULL -> ~ in_use (v_mem v) p -> ~ in_use (v_mem v) (hnode_of p) ->
  dev_refcount d = 1 -> does (v_dev p d v) (hs_device_unref p) (fun _ v' => v' = v).
Proof.
  intros Hp Hu Hn Hd s [E1 E2 E3 [E4 E5]]. set (sts := m_statics (s_mem s)) in *.
  destruct (unref_new_dev p d (set_statics sts (v_mem v)) s Hp Hu Hn Hd E1) as (s' & E & Hm & Hw).
  eapply wp_intro; [exact E|]. exists v. split; [|done].
  assert (Hsts : m_statics (s_mem s') = sts) by by rewrite Hm.
  split; [by rewrite Hm|by rewrite Hw|by rewrite Hw|].
  split; unfold static in *; by rewrite Hsts.
Qed.

Lemma does_new_device v controllers service usb iface : allocator_documented -> controllers_ok controllers ->
  first_conforming "IOUSBInterface" service iface -> iface <> 0 ->
  first_conforming "IOUSBDevice" iface usb -> usb <> 0 ->
  does v (new_darwin_device fuel controllers service usb iface) (processed controllers service v).
Proof.
  intros Hal Hc Hi Hi0 Hu Hu0. unfold new_darwin_device.
  eapply does_then; [by apply does_new_block|]. intros p [->|(Hp & Hpn & Hfree & Hfreen)].
  { change (NULL =? NULL) with true. cbv iota. eapply does_then; [apply rests_memory_error|]. intros r ->.
    eapply does_then with (P := fun _ => True).
    { intros s Hs. apply wp_intro with (a := tt) (s' := s); [done|]. by exists v. }
    intros _ _. apply does_ret. right. split; [right; by left|done]. }
  rewrite (proj2 (Z.eqb_neq p NULL)) by done.
  eapply does_bind with (P := fun _ v' => v' = v_dev p device_zero v).
  { intros s [E1 E2 E3 [E4 E5]]. destruct (alloc_dev_eq p s) as (s' & E & Hm & Hw).
    eapply wp_intro; [exact E|]. eexists. split; [|done].
    assert (Hsts : m_statics (s_mem s') = m_statics (s_mem s)) by by rewrite Hm.
    split; [rewrite Hsts, Hm; by rewrite E1|by rewrite Hw|by rewrite Hw|].
    split; unfold static in *; by rewrite Hsts. }
  intros [] v' ->. apply does_set. eapply does_bind; [by apply (does_fill v p _ _ usb iface)|].
  intros r v' (d & -> & Hd & Hr). destruct (Z.eqb_spec r 1) as [->|Hr1].
  - apply does_ret. left. split; [done|]. destruct Hr as [[_ Hr]|[[Hr _]|Hr]]; [by exists d|done|].
    by apply darwin_failure_neg in Hr.
  - eapply does_bind; [by apply does_unref_new|]. intros [] v' ->. apply does_ret. right.
    destruct Hr as [[? _]|Hr]; done.
Qed.

Lemma processed_gain controllers service v x rp v' : processed controllers service (v_gain x v) rp v' ->
  exists v2, v' = v_gain x v2 /\ processed controllers service v rp v2.
Proof.
  intros [(E & d & Hd & Hp & Hpn & Hu & Hun & ->)|(Hr & Hp & ->)].
  - exists (v_dev rp.2 d v). split; [done|]. left. split; [done|]. by exists d.
  - exists v. split; [done|]. by right.
Qed.

Lemma does_process v controllers service : allocator_documented -> controllers_ok controllers ->
  does v (process_darwin_device fuel controllers service) (processed controllers service v).
Proof.
  intros Hal Hc. unfold process_darwin_device.
  eapply does_bind; [apply does_find_conforming|]. intros iface v1 [-> Hi].
  unfold v_own. destruct (Z.eqb_spec iface 0) as [->|Hi0].
  { apply does_ret. right. split; [|done]. left. split; [done|]. intros d [_ _ (i & u & Hi' & Hi0 & _)].
    apply Hi0. symmetry. by eapply first_conforming_det. }
  eapply does_bind; [apply does_find_conforming|]. intros usb v2 [-> Hu].
  unfold v_own. destruct (Z.eqb_spec usb 0) as [->|Hu0].
  { eapply does_then with (P := fun rp => rp = (0, NULL)); [by apply rests_ret|]. intros rd ->.
    eapply does_bind; [apply does_io_release|]. intros [] v' ->. apply does_ret. right. split; [|done]. left.
    split; [done|]. intros d [_ _ (i & u & Hi' & _ & Hu' & Hu0 & _)].
    pose proof (first_conforming_det _ _ _ _ Hi Hi'). subst i. apply Hu0. symmetry.
    by eapply first_conforming_det. }
  eapply does_bind.
  { eapply does_bind; [by apply (does_new_device _ _ _ usb iface)|]. intros rd v3 Hp.
    apply processed_gain in Hp as (v4 & -> & Hp).
    eapply does_bind; [apply does_io_release|]. intros [] v5 ->.
    eapply (does_ret _ rd (fun rd v' => processed controllers service (v_gain iface v) rd v')). exact Hp. }
  intros rd v3 Hp. apply processed_gain in Hp as (v4 & -> & Hp).
  eapply does_bind; [apply does_io_release|]. intros [] v5 ->. by apply does_ret.
Qed.
End Views.

(** * The theorem *)

(** C12: [process_darwin_device] finds the device of a service. It never faults,
    whatever the registry holds: it returns 1 and a new device that holds what
    the registry says of the service, its USB interface and its USB device, with
    its path of ports as location; or 0 when the service is not that of a USB
    device on a known controller, with all its numbers and a device node; or an
    error. Each reference it takes to a service or to a property is released,
    and without a device no memory stays allocated. *)
Theorem process_darwin_device_correct {W} `{Posix W} `{Allocator W} `{CoreFoundation W} `{IORegistry W}
    (t : io_registry W) fuel controllers service (s : st W) :
  registry_documented t fuel -> allocator_documented -> controllers_ok controllers -> stack_known t s ->
  exists r p s', process_darwin_device fuel controllers service s = Done ((r, p), s') /\
    same_refs t (s_world s) (s_world s') /\ stack_known t s' /\
    ((r = 1 /\ exists d sts, described t controllers service d /\ p <> NULL /\
        ~ in_use (s_mem s) p /\ s_mem s' = set_statics sts (with_new_dev p d (s_mem s))) \/
     (((r = 0 /\ forall d, ~ described t controllers service d) \/ darwin_failure r) /\
        p = NULL /\ same_objects s s')).
Proof.
  intros Hd Hal Hc Hst.
  set (v := View (s_mem s) (ir_refs t (s_world s)) (ir_kernel t (s_world s))).
  assert (Hs : seen t v s) by (split; [by destruct (s_mem s)|done|done|done]).
  pose proof (does_process t fuel Hd v controllers service Hal Hc s Hs) as Hp.
  apply wp_inv in Hp as ([r p] & s' & E & v' & [E1 E2 E3 E4] & Hv).
  exists r, p, s'. split; [done|]. unfold processed in Hv. cbn [fst snd] in Hv.
  destruct Hv as [(-> & d & Hd' & Hp & _ & Hu & _ & ->)|(Hr & -> & ->)].
  - split; [by split|]. split; [done|]. left. split; [done|]. by exists d, (m_statics (s_mem s')).
  - split; [by split|]. split; [done|]. right. split; [done|]. split; [done|]. unfold same_objects. rewrite E1. by repeat split.
Qed.

(** * A registry *)

(** The messages, by number. *)
Definition iomac_message (i : nat) : list (callout * list Z) :=
  match i with
  | O => [(Attached 500, [1])]
  | 1%nat => [(Detached 501, [3])]
  | _ => [(Attached 500, [7; 1])]
  end.

(** The world of a process: its references, its iterators, its messages and its ports. *)
Record iomac := IoMac {
  iw_refs : gmultiset Z;
  iw_items : gmap Z (list positive);
  iw_todo : list nat;
  iw_ports : gmultiset port
}.

Definition iw_gain (x : Z) (w : iomac) : iomac := IoMac ({[+ x +]} ⊎ iw_refs w) (iw_items w) (iw_todo w) (iw_ports w).
Definition iw_drop (x : Z) (w : iomac) : iomac := IoMac (iw_refs w ∖ {[+ x +]}) (iw_items w) (iw_todo w) (iw_ports w).
Definition iw_with_items (it : Z) (l : list positive) (w : iomac) : iomac :=
  IoMac (iw_refs w) (<[it := l]> (iw_items w)) (iw_todo w) (iw_ports w).

#[export] Instance iomac_posix : Posix iomac := {|
  malloc_ok w := (true, w);
  strerror _ := "error";
  clock_gettime w := (Ok (0, 0), w);
  poll fds _ w := (Ok (0, map (fun _ => 0) fds), w);
  open _ w := (Err ENOENT, w);
  close fd w := (tt, if fd =? -1 then w else IoMac (iw_refs w) (iw_items w) (iw_todo w) (iw_ports w ∖ {[+ Kqueue fd +]}));
  read _ _ w := (Err EAGAIN, w);
  write _ _ w := (Err EIO, w);
  usleep _ w := (tt, w);
  ioctl_TIOCSDTR _ w := (tt, w);
  ioctl_HIDIOCGRDESCSIZE _ w := (Err EIO, w);
  ioctl_HIDIOCGRDESC _ _ w := (Err EIO, w);
  ioctl_HIDIOCGFEATURE _ _ w := (Err EIO, w);
  ioctl_HIDIOCSFEATURE _ _ w := (Err EIO, w);
  uname_release _ := "15.0.0";
  POLLIN := 1; POLLOUT := 4; POLLERR := 8; POLLHUP := 16; POLLNVAL := 32
|}.

#[export] Instance iomac_allocator : Allocator iomac := bump.

(** A serial port (1) of an interface (2) of a USB device (3) in port 4 of a hub
    (5), in port 2 of a controller (6); and a device (7) that is not on USB. *)
Definition iomac_parents : list (Z * Z) := [(1, 2); (2, 3); (3, 5); (5, 6)].
Definition iomac_paths : list (Z * string) := [(1, "IOService:/xhci/hub/dev/modem"); (6, "IOService:/xhci")].
Definition iomac_classes : list (Z * string) :=
  [(1, "IOSerialBSDClient"); (2, "IOUSBInterface"); (3, "IOUSBDevice"); (6, "AppleUSBHostController");
   (7, "IOHIDDevice")].
Definition iomac_props : list (Z * string * cf_value) :=
  [(1, "IOCalloutDevice", CFString "/dev/cu.modem"); (2, "bInterfaceNumber", CFNumber 1);
   (3, "sessionID", CFNumber 2748); (3, "idVendor", CFNumber 5824); (3, "idProduct", CFNumber 1155);
   (3, "USB Product Name", CFString "modem"); (3, "USB Vendor Name", CFOther);
   (3, "port", CFData [4; 0]); (5, "port", CFData [2])].

Fixpoint assoc {A} (l : list (Z * A)) (x : Z) : option A :=
  match l with
  | [] => None
  | (y, a) :: l => if y =? x then Some a else assoc l x
  end.

Definition iomac_find (service : Z) (prop : string) : option (nat * (Z * string * cf_value)) :=
  list_find (fun x => x.1 = (service, prop)) iomac_props.
(** The references of properties are 100 and more. *)
Definition iomac_cf (d : Z) : cf_value := default CFOther (option_map snd (iomac_props !! Z.to_nat (d - 100))).
Definition iomac_type_id (ty : cf_type) : Z :=
  match ty with CFStringType => 7 | CFDataType => 20 | CFNumberType => 22 | CFOtherType => 1 end.
Definition iomac_matching (cls : string) : list positive :=
  if bool_decide (cls = "IOSerialBSDClient") then [1%positive]
  else if bool_decide (cls = "IOUSBHostHIDDevice") then [7%positive]
  else if bool_decide (cls = "AppleUSBHostController") then [6%positive] else [].

#[export] Instance iomac_cf_calls : CoreFoundation iomac := {|
  kIOReturnSuccess := 0;
  IOObjectRelease x w := (tt, iw_drop x w);
  CFRelease x w := (tt, iw_drop x w);
  CFGetTypeID d _ := iomac_type_id (cf_type_of (iomac_cf d));
  CFNumberGetTypeID _ := 22;
  CFNumberGetValue d type w :=
    (match iomac_cf d with CFNumber n => (fits type n, n) | _ => (false, 0) end, w)
|}.

#[export] Instance iomac_registry : IORegistry iomac := {|
  IORegistryEntryCreateCFProperty service prop w :=
    match iomac_find service prop with
    | Some (i, _) => (100 + Z.of_nat i, iw_gain (100 + Z.of_nat i) w)
    | None => (0, w)
    end;
  CFStringGetTypeID _ := 7;
  CFDataGetTypeID _ := 20;
  CFStringGetMaximumSize _ _ := 1024;
  CFStringGetCString d _ w := (match iomac_cf d with CFString x => Some x | _ => None end, w);
  CFDataGetLength d _ := match iomac_cf d with CFData l => Z.of_nat (length l) | _ => 0 end;
  CFDataGetBytes d n w := (match iomac_cf d with CFData l => take (Z.to_nat n) l | _ => [] end, w);
  IORegistryEntryGetPath service _ w :=
    (match assoc iomac_paths service with Some p => (0, p) | None => (1, EmptyString) end, w);
  IORegistryEntryGetParentEntry service _ w :=
    match assoc iomac_parents service with Some p => ((0, p), iw_gain p w) | None => ((1, 0), w) end;
  IOObjectConformsTo service cls w := (bool_decide ((service, cls) ∈ iomac_classes), w);
  IOObjectRetain x w := (tt, iw_gain x w);
  IOIteratorNext it w :=
    match iw_items w !! it with
    | Some (x :: l) => (Zpos x, iw_gain (Zpos x) (iw_with_items it l w))
    | _ => (0, w)
    end;
  IOServiceGetMatchingServices cls w :=
    let it := 500 + Z.of_nat (size (iw_items w)) in
    ((0, it), iw_gain it (iw_with_items it (iomac_matching cls) w))
|}.

Definition iomac_tree : io_registry iomac := {|
  ir_parent _ service := assoc iomac_parents service;
  ir_path _ service := assoc iomac_paths service;
  ir_conforms service cls := bool_decide ((service, cls) ∈ iomac_classes);
  ir_value service prop := option_map (fun ix => ix.2.2) (iomac_find service prop);
  ir_matching cls := map Zpos (iomac_matching cls);
  ir_cf := iomac_cf;
  ir_type_id := iomac_type_id;
  ir_release := "15.0.0";
  ir_refs := iw_refs;
  ir_kernel w := KernelSide (map Zpos <$> iw_items w) (map iomac_message (iw_todo w)) (iw_ports w)
|}.

Lemma iomac_find_elem service prop i x : iomac_find service prop = Some (i, x) ->
  iomac_props !! i = Some x /\ x.1 = (service, prop) /\ (i < 9)%nat.
Proof.
  intros E. apply list_find_Some in E as (E & Hx & _). split; [done|]. split; [done|].
  by apply lookup_lt_Some in E.
Qed.

Lemma iomac_value_elem service prop x : ir_value iomac_tree service prop = Some x ->
  (service, prop, x) ∈ iomac_props.
Proof.
  cbn [ir_value iomac_tree]. destruct (iomac_find service prop) as [[i [k y]]|] eqn:E; [|done]. intros [= <-].
  apply iomac_find_elem in E as (E & Hk & _). cbn in Hk. subst k. by eapply list_elem_of_lookup_2.
Qed.

Lemma iomac_drop_documented x w : x ∈ iw_refs w -> drops_ref iomac_tree x w (iw_drop x w).
Proof. intros Hx. split; [|done]. symmetry. by apply gmultiset_disj_union_difference'. Qed.

Lemma iomac_parent_cases x y : assoc iomac_parents x = Some y ->
  (x = 1 /\ y = 2) \/ (x = 2 /\ y = 3) \/ (x = 3 /\ y = 5) \/ (x = 5 /\ y = 6).
Proof. cbn [assoc iomac_parents]. intros E. repeat (case_match; [rewrite Z.eqb_eq in *; injection E as <-; lia|]). discriminate. Qed.

Lemma iomac_rooted plane service : rooted iomac_tree plane 4 service.
Proof.
  assert (H6 : rooted iomac_tree plane 0 6) by exact I.
  cbn [rooted ir_parent iomac_tree].
  destruct (assoc iomac_parents service) as [p|] eqn:E; [|done].
  by destruct (iomac_parent_cases _ _ E) as [[_ ->]|[[_ ->]|[[_ ->]|[_ ->]]]].
Qed.

Lemma iomac_documented fuel : (4 < fuel)%nat -> registry_documented iomac_tree fuel.
Proof.
  intros Hfuel. split.
  - by intros w b w' [= <- <-].
  - done.
  - intros service prop w d w'. cbn [IORegistryEntryCreateCFProperty iomac_registry ir_value iomac_tree].
    destruct (iomac_find service prop) as [[i [k x]]|] eqn:E; intros [= <- <-]; [|done].
    apply iomac_find_elem in E as (E & _ & Hi). split_and!; [lia| |done]. unfold ir_cf, iomac_tree, iomac_cf.
    replace (Z.to_nat _) with i by lia. by rewrite E.
  - intros d w u w' Hd [= <- <-]. by apply iomac_drop_documented.
  - done.
  - done.
  - done.
  - done.
  - by intros [] [].
  - intros d s n w0 w o w' Hd _. cbn. cbn in Hd. rewrite Hd. by intros [= <- <-].
  - intros d l w Hd. cbn in *. by rewrite Hd.
  - intros d l n w r w' Hd. cbn in *. rewrite Hd. by intros [= <- <-].
  - intros service prop l Hv%iomac_value_elem.
    assert (Hall : Forall (fun x => match x.2 with CFData l => Forall (fun b => 0 <= b < 256) l | _ => True end) iomac_props).
    { repeat constructor; lia. }
    by apply (proj1 (Forall_forall _ _) Hall _ Hv).
  - intros d n type w r w' Hd. cbn in *. rewrite Hd. by intros [= <- <-].
  - intros service n Hv%iomac_value_elem.
    assert (Hall : Forall (fun x => match x.2 with
      | CFNumber n => x.1.2 = "idProduct" -> 0 <= n < 2 ^ 16 | _ => True end) iomac_props).
    { repeat constructor; cbn; try discriminate; lia. }
    by apply (proj1 (Forall_forall _ _) Hall _ Hv).
  - intros service plane w r w'. cbn [IORegistryEntryGetPath iomac_registry ir_path iomac_tree].
    by destruct (assoc iomac_paths service); intros [= <- <-].
  - intros service plane w r w'. cbn [IORegistryEntryGetParentEntry iomac_registry ir_parent iomac_tree].
    destruct (assoc iomac_parents service) as [p|] eqn:E; intros [= <- <-]; [|done]. split; [done|]. split; [|done].
    apply iomac_parent_cases in E. lia.
  - by intros service cls w r w' [= <- <-].
  - by intros x w u w' [= <- <-].
  - intros x w u w' Hd [= <- <-]. by apply iomac_drop_documented.
  - intros it w r w'. cbn [IOIteratorNext iomac_registry ir_kernel ir_refs iomac_tree ks_items]. rewrite lookup_fmap.
    destruct (iw_items w !! it) as [[|x l]|]; cbn [fmap option_fmap option_map list_fmap]; intros [= <- <-]; try done.
    split_and!; [done|done|done|]. unfold ks_set. cbn. by rewrite fmap_insert.
  - intros cls w r w' [= <- <-]. right. cbn [fst snd]. split_and!; [done|lia|done|].
    unfold ks_set. cbn. by rewrite fmap_insert.
  - intros plane service. exists 4%nat. split; [exact Hfuel|]. apply iomac_rooted.
Qed.

Definition iomac_boot : st iomac :=
  St (IoMac {[+ 1 +]} ∅ [] ∅) (common_init false) (Mem (LMem ∅ ∅) (HMem ∅ ∅) ∅ ∅ ∅ ∅).
Definition iomac_controllers : list usb_controller := [UsbController 3 "IOService:/xhci"].

Lemma iomac_controllers_ok : controllers_ok iomac_controllers.
Proof. apply Forall_singleton. cbn. lia. Qed.
Lemma iomac_boot_stack : stack_known iomac_tree iomac_boot.
Proof. split; [by left|done]. Qed.

Lemma process_darwin_device_correct_witness :
  exists r p s', process_darwin_device 10 iomac_controllers 1 iomac_boot = Done ((r, p), s') /\
    same_refs iomac_tree (s_world iomac_boot) (s_world s') /\ stack_known iomac_tree s' /\
    ((r = 1 /\ exists d sts, described iomac_tree iomac_controllers 1 d /\ p <> NULL /\
        ~ in_use (s_mem iomac_boot) p /\ s_mem s' = set_statics sts (with_new_dev p d (s_mem iomac_boot))) \/
     (((r = 0 /\ forall d, ~ described iomac_tree iomac_controllers 1 d) \/ darwin_failure r) /\
        p = NULL /\ same_objects iomac_boot s')).
Proof.
  apply (process_darwin_device_correct iomac_tree 10 iomac_controllers 1 iomac_boot);
    [apply iomac_documented; lia|apply bump_documented|apply iomac_controllers_ok|apply iomac_boot_stack].
Defined.

(** The serial port is found with its node and its location, the device that is
    not on USB is not. *)
Example iomac_modem :
  match process_darwin_device 10 iomac_controllers 1 iomac_boot,
        process_darwin_device 10 iomac_controllers 7 iomac_boot with
  | Done ((r, p), s'), Done (rp', _) =>
      r = 1 /\ rp' = (0, NULL) /\
      (fun d => (dev_key d, dev_location d, dev_path d, dev_vid d, dev_pid d, dev_iface d, dev_product d,
         dev_manufacturer d)) <$> m_devs (s_mem s') !! p =
        Some (Some "abc", Some "usb-3-2-4", Some "/dev/cu.modem", 5824, 1155, 1, Some "modem", None) /\
      iw_refs (s_world s') = {[+ 1 +]}
  | _, _ => False
  end.
Proof. vm_compute. by repeat split. Qed.
