(* ===== verification/MonitorDarwinSpec.v ===== *)
(** What the second half of monitor_darwin.c promises: an enumeration leaves the
    objects of the library, and every reference to an object of the kernel, as
    they were; a refresh handles the messages in order, until one fails. *)

From stdpp Require Import gmultiset.
From S2P Require Import Prelude Cstring Common DList Htable State Posix Platform Location Device Heap Monitor MonitorSpec Discovery Lifetime CoreFoundation UsbDarwin MonitorDarwin UsbDarwinSpec.

(** * Iterators *)

(** [visits E l r rest a a']: an iteration over [l] takes the abstract state [a]
    to [a'] with the result [r], the first one that is not 0, and leaves
    [rest]. One service is [E]: from its result to the states around it. *)
Inductive visits {A} (E : Z -> Z -> A -> A -> Prop) : list Z -> Z -> list Z -> A -> A -> Prop :=
  | visits_end a : visits E [] 0 [] a a
  | visits_stop x l r a a' : E x r a a' -> r <> 0 -> visits E (x :: l) r l a a'
  | visits_next x l r rest a a1 a' :
      E x 0 a a1 -> visits E l r rest a1 a' -> visits E (x :: l) r rest a a'.

Lemma visits_suffix {A} (E : Z -> Z -> A -> A -> Prop) l r rest a a' :
  visits E l r rest a a' -> exists done, l = done ++ rest.
Proof.
  induction 1 as [a|x l r a a' _ _|x l r rest a a1 a' _ _ [done ->]].
  - by exists [].
  - by exists [x].
  - by exists (x :: done).
Qed.

Lemma visits_all {A} (E : Z -> Z -> A -> A -> Prop) l rest a a' : visits E l 0 rest a a' -> rest = [].
Proof. remember 0 as r. induction 1; auto. done. Qed.

(** The two last commands on a device, whatever follows. *)
Lemma wp_shown {S A} (m : M S Z) (u : M S unit) (k : Z -> M S A) (Q : A -> S -> Prop) s :
  wp (let* r := m in u ;;; ret r) (fun r s' => wp (k r) Q s') s ->
  wp (let* r := m in u ;;; k r) Q s.
Proof.
  unfold wp, bind, ret. destruct (m s) as [[r s1]| |]; [|done..]. by destruct (u s1) as [[[] s2]| |].
Qed.

Section Iterators.
Context {W : Type} `{Posix W} `{Allocator W} `{CoreFoundation W} `{IORegistry W}.
Variables (t : io_registry W) (fuel : nat).
Hypothesis Hdoc : registry_documented t fuel.
Hypothesis allocs : allocator_documented.
Implicit Types (s : st W) (v : view).

(** The next service of an iterator, or NULL. *)
Definition next_of (it : Z) v (x : Z) v' : Prop :=
  match ks_items (v_kernel v) !! it with
  | Some (y :: l) => x = y /\ x <> 0 /\
      v' = v_gain x (View (v_mem v) (v_refs v) (ks_set it l (v_kernel v)))
  | _ => x = 0 /\ v' = v
  end.

Lemma does_next v it : does t v (os (IOIteratorNext it)) (next_of it v).
Proof.
  apply does_os. intros w x w' Er Ek E. pose proof (rd_next t fuel Hdoc _ _ _ _ E) as Hn. rewrite Ek in Hn.
  unfold next_of. destruct (ks_items (v_kernel v) !! it) as [[|y l]|].
  1,3: destruct Hn as (-> & F1 & F2); exists v; split_and!; congruence.
  destruct Hn as (-> & Hy & F1 & F2). exists (v_gain y (View (v_mem v) (v_refs v) (ks_set it l (v_kernel v)))).
  split; [done|]. split; [by rewrite F1, Er|]. split; [by rewrite F2|done].
Qed.

Lemma ks_set_set it l l' k : ks_set it l (ks_set it l' k) = ks_set it l k.
Proof. unfold ks_set. cbn. by rewrite insert_insert_eq. Qed.

Lemma ks_set_same it l k : ks_items k !! it = Some l -> ks_set it l k = k.
Proof. intros E. unfold ks_set. rewrite insert_id by done. by destruct k. Qed.

(** Draining an iterator. *)
Lemma does_clear it l : forall gas v, ks_items (v_kernel v) !! it = Some l -> (length l < gas)%nat ->
  does t v (clear_iterator gas it) (fun _ v' => v' = View (v_mem v) (v_refs v) (ks_set it [] (v_kernel v))).
Proof.
  induction l as [|x l IH]; intros [|gas] v Hl Hg; try (cbn in Hg; lia); cbn [clear_iterator];
    (eapply does_bind; [apply does_next|]); unfold next_of; rewrite Hl; intros y v1.
  - intros [-> ->]. change (0 =? 0) with true. apply does_ret. rewrite ks_set_same by done. by destruct v.
  - intros (-> & Hx & ->). rewrite (proj2 (Z.eqb_neq x 0)) by done.
    eapply does_bind; [by apply (does_io_release t fuel Hdoc)|]. intros [] v2 ->.
    eapply does_mono; [apply IH; [cbn; apply lookup_insert_eq|cbn in Hg; lia]|].
    intros _ v3 ->. cbn [v_mem v_refs v_kernel]. by rewrite ks_set_set.
Qed.

(** An iterator is drained and released. *)
Lemma does_drop_iterator it l v : ks_items (v_kernel v) !! it = Some l -> (length l < fuel)%nat ->
  does t (v_gain it v) (drop_iterator fuel it)
    (fun _ v' => v' = View (v_mem v) (v_refs v) (ks_set it [] (v_kernel v))).
Proof.
  intros Hl Hg. unfold drop_iterator. eapply does_bind; [by eapply does_clear|]. intros [] v' ->.
  eapply does_mono; [apply (does_io_release t fuel Hdoc (View (v_mem v) (v_refs v) (ks_set it [] (v_kernel v))))|].
  by intros _ v' ->.
Qed.

(** ** Iterating with a callback *)

Variables (controllers : list usb_controller) (A : Type).
Hypothesis Hc : controllers_ok controllers.
(** The abstract state in the memory of the library, with room for some more
    services, and what a service does to it. *)
Variables (I : nat -> A -> st W -> Prop) (E : Z -> Z -> A -> A -> Prop).
Variable f : ptr -> M (st W) Z.

Record iteration_laws : Prop := {
  il_frame : forall n a s s', I n a s -> same_objects s s' -> I n a s';
  il_drop : forall n a s, I (S n) a s -> I n a s;
  il_none : forall a x, (forall d, ~ described t controllers x d) -> E x 0 a a;
  il_fail : forall a x r, darwin_failure r -> E x r a a;
  il_shown : forall n a x p d v s0 s, I (S n) a s0 -> described t controllers x d ->
    p <> NULL -> hnode_of p <> NULL -> ~ in_use (s_mem s0) p -> ~ in_use (s_mem s0) (hnode_of p) ->
    s_mem s = with_new_dev p d (s_mem s0) -> seen t v s ->
    wp (let* r := f p in hs_device_unref p ;;; ret r) (fun r s' => exists a' v',
      seen t v' s' /\ v_refs v' = v_refs v /\ v_kernel v' = v_kernel v /\ I n a' s' /\ E x r a a') s
}.
Hypothesis laws : iteration_laws.

Definition iterated it l n a v (r : Z) s' : Prop :=
  exists a' v' rest, seen t v' s' /\ v_refs v' = v_refs v /\ v_kernel v' = ks_set it rest (v_kernel v) /\
    I (length rest + n) a' s' /\ visits E l r rest a a'.

(** The view and the memory of a state agree but for the static variables. *)
Lemma seen_objects v v' s s' : seen t v s -> seen t v' s' -> v_mem v' = v_mem v -> same_objects s s'.
Proof. intros [E1 _ _ _] [E2 _ _ _] Em. unfold same_objects. rewrite E2, E1, Em. by repeat split. Qed.

Lemma iterated_next it x l n a a1 v v1 v2 s' r :
  E x 0 a a1 -> v_refs v1 = v_refs v -> v_kernel v1 = v_kernel v2 ->
  v_kernel v2 = ks_set it l (v_kernel v) ->
  iterated it l n a1 v1 r s' -> iterated it (x :: l) n a v r s'.
Proof.
  intros Hx Er Ek Ek2 (a' & v' & rest & Hs & Er' & Ek' & Ha & Hv). exists a', v', rest.
  split; [done|]. split; [congruence|]. split; [by rewrite Ek', Ek, Ek2, ks_set_set|]. split; [done|].
  by eapply visits_next.
Qed.

Lemma wp_iterate it l n : forall gas a v s, I (length l + n) a s -> seen t v s -> ks_items (v_kernel v) !! it = Some l ->
  (length l < gas)%nat ->
  wp (process_iterator_devices fuel gas controllers it f) (iterated it l n a v) s.
Proof.
  induction l as [|x l IH]; intros [|gas] a v s Ha Hs Hl Hg; try (cbn in Hg; lia);
    cbn [process_iterator_devices]; wp_step; (eapply wp_mono; [apply does_next; exact Hs|]);
    intros y s1 (v1 & Hs1 & Hn); unfold next_of in Hn; rewrite Hl in Hn.
  - destruct Hn as [-> ->]. change (0 =? 0) with true. cbv iota. wp_step. exists a, v, [].
    split; [done|]. split; [done|]. split; [by rewrite ks_set_same|]. split; [|constructor].
    eapply (il_frame laws); [exact Ha|]. by apply (seen_objects v v).
  - destruct Hn as (-> & Hx & ->). rewrite (proj2 (Z.eqb_neq x 0)) by done.
    set (vB := View (v_mem v) (v_refs v) (ks_set it l (v_kernel v))) in *.
    assert (Hobj : forall v' s', seen t v' s' -> v_mem v' = v_mem v -> I (length l + n) a s').
    { intros v' s' Hs' Em. apply (il_drop laws). eapply (il_frame laws); [exact Ha|]. by eapply seen_objects. }
    assert (Hgo : forall a1 v' s', I (length l + n) a1 s' -> seen t v' s' -> v_refs v' = v_refs v -> v_kernel v' = v_kernel vB ->
      E x 0 a a1 -> wp (process_iterator_devices fuel gas controllers it f) (iterated it (x :: l) n a v) s').
    { intros a1 v' s' Ha1 Hs' Er Ek Hx'. eapply wp_mono; [eapply (IH gas a1 v'); [done|done| |cbn in Hg; lia]|].
      - rewrite Ek. apply lookup_insert_eq.
      - intros r s3 Hi. by eapply iterated_next. }
    wp_step. eapply wp_mono; [by apply (does_process t fuel Hdoc); [| |exact Hs1]|].
    intros [r p] s2 (v2 & Hs2 & Hp). unfold processed in Hp. cbn [fst snd] in Hp.
    destruct Hp as [(-> & d & Hd & Hp & Hpn & Hu & Hun & ->)|(Hr & -> & ->)].
    + wp_step. eapply wp_mono; [by apply (does_io_release t fuel Hdoc (v_dev p d vB) x)|].
      intros [] s3 (v3 & Hs3 & ->). change (1 <? 0) with false. change (1 =? 0) with false. cbv iota.
      apply wp_shown. set (s0 := St (s_world s3) (s_common s3) (set_statics (m_statics (s_mem s3)) (v_mem v))).
      assert (Hs0 : s_mem s3 = with_new_dev p d (s_mem s0)) by by rewrite (se_mem _ _ _ Hs3).
      eapply wp_mono; [eapply (il_shown laws (length l + n) a x p d _ s0 s3); try done|].
      { eapply (il_frame laws); [exact Ha|]. destruct Hs as [E1 _ _ _]. unfold same_objects. rewrite E1.
        by repeat split. }
      intros r s4 (a' & v4 & Hs4 & Er4 & Ek4 & Ha' & Hx').
      destruct (Z.eqb_spec r 0) as [->|Hr]; cbn [negb]; [by eapply Hgo|]. wp_step.
      exists a', v4, l. split; [done|]. split; [done|]. split; [done|]. split; [done|]. by apply visits_stop.
    + wp_step. eapply wp_mono; [by apply (does_io_release t fuel Hdoc vB x)|]. intros [] s3 (v3 & Hs3 & ->).
      destruct Hr as [[-> Hno]|Hfail].
      * change (0 <? 0) with false. change (0 =? 0) with true. cbv iota. eapply (Hgo a vB); try done.
        -- by eapply Hobj.
        -- by apply (il_none laws).
      * pose proof (darwin_failure_neg _ Hfail) as Hneg. rewrite (proj2 (Z.ltb_lt r 0)) by done. wp_step.
        exists a, vB, l. split; [done|]. split; [done|]. split; [done|]. split; [by eapply Hobj|].
        apply visits_stop; [by apply (il_fail laws)|lia].
Qed.
End Iterators.

(** * Commands of the whole library *)

Section Library.
Context {W : Type} `{Posix W} `{Allocator W} `{CoreFoundation W} `{IORegistry W}.
Variables (t : io_registry W) (fuel : nat).
Hypothesis Hdoc : registry_documented t fuel.
Hypothesis allocs : allocator_documented.
Implicit Types (s : mst W) (v : view).

(** The list of controllers and the monitors are as they were. *)
Definition same_monitors s s' : Prop :=
  ms_controllers s' = ms_controllers s /\ ms_monitors s' = ms_monitors s.

Lemma wp_on_view {A} v (c : M (st W) A) P (Q : A -> mst W -> Prop) s :
  does t v c P -> seen t v (ms_st s) ->
  (forall a s' v', seen t v' (ms_st s') -> same_monitors s s' -> P a v' -> Q a s') ->
  wp (on_st c) Q s.
Proof.
  intros Hd Hs HQ. unfold on_st. apply wp_zoom. eapply wp_mono; [by apply Hd|].
  intros a s1 (v' & Hs' & HP). by eapply (HQ a _ v').
Qed.

Lemma wp_on_rest {A} v (c : M (st W) A) P (Q : A -> mst W -> Prop) s :
  rests t v c P -> seen t v (ms_st s) ->
  (forall a s', seen t v (ms_st s') -> same_monitors s s' -> P a -> Q a s') ->
  wp (on_st c) Q s.
Proof. intros Hd Hs HQ. eapply wp_on_view; [exact Hd|done|]. intros a s' v' Hs' Hm [-> HP]. auto. Qed.

Lemma same_monitors_trans s1 s2 s3 : same_monitors s1 s2 -> same_monitors s2 s3 -> same_monitors s1 s3.
Proof. intros [E1 E2] [E3 E4]. split; congruence. Qed.

(** ** Controllers *)

(** The controllers of the services [l], numbered from [i + 1], on top of
    [acc]; a number is used up for a service without a path. *)
Fixpoint number_controllers (i : Z) (l : list Z) (acc : list usb_controller) : list usb_controller :=
  match l with
  | [] => acc
  | x :: l =>
      number_controllers (i + 1) l
        (match ir_path t (usb_plane t) x with
         | Some p => UsbController (i + 1) p :: acc
         | None => acc
         end)
  end.

(** What the arrays of the code have room for: 255 controllers, and paths of 127
    characters. *)
Definition fits_controllers (l : list Z) : Prop :=
  (length l <= 255)%nat /\
  forall x p, x ∈ l -> ir_path t (usb_plane t) x = Some p -> (String.length p < 128)%nat.

Lemma number_controllers_ok l : forall i acc, 0 <= i -> i + Z.of_nat (length l) <= 255 ->
  controllers_ok acc -> controllers_ok (number_controllers i l acc).
Proof.
  induction l as [|x l IH]; intros i acc Hi Hl Ha; cbn [number_controllers]; [done|]. cbn [length] in Hl.
  apply IH; [lia|lia|]. destruct (ir_path _ _ _); [|done]. apply Forall_cons. split; [cbn; lia|done].
Qed.

Lemma fits_controllers_ok l : fits_controllers l -> controllers_ok (number_controllers 0 l []).
Proof. intros [Hl _]. apply number_controllers_ok; [lia|lia|by constructor]. Qed.

Lemma wp_add_darwin_controller v s x i :
  seen t v (ms_st s) ->
  (forall p, ir_path t (usb_plane t) x = Some p -> (String.length p < 128)%nat) ->
  wp (add_controller x i) (fun r s' => seen t v (ms_st s') /\ ms_monitors s' = ms_monitors s /\
    ((0 <= r /\ ms_controllers s' = match ir_path t (usb_plane t) x with
        | Some p => UsbController i p :: ms_controllers s | None => ms_controllers s end) \/
     (r = HS_ERROR_MEMORY /\ ms_controllers s' = ms_controllers s))) s.
Proof.
  intros Hs Hp. unfold add_controller. wp_step.
  eapply wp_on_rest; [by apply (rests_correct_class t fuel Hdoc)|done|]. intros plane s1 Hs1 M1 ->. fold (usb_plane t).
  wp_step. eapply wp_on_rest; [apply rests_os; intros w o w'; apply (rd_path t fuel Hdoc)|done|].
  intros [k q] s2 Hs2 M2 Hq. pose proof (same_monitors_trans _ _ _ M1 M2) as M. cbn [fst snd] in *.
  destruct (ir_path t (usb_plane t) x) as [p|].
  - injection Hq as -> ->. rewrite Z.eqb_refl. cbn [negb]. specialize (Hp p eq_refl).
    rewrite (proj2 (Z.leb_gt 128 _)) by lia. wp_step.
    eapply wp_on_rest; [by apply (rests_malloc t fuel Hdoc)|done|]. intros [] s3 Hs3 M3 _; cbn [negb].
    + wp_step. destruct (same_monitors_trans _ _ _ M M3) as [E1 E2]. apply wp_intro with (a := tt)
        (s' := Mst (ms_st s3) (UsbController i p :: ms_controllers s3) (ms_monitors s3)); [done|].
      wp_step. split; [done|]. split; [done|]. left. split; [lia|]. cbn. by rewrite E1.
    + eapply wp_on_rest; [by apply rests_memory_error|done|]. intros r s4 Hs4 M4 ->.
      destruct (same_monitors_trans _ _ _ (same_monitors_trans _ _ _ M M3) M4) as [E1 E2].
      split; [done|]. split; [done|]. by right.
  - rewrite (proj2 (Z.eqb_neq _ _)) by done. cbn [negb]. wp_step.
    eapply wp_on_rest; [by apply rests_log|done|]. intros _ s3 Hs3 M3 _. wp_step.
    destruct (same_monitors_trans _ _ _ M M3) as [E1 E2]. split; [done|]. split; [done|]. left. split; [lia|done].
Qed.

(** The controllers found so far. *)
Lemma wp_darwin_controllers it l : forall gas i v s, seen t v (ms_st s) ->
  ks_items (v_kernel v) !! it = Some l -> (length l < gas)%nat -> 0 <= i ->
  i + Z.of_nat (length l) <= 255 ->
  (forall x p, x ∈ l -> ir_path t (usb_plane t) x = Some p -> (String.length p < 128)%nat) ->
  wp (controllers_loop gas it i) (fun r s' => exists rest, (length rest <= length l)%nat /\
    seen t (View (v_mem v) (v_refs v) (ks_set it rest (v_kernel v))) (ms_st s') /\
    ms_monitors s' = ms_monitors s /\
    ((r = 0 /\ ms_controllers s' = number_controllers i l (ms_controllers s)) \/
     (r = HS_ERROR_MEMORY /\ exists done todo, l = done ++ todo /\
        ms_controllers s' = number_controllers i done (ms_controllers s)))) s.
Proof.
  induction l as [|x l IH]; intros [|gas] i v s Hs Hl Hg Hi Hil Hp; try (cbn in Hg; lia);
    cbn [controllers_loop]; wp_step;
    (eapply wp_on_view; [by apply (does_next t fuel Hdoc)|done|]); intros y s1 v1 Hs1 [M1 M2] Hn; unfold next_of in Hn; rewrite Hl in Hn.
  - destruct Hn as [-> ->]. change (0 =? 0) with true. cbv iota. wp_step. exists []. split; [done|].
    split; [rewrite ks_set_same by done; by destruct v|]. split; [done|]. by left.
  - destruct Hn as (-> & Hx & ->). rewrite (proj2 (Z.eqb_neq x 0)) by done. cbn [length] in Hil, Hg.
    change UINT8_MAX with 255. rewrite (proj2 (Z.eqb_neq i 255)) by lia.
    set (vB := View (v_mem v) (v_refs v) (ks_set it l (v_kernel v))) in *.
    assert (Hu : u8 (i + 1) = i + 1) by (unfold u8; rewrite Z.mod_small; lia). rewrite Hu.
    wp_step. eapply wp_mono; [apply wp_add_darwin_controller; [exact Hs1|]|].
    { intros p. apply Hp. by left. }
    intros r s2 (Hs2 & M3 & Hr). wp_step.
    eapply wp_on_view; [apply (does_io_release t fuel Hdoc vB)|exact Hs2|]. intros [] s3 v3 Hs3 [M4 M5] ->.
    destruct Hr as [[Hr E2]|[-> E2]].
    + rewrite (proj2 (Z.ltb_ge r 0)) by done.
      eapply wp_mono; [eapply (IH gas (i + 1) vB s3); [done|cbn; apply lookup_insert_eq|lia|lia|lia|]|].
      { intros z p Hz. apply Hp. by right. }
      intros r2 s4 (rest & Hle & Hs4 & M6 & Hend). exists rest. split; [cbn; lia|].
      split; [cbn in Hs4; by rewrite ks_set_set in Hs4|]. split; [congruence|].
      assert (Ec : ms_controllers s3 = match ir_path t (usb_plane t) x with
        | Some p => UsbController (i + 1) p :: ms_controllers s | None => ms_controllers s end) by by rewrite M4, E2, M1.
      cbn [number_controllers]. destruct Hend as [[-> E4]|(-> & done & todo & -> & E4)].
      * left. by rewrite E4, Ec.
      * right. split; [done|]. exists (x :: done), todo. split; [done|]. cbn [number_controllers]. by rewrite E4, Ec.
    + change (HS_ERROR_MEMORY <? 0) with true. cbv iota. wp_step. exists l. split; [cbn; lia|].
      split; [done|]. split; [congruence|]. right. split; [done|]. exists [], (x :: l). split; [done|].
      cbn. congruence.
Qed.

(** How [populate_controllers] ends. *)
Definition populated (cs : list usb_controller) (r : Z) (cs' : list usb_controller) : Prop :=
  (cs <> [] /\ r = 0 /\ cs' = cs) \/
  (cs = [] /\ r = 0 /\ cs' = number_controllers 0 (ir_matching t (host_class t)) []) \/
  (cs = [] /\ darwin_failure r /\ exists done todo, ir_matching t (host_class t) = done ++ todo /\
     cs' = number_controllers 0 done []).

Lemma populated_ok cs r cs' : controllers_ok cs -> fits_controllers (ir_matching t (host_class t)) ->
  populated cs r cs' -> controllers_ok cs'.
Proof.
  intros Hc [Hl _] [(_ & _ & ->)|[(_ & _ & ->)|(_ & _ & l1 & l2 & E & ->)]].
  - exact Hc.
  - apply number_controllers_ok; [lia|lia|by constructor].
  - rewrite E, length_app in Hl. apply number_controllers_ok; [lia|lia|by constructor].
Qed.

(** Only an iterator changed in the view, and it is empty. *)
Definition iterators_only v v' : Prop :=
  v_mem v' = v_mem v /\ v_refs v' = v_refs v /\
  (v_kernel v' = v_kernel v \/ exists it, v_kernel v' = ks_set it [] (v_kernel v)).

Lemma iterators_only_kept v v' : iterators_only v v' ->
  ks_todo (v_kernel v') = ks_todo (v_kernel v) /\ ks_ports (v_kernel v') = ks_ports (v_kernel v).
Proof. by intros (_ & _ & [->|[it ->]]). Qed.

(** The services of a class are found, or not. *)
Lemma does_matching v cls : does t v (os (IOServiceGetMatchingServices cls)) (fun ki v' =>
  (ki.1 <> kIOReturnSuccess /\ v' = v) \/
  (ki.1 = kIOReturnSuccess /\ ki.2 <> 0 /\
     v' = v_gain ki.2 (View (v_mem v) (v_refs v) (ks_set ki.2 (ir_matching t cls) (v_kernel v))))).
Proof.
  apply does_os. intros w ki w' Er Ek E.
  destruct (rd_matching t fuel Hdoc _ _ _ _ E) as [(Hk & F1 & F2)|(Hk & H0' & F1 & F2)].
  - exists v. split_and!; [done|congruence|congruence|by left].
  - exists (v_gain ki.2 (View (v_mem v) (v_refs v) (ks_set ki.2 (ir_matching t cls) (v_kernel v)))).
    split; [done|]. split; [by rewrite F1, Er|]. split; [by rewrite F2, Ek|by right].
Qed.

Lemma wp_populate v s : seen t v (ms_st s) -> fits_controllers (ir_matching t (host_class t)) ->
  (255 < fuel)%nat ->
  wp (populate_controllers fuel) (fun r s' => exists v', seen t v' (ms_st s') /\ iterators_only v v' /\
    ms_monitors s' = ms_monitors s /\ populated (ms_controllers s) r (ms_controllers s')) s.
Proof.
  intros Hs [Hl Hp] Hf. unfold populate_controllers. wp_step. apply wp_intro with (a := ms_controllers s) (s' := s); [done|].
  destruct (ms_controllers s) as [|c cs] eqn:Ec.
  2:{ wp_step. exists v. split; [done|]. split; [by split_and!; [..|left]|]. split; [done|]. left. by rewrite Ec. }
  wp_step. eapply wp_on_rest; [by apply (rests_correct_class t fuel Hdoc)|done|]. intros cls s1 Hs1 [M1 M1'] ->.
  fold (host_class t). wp_step. eapply wp_on_view; [apply does_matching|done|]. intros [k it] s2 v2 Hs2 [M2 M2'] Hit.
  cbn [fst snd] in *. destruct Hit as [[Hk ->]|(-> & Hit & ->)].
  - rewrite (proj2 (Z.eqb_neq _ _)) by done. cbn [negb].
    eapply wp_on_rest; [by apply rests_error|done|]. intros r s3 Hs3 [M3 M3'] ->. exists v. split; [done|].
    split; [by split_and!; [..|left]|]. split; [congruence|]. right. right. split; [done|]. split; [by right|].
    exists [], (ir_matching t (host_class t)). split; [done|]. cbn. congruence.
  - rewrite Z.eqb_refl. cbn [negb]. wp_step.
    set (v2 := v_gain it _) in *. eapply wp_mono; [eapply (wp_darwin_controllers it _ fuel 0 v2 s2 Hs2)|].
    { cbn. apply lookup_insert_eq. } { lia. } { lia. } { lia. } { exact Hp. }
    intros r s3 (rest & Hle & Hs3 & M3 & Hr). wp_step. rewrite (proj2 (Z.eqb_neq it 0)) by done. cbn [negb].
    eapply wp_on_view; [eapply (does_drop_iterator t fuel Hdoc it rest
      (View (v_mem v) (v_refs v) (ks_set it rest (v_kernel v)))); [cbn; apply lookup_insert_eq|lia]| |].
    { cbn in Hs3. rewrite ks_set_set in Hs3. exact Hs3. }
    intros [] s4 v4 Hs4 [M4 M4'] ->. wp_step. eexists. split; [exact Hs4|].
    split; [by split_and!; [..|right; exists it; cbn; rewrite !ks_set_set]|]. split; [congruence|].
    rewrite M4. right. destruct Hr as [[-> E]|(-> & done & todo & Ed & E)].
    + left. split; [done|]. split; [done|]. rewrite E. by rewrite M2, M1, Ec.
    + right. split; [done|]. split; [by left|]. exists done, todo. split; [done|]. rewrite E. by rewrite M2, M1, Ec.
Qed.

(** ** Enumeration *)

(** A callback that leaves the view, shown a device that was described: it
    returns a result that satisfies [P]. *)
Definition darwin_callback (f : ptr -> M (st W) Z) (P : Z -> Prop) : Prop :=
  forall controllers p d x v (s : st W), described t controllers x d -> m_devs (v_mem v) !! p = Some d ->
    seen t v s -> exists r (s' : st W), f p s = Done (r, s') /\ seen t v s' /\ P r.

(** The result a service can give. *)
Definition enumerates controllers (P : Z -> Prop) (x r : Z) (_ _ : unit) : Prop :=
  r = 0 \/ darwin_failure r \/ (P r /\ exists d, described t controllers x d).

Lemma seen_objects_view v (s : st W) : seen t v s -> seen t (View (s_mem s) (v_refs v) (v_kernel v)) s.
Proof. intros [E1 E2 E3 E4]. split; [by destruct (s_mem s)|done|done|done]. Qed.

Lemma enumeration_laws controllers f P (s0 : st W) : darwin_callback f P ->
  iteration_laws t controllers unit (fun _ _ => same_objects s0) (enumerates controllers P) f.
Proof.
  intros Hf. split.
  - intros n [] y y' E1 E2. by eapply same_objects_trans.
  - done.
  - intros [] x _. by left.
  - intros [] x r Hr. right. by left.
  - intros n [] x p d v s1 s Ha Hd Hp Hpn Hu Hun Hm Hs.
    assert (Hv : seen t (v_dev p d (View (s_mem s1) (v_refs v) (v_kernel v))) s).
    { apply seen_objects_view in Hs. rewrite Hm in Hs. exact Hs. }
    destruct (Hf controllers p d x _ s Hd (lookup_insert_eq _ _ _) Hv) as (r & s2 & E & Hs2 & HP).
    wp_step. eapply wp_intro; [exact E|]. wp_step.
    eapply wp_mono; [apply (does_unref_new t (View (s_mem s1) (v_refs v) (v_kernel v)) p d Hp Hu Hun);
      [by apply (ds_new _ _ _ _ Hd)|exact Hs2]|].
    intros [] s3 (v3 & Hs3 & ->). wp_step. exists tt, (View (s_mem s1) (v_refs v) (v_kernel v)).
    split; [done|]. split; [done|]. split; [done|]. split.
    + eapply same_objects_trans; [exact Ha|]. destruct Hs3 as [E3 _ _ _]. unfold same_objects. rewrite E3. by repeat split.
    + right. right. split; [done|]. by exists d.
Qed.

Lemma visits_enumerates controllers P l r rest a a' : visits (enumerates controllers P) l r rest a a' ->
  enumerate_result P r.
Proof.
  induction 1 as [a|x l r a a' [->|[[->| ->]|[Hr _]]] Hne|]; try done; unfold enumerate_result; auto.
Qed.

(** What an enumeration leaves: the objects, the references, the messages, the
    ports and the monitors. *)
Definition enumerated v (s s' : mst W) : Prop :=
  exists v', seen t v' (ms_st s') /\ v_refs v' = v_refs v /\
    ks_todo (v_kernel v') = ks_todo (v_kernel v) /\ ks_ports (v_kernel v') = ks_ports (v_kernel v) /\
    same_objects (ms_st s) (ms_st s') /\ ms_monitors s' = ms_monitors s.

Lemma enumerated_trans v v1 s s1 s2 : seen t v1 (ms_st s1) -> v_refs v1 = v_refs v ->
  ks_todo (v_kernel v1) = ks_todo (v_kernel v) -> ks_ports (v_kernel v1) = ks_ports (v_kernel v) ->
  same_objects (ms_st s) (ms_st s1) -> ms_monitors s1 = ms_monitors s ->
  enumerated v1 s1 s2 -> enumerated v s s2.
Proof.
  intros Hs1 E1 E2 E3 Ho Em (v2 & Hs2 & E4 & E5 & E6 & Ho2 & Em2). exists v2. split; [done|].
  split_and!; try congruence. by eapply same_objects_trans.
Qed.

Lemma enumerated_intro v v' s s' : seen t v (ms_st s) -> seen t v' (ms_st s') -> v_mem v' = v_mem v ->
  v_refs v' = v_refs v -> ks_todo (v_kernel v') = ks_todo (v_kernel v) ->
  ks_ports (v_kernel v') = ks_ports (v_kernel v) -> ms_monitors s' = ms_monitors s -> enumerated v s s'.
Proof. intros. exists v'. split_and!; try done. by eapply seen_objects. Qed.

Lemma wp_darwin_classes f P l : forall v s, darwin_callback f P -> controllers_ok (ms_controllers s) ->
  (forall cls, (length (ir_matching t cls) < fuel)%nat) -> seen t v (ms_st s) ->
  wp (classes_loop fuel l f) (fun r s' => enumerated v s s' /\ ms_controllers s' = ms_controllers s /\
    enumerate_result P r) s.
Proof.
  induction l as [|[old_stack new_stack] l IH]; intros v s Hf Hc Hl Hs; cbn [classes_loop].
  { wp_step. split; [by eapply enumerated_intro|]. split; [done|by left]. }
  wp_step. eapply wp_on_rest; [by apply (rests_correct_class t fuel Hdoc)|done|]. intros cls s1 Hs1 [M1 M1'] ->.
  set (cls := if new_stack_of t then _ else _).
  wp_step. eapply wp_on_view; [apply does_matching|done|]. intros [k it] s2 v2 Hs2 [M2 M2'] Hit. cbn [fst snd] in *.
  destruct Hit as [[Hk ->]|(-> & Hit & ->)].
  - rewrite (proj2 (Z.eqb_neq _ _)) by done. cbn [negb].
    eapply wp_on_rest; [by apply rests_error|done|]. intros r s3 Hs3 [M3 M3'] ->.
    split; [eapply enumerated_intro; try done; congruence|]. split; [congruence|]. unfold enumerate_result. auto.
  - rewrite Z.eqb_refl. cbn [negb]. wp_step. apply wp_intro with (a := ms_controllers s2) (s' := s2); [done|].
    set (v2 := v_gain it _) in *.
    wp_step. unfold on_st at 1. apply wp_zoom. change (part s2) with (ms_st s2).
    eapply wp_mono; [eapply (wp_iterate t fuel Hdoc allocs (ms_controllers s2) unit) with (a := tt)
      (I := fun _ _ => same_objects (ms_st s2)) (v := v2) (n := 0%nat)|].
    { by rewrite M2, M1. } { by apply enumeration_laws. } { apply same_objects_refl. } { exact Hs2. }
    { cbn. apply lookup_insert_eq. } { apply Hl. }
    intros r x3 ([] & v3 & rest & Hs3 & Er3 & Ek3 & Ho3 & Hv). pose proof (visits_enumerates _ _ _ _ _ _ _ Hv) as Hr.
    set (s3 := with_part x3 s2).
    assert (Hsuf : (length rest <= length (ir_matching t cls))%nat).
    { apply visits_suffix in Hv as [l1 E1]. rewrite E1, length_app. lia. }
    assert (E03 : same_objects (ms_st s) x3).
    { eapply same_objects_trans; [|exact Ho3]. eapply (seen_objects t v v2); done. }
    assert (Ev3 : v3 = v_gain it (View (v_mem v3) (v_refs v) (v_kernel v3))).
    { destruct v3 as [m3 r3 k3]. cbn in *. unfold v_gain. cbn. by rewrite Er3. }
    assert (Hk3 : ks_todo (v_kernel v3) = ks_todo (v_kernel v) /\ ks_ports (v_kernel v3) = ks_ports (v_kernel v))
      by by rewrite Ek3.
    destruct Hk3 as [T3 P3].
    assert (Hpost : forall v4 s4, seen t v4 (ms_st s4) -> same_monitors s3 s4 -> v_mem v4 = v_mem v3 ->
      v_refs v4 = v_refs v -> ks_todo (v_kernel v4) = ks_todo (v_kernel v) ->
      ks_ports (v_kernel v4) = ks_ports (v_kernel v) ->
      same_objects (ms_st s) (ms_st s4) /\ ms_monitors s4 = ms_monitors s /\ ms_controllers s4 = ms_controllers s).
    { intros v4 s4 Hs4 [M4 M4'] E4 _ _ _. split; [|split; cbn in *; congruence].
      eapply same_objects_trans; [exact E03|]. by eapply (seen_objects t v3 v4). }
    destruct (Z.eqb_spec r 0) as [->|Hr0]; cbn [negb].
    + wp_step. eapply wp_on_view; [|rewrite Ev3 in Hs3; exact Hs3|].
      { apply (does_io_release t fuel Hdoc (View (v_mem v3) (v_refs v) (v_kernel v3))). }
      intros [] s4 v4 Hs4 M4 ->. destruct (Hpost _ _ Hs4 M4) as (O4 & E4 & C4); try done.
      eapply wp_mono; [eapply (IH _ s4 Hf); [by rewrite C4|done|exact Hs4]|].
      intros r s5 (He & C5 & Hr5). split; [|split; [congruence|done]]. by eapply enumerated_trans.
    + rewrite (proj2 (Z.eqb_neq it 0)) by done. cbn [negb]. wp_step.
      eapply wp_on_view; [|rewrite Ev3 in Hs3; exact Hs3|].
      { eapply (does_drop_iterator t fuel Hdoc it rest (View (v_mem v3) (v_refs v) (v_kernel v3))).
        - cbn [v_kernel]. rewrite Ek3. apply lookup_insert_eq.
        - specialize (Hl cls). lia. }
      intros [] s4 v4 Hs4 M4 ->. wp_step. destruct (Hpost _ _ Hs4 M4) as (O4 & E4 & C4); try done.
      split; [|by split]. eexists. split; [exact Hs4|]. split_and!; done.
Qed.
End Library.

(** C14: an enumeration on macOS leaves the objects of the library, every
    reference to an object of the kernel, its messages, its ports and the
    monitors as they were, in every case. It returns 0, an error or the first
    result of the callback that is not 0, which it only shows devices that hold
    what the registry says of them. The first enumeration numbers the
    controllers; when memory runs out there, a part of them stays. *)
Theorem darwin_enumerate_balanced {W} `{Posix W} `{Allocator W} `{CoreFoundation W} `{IORegistry W}
    (t : io_registry W) fuel (f : ptr -> M (st W) Z) (P : Z -> Prop) (s : mst W) :
  registry_documented t fuel -> allocator_documented -> darwin_callback t f P ->
  controllers_ok (ms_controllers s) -> stack_known t (ms_st s) ->
  fits_controllers t (ir_matching t (host_class t)) -> (255 < fuel)%nat ->
  (forall cls, (length (ir_matching t cls) < fuel)%nat) ->
  exists r s' r0, hs_enumerate fuel f s = Done (r, s') /\ same_objects (ms_st s) (ms_st s') /\
    ir_refs t (s_world (ms_st s')) = ir_refs t (s_world (ms_st s)) /\
    ks_todo (ir_kernel t (s_world (ms_st s'))) = ks_todo (ir_kernel t (s_world (ms_st s))) /\
    ks_ports (ir_kernel t (s_world (ms_st s'))) = ks_ports (ir_kernel t (s_world (ms_st s))) /\
    ms_monitors s' = ms_monitors s /\ stack_known t (ms_st s') /\
    populated t (ms_controllers s) r0 (ms_controllers s') /\ (r0 < 0 -> r = r0) /\ enumerate_result P r.
Proof.
  intros Hdoc Hal Hf Hc Hst Hfit Hfuel Hl.
  set (x := ms_st s) in *. set (v := View (s_mem x) (ir_refs t (s_world x)) (ir_kernel t (s_world x))).
  assert (Hs : seen t v x) by (split; [by destruct (s_mem x)|done|done|done]).
  assert (Hwp : wp (hs_enumerate fuel f) (fun r s' => enumerated t v s s' /\ exists r0,
    populated t (ms_controllers s) r0 (ms_controllers s') /\ (r0 < 0 -> r = r0) /\ enumerate_result P r) s).
  { unfold hs_enumerate. wp_step. eapply wp_mono; [by apply (wp_populate t fuel Hdoc v)|].
    intros r0 s1 (v1 & Hs1 & Hit & M1 & Hp). destruct (iterators_only_kept _ _ Hit) as [E3 E4], Hit as (E1 & E2 & _). destruct (Z.ltb_spec r0 0) as [Hneg|Hpos].
    - wp_step. split; [by eapply enumerated_intro|]. exists r0. split; [done|]. split; [done|].
      unfold enumerate_result. destruct Hp as [(_ & -> & _)|[(_ & -> & _)|(_ & [->| ->] & _)]]; auto.
    - eapply wp_mono; [apply (wp_darwin_classes t fuel Hdoc Hal f P device_classes v1 s1 Hf); [|done|done]|].
      { by eapply populated_ok. }
      intros r s2 (He & C2 & Hr). split.
      + eapply enumerated_trans; [exact Hs1|done..|by eapply (seen_objects t v v1)|done|exact He].
      + exists r0. rewrite C2. split; [done|]. split; [lia|done]. }
  apply wp_inv in Hwp as (r & s' & E & (v' & [E1 E2 E3 E4] & Er & Et & Ep & Ho & Em) & r0 & Hp & Hneg & Hr).
  exists r, s', r0. split; [done|]. split; [done|]. rewrite E2, E3. split_and!; done.
Qed.

(** * The registry and the services *)

(** The registered devices by key and interface, and the devices. *)
Definition registry : Type := gmap (string * Z) ptr * gmap ptr hs_device.

Section Registry.
Context {W : Type} `{Posix W} `{Allocator W} `{CoreFoundation W} `{IORegistry W}.
Variables (t : io_registry W) (fuel : nat).
Hypothesis Hdoc : registry_documented t fuel.
Hypothesis allocs : allocator_documented.
Variable call : ptr -> ptr -> ptr -> M (st W) Z.
Variable react : ptr -> ptr -> hs_device -> ptr -> W -> Z * W.
Hypothesis call_react : calm call react.
(** The callbacks of the user leave the objects of the kernel alone. *)
Hypothesis react_quiet : forall f dev d udata w, same_refs t w (react f dev d udata w).2.
Variables (m : ptr) (mo : hs_monitor).
(** The memories on top of which the monitor owns its own. *)
Variable O : st W -> Prop.
Implicit Types (s : st W) (v : view) (a : registry).

(** What the arrival of the service [x] does, with the result [r], which for a new
    device is that of the callbacks. *)
Definition attaches controllers (x r : Z) a a' : Prop :=
  (r = 0 /\ a' = a /\ forall d, ~ described t controllers x d) \/
  (darwin_failure r /\ a' = a) \/
  exists d k, described t controllers x d /\ dev_key d = Some k /\
    ((is_Some (a.1 !! (k, dev_iface d)) /\ r = 0 /\ a' = a) \/
     exists p, a.1 !! (k, dev_iface d) = None /\ ~ is_Some (a.2 !! p) /\ r <= 0 /\
       a' = (<[(k, dev_iface d) := p]> a.1, <[p := dev_with_refcount 1 (onlined m d)]> a.2)).

(** The devices of a key are removed. *)
Definition removes (key : string) a a' : Prop :=
  a'.1 = filter (fun e => e.1.1 <> key) a.1 /\
  exists gone, NoDup gone.*1 /\ a'.2 = foldl drop_dev a.2 gone /\
    forall dev d, (dev, d) ∈ gone <-> a.1 !! (key, dev_iface d) = Some dev /\ a.2 !! dev = Some d.

(** What the removal of the service [x] does: that of the devices with the first
    15 characters of its session as key. *)
Definition detaches (x : Z) a a' : Prop :=
  (exists n, long_at t x "sessionID" n /\ removes (session_key (u64 n)) a a') \/
  (a' = a /\ forall n, ~ long_at t x "sessionID" n).

Inductive detaches_all : list Z -> registry -> registry -> Prop :=
  | detaches_nil a : detaches_all [] a a
  | detaches_cons x l a a1 a' : detaches x a a1 -> detaches_all l a1 a' -> detaches_all (x :: l) a a'.

(** The monitor has the registry [a] and fuel for [n] devices more. *)
Definition keeps_registry (n : nat) a s : Prop :=
  exists cbs bs, mon_rep s m mo cbs bs a.1 /\ m_devs (s_mem s) = a.2 /\ room fuel mo cbs a.1 n /\
    forall s0, O s0 -> owns s0 s m mo cbs bs a.1.

Lemma keeps_registry_frame n a s s' : keeps_registry n a s -> same_objects s s' -> keeps_registry n a s'.
Proof.
  intros (cbs & bs & Hrep & Hd & Hr & Ho) Hs. exists cbs, bs. split; [by eapply mon_rep_objects|].
  split; [by destruct Hs as [-> _]|]. split; [done|]. intros s0 Hs0. eapply owns_same; [by apply Ho|done].
Qed.

Lemma room_fewer (cbs : list (ptr * callback)) (D : gmap (string * Z) ptr) n n' : room fuel mo cbs D n -> (n' <= n)%nat -> room fuel mo cbs D n'.
Proof. unfold room. lia. Qed.

Lemma keeps_registry_drop n n' a s : keeps_registry n a s -> (n' <= n)%nat -> keeps_registry n' a s.
Proof. intros (cbs & bs & H1' & H2' & Hr & Ho) Hn. exists cbs, bs. split_and!; try done. by eapply room_fewer. Qed.

Lemma notify_quiet dev d cbs w r kept w' : notify react dev d cbs w = (r, kept, w') -> same_refs t w w'.
Proof.
  revert w r kept w'. induction cbs as [|pc cbs IH]; intros w r kept w'; cbn [notify].
  { by intros [= <- <- <-]. }
  pose proof (react_quiet (cb_f pc.2) dev d (cb_udata pc.2) w) as Hq.
  destruct (react _ _ _ _ w) as [q w1]. cbn in Hq. destruct (q <? 0); [by intros [= <- <- <-]|].
  destruct (notify react dev d cbs w1) as [[r2 kept2] w2] eqn:E. intros [= <- <- <-].
  destruct Hq as [F1 F2], (IH _ _ _ _ E) as [F3 F4]. split; congruence.
Qed.

Lemma notify_gone_quiet gone : forall cbs w cbs' w', notify_gone react gone cbs w = (cbs', w') -> same_refs t w w'.
Proof.
  induction gone as [|[dev d] gone IH]; intros cbs w cbs' w'; cbn [notify_gone]; [by intros [= <- <-]|].
  destruct (notify react dev (offlined d) cbs w) as [[r kept] w1] eqn:E. intros E2.
  destruct (notify_quiet _ _ _ _ _ _ _ E) as [F1 F2], (IH _ _ _ _ E2) as [F3 F4]. split; congruence.
Qed.

(** A state with the static variables and the objects of the kernel of another. *)
Lemma seen_after v s s' : seen t v s -> same_refs t (s_world s) (s_world s') ->
  m_statics (s_mem s') = m_statics (s_mem s) -> seen t (View (s_mem s') (v_refs v) (v_kernel v)) s'.
Proof.
  intros [E1 E2 E3 [E4 E5]] [F1 F2] Es. split; cbn.
  - by destruct (s_mem s').
  - congruence.
  - congruence.
  - split; unfold static in *; by rewrite Es.
Qed.

Lemma described_key controllers x d : described t controllers x d ->
  exists k, dev_key d = Some k.
Proof. intros [_ _ (iface & usb & _ & _ & _ & _ & (n & _ & Hk) & _)]. eauto. Qed.

Lemma in_use_dev (mm : mem) p : ~ in_use mm p -> ~ is_Some (m_devs mm !! p).
Proof. intros Hu Hs. apply Hu. by left. Qed.

Lemma attach_laws controllers : iteration_laws t controllers registry keeps_registry (attaches controllers)
  (monitor_enumerate_callback fuel call m).
Proof.
  split.
  - intros n a s s'. apply keeps_registry_frame.
  - intros n a s Ha. by eapply keeps_registry_drop; [|apply Nat.le_succ_diag_r].
  - intros a x Hno. by left.
  - intros a x r Hr. right. by left.
  - intros n a x p d v s0 s (cbs & bs & Hrep & Hdevs & Hroom & Hown) Hd Hp Hpn Hu Hun Hm Hs.
    destruct (described_key _ _ _ Hd) as [k Hk]. pose proof (proj1 (proj2 (ds_new _ _ _ _ Hd))) as Hcnt.
    assert (Est : m_statics (s_mem s) = m_statics (s_mem s0)) by by rewrite Hm.
    unfold monitor_enumerate_callback.
    eapply (wp_add_new call react call_react fuel _ s0 s m mo cbs bs a.1 p d k); try done.
    { eapply room_enough; [done|]. by eapply room_fewer; [|apply le_0_n]. }
    + intros dev s' HD Em Ew. exists a, (View (s_mem s') (v_refs v) (v_kernel v)).
      split; [eapply seen_after; [exact Hs|by rewrite Ew|congruence]|]. split; [done|]. split; [done|]. split.
      * eapply (keeps_registry_frame n a s0); [|by apply same_objects_mem].
        eapply keeps_registry_drop; [by exists cbs, bs|lia].
      * right. right. exists d, k. split; [done|]. split; [done|]. left. rewrite HD. eauto.
    + intros r kept s' bs' HD En Hrep' Hdevs' Hsub Hre Hns. pose proof (lk_statics _ _ _ (rc_lists _ _ _ _ _ Hre)) as Ests.
      exists (<[(k, dev_iface d) := p]> a.1, <[p := dev_with_refcount 1 (onlined m d)]> a.2),
        (View (s_mem s') (v_refs v) (v_kernel v)).
      split; [eapply seen_after; [exact Hs|by eapply notify_quiet|congruence]|]. split; [done|]. split; [done|]. split.
      * exists kept, bs'. split; [done|]. split; [by rewrite Hdevs', Hdevs|]. unfold room in *. cbn [fst].
        rewrite map_size_insert_None by done. pose proof (sublist_length _ _ Hsub). split; [lia|].
        intros s1 H1'. by eapply (owns_add s1 s0 s s' m mo cbs kept bs bs' a.1 p d (dev_with_refcount 1 (onlined m d))); [apply Hown|..].
      * right. right. exists d, k. split; [done|]. split; [done|]. right. exists p. split; [done|].
        split; [rewrite <- Hdevs; by apply in_use_dev|]. split; [|done].
        pose proof (notify_result react p (onlined m d) cbs (s_world s)) as Hle. by rewrite En in Hle.
Qed.

(** ** Removals *)

Lemma filter_size (P : (string * Z) * ptr -> Prop) `{!forall x, Decision (P x)} (D : gmap (string * Z) ptr) :
  (size (filter P D) <= size D)%nat.
Proof. apply map_size_filter. Qed.

Lemma wp_remove_device v s x n a : seen t v s -> keeps_registry n a s ->
  wp (remove_device fuel call m x) (fun _ s' => exists a' v', seen t v' s' /\ v_refs v' = v_refs v /\
    v_kernel v' = v_kernel v /\ keeps_registry n a' s' /\ detaches x a a') s.
Proof.
  intros Hs Ha. unfold remove_device. wp_step.
  eapply wp_mono; [by apply (rests_get_number t fuel Hdoc)|]. intros bn s1 (v1 & Hs1 & -> & Hbn).
  assert (Ha1 : keeps_registry n a s1) by (eapply keeps_registry_frame; [exact Ha|by eapply (seen_objects t v v)]).
  unfold number_at in Hbn. assert (Hcase : (bn.1 = false /\ forall n, ~ long_at t x "sessionID" n) \/
    exists n, bn = (true, Some n) /\ long_at t x "sessionID" n).
  { unfold long_at, number_at. destruct bn as [b o]. destruct (ir_value t x "sessionID") as [[| |z|]|]; cbn in Hbn |- *.
    3:{ destruct Hbn as (-> & Hf & Ho). destruct (fits kCFNumberSInt64Type z) eqn:Ef.
        - right. exists z. rewrite (Hf eq_refl). done.
        - left. split; [done|]. intros z' [[= <-] Hz]. congruence. }
    all: injection Hbn as -> ->; left; split; [done|]; by intros ? [? _]. }
  destruct Hcase as [[-> Hno]|(z & -> & Hz)]; cbn [fst snd negb default].
  - wp_step. exists a, v. split_and!; try done. right. by split.
  - destruct Ha1 as (cbs & bs & Hrep & Hdevs & Hroom & Hown).
    eapply (wp_monitor_remove call react call_react); [exact Hrep|by eapply room_enough; [|eapply room_fewer; [|apply le_0_n]]|].
    intros s2 bs' cbs' gone Hrep' En Hsub Hnd Hg Hdevs' Hre Hns. pose proof (lk_statics _ _ _ (rc_lists _ _ _ _ _ Hre)) as Ests.
    exists (filter (fun e => e.1.1 <> session_key (u64 z)) a.1, m_devs (s_mem s2)), (View (s_mem s2) (v_refs v) (v_kernel v)).
    split; [eapply seen_after; [exact Hs1|by eapply notify_gone_quiet|done]|]. split; [done|]. split; [done|]. split.
    + exists cbs', bs'. split; [done|]. split; [done|]. unfold room in *. cbn [fst].
      pose proof (filter_size (fun e => e.1.1 <> session_key (u64 z)) a.1). pose proof (sublist_length _ _ Hsub).
      split; [lia|]. intros s3 H3'. eapply owns_remove; [by apply Hown|done..].
    + left. exists z. split; [done|]. split; [done|]. exists gone. rewrite <- Hdevs. by split_and!.
Qed.

Lemma wp_detached_loop it l n : forall gas v s a, seen t v s -> keeps_registry n a s ->
  ks_items (v_kernel v) !! it = Some l -> (length l < gas)%nat ->
  wp (detached_loop fuel call gas m it) (fun _ s' => exists a' v', seen t v' s' /\ v_refs v' = v_refs v /\
    v_kernel v' = ks_set it [] (v_kernel v) /\ keeps_registry n a' s' /\ detaches_all l a a') s.
Proof.
  induction l as [|x l IH]; intros [|gas] v s a Hs Ha Hl Hg; try (cbn in Hg; lia);
    cbn [detached_loop]; wp_step; (eapply wp_mono; [by apply (does_next t fuel Hdoc); exact Hs|]);
    intros y s1 (v1 & Hs1 & Hn); unfold next_of in Hn; rewrite Hl in Hn.
  - destruct Hn as [-> ->]. change (0 =? 0) with true. cbv iota. wp_step. exists a, v. split; [done|]. split; [done|].
    split; [by rewrite ks_set_same|]. split; [|constructor].
    eapply keeps_registry_frame; [exact Ha|by eapply (seen_objects t v v)].
  - destruct Hn as (-> & Hx & ->). rewrite (proj2 (Z.eqb_neq x 0)) by done.
    set (vB := View (v_mem v) (v_refs v) (ks_set it l (v_kernel v))) in *.
    assert (Ha1 : keeps_registry n a s1).
    { eapply keeps_registry_frame; [exact Ha|]. by eapply (seen_objects t v (v_gain x vB)). }
    wp_step. eapply wp_mono; [by eapply (wp_remove_device _ s1)|]. intros [] s2 (a2 & v2 & Hs2 & Er2 & Ek2 & Ha2 & Hd2).
    assert (Ev2 : v2 = v_gain x (View (v_mem v2) (v_refs v) (v_kernel vB))).
    { destruct v2 as [m2 r2 k2]. cbn in *. unfold v_gain. cbn. by rewrite Er2, Ek2. }
    rewrite Ev2 in Hs2. wp_step. eapply wp_mono; [apply (does_io_release t fuel Hdoc); exact Hs2|].
    intros [] s3 (v3 & Hs3 & ->).
    eapply wp_mono; [eapply (IH gas _ s3 a2 Hs3); [|cbn; apply lookup_insert_eq|cbn in Hg; lia]|].
    { eapply keeps_registry_frame; [exact Ha2|]. by eapply (seen_objects t _ _ _ _ Hs2 Hs3). }
    intros [] s4 (a4 & v4 & Hs4 & Er4 & Ek4 & Ha4 & Hd4). exists a4, v4. split; [done|]. split; [by rewrite Er4|].
    split; [by rewrite Ek4; apply ks_set_set|]. split; [done|]. by eapply detaches_cons.
Qed.
End Registry.

(** * Messages *)

Definition callout_iterator (c : callout) : Z := match c with Attached it | Detached it => it end.

(** The services that a message brings to the iterators. *)
Definition ks_deliver (k : kernel_side) (e : callout * list Z) : kernel_side :=
  let it := callout_iterator e.1 in
  ks_set it (default [] (ks_items k !! it) ++ e.2) k.
Definition ks_receive (evs : list (callout * list Z)) (todo : list (list (callout * list Z)))
    (k : kernel_side) : kernel_side :=
  foldl ks_deliver (KernelSide (ks_items k) todo (ks_ports k)) evs.

(** The documentation of a kqueue and of Mach ports, over [ks_todo], the messages
    that will come: finitely many during a call. *)
Record notifications_documented {W} `{IONotification W} (t : io_registry W) : Prop := {
  nd_poll : forall fd w r w', kevent_poll fd w = (r, w') ->
    same_refs t w w' /\ forall filter, r = Ok (Some filter) -> filter = EVFILT_MACHPORT;
  nd_message : forall set w r w', mach_msg set w = (r, w') ->
    match r with
    | inl _ => same_refs t w w'
    | inr msg => ir_refs t w' = ir_refs t w /\ exists evs todo, ks_todo (ir_kernel t w) = evs :: todo /\
        ir_kernel t w' = ks_receive evs todo (ir_kernel t w) /\
        forall w2, callouts_of_message msg w2 = evs.*1
    end
}.

(** The number of services still to come: in the iterators and with messages. *)
Definition items_load (items : gmap Z (list Z)) : nat :=
  map_fold (fun _ (l : list Z) n => length l + n)%nat 0%nat items.
Definition events_load (evs : list (callout * list Z)) : nat := foldr (fun e n => length e.2 + n)%nat 0%nat evs.
Definition load (k : kernel_side) : nat :=
  (items_load (ks_items k) + foldr (fun evs n => events_load evs + n) 0 (ks_todo k))%nat.

Lemma items_load_insert items it l : items !! it = None ->
  items_load (<[it := l]> items) = (length l + items_load items)%nat.
Proof. intros E. unfold items_load. rewrite map_fold_insert_L; [done|intros; lia|done]. Qed.

Lemma items_load_set items it l : 
  (items_load (<[it := l]> items) + length (default [] (items !! it)) = items_load items + length l)%nat.
Proof.
  destruct (items !! it) as [l0|] eqn:E; cbn [default].
  - assert (E0 : items_load items = (length l0 + items_load (delete it items))%nat).
    { rewrite <- (items_load_insert (delete it items) it l0) by apply lookup_delete_eq. by rewrite insert_delete_id. }
    assert (E1 : items_load (<[it := l]> items) = (length l + items_load (delete it items))%nat).
    { rewrite <- (insert_delete_eq items it l). apply items_load_insert, lookup_delete_eq. }
    cbn [id]. lia.
  - rewrite items_load_insert by done. cbn. lia.
Qed.

Lemma load_set k it l : (load (ks_set it l k) + length (default [] (ks_items k !! it)) = load k + length l)%nat.
Proof. unfold load. cbn. pose proof (items_load_set (ks_items k) it l). lia. Qed.

Lemma load_deliver evs : forall k, load (foldl ks_deliver k evs) = (load k + events_load evs)%nat.
Proof.
  induction evs as [|e evs IH]; intros k; cbn [foldl]; [cbn; lia|]. rewrite IH. unfold ks_deliver. cbv zeta.
  change (events_load (e :: evs)) with (length e.2 + events_load evs)%nat.
  pose proof (load_set k (callout_iterator e.1) (default [] (ks_items k !! callout_iterator e.1) ++ e.2)) as E.
  rewrite length_app in E. lia.
Qed.

Lemma load_receive evs todo k : ks_todo k = evs :: todo -> load (ks_receive evs todo k) = load k.
Proof. intros E. unfold ks_receive. rewrite load_deliver. unfold load. cbn. rewrite E. cbn. lia. Qed.

Lemma deliver_todo evs : forall k, ks_todo (foldl ks_deliver k evs) = ks_todo k /\
  ks_ports (foldl ks_deliver k evs) = ks_ports k.
Proof. induction evs as [|e evs IH]; intros k; cbn [foldl]; [done|]. destruct (IH (ks_deliver k e)) as [-> ->]. done. Qed.

Lemma deliver_keeps it evs : forall k, is_Some (ks_items k !! it) -> is_Some (ks_items (foldl ks_deliver k evs) !! it).
Proof.
  induction evs as [|e evs IH]; intros k Hk; cbn [foldl]; [done|]. apply IH. cbn.
  destruct (decide (callout_iterator e.1 = it)) as [->|Hne]; [rewrite lookup_insert_eq; eauto|by rewrite lookup_insert_ne].
Qed.

Lemma deliver_some evs : forall k e, e ∈ evs -> is_Some (ks_items (foldl ks_deliver k evs) !! callout_iterator e.1).
Proof.
  induction evs as [|e0 evs IH]; intros k e; [set_solver|]. cbn [foldl].
  intros [->|He]%elem_of_cons; [|by apply IH]. apply deliver_keeps. cbn. rewrite lookup_insert_eq. eauto.
Qed.

(** * Refreshing *)

(** The registry, and what the process has of the kernel. *)
Definition world_view : Type := registry * kernel_side.

Section Refresh.
Context {W : Type} `{Posix W} `{Allocator W} `{CoreFoundation W} `{IORegistry W} `{IONotification W}.
Variables (t : io_registry W) (fuel : nat).
Hypothesis Hdoc : registry_documented t fuel.
Hypothesis Hnot : notifications_documented t.
Hypothesis allocs : allocator_documented.
Variable call : ptr -> ptr -> ptr -> M (st W) Z.
Variable react : ptr -> ptr -> hs_device -> ptr -> W -> Z * W.
Hypothesis call_react : calm call react.
Hypothesis react_quiet : forall f dev d udata w, same_refs t w (react f dev d udata w).2.
Variables (m : ptr) (mo : hs_monitor) (controllers : list usb_controller).
Hypothesis Hc : controllers_ok controllers.
Variable O : st W -> Prop.
(** The fuel for other things, and the other monitors. *)
Variable extra : nat.
Variable others : gmap ptr darwin_monitor.
Implicit Types (s : mst W) (v : view) (a : world_view).

(** What a call does to the result of the notifications and the rest. *)
Definition calls_out (c : callout) (r : Z) a (r' : Z) a' : Prop :=
  exists l, ks_items a.2 !! callout_iterator c = Some l /\
  match c with
  | Attached it => exists rest, visits (attaches t m controllers) l r' rest a.1 a'.1 /\ a'.2 = ks_set it rest a.2
  | Detached it => r' = r /\ detaches_all t l a.1 a'.1 /\ a'.2 = ks_set it [] a.2
  end.

Inductive dispatches : list callout -> Z -> world_view -> Z -> world_view -> Prop :=
  | dispatches_nil r a : dispatches [] r a r a
  | dispatches_cons c l r a r1 a1 r' a' :
      calls_out c r a r1 a1 -> dispatches l r1 a1 r' a' -> dispatches (c :: l) r a r' a'.

(** [refreshes r a a']: messages are received and dispatched in order, up to the
    first one that leaves a result that is not 0, or until none waits or
    receiving fails. *)
Inductive refreshes : Z -> world_view -> world_view -> Prop :=
  | refreshes_end r a : r = 0 \/ r = HS_ERROR_SYSTEM -> refreshes r a a
  | refreshes_stop evs todo r a a' : ks_todo a.2 = evs :: todo ->
      dispatches evs.*1 0 (a.1, ks_receive evs todo a.2) r a' -> r <> 0 -> refreshes r a a'
  | refreshes_next evs todo r a a1 a' : ks_todo a.2 = evs :: todo ->
      dispatches evs.*1 0 (a.1, ks_receive evs todo a.2) 0 a1 -> refreshes r a1 a' -> refreshes r a a'.

(** The monitor at [m] has the registry of [a], the kernel is as in [a], and
    [r] is the result of the notifications. *)
Record monitors (x : darwin_monitor) (r : Z) a v s : Prop := {
  mn_seen : seen t v (ms_st s);
  mn_kernel : v_kernel v = a.2;
  mn_registry : keeps_registry fuel m mo O (load a.2 + extra) a.1 (ms_st s);
  mn_monitors : ms_monitors s = <[m := dm_with_notify_ret r x]> others;
  mn_controllers : ms_controllers s = controllers
}.

Lemma mn_monitor x r a v s : monitors x r a v s -> ms_monitors s !! m = Some (dm_with_notify_ret r x).
Proof. intros [_ _ _ -> _]. apply lookup_insert_eq. Qed.

Lemma load_iterator k it l : ks_items k !! it = Some l -> (length l <= load k)%nat.
Proof. intros E. pose proof (load_set k it []) as El. rewrite E in El. cbn in El. lia. Qed.

Lemma load_rest k it l rest : ks_items k !! it = Some l -> (load (ks_set it rest k) + length l = load k + length rest)%nat.
Proof. intros E. pose proof (load_set k it rest) as El. by rewrite E in El. Qed.

Lemma fuel_iterator r a v s x it l : monitors x r a v s -> ks_items a.2 !! it = Some l -> (length l < fuel)%nat.
Proof.
  intros [_ _ (cbs & bs & _ & _ & Hr & _) _ _] E. pose proof (load_iterator _ _ _ E). unfold room in Hr. lia.
Qed.

Lemma wp_set_dm f (Q : unit -> mst W -> Prop) s x : ms_monitors s !! m = Some x ->
  Q tt (Mst (ms_st s) (ms_controllers s) (<[m := f x]> (ms_monitors s))) -> wp (set_dm m f) Q s.
Proof. intros E HQ. eapply wp_intro; [|exact HQ]. unfold set_dm. by rewrite E. Qed.

(** A call for devices that arrived. *)
Lemma wp_attached x r a v s it : monitors x r a v s -> is_Some (ks_items a.2 !! it) ->
  wp (darwin_devices_attached fuel call m it) (fun _ s' => exists r' a' v', monitors x r' a' v' s' /\
    v_refs v' = v_refs v /\ calls_out (Attached it) r a r' a') s.
Proof.
  intros Hm [l Hl]. pose proof (fuel_iterator _ _ _ _ _ _ _ Hm Hl) as Hf. destruct Hm as [Hs Hk Hr Hx Hcs].
  unfold darwin_devices_attached. wp_step. apply wp_intro with (a := controllers) (s' := s).
  { unfold load_controllers. by rewrite Hcs. }
  wp_step. unfold on_st. apply wp_zoom. change (part s) with (ms_st s).
  set (n := (load a.2 - length l + extra)%nat). pose proof (load_iterator _ _ _ Hl) as Hle.
  eapply wp_mono; [eapply (wp_iterate t fuel Hdoc allocs controllers registry Hc _ _ _
    (attach_laws t fuel call react call_react react_quiet m mo O controllers) it l n fuel a.1 v)|].
  { replace (length l + n)%nat with (load a.2 + extra)%nat by lia. exact Hr. } { done. } { by rewrite Hk. } { exact Hf. }
  intros r' y (a' & v' & rest & Hs' & Er & Ek & Ha' & Hv).
  eapply wp_set_dm; [cbn; by rewrite Hx, lookup_insert_eq|]. exists r', (a', ks_set it rest a.2), v'. split; [|split; [done|]].
  - split; cbn [ms_st ms_controllers ms_monitors fst snd with_part Has_st_mst]; [done|by rewrite Ek, Hk| | |done].
    + eapply keeps_registry_drop; [exact Ha'|]. pose proof (load_rest _ _ _ rest Hl). lia.
    + by rewrite Hx, insert_insert_eq.
  - exists l. split; [done|]. exists rest. by split.
Qed.

(** A call for devices that are gone. *)
Lemma wp_detached x r a v s it : monitors x r a v s -> is_Some (ks_items a.2 !! it) ->
  wp (darwin_devices_detached fuel call m it) (fun _ s' => exists r' a' v', monitors x r' a' v' s' /\
    v_refs v' = v_refs v /\ calls_out (Detached it) r a r' a') s.
Proof.
  intros Hm [l Hl]. pose proof (fuel_iterator _ _ _ _ _ _ _ Hm Hl) as Hf. destruct Hm as [Hs Hk Hr Hx Hcs].
  unfold darwin_devices_detached, on_st. apply wp_zoom. change (part s) with (ms_st s).
  eapply wp_mono; [eapply (wp_detached_loop t fuel Hdoc call react call_react react_quiet m mo O it l
    (load (ks_set it [] a.2) + extra) fuel v _ a.1)|].
  { done. } { eapply keeps_registry_drop; [exact Hr|]. pose proof (load_rest _ _ _ [] Hl). cbn in *. lia. }
  { by rewrite Hk. } { exact Hf. }
  intros [] y (a' & v' & Hs' & Er & Ek & Ha' & Hd). exists r, (a', ks_set it [] a.2), v'. split; [|split; [done|]].
  - split; cbn [ms_st ms_controllers ms_monitors fst snd]; [done|by rewrite Ek, Hk|done|done|done].
  - exists l. by split_and!.
Qed.

Lemma calls_out_iterators c r a r' a' it : calls_out c r a r' a' -> is_Some (ks_items a.2 !! it) ->
  is_Some (ks_items a'.2 !! it).
Proof.
  intros (l & _ & Hcase) Hi. assert (exists j l', a'.2 = ks_set j l' a.2) as (j & l' & ->).
  { destruct c; [destruct Hcase as (rest & _ & E)|destruct Hcase as (_ & _ & E)]; eauto. }
  cbn. destruct (decide (j = it)) as [->|Hne]; [rewrite lookup_insert_eq; eauto|by rewrite lookup_insert_ne].
Qed.

Lemma wp_dispatch x l : forall r a v s, monitors x r a v s ->
  Forall (fun c => is_Some (ks_items a.2 !! callout_iterator c)) l ->
  wp (dispatch fuel call m l) (fun _ s' => exists r' a' v', monitors x r' a' v' s' /\
    v_refs v' = v_refs v /\ dispatches l r a r' a') s.
Proof.
  induction l as [|c l IH]; intros r a v s Hm Hl; cbn [dispatch].
  { wp_step. exists r, a, v. split; [done|]. split; [done|constructor]. }
  apply Forall_cons in Hl as [Hi Hl].
  assert (Hrest : forall r1 a1 v1 s1, monitors x r1 a1 v1 s1 -> v_refs v1 = v_refs v -> calls_out c r a r1 a1 ->
    wp (dispatch fuel call m l) (fun _ s' => exists r' a' v', monitors x r' a' v' s' /\
      v_refs v' = v_refs v /\ dispatches (c :: l) r a r' a') s1).
  { intros r1 a1 v1 s1 Hm1 Er1 Hc1. eapply wp_mono; [apply (IH r1 a1 v1 s1 Hm1)|].
    - eapply Forall_impl; [exact Hl|]. intros c' Hc'. cbn in *. by eapply calls_out_iterators.
    - intros [] s2 (r2 & a2 & v2 & Hm2 & Er2 & Hd2). exists r2, a2, v2. split; [done|]. split; [congruence|].
      by eapply dispatches_cons. }
  destruct c as [it|it]; wp_step.
  - eapply wp_mono; [by eapply wp_attached|]. intros [] s1 (r1 & a1 & v1 & Hm1 & Er1 & Hc1). by eapply Hrest.
  - eapply wp_mono; [by eapply wp_detached|]. intros [] s1 (r1 & a1 & v1 & Hm1 & Er1 & Hc1). by eapply Hrest.
Qed.

Lemma dispatches_todo l r a r' a' : dispatches l r a r' a' -> ks_todo a'.2 = ks_todo a.2.
Proof.
  induction 1 as [|c l r a r1 a1 r' a' (l' & _ & Hcase) _ IH]; [done|]. rewrite IH.
  destruct c; [destruct Hcase as (rest & _ & E)|destruct Hcase as (_ & _ & E)]; by rewrite E.
Qed.

(** What a refresh leaves: the iterators, the ports, and messages that it has not
    received. *)
Definition kernel_kept (k k' : kernel_side) : Prop :=
  (forall it, is_Some (ks_items k !! it) -> is_Some (ks_items k' !! it)) /\ ks_ports k' = ks_ports k /\
  (length (ks_todo k') <= length (ks_todo k))%nat.

Lemma kernel_kept_trans k1 k2 k3 : kernel_kept k1 k2 -> kernel_kept k2 k3 -> kernel_kept k1 k3.
Proof. intros (A1 & B1 & C1) (A2 & B2 & C2). split; [auto|]. split; [congruence|lia]. Qed.

Lemma dispatches_kept l r a r' a' : dispatches l r a r' a' -> kernel_kept a.2 a'.2.
Proof.
  induction 1 as [|c l r a r1 a1 r' a' Hcall _ IH]; [done|]. eapply kernel_kept_trans; [|exact IH].
  split; [intros it; by eapply calls_out_iterators|].
  destruct Hcall as (l' & _ & Hcase).
  destruct c; [destruct Hcase as (rest & _ & ->)|destruct Hcase as (_ & _ & ->)]; done.
Qed.

Lemma receive_kept evs todo k : ks_todo k = evs :: todo -> kernel_kept k (ks_receive evs todo k).
Proof.
  intros E. unfold ks_receive. destruct (deliver_todo evs (KernelSide (ks_items k) todo (ks_ports k))) as [E1 E2].
  split; [intros it Hi; by apply deliver_keeps|]. split; [done|]. rewrite E1, E. cbn. lia.
Qed.

Lemma refreshes_kept r a a' : refreshes r a a' -> kernel_kept a.2 a'.2.
Proof.
  induction 1 as [| evs todo r a a' E Hd _ | evs todo r a a1 a' E Hd _ IH]; [done|..].
  all: apply dispatches_kept in Hd; pose proof (receive_kept _ _ _ E) as Hr.
  - by eapply kernel_kept_trans.
  - eapply kernel_kept_trans; [exact Hr|]. by eapply kernel_kept_trans.
Qed.

Lemma wp_load_dm (Q : darwin_monitor -> mst W -> Prop) s x : ms_monitors s !! m = Some x -> Q x s ->
  wp (load_dm m) Q s.
Proof. intros E HQ. eapply wp_intro; [|exact HQ]. unfold load_dm. by rewrite E. Qed.

(** A command that leaves the view leaves what is said of the monitor. *)
Lemma monitors_rest r a v s s' x : monitors x r a v s -> seen t v (ms_st s') -> same_monitors s s' ->
  monitors x r a v s'.
Proof.
  intros [G1 G2 G3 G4 G5] Hs [E1 E2]. split; [done|done| |by rewrite E2|by rewrite E1].
  eapply keeps_registry_frame; [exact G3|by eapply (seen_objects t v v)].
Qed.

(** A message is received. *)
Lemma does_message v set : does t v (os (mach_msg set)) (fun msg v' =>
  match msg with
  | inl _ => v' = v
  | inr msg => exists evs todo, ks_todo (v_kernel v) = evs :: todo /\
      v' = View (v_mem v) (v_refs v) (ks_receive evs todo (v_kernel v)) /\
      forall w, callouts_of_message msg w = evs.*1
  end).
Proof.
  apply does_os. intros w msg w' Er Ek E. pose proof (nd_message t Hnot _ _ _ _ E) as Hm. destruct msg as [code|msg].
  - destruct Hm as [F1 F2]. exists v. split_and!; congruence.
  - destruct Hm as (F1 & evs & todo & F2 & F3 & F4). rewrite Ek in F2, F3.
    exists (View (v_mem v) (v_refs v) (ks_receive evs todo (v_kernel v))).
    split; [done|]. split; [by rewrite F1|]. split; [by rewrite F3|]. exists evs, todo. by split_and!.
Qed.

Lemma monitors_received x r a v s s' evs todo : monitors x r a v s -> ks_todo a.2 = evs :: todo ->
  seen t (View (v_mem v) (v_refs v) (ks_receive evs todo (v_kernel v))) (ms_st s') -> same_monitors s s' ->
  monitors x r (a.1, ks_receive evs todo a.2) (View (v_mem v) (v_refs v) (ks_receive evs todo (v_kernel v))) s'.
Proof.
  intros [G1 G2 G3 G4 G5] Et Hs [E1 E2]. split; cbn [fst snd v_kernel]; [done|by rewrite G2| |by rewrite E2|by rewrite E1].
  rewrite load_receive by done. eapply keeps_registry_frame; [exact G3|]. by eapply (seen_objects t v).
Qed.

Lemma wp_messages x : forall gas a v s, monitors x 0 a v s -> (length (ks_todo a.2) < gas)%nat ->
  wp (messages_loop fuel call gas m) (fun r s' => exists a' v', monitors x 0 a' v' s' /\
    v_refs v' = v_refs v /\ refreshes r a a') s.
Proof.
  induction gas as [|gas IH]; intros a v s Hm Hg; [lia|]. cbn [messages_loop].
  pose proof Hm as [Hs Hk _ _ _]. pose proof (mn_monitor _ _ _ _ _ Hm) as Hx. wp_step. eapply wp_load_dm; [exact Hx|].
  wp_step. eapply wp_on_view; [apply does_message|exact Hs|]. intros msg s1 v1 Hs1 M1 Hmsg. destruct msg as [code|msg].
  - subst v1. destruct (code =? MACH_RCV_TIMED_OUT).
    + wp_step. exists a, v. split; [by eapply monitors_rest|]. split; [done|]. constructor. by left.
    + eapply wp_on_rest; [by apply rests_error|exact Hs1|]. intros r s2 Hs2 M2 ->. exists a, v.
      split; [eapply monitors_rest; [exact Hm|done|by eapply same_monitors_trans]|]. split; [done|].
      constructor. by right.
  - destruct Hmsg as (evs & todo & Et & -> & Hev). rewrite Hk in Et.
    pose proof (monitors_received _ _ _ _ _ _ _ _ Hm Et Hs1 M1) as Hm1. set (v1 := View _ _ _) in *.
    set (a1 := (a.1, ks_receive evs todo a.2)) in *.
    wp_step. eapply wp_on_rest; [by apply (rests_ask t _ _ (fun l => l = evs.*1)); auto|exact Hs1|].
    intros l s2 Hs2 M2 ->. wp_step. eapply wp_mono; [eapply (wp_dispatch x _ 0 a1 v1 s2)|].
    { by eapply monitors_rest. }
    { apply Forall_forall. intros c (e & -> & He)%list_elem_of_fmap. by apply deliver_some. }
    intros [] s3 (r3 & a3 & v3 & Hm3 & Er3 & Hd). wp_step. eapply wp_load_dm; [exact (mn_monitor _ _ _ _ _ Hm3)|].
    cbn [dm_notify_ret dm_with_notify_ret]. destruct (Z.eqb_spec r3 0) as [->|Hr3]; cbn [negb].
    + pose proof (dispatches_todo _ _ _ _ _ Hd) as Et3. unfold a1, ks_receive in Et3. cbn [snd] in Et3.
      rewrite (proj1 (deliver_todo evs _)) in Et3. cbn [ks_todo] in Et3.
      eapply wp_mono; [apply (IH a3 v3 s3 Hm3)|].
      { rewrite Et3. rewrite Et in Hg. cbn in Hg. lia. }
      intros r s4 (a4 & v4 & Hm4 & Er4 & Hr4). exists a4, v4. split; [done|]. split; [by rewrite Er4, Er3|].
      by eapply refreshes_next.
    + wp_step. eapply wp_set_dm; [exact (mn_monitor _ _ _ _ _ Hm3)|]. wp_step. exists a3, v3.
      split; [|split; [by rewrite Er3|by eapply refreshes_stop]].
      destruct Hm3 as [G1 G2 G3 G4 G5]. split; try done. cbn. by rewrite G4, insert_insert_eq.
Qed.

Lemma wp_darwin_refresh x a v s : m <> NULL -> monitors x 0 a v s -> (length (ks_todo a.2) < fuel)%nat ->
  wp (hs_monitor_refresh fuel call m) (fun r s' => exists a' v', monitors x 0 a' v' s' /\
    v_refs v' = v_refs v /\ refreshes r a a') s.
Proof.
  intros Hn Hm Hg. unfold hs_monitor_refresh. wp_step. rewrite (proj2 (Z.eqb_neq m NULL)) by done. cbn [negb].
  eapply wp_intro; [done|]. pose proof Hm as [Hs _ _ _ _]. pose proof (mn_monitor _ _ _ _ _ Hm) as Hx. wp_step. eapply wp_load_dm; [exact Hx|].
  wp_step. eapply wp_on_rest; [|exact Hs|].
  { apply (rests_os t v _ (fun r => forall filter, r = Ok (Some filter) -> filter = EVFILT_MACHPORT)).
    intros w r w' E. exact (nd_poll t Hnot _ _ _ _ E). }
  intros ev s1 Hs1 M1 Hev. pose proof (monitors_rest _ _ _ _ _ _ Hm Hs1 M1) as Hm1. destruct ev as [[filter|]|e].
  - rewrite (Hev filter eq_refl), Z.eqb_refl. wp_step. eapply wp_intro; [done|]. by apply wp_messages.
  - wp_step. exists a, v. split; [done|]. split; [done|]. constructor. by left.
  - eapply wp_on_rest; [by apply rests_error|exact Hs1|]. intros r s2 Hs2 M2 ->. exists a, v.
    split; [by eapply monitors_rest|]. split; [done|]. constructor. by right.
Qed.
End Refresh.


(** * A monitor, for the witnesses *)

#[export] Instance iomac_notification : IONotification iomac :=
  let gain p w := IoMac (iw_refs w) (iw_items w) (iw_todo w) ({[+ p +]} ⊎ iw_ports w) in
  let drop p w := IoMac (iw_refs w) (iw_items w) (iw_todo w) (iw_ports w ∖ {[+ p +]}) in {|
  IOServiceAddMatchingNotification _ _ cls w := IOServiceGetMatchingServices cls w;
  IONotificationPortCreate w := (11, gain (NotifyPort 11) w);
  IONotificationPortDestroy p w := (tt, drop (NotifyPort p) w);
  IONotificationPortGetMachPort p _ := p;
  KERN_SUCCESS := 0;
  mach_port_allocate w := (Some 12, gain (PortSet 12) w);
  mach_port_insert_member _ _ w := (0, w);
  mach_port_deallocate p w := (tt, drop (PortSet p) w);
  kqueue w := (Ok 13, gain (Kqueue 13) w);
  kevent_add _ _ w := (Ok tt, w);
  errno_number _ := 5;
  kevent_poll _ w := (Ok (if decide (iw_todo w = []) then None else Some (-8)), w);
  EVFILT_MACHPORT := -8;
  MACH_RCV_TIMED_OUT := 268451843;
  mach_msg _ w :=
    match iw_todo w with
    | [] => (inl 268451843, w)
    | i :: todo => (inr (Z.of_nat i), fold_left (fun w e =>
        let it := callout_iterator e.1 in
        iw_with_items it (default [] (iw_items w !! it) ++ map Z.to_pos e.2) w) (iomac_message i)
        (IoMac (iw_refs w) (iw_items w) todo (iw_ports w)))
    end;
  callouts_of_message msg _ := (iomac_message (Z.to_nat msg)).*1
|}.

Lemma iomac_message_pos i e : e ∈ iomac_message i -> Forall (fun x => 0 < x) e.2.
Proof.
  destruct i as [|[|i]]; cbn; intros He; apply list_elem_of_singleton in He as ->; repeat constructor.
Qed.

Lemma iomac_deliver evs : forall w, (forall e, e ∈ evs -> Forall (fun x => 0 < x) e.2) ->
  let w' := fold_left (fun w e =>
        let it := callout_iterator e.1 in
        iw_with_items it (default [] (iw_items w !! it) ++ map Z.to_pos e.2) w) evs w in
  ir_refs iomac_tree w' = ir_refs iomac_tree w /\
  ir_kernel iomac_tree w' = foldl ks_deliver (ir_kernel iomac_tree w) evs.
Proof.
  induction evs as [|e evs IH]; intros w Hp; [done|]. cbn [fold_left foldl].
  destruct (IH (iw_with_items (callout_iterator e.1)
    (default [] (iw_items w !! callout_iterator e.1) ++ map Z.to_pos e.2) w)) as [E1 E2].
  { intros e' He'. apply Hp. by right. }
  split; [exact E1|]. etrans; [exact E2|]. f_equal. unfold ks_deliver, ks_set. cbn. f_equal.
  rewrite fmap_insert, map_app, lookup_fmap. f_equal. f_equal.
  - by destruct (iw_items w !! callout_iterator e.1).
  - assert (Hpos : Forall (fun x => 0 < x) e.2) by (apply Hp; by left).
    revert Hpos. generalize e.2. clear. induction 1 as [|x l Hx _ IHl]; [done|]. cbn. by rewrite IHl, Z2Pos.id.
Qed.

Lemma iomac_notified : notifications_documented iomac_tree.
Proof.
  split.
  - intros fd w r w' [= <- <-]. split; [done|]. intros filter E. case_decide; by simplify_eq.
  - intros set w r w'. cbn [mach_msg iomac_notification]. destruct (iw_todo w) as [|i todo] eqn:E.
    { by intros [= <- <-]. }
    intros [= <- <-].
    destruct (iomac_deliver (iomac_message i) (IoMac (iw_refs w) (iw_items w) todo (iw_ports w)) (iomac_message_pos i))
      as [E1 E2].
    split; [exact E1|]. exists (iomac_message i), (map iomac_message todo). cbn [ir_kernel iomac_tree ks_todo]. rewrite E.
    split; [done|]. split; [exact E2|]. intros w2. cbn [callouts_of_message iomac_notification]. by rewrite Nat2Z.id.
Qed.

(** A user whose callbacks only return 0. *)
Definition iomac_call (f dev udata : ptr) : M (st iomac) Z := ret 0.
Definition iomac_react (f dev : ptr) (d : hs_device) (udata : ptr) (w : iomac) : Z * iomac := (0, w).

Lemma iomac_calm : calm iomac_call iomac_react.
Proof. intros f dev udata [] d _. reflexivity. Qed.

(** A monitor with two iterators, when the modem has just been plugged in. *)
Definition iomac_world : iomac := IoMac {[+ 500; 501 +]} {[500 := []; 501 := []]} [0%nat] ∅.
Definition iomac_x : darwin_monitor := DarwinMonitor 11 [500; 501] 0 13 12.
Definition iomac_mo : hs_monitor := Monitor 0 (Htable 64 HEADS).
Definition iomac_mon : mst iomac := Mst (booted iomac_world) iomac_controllers {[MON := iomac_x]}.

Lemma iomac_fits : fits_controllers iomac_tree (ir_matching iomac_tree (host_class iomac_tree)).
Proof.
  assert (E : ir_matching iomac_tree (host_class iomac_tree) = [6]) by (vm_compute; reflexivity). rewrite E.
  split; [cbn; lia|]. intros x p ->%list_elem_of_singleton Hp. cbn in Hp. injection Hp as <-. cbn. lia.
Qed.

Lemma iomac_few cls : (length (ir_matching iomac_tree cls) < 300)%nat.
Proof. cbn [ir_matching iomac_tree]. unfold iomac_matching. repeat case_bool_decide; cbn; lia. Qed.

Lemma darwin_enumerate_balanced_witness :
  exists r s' r0, hs_enumerate 300 (fun _ => ret 7) (Mst iomac_boot [] ∅) = Done (r, s') /\
    same_objects iomac_boot (ms_st s') /\
    ir_refs iomac_tree (s_world (ms_st s')) = ir_refs iomac_tree (s_world iomac_boot) /\
    ks_todo (ir_kernel iomac_tree (s_world (ms_st s'))) = ks_todo (ir_kernel iomac_tree (s_world iomac_boot)) /\
    ks_ports (ir_kernel iomac_tree (s_world (ms_st s'))) = ks_ports (ir_kernel iomac_tree (s_world iomac_boot)) /\
    ms_monitors s' = ∅ /\ stack_known iomac_tree (ms_st s') /\
    populated iomac_tree [] r0 (ms_controllers s') /\ (r0 < 0 -> r = r0) /\
    enumerate_result (fun r => r = 7) r.
Proof.
  apply (darwin_enumerate_balanced iomac_tree 300 (fun _ => ret 7) (fun r => r = 7) (Mst iomac_boot [] ∅)).
  - apply iomac_documented. lia.
  - apply bump_documented.
  - intros cs p d x v s _ _ Hs. by exists 7, s.
  - by constructor.
  - apply iomac_boot_stack.
  - apply iomac_fits.
  - lia.
  - apply iomac_few.
Defined.

Lemma iomac_mon_stack : stack_known iomac_tree (ms_st iomac_mon).
Proof. split; [by left|done]. Qed.


(** The modem arrives with a message. *)
Example iomac_session :
  match hs_monitor_refresh 300 iomac_call MON iomac_mon with
  | Done (r, s) =>
      (r, (fun pd => (dev_key pd.2, dev_location pd.2, dev_state pd.2)) <$> map_to_list (m_devs (s_mem (ms_st s)))) =
      (0, [(Some "abc", Some "usb-3-2-4", HS_DEVICE_STATUS_ONLINE)])
  | _ => False
  end.
Proof. vm_compute. reflexivity. Qed.

(** It is removed with the next message. *)
Example iomac_unplugged :
  match hs_monitor_refresh 300 iomac_call MON
    (Mst (booted (IoMac {[+ 500; 501 +]} {[500 := []; 501 := []]} [0%nat; 1%nat] ∅)) iomac_controllers {[MON := iomac_x]}) with
  | Done (r, s) => (r, m_devs (s_mem (ms_st s)), iw_refs (s_world (ms_st s))) = (0, ∅, {[+ 500; 501 +]})
  | _ => False
  end.
Proof. vm_compute. reflexivity. Qed.

(** * The key of a removal *)

Lemma session_key_whole n : 0 <= n < 2 ^ 60 -> session_key n = print_x n.
Proof.
  intros Hn. apply substring_whole, (print_x_length 15); [lia|]. exact Hn.
Qed.

Lemma session_key_cut n : 2 ^ 60 <= n -> session_key n <> print_x n.
Proof.
  intros Hn E. pose proof (print_x_length_ge 15 n Hn) as Hl. pose proof (substring_length (print_x n) 15) as Hs.
  unfold session_key in E. rewrite E in Hs. lia.
Qed.


(** The modem as a device. *)
Definition iomac_device : hs_device :=
  with_texts iomac_tree 3 (dev_with_vtable _hs_posix_device_vtable (dev_with_type HS_DEVICE_TYPE_SERIAL
    (dev_with_path (Some "/dev/cu.modem") (dev_with_location (Some "usb-3-2-4")
    (dev_with_iface 1 (dev_with_pid 1155 (dev_with_vid 5824 (dev_with_key (Some "abc") fresh_device)))))))).

Lemma iomac_usb_path : usb_path iomac_tree 1 3 [4; 2] 6.
Proof.
  change (usb_path iomac_tree 1 3 (port_list iomac_tree 3 ++ port_list iomac_tree 5) 6).
  eapply up_more; [reflexivity|reflexivity|]. apply up_host; reflexivity.
Qed.

Lemma iomac_long_at service key n :
  (number_at iomac_tree service key, fits kCFNumberSInt64Type n) = (Some n, true) -> long_at iomac_tree service key n.
Proof. by intros [= E1 E2]. Qed.

Lemma iomac_described : described iomac_tree iomac_controllers 1 iomac_device.
Proof.
  split; [done|left; split_and!; try reflexivity; by exists "/dev/cu.modem"|].
  exists 2, 3. split; [by apply fc_here|]. split; [done|]. split; [by apply fc_here|]. split; [done|].
  split; [exists 2748; split; [apply iomac_long_at|]; reflexivity|].
  split; [exists 5824; split; [apply iomac_long_at|]; reflexivity|].
  split; [exists 1155; split; [apply iomac_long_at|]; reflexivity|].
  split; [exists 1; split; [apply iomac_long_at|]; reflexivity|].
  do 3 (split; [reflexivity|]). exists "usb-3-2-4". split; [|reflexivity].
  exists 1%nat, [4; 2], 6. split; [apply iomac_usb_path|]. split; [done|]. split; [cbn; lia|].
  by split; vm_compute.
Qed.

(** A registry with the modem. *)
Definition iomac_plugged : registry := ({[("abc", 1) := 64]}, {[64 := iomac_device]}).

Lemma iomac_removes : removes (session_key (u64 2748)) iomac_plugged
  (filter (fun e => e.1.1 <> "abc") iomac_plugged.1, ∅).
Proof.
  split; [reflexivity|]. exists [(64, iomac_device)]. split; [apply NoDup_singleton|]. split; [reflexivity|].
  intros dev d. rewrite list_elem_of_singleton. split.
  - by intros [= -> ->].
  - cbn [snd iomac_plugged]. by intros [_ [<- <-]%lookup_singleton_Some].
Qed.

