(* ===== verification/MonitorDarwinLife.v ===== *)
(** The life of a monitor of macOS: what src/src/monitor_darwin.c takes in
    [hs_monitor_new], memory, iterators and ports of the kernel, and that
    [hs_monitor_free] gives it all back. *)

From stdpp Require Import gmultiset.
From S2P Require Import Prelude Cstring Common DList Htable State Posix Platform Location Device Heap Monitor MonitorSpec Discovery Lifetime CoreFoundation UsbDarwin MonitorDarwin UsbDarwinSpec MonitorDarwinSpec.

(** * Ports *)

Definition ks_with_ports (ports : gmultiset port) (k : kernel_side) : kernel_side :=
  KernelSide (ks_items k) (ks_todo k) ports.
Definition gains_port {W} (t : io_registry W) (p : port) (w w' : W) : Prop :=
  ir_refs t w' = ir_refs t w /\
  ir_kernel t w' = ks_with_ports ({[+ p +]} ⊎ ks_ports (ir_kernel t w)) (ir_kernel t w).
Definition drops_port {W} (t : io_registry W) (p : port) (w w' : W) : Prop :=
  ir_refs t w' = ir_refs t w /\
  ir_kernel t w' = ks_with_ports (ks_ports (ir_kernel t w) ∖ {[+ p +]}) (ir_kernel t w).

(** The documentation of what a monitor is made of. A notification comes with an
    iterator: on the first matches the services that are there, on terminations at
    most [n]. A port that is held can be given back. *)
Record ports_documented {W} `{Posix W} `{CoreFoundation W} `{IONotification W} (t : io_registry W)
    (n : nat) : Prop := {
  pd_notify : forall port type cls w r w', IOServiceAddMatchingNotification port type cls w = (r, w') ->
    (r.1 <> kIOReturnSuccess /\ same_refs t w w') \/
    (r.1 = kIOReturnSuccess /\ ir_refs t w' = {[+ r.2 +]} ⊎ ir_refs t w /\
       exists l, ir_kernel t w' = ks_set r.2 l (ir_kernel t w) /\
         match type with
         | kIOFirstMatchNotification => l = ir_matching t cls
         | kIOTerminatedNotification => (length l <= n)%nat
         end);
  pd_create : forall w p w', IONotificationPortCreate w = (p, w') ->
    if p =? 0 then same_refs t w w' else gains_port t (NotifyPort p) w w';
  pd_destroy : forall p w u w', NotifyPort p ∈ ks_ports (ir_kernel t w) ->
    IONotificationPortDestroy p w = (u, w') -> drops_port t (NotifyPort p) w w';
  pd_allocate : forall w r w', mach_port_allocate w = (r, w') ->
    match r with
    | None => same_refs t w w'
    | Some set => set <> 0 /\ gains_port t (PortSet set) w w'
    end;
  pd_deallocate : forall set w u w', PortSet set ∈ ks_ports (ir_kernel t w) ->
    mach_port_deallocate set w = (u, w') -> drops_port t (PortSet set) w w';
  pd_kqueue : forall w r w', kqueue w = (r, w') ->
    match r with
    | Err _ => same_refs t w w'
    | Ok fd => 0 <= fd /\ gains_port t (Kqueue fd) w w'
    end;
  pd_close : forall fd w u w', fd <> -1 -> Kqueue fd ∈ ks_ports (ir_kernel t w) ->
    close fd w = (u, w') -> drops_port t (Kqueue fd) w w';
  pd_close_none : forall w u w', close (-1) w = (u, w') -> same_refs t w w';
  pd_insert : forall port set w r w', mach_port_insert_member port set w = (r, w') -> same_refs t w w';
  pd_kevent : forall fd set w r w', kevent_add fd set w = (r, w') -> same_refs t w w'
}.

(** The ports a monitor holds. *)
Definition unless (b : bool) (p : port) : gmultiset port := if b then ∅ else {[+ p +]}.
Definition ports_of (x : darwin_monitor) : gmultiset port :=
  unless (dm_kqfd x =? -1) (Kqueue (dm_kqfd x)) ⊎
  (unless (dm_port_set x =? 0) (PortSet (dm_port_set x)) ⊎
   unless (dm_notify_port x =? 0) (NotifyPort (dm_notify_port x))).

Lemma drop_port_eq (p : port) (ports : gmultiset port) : ({[+ p +]} ⊎ ports) ∖ {[+ p +]} = ports.
Proof. multiset_solver. Qed.

Lemma ports_shift (a b c : gmultiset port) : a ⊎ (b ⊎ c) = b ⊎ (a ⊎ (∅ ⊎ c)).
Proof. multiset_solver. Qed.

Lemma ports_first (b : gmultiset port) : unless (-1 =? -1) (Kqueue (-1)) ⊎ (unless (0 =? 0) (PortSet 0) ⊎ b) =
  b ⊎ (unless (-1 =? -1) (Kqueue (-1)) ⊎ (unless (0 =? 0) (PortSet 0) ⊎ unless (0 =? 0) (NotifyPort 0))).
Proof. rewrite !Z.eqb_refl. unfold unless. multiset_solver. Qed.

Lemma ports_second (b c : gmultiset port) : b ⊎ (unless (0 =? 0) (PortSet 0) ⊎ c) =
  b ⊎ (unless (-1 =? -1) (Kqueue (-1)) ⊎ (unless (0 =? 0) (PortSet 0) ⊎ c)).
Proof. rewrite !Z.eqb_refl. unfold unless. multiset_solver. Qed.

Lemma iterators_snoc (a c : gmultiset Z) it : {[+ it +]} ⊎ (a ⊎ c) = a ⊎ ({[+ it +]} ⊎ ∅) ⊎ c.
Proof. multiset_solver. Qed.

Section Views.
Context {W : Type} `{Posix W} `{Allocator W} `{CoreFoundation W} `{IORegistry W} `{IONotification W}.
Variables (t : io_registry W) (n : nat).
Hypothesis Hports : ports_documented t n.
Implicit Types (v : view).

Definition v_ports (ports : gmultiset port) v : view := View (v_mem v) (v_refs v) (ks_with_ports ports (v_kernel v)).

(** A call that gives a port, or none. *)
Lemma does_gain_port {A} v (c : sysc W A) (P : A -> Prop) (f : A -> option port) :
  (forall w a w', c w = (a, w') -> P a /\
     match f a with Some p => gains_port t p w w' | None => same_refs t w w' end) ->
  does t v (os c) (fun a v' => P a /\
    v' = match f a with Some p => v_ports ({[+ p +]} ⊎ ks_ports (v_kernel v)) v | None => v end).
Proof.
  intros Hc. apply does_os. intros w a w' Er Ek E. destruct (Hc _ _ _ E) as [HP Hf].
  destruct (f a) as [p|]; destruct Hf as [F1 F2]; eexists;
    (split; [|split; [|split; [|split; [exact HP|reflexivity]]]]); cbn; try congruence.
  by rewrite F2, Ek.
Qed.

Lemma does_drop_port {A} v (c : sysc W A) p ports :
  (forall w u w', p ∈ ks_ports (ir_kernel t w) -> c w = (u, w') -> drops_port t p w w') ->
  ks_ports (v_kernel v) = {[+ p +]} ⊎ ports -> does t v (os c) (fun _ v' => v' = v_ports ports v).
Proof.
  intros Hc Ep. apply does_os. intros w u w' Er Ek E.
  destruct (Hc w u w') as [F1 F2]; [rewrite Ek, Ep; multiset_solver|done|].
  exists (v_ports ports v). split; [done|]. split; [cbn; congruence|]. split; [|done].
  by rewrite F2, Ek, Ep, drop_port_eq.
Qed.

(** What is held is given back. *)
Lemma does_close v x ports : ks_ports (v_kernel v) = unless (dm_kqfd x =? -1) (Kqueue (dm_kqfd x)) ⊎ ports ->
  does t v (os (close (dm_kqfd x))) (fun _ v' => v' = v_ports ports v).
Proof.
  destruct (Z.eqb_spec (dm_kqfd x) (-1)) as [->|Hne]; intros Ep.
  - assert (v_ports ports v = v) as Ev.
    { unfold unless in Ep. rewrite (left_id_L ∅ (⊎)) in Ep. subst ports. unfold v_ports. by destruct v as [? ? []]. }
    rewrite Ev. eapply does_mono; [apply (rests_os t v _ (fun _ => True))|by intros u v' [-> _]].
    intros w u w' E. split; [by eapply (pd_close_none t n Hports)|done].
  - apply (does_drop_port v _ (Kqueue (dm_kqfd x))); [intros w u w'; by apply (pd_close t n Hports)|done].
Qed.

Lemma does_give_back v (b : bool) (c : sysc W unit) p ports :
  (forall w u w', p ∈ ks_ports (ir_kernel t w) -> c w = (u, w') -> drops_port t p w w') ->
  ks_ports (v_kernel v) = unless b p ⊎ ports ->
  does t v (if negb b then os c else ret tt) (fun _ v' => v' = v_ports ports v).
Proof.
  intros Hc Ep. destruct b; cbn [negb unless] in *.
  - apply does_ret. rewrite (left_id_L ∅ (⊎)) in Ep. subst ports. unfold v_ports. by destruct v as [? ? []].
  - by eapply does_drop_port.
Qed.

Variable fuel : nat.
Hypothesis Hdoc : registry_documented t fuel.

(** Iterators are drained and released. *)
Lemma does_drop_iterators l : forall v refs, v_refs v = list_to_set_disj l ⊎ refs ->
  Forall (fun it => is_Some (ks_items (v_kernel v) !! it)) l -> (load (v_kernel v) < fuel)%nat ->
  does t v (drop_iterators fuel l) (fun _ v' => v_mem v' = v_mem v /\ v_refs v' = refs /\
    ks_ports (v_kernel v') = ks_ports (v_kernel v)).
Proof.
  induction l as [|it l IH]; intros v refs Er Hi Hl; cbn [drop_iterators].
  { apply does_ret. split_and!; [done| |done]. by rewrite Er, list_to_set_disj_nil, (left_id_L ∅ (⊎)). }
  apply Forall_cons in Hi as [[xs Hx] Hi]. rewrite list_to_set_disj_cons in Er.
  set (v1 := View (v_mem v) (list_to_set_disj l ⊎ refs) (v_kernel v)).
  assert (v = v_gain it v1) as Ev.
  { unfold v1, v_gain. destruct v as [m r k]. cbn [v_mem v_refs v_kernel] in *. f_equal. by rewrite Er, (assoc_L (⊎)). }
  pose proof (load_iterator _ _ _ Hx) as Hle. pose proof (load_rest _ _ _ [] Hx) as Hrest.
  eapply does_bind; [rewrite Ev; apply (does_drop_iterator t fuel Hdoc it xs v1); [exact Hx|lia]|].
  intros [] v2 ->. eapply does_mono; [eapply (IH _ refs)|].
  - done.
  - eapply Forall_impl; [exact Hi|]. intros j Hj. cbn. destruct (decide (it = j)) as [->|Hne];
      [rewrite lookup_insert_eq; eauto|by rewrite lookup_insert_ne].
  - cbn in *. lia.
  - by intros [] v3 (E1 & E2 & E3).
Qed.
End Views.

(** * Freeing *)

Section Life.
Context {W : Type} `{Posix W} `{Allocator W} `{CoreFoundation W} `{IORegistry W} `{IONotification W}.
Variables (t : io_registry W) (fuel n : nat).
Hypothesis Hdoc : registry_documented t fuel.
Hypothesis Hports : ports_documented t n.
Hypothesis allocs : allocator_documented.
(** The state before the monitor. *)
Variable s0 : mst W.
Implicit Types (v : view) (x : darwin_monitor) (s : mst W) (m : ptr).

(** Nothing is left but what there was in [s0]. *)
Record gone s : Prop := {
  go_objects : same_objects (ms_st s0) (ms_st s);
  go_monitors : ms_monitors s = ms_monitors s0;
  go_refs : ir_refs t (s_world (ms_st s)) = ir_refs t (s_world (ms_st s0));
  go_ports : ks_ports (ir_kernel t (s_world (ms_st s))) = ks_ports (ir_kernel t (s_world (ms_st s0)));
  go_stack : stack_known t (ms_st s)
}.

(** On top of that, [x] at [m] has its iterators and its ports, and there is fuel
    for [k] services more than those that will come. *)
Record holds (controllers : list usb_controller) (k : nat) m x v s : Prop := {
  ho_seen : seen t v (ms_st s);
  ho_new : ms_monitors s0 !! m = None;
  ho_mon : ms_monitors s = <[m := x]> (ms_monitors s0);
  ho_refs : v_refs v = list_to_set_disj (dm_iterators x) ⊎ ir_refs t (s_world (ms_st s0));
  ho_ports : ks_ports (v_kernel v) = ports_of x ⊎ ks_ports (ir_kernel t (s_world (ms_st s0)));
  ho_items : Forall (fun it => is_Some (ks_items (v_kernel v) !! it)) (dm_iterators x);
  ho_load : (load (v_kernel v) + k < fuel)%nat;
  ho_todo : (length (ks_todo (v_kernel v)) < fuel)%nat;
  ho_controllers : ms_controllers s = controllers
}.

Lemma holds_found cs k m x v s : holds cs k m x v s -> ms_monitors s !! m = Some x.
Proof. intros [_ _ -> _ _ _ _ _ _]. apply lookup_insert_eq. Qed.

Lemma holds_fewer cs k k' m x v s : holds cs k m x v s -> (k' <= k)%nat -> holds cs k' m x v s.
Proof. intros [] Hk. split; try done. lia. Qed.

(** A command of the library, and one that leaves the view. *)
Lemma holds_memory cs k m x v v' s s' : holds cs k m x v s -> seen t v' (ms_st s') -> same_monitors s s' ->
  v_refs v' = v_refs v -> v_kernel v' = v_kernel v -> holds cs k m x v' s'.
Proof. intros [_ G2 G3 G4 G5 G6 G7 Gt G8] Hs [E1 E2] Er Ek. split; rewrite ?Er, ?Ek; try done; congruence. Qed.

Lemma holds_rest cs k m x v s s' : holds cs k m x v s -> seen t v (ms_st s') -> same_monitors s s' -> holds cs k m x v s'.
Proof. intros Hh Hs M. by eapply holds_memory. Qed.

(** What is left in an iterator changes. *)
Lemma holds_items cs k m x v v' s s' it l rest : holds cs k m x v s -> ks_items (v_kernel v) !! it = Some l ->
  (length rest <= length l)%nat -> seen t v' (ms_st s') -> same_monitors s s' -> v_refs v' = v_refs v ->
  v_kernel v' = ks_set it rest (v_kernel v) -> holds cs k m x v' s'.
Proof.
  intros [_ G2 G3 G4 G5 G6 G7 Gt G8] Hl Hlen Hs [E1 E2] Er Ek. pose proof (load_rest _ _ _ rest Hl) as El.
  split; rewrite ?Er, ?Ek; try done; [congruence| |lia|congruence].
  eapply Forall_impl; [exact G6|]. intros j Hj. cbn. destruct (decide (it = j)) as [->|Hne];
    [rewrite lookup_insert_eq; eauto|by rewrite lookup_insert_ne].
Qed.

(** A port is stored. *)
Lemma holds_port cs k m x x' p v s s' : holds cs k m x v s -> dm_iterators x' = dm_iterators x ->
  ports_of x' = {[+ p +]} ⊎ ports_of x -> seen t (v_ports ({[+ p +]} ⊎ ks_ports (v_kernel v)) v) (ms_st s') ->
  ms_controllers s' = ms_controllers s -> ms_monitors s' = <[m := x']> (ms_monitors s) ->
  holds cs k m x' (v_ports ({[+ p +]} ⊎ ks_ports (v_kernel v)) v) s'.
Proof.
  intros [_ G2 G3 G4 G5 G6 G7 Gt G8] Ei Ep Hs E1 E2. split; try done.
  - by rewrite E2, G3, insert_insert_eq.
  - by rewrite Ei.
  - cbn [v_kernel v_ports ks_ports ks_with_ports]. by rewrite Ep, G5, (assoc_L (⊎)).
  - by rewrite Ei.
  - congruence.
Qed.

Lemma spent_same y m (s s' : st W) : spent y m s -> same_objects s s' -> spent y m s'.
Proof.
  intros [G1 G2 G3 G4 G5 G6] (E1 & E2 & E3 & E4 & E5).
  split; unfold new_cells in *; rewrite ?E1, ?E2, ?E3, ?E4, ?E5; done.
Qed.

Lemma wp_give_back v (b : bool) (c : sysc W unit) p ports (Q : unit -> mst W -> Prop) s :
  (forall w u w', p ∈ ks_ports (ir_kernel t w) -> c w = (u, w') -> drops_port t p w w') ->
  ks_ports (v_kernel v) = unless b p ⊎ ports -> seen t v (ms_st s) ->
  (forall s', seen t (v_ports ports v) (ms_st s') -> same_monitors s s' -> Q tt s') ->
  wp (if negb b then on_st (os c) else ret tt) Q s.
Proof.
  intros Hc Ep Hs HQ.
  assert (wp (on_st (if negb b then os c else ret tt)) Q s) as Hwp.
  { eapply wp_on_view; [by eapply (does_give_back t)|exact Hs|]. intros [] s' v' Hs' M' ->. by apply HQ. }
  destruct b; [|exact Hwp]. cbn [negb] in *. unfold on_st in Hwp. by destruct s.
Qed.

Lemma wp_darwin_free cs k m x v s : m <> NULL -> holds cs k m x v s ->
  wp (_hs_monitor_release fuel m) (fun _ y => spent (ms_st s0) m y /\ s_world y = s_world (ms_st s) /\
    m_statics (s_mem y) = m_statics (s_mem (ms_st s))) (ms_st s) ->
  wp (hs_monitor_free fuel m) (fun _ s' => gone s' /\ ms_controllers s' = cs) s.
Proof.
  intros Hm [Hs Hnew Hx Er Ep Hi Hl _ Hcs] Hrel. unfold hs_monitor_free. rewrite (proj2 (Z.eqb_neq m NULL)) by done.
  wp_step. unfold on_st at 1. apply wp_zoom. eapply wp_mono; [exact Hrel|]. intros [] y (Hsp & Ew & Est).
  set (s1 := with_part y s). set (v1 := View (s_mem y) (v_refs v) (v_kernel v)).
  assert (seen t v1 (ms_st s1)) as Hs1.
  { apply (seen_after t v (ms_st s) y Hs); [|done]. by rewrite Ew. }
  wp_step. eapply wp_load_dm; [cbn; by rewrite Hx, lookup_insert_eq|].
  unfold ports_of in Ep. rewrite <- !(assoc_L (⊎)) in Ep.
  set (P0 := ks_ports (ir_kernel t (s_world (ms_st s0)))) in *.
  set (P1 := unless (dm_notify_port x =? 0) _ ⊎ P0) in *. set (P2 := unless (dm_port_set x =? 0) _ ⊎ P1) in *.
  wp_step. eapply wp_on_view; [eapply (does_close t n Hports v1 x); exact Ep|exact Hs1|].
  intros [] s2 v2 Hs2 [M2 M2'] ->. wp_step.
  apply (wp_give_back (v_ports P2 v1) _ _ (PortSet (dm_port_set x)) P1);
    [intros w u w'; apply (pd_deallocate t n Hports)|reflexivity|exact Hs2|].
  intros s3 Hs3 [M3 M3']. wp_step.
  eapply wp_on_view; [eapply (does_drop_iterators t fuel Hdoc _ (v_ports P1 (v_ports P2 v1)));
    [exact Er|exact Hi|change (load (v_kernel v) < fuel)%nat; lia]|exact Hs3|].
  intros [] s4 v4 Hs4 [M4 M4'] (E4 & F4 & G4). wp_step.
  apply (wp_give_back v4 _ _ (NotifyPort (dm_notify_port x)) P0);
    [intros w u w'; apply (pd_destroy t n Hports)|by rewrite G4|exact Hs4|].
  intros s5 Hs5 [M5 M5']. unfold free_monitor.
  assert (ms_monitors s5 = <[m := x]> (ms_monitors s0)) as Em by (rewrite M5', M4', M3', M2'; exact Hx).
  wp_step. eapply wp_load_dm; [by rewrite Em, lookup_insert_eq|]. wp_step. eapply wp_intro; [reflexivity|].
  unfold on_st. apply wp_zoom. cbn [part Has_st_mst ms_st].
  eapply (wp_free_spent _ (ms_st s0)).
  { eapply spent_same; [exact Hsp|]. by apply (seen_objects t v1 _ y (ms_st s5) Hs1 Hs5). }
  intros z Hz Ez Estz. destruct Hs5 as [_ R5 K5 K6]. split; [split; cbn|].
  - exact Hz.
  - rewrite Em. by apply delete_insert_id.
  - by rewrite Ez, R5.
  - by rewrite Ez, K5.
  - destruct K6 as [K6 K7]. by split; unfold static in *; rewrite Estz.
  - cbn. rewrite M5, M4, M3, M2. exact Hcs.
Qed.
End Life.

(** * Making *)

Section Making.
Context {W : Type} `{Posix W} `{Allocator W} `{CoreFoundation W} `{IORegistry W} `{IONotification W}.
Variables (t : io_registry W) (fuel n : nat).
Hypothesis Hdoc : registry_documented t fuel.
Hypothesis Hports : ports_documented t n.
Hypothesis allocs : allocator_documented.
Variable call : ptr -> ptr -> ptr -> M (st W) Z.
Variable react : ptr -> ptr -> hs_device -> ptr -> W -> Z * W.
Hypothesis call_react : calm call react.
Hypothesis react_quiet : forall f dev d udata w, same_refs t w (react f dev d udata w).2.
Variable s0 : mst W.
Variable cs : list usb_controller.
Hypothesis Hcs : controllers_ok cs.
Variable m : ptr.
Hypothesis m_null : m <> NULL.
Implicit Types (v : view) (x : darwin_monitor) (s : mst W).

Definition ended (rm : Z * ptr) s : Prop :=
  rm.1 < 0 /\ rm.2 = NULL /\ gone t s0 s /\ ms_controllers s = cs.

(** ** Before there is a registry *)

Definition raised (k : nat) x v s : Prop := holds t fuel s0 cs k m x v s /\ idle (ms_st s0) m (ms_st s).

Lemma raised_rest k x v s s' : raised k x v s -> seen t v (ms_st s') -> same_monitors s s' -> raised k x v s'.
Proof.
  intros [G1 G2] Hs M. split; [by eapply holds_rest|]. eapply idle_same; [exact G2|].
  eapply (seen_objects t v v); [apply G1|done|done].
Qed.

Lemma wp_raised_error k x v s (r : Z) : raised k x v s -> r < 0 -> wp (monitor_error fuel r m) ended s.
Proof.
  intros [G1 G2] Hr. unfold monitor_error. wp_step.
  eapply wp_mono; [eapply (wp_darwin_free t fuel n Hdoc Hports); [done|exact G1|]|].
  { apply wp_release_idle; [done|]. pose proof (ho_load _ _ _ _ _ _ _ _ _ G1). lia. }
  intros [] s' [Hg Hc]. wp_step. by split_and!.
Qed.

Lemma wp_raised_system k x v s msg : raised k x v s ->
  wp (let* r := on_st (error HS_ERROR_SYSTEM msg) in monitor_error fuel r m) ended s.
Proof.
  intros Hr. wp_step. eapply wp_on_rest; [apply rests_error|apply Hr|]. intros r s' Hs' M' ->.
  by eapply wp_raised_error; [eapply raised_rest|].
Qed.

(** A port is taken and stored. *)
Lemma raised_port k x x' p v s s1 : raised k x v s -> dm_iterators x' = dm_iterators x ->
  ports_of x' = {[+ p +]} ⊎ ports_of x -> seen t (v_ports ({[+ p +]} ⊎ ks_ports (v_kernel v)) v) (ms_st s1) ->
  same_monitors s s1 ->
  raised k x' (v_ports ({[+ p +]} ⊎ ks_ports (v_kernel v)) v)
    (Mst (ms_st s1) (ms_controllers s1) (<[m := x']> (ms_monitors s1))).
Proof.
  intros [G1 G2] Ei Ep Hs [E1 E2]. split.
  - eapply holds_port; [exact G1|done|done|exact Hs|done|cbn; by rewrite E2].
  - eapply idle_same; [exact G2|]. by eapply (seen_objects t v); [apply G1|exact Hs|].
Qed.

Lemma wp_open_ports k x v s : raised k x v s -> dm_port_set x = 0 ->
  wp (open_ports m) (fun r s' => (r = 0 \/ r = HS_ERROR_SYSTEM) /\ exists x' v', raised k x' v' s' /\
    dm_iterators x' = dm_iterators x /\ dm_notify_ret x' = dm_notify_ret x) s.
Proof.
  intros Hr Hx. unfold open_ports. wp_step.
  eapply wp_on_view; [apply (does_gain_port t _ _ (fun o => match o with Some set => set <> 0 | None => True end)
    (option_map PortSet))|apply Hr|].
  { intros w [set|] w' E; pose proof (pd_allocate t n Hports _ _ _ E) as Hp; [exact Hp|by split]. }
  intros [set|] s1 v1 Hs1 M1 [Hset ->]; cbn [option_map] in *.
  2:{ eapply wp_on_rest; [apply rests_error|exact Hs1|]. intros r s2 Hs2 M2 ->. split; [by right|]. exists x, v.
      split; [eapply raised_rest; [exact Hr|done|by eapply same_monitors_trans]|done]. }
  wp_step. eapply wp_set_dm; [rewrite (proj2 M1); apply (holds_found _ _ _ _ _ _ _ _ _ (proj1 Hr))|].
  set (x' := dm_with_port_set set x). set (v1 := v_ports _ v) in *. set (s2 := Mst _ _ _).
  assert (raised k x' v1 s2) as Hr2.
  { eapply raised_port; [exact Hr|done| |exact Hs1|exact M1]. unfold ports_of, x'. cbn [dm_kqfd dm_port_set dm_notify_port dm_with_port_set].
    rewrite Hx, (proj2 (Z.eqb_neq set 0)) by done. apply ports_shift. }
  wp_step. eapply wp_load_dm; [apply (holds_found _ _ _ _ _ _ _ _ _ (proj1 Hr2))|].
  wp_step. eapply wp_on_rest; [apply (rests_ask t _ _ (fun _ => True)); done|apply Hr2|]. intros port s3 Hs3 M3 _.
  wp_step. eapply wp_on_rest; [apply (rests_os t _ _ (fun _ => True)); intros w a w' E; split; [by eapply (pd_insert t n Hports)|done]|exact Hs3|].
  intros kret s4 Hs4 M4 _. pose proof (same_monitors_trans _ _ _ M3 M4) as M4'.
  assert (forall s', seen t v1 (ms_st s') -> same_monitors s4 s' -> exists x' v', raised k x' v' s' /\
    dm_iterators x' = dm_iterators x /\ dm_notify_ret x' = dm_notify_ret x) as Hend.
  { intros s' Hs' M'. exists x', v1. split; [|done]. eapply raised_rest; [exact Hr2|done|by eapply same_monitors_trans]. }
  destruct (kret =? KERN_SUCCESS); cbn [negb].
  2:{ eapply wp_on_rest; [apply rests_error|exact Hs4|]. intros r s5 Hs5 M5 ->. split; [by right|by apply Hend]. }
  wp_step. eapply wp_on_rest; [apply (rests_os t _ _ (fun _ => True)); intros w a w' E; split; [by eapply (pd_kevent t n Hports)|done]|exact Hs4|].
  intros [[]|e] s5 Hs5 M5 _.
  - wp_step. split; [by left|by apply Hend].
  - eapply wp_on_rest; [apply rests_error|exact Hs5|]. intros r s6 Hs6 M6 ->. split; [by right|].
    apply Hend; [done|by eapply same_monitors_trans].
Qed.

(** ** With a registry *)

Section Raises.
Variable mo : hs_monitor.
Implicit Types (a : registry).

(** The monitor owns its memory, with the registry [a]. *)
Definition raises (k : nat) x v a s : Prop :=
  holds t fuel s0 cs k m x v s /\
  keeps_registry fuel m mo (fun y => y = ms_st s0) (load (v_kernel v) + k) a (ms_st s).

Lemma raises_rest k k' x v a s s' : raises k x v a s -> seen t v (ms_st s') -> same_monitors s s' -> (k' <= k)%nat ->
  raises k' x v a s'.
Proof.
  intros [G1 G2] Hs M Hk. split; [eapply holds_fewer; [by eapply holds_rest|done]|].
  eapply keeps_registry_drop; [eapply keeps_registry_frame; [exact G2|]|lia].
  eapply (seen_objects t v v); [apply G1|done|done].
Qed.

Lemma wp_raises_error k x v a s (r : Z) : raises k x v a s -> r < 0 -> wp (monitor_error fuel r m) (ended) s.
Proof.
  intros [G1 (cbs & bs & Hrep & _ & Hroom & Hown)] Hr. unfold monitor_error. wp_step.
  eapply wp_mono; [eapply (wp_darwin_free t fuel n Hdoc Hports); [done|exact G1|]|].
  { eapply wp_release_owns; [by apply Hown|]. by eapply room_enough. }
  intros [] s' [Hg Hc]. wp_step. by split_and!.
Qed.

(** What comes in the iterator of a notification. *)
Definition iterator_of (type : notification_type) (cls : string) (l : list Z) : Prop :=
  match type with
  | kIOFirstMatchNotification => l = ir_matching t cls
  | kIOTerminatedNotification => (length l <= n)%nat
  end.

Lemma wp_add_notification k j x v s cls type : holds t fuel s0 cs (j + k) m x v s ->
  (length (dm_iterators x) < 8)%nat -> (forall l, iterator_of type cls l -> (length l <= j)%nat) ->
  wp (add_notification m cls type) (fun ri s' =>
    (ri.1 = HS_ERROR_SYSTEM /\ seen t v (ms_st s') /\ same_monitors s s') \/
    (ri.1 = 0 /\ exists l, iterator_of type cls l /\
       let x' := dm_with_iterators (dm_iterators x ++ [ri.2]) x in
       let v' := v_gain ri.2 (View (v_mem v) (v_refs v) (ks_set ri.2 l (v_kernel v))) in
       holds t fuel s0 cs k m x' v' s' /\ (load (v_kernel v') <= load (v_kernel v) + length l)%nat)) s.
Proof.
  intros Hh Hlen Hj. unfold add_notification. wp_step. eapply wp_load_dm; [by eapply holds_found|].
  wp_step. eapply wp_on_view; [|apply Hh|].
  { apply (does_os t v _ (fun ki v' => (ki.1 <> kIOReturnSuccess /\ v' = v) \/
      (ki.1 = kIOReturnSuccess /\ exists l, iterator_of type cls l /\
         v' = v_gain ki.2 (View (v_mem v) (v_refs v) (ks_set ki.2 l (v_kernel v)))))).
    intros w ki w' Er Ek E. destruct (pd_notify t n Hports _ _ _ _ _ _ E) as [(Hk & F1 & F2)|(Hk & F1 & l & F2 & Hl)].
    - exists v. split_and!; [done|congruence|congruence|by left].
    - eexists. split; [|split; [|split; [|right; split; [done|]; exists l; by split]]]; [done|by rewrite F1, Er|by rewrite F2, Ek]. }
  intros [kr it] s1 v1 Hs1 M1 Hcase. cbn [fst snd] in *. destruct Hcase as [[Hk ->]|(-> & l & Hl & ->)].
  - rewrite (proj2 (Z.eqb_neq _ _)) by done. cbn [negb]. wp_step.
    eapply wp_on_rest; [apply rests_error|exact Hs1|]. intros r s2 Hs2 M2 ->. wp_step. left.
    split; [done|]. split; [done|]. by eapply same_monitors_trans.
  - rewrite Z.eqb_refl. cbn [negb]. wp_step. apply wp_assert; [apply Z.ltb_lt; lia|].
    wp_step. destruct M1 as [M1 M1']. destruct Hh as [G1 G2 G3 G4 G5 G6 G7 Gt G8].
    eapply wp_set_dm; [by rewrite M1', G3, lookup_insert_eq|]. wp_step. right. split; [done|]. exists l. split; [done|].
    cbv zeta. specialize (Hj l Hl). pose proof (load_set (v_kernel v) it l) as El. cbn [snd fst].
    split; [|cbn [v_kernel v_gain]; lia].
    split; cbn [ms_st ms_controllers ms_monitors v_kernel v_gain v_refs dm_iterators dm_with_iterators ks_ports ks_set ks_items]; try done.
    + by rewrite M1', G3, insert_insert_eq.
    + rewrite G4, list_to_set_disj_app. cbn [list_to_set_disj]. apply iterators_snoc.
    + apply Forall_app. split; [|apply Forall_singleton; rewrite lookup_insert_eq; eauto].
      eapply Forall_impl; [exact G6|]. intros i Hi. cbn. destruct (decide (it = i)) as [->|Hne];
        [rewrite lookup_insert_eq; eauto|by rewrite lookup_insert_ne].
    + cbn [v_kernel v_gain] in *. lia.
    + congruence.
Qed.

(** The services of a pair of classes, in the stack of the system. *)
Definition services (c : string * string) : list Z := ir_matching t (if new_stack_of t then c.2 else c.1).
Definition total (l : list (string * string)) : nat := foldr (fun c k => length (services c) + k)%nat 0%nat l.

(** Every service of the classes is visited, in order. *)
Fixpoint watched (l : list (string * string)) a a' : Prop :=
  match l with
  | [] => a' = a
  | c :: l => exists a1, visits (attaches t m cs) (services c) 0 [] a a1 /\ watched l a1 a'
  end.

Lemma visits_attach_result l r rest a a' : visits (attaches t m cs) l r rest a a' -> r <= 0.
Proof.
  induction 1 as [a|x l r a a' Hx Hne|]; [lia| |done].
  destruct Hx as [[-> _]|[[Hr _]|(d & k & _ & _ & [(_ & -> & _)|(q & _ & _ & Hr & _)])]]; [lia| |lia|done].
  by apply Z.lt_le_incl, darwin_failure_neg.
Qed.

Lemma wp_watch_classes l : forall k x v a s, raises (total l + k) x v a s ->
  (length (dm_iterators x) + length l <= 8)%nat ->
  wp (watch_classes fuel call m l) (fun r s' => exists x' v' a', raises k x' v' a' s' /\
    dm_notify_ret x' = dm_notify_ret x /\ (length (dm_iterators x') <= length (dm_iterators x) + length l)%nat /\
    ((r = 0 /\ watched l a a') \/ r < 0)) s.
Proof.
  induction l as [|c l IH]; intros k x v a s [G1 G2] Hlen; cbn [watch_classes].
  { wp_step. exists x, v, a. split; [done|]. split; [done|]. split; [lia|]. by left. }
  destruct c as [old_stack new_stack] eqn:Ec. cbn [length] in Hlen.
  change (total ((old_stack, new_stack) :: l)) with (length (services (old_stack, new_stack)) + total l)%nat in *.
  set (l0 := services (old_stack, new_stack)) in *.
  wp_step. eapply wp_on_rest; [by apply (rests_correct_class t fuel Hdoc)|apply G1|]. intros cls s1 Hs1 M1 ->.
  set (cls := if new_stack_of t then _ else _).
  assert (raises (length l0 + (total l + k)) x v a s1) as [G1' G2'].
  { rewrite Nat.add_assoc. by eapply raises_rest; [split; [exact G1|exact G2]|..]. }
  wp_step. eapply wp_mono; [eapply (wp_add_notification (total l + k) (length l0)); [exact G1'|lia|]|].
  { by intros l1 ->. }
  intros [r1 it] s2 [(-> & Hs2 & M2)|(-> & l1 & Hl1 & Hh & Hle)]; cbn [fst snd] in *.
  { change (HS_ERROR_SYSTEM <? 0) with true. cbv iota. wp_step. exists x, v, a.
    split; [eapply raises_rest; [split; [exact G1'|exact G2']|done|done|lia]|]. split; [done|]. split; [lia|by right]. }
  change (0 <? 0) with false. cbv iota. cbn in Hl1. subst l1. change (ir_matching t cls) with l0 in *.
  set (x' := dm_with_iterators _ x) in *. set (v' := v_gain _ _) in *.
  wp_step. apply wp_intro with (a := cs) (s' := s2).
  { unfold load_controllers. by rewrite (ho_controllers _ _ _ _ _ _ _ _ _ Hh). }
  assert (ks_items (v_kernel v') !! it = Some l0) as Hit by (cbn; apply lookup_insert_eq).
  pose proof (load_iterator _ _ _ Hit) as Hfit. pose proof (ho_load _ _ _ _ _ _ _ _ _ Hh) as Hfuel.
  wp_step. unfold on_st at 1. apply wp_zoom. change (part s2) with (ms_st s2).
  set (n' := (load (v_kernel v') - length l0 + (total l + k))%nat).
  eapply wp_mono; [eapply (wp_iterate t fuel Hdoc allocs cs registry Hcs _ _ _
    (attach_laws t fuel call react call_react react_quiet m mo _ cs) it l0 n' fuel a v')|].
  { eapply keeps_registry_drop; [eapply keeps_registry_frame; [exact G2'|]|lia].
    by eapply (seen_objects t v v'); [apply G1'|apply Hh|]. }
  { apply Hh. } { exact Hit. } { lia. }
  intros r y (a1 & v1 & rest & Hs3 & Er & Ek & Ha & Hv). set (s3 := with_part y s2).
  assert (length rest <= length l0)%nat as Hrest.
  { destruct (visits_suffix _ _ _ _ _ _ Hv) as [l1 ->]. rewrite length_app. lia. }
  pose proof (load_rest _ _ _ rest Hit) as Elo. rewrite <- Ek in Elo.
  assert (raises (total l + k) x' v1 a1 s3) as Hr3.
  { split; [by eapply holds_items|]. eapply keeps_registry_drop; [exact Ha|]. lia. }
  pose proof (visits_attach_result _ _ _ _ _ Hv) as Hrle. destruct (Z.ltb_spec r 0) as [Hneg|Hpos].
  - wp_step. exists x', v1, a1. split; [eapply raises_rest; [exact Hr3|apply Hr3|done|lia]|]. split; [done|].
    split; [|by right]. cbn. rewrite length_app. cbn. lia.
  - assert (r = 0) as -> by lia. pose proof (visits_all _ _ _ _ _ Hv) as ->.
    eapply wp_mono; [apply (IH k x' v1 a1 s3 Hr3); cbn; rewrite length_app; cbn; lia|].
    intros r s4 (x4 & v4 & a4 & Hr4 & En & Hi4 & Hw). exists x4, v4, a4. split; [done|]. split; [done|].
    split; [cbn in Hi4; rewrite length_app in Hi4; cbn in *; lia|]. destruct Hw as [[-> Hw]|Hw]; [left|by right].
    split; [done|]. by exists a1.
Qed.
End Raises.

(** ** The whole *)

(** [hs_monitor_new] made a monitor that has what it watches, with fuel for
    [extra] things more, or nothing. *)
Definition made (extra : nat) (rm : Z * ptr) s : Prop :=
  ended rm s \/
  (rm.1 = 0 /\ rm.2 = m /\ exists mo x v a, raises mo extra x v a s /\ dm_notify_ret x = 0 /\
     mon_callback_id mo = 0 /\ watched device_classes (∅, m_devs (s_mem (ms_st s0))) a).

Lemma wp_watch extra x v s : raised (total device_classes + (n + extra) + 66) x v s -> dm_iterators x = [] ->
  dm_notify_ret x = 0 -> wp (watch fuel call m) (made extra) s.
Proof.
  intros [G1 G2] Hit Hret. unfold watch. wp_step. unfold on_st at 1. apply wp_zoom. change (part s) with (ms_st s).
  eapply wp_mono; [apply (wp_init_owns allocs) with (s0 := ms_st s0) (mon := m) (Q := fun r y =>
    m_statics (s_mem y) = m_statics (s_mem (ms_st s)) /\ s_world y = (malloc_ok (s_world (ms_st s))).2 /\
    ((r = HS_ERROR_MEMORY /\ idle (ms_st s0) m y) \/
     (r = 0 /\ exists mo, owns (ms_st s0) y m mo [] (replicate 64 []) ∅ /\
        ht_size (mon_devices mo) = 64 /\ mon_callback_id mo = 0)))|].
  { exact G2. }
  { intros y Hi Ew Es. split_and!; [done|done|by left]. }
  { intros y mo Ho Hsz Hid Ew Es. split_and!; [done|done|right; by eauto]. }
  intros heads y1 Hinit. wp_step. unfold on_st at 1. apply wp_zoom. rewrite part_with.
  eapply wp_mono; [exact Hinit|]. intros r y (Est & Ew & Hcase). rewrite with_with. set (s2 := with_part y s).
  set (v2 := View (s_mem y) (v_refs v) (v_kernel v)).
  assert (seen t v2 (ms_st s2)) as Hs2.
  { apply (seen_after t v (ms_st s) y); [apply G1| |done]. rewrite Ew.
    destruct (malloc_ok (s_world (ms_st s))) as [b w] eqn:Em. by eapply (rd_malloc t fuel Hdoc). }
  assert (holds t fuel s0 cs (total device_classes + (n + extra) + 66) m x v2 s2) as G1' by by eapply holds_memory.
  destruct Hcase as [[-> Hi]|(-> & mo & Ho & Hsz & Hid)].
  { change (HS_ERROR_MEMORY <? 0) with true. cbv iota. eapply wp_mono; [by eapply wp_raised_error|].
    intros rm s' He. by left. }
  change (0 <? 0) with false. cbv iota.
  assert (raises mo (total device_classes + (n + extra)) x v2 (∅, m_devs (s_mem (ms_st s0))) s2) as Hr2.
  { split; [eapply holds_fewer; [exact G1'|lia]|]. exists [], (replicate 64 []).
    split; [apply Ho|]. split.
    { apply map_eq. intros p. pose proof (ow_devs _ _ _ _ _ _ _ Ho p) as Hp. rewrite decide_False in Hp; [exact Hp|].
      intros (q & _ & (j & b & [-> _]%lookup_replicate & Hq)%elem_of_concat)%list_elem_of_fmap. set_solver. }
    split; [|by intros ? ->]. unfold room. rewrite Hsz. cbn [fst]. rewrite map_size_empty. change (Z.to_nat 64) with 64%nat.
    pose proof (ho_load _ _ _ _ _ _ _ _ _ G1'). cbn [length]. lia. }
  wp_step. eapply wp_mono; [apply (wp_watch_classes mo device_classes (n + extra) _ _ _ _ Hr2); rewrite Hit; cbn; lia|].
  intros r s3 (x3 & v3 & a3 & Hr3 & En3 & Hlen3 & [[-> Hw]|Hneg]).
  2:{ rewrite (proj2 (Z.ltb_lt _ _)) by done. eapply wp_mono; [by eapply wp_raises_error|]. intros rm s' He. by left. }
  change (0 <? 0) with false. cbv iota. rewrite Hit in Hlen3. cbn [length device_classes Nat.add] in Hlen3.
  wp_step. eapply wp_on_rest; [by apply (rests_correct_class t fuel Hdoc)|apply Hr3|]. intros cls s4 Hs4 M4 _.
  assert (raises mo (n + extra) x3 v3 a3 s4) as [H4 K4] by by eapply raises_rest.
  wp_step. eapply wp_mono; [eapply (wp_add_notification extra n); [exact H4|lia|done]|].
  intros [r it] s5 [(Er & Hs5 & M5)|(Er & l & Hl & Hh & Hle)]; cbn [fst snd] in *; subst r.
  { change (HS_ERROR_SYSTEM <? 0) with true. cbv iota. eapply wp_mono; [eapply (wp_raises_error mo (n + extra)); [|done]|].
    { by eapply raises_rest; [split; [exact H4|exact K4]|..]. }
    intros rm s' He. by left. }
  change (0 <? 0) with false. cbv iota. set (x5 := dm_with_iterators _ x3) in *. set (v5 := v_gain _ _) in *.
  assert (ks_items (v_kernel v5) !! it = Some l) as Hit5 by (cbn; apply lookup_insert_eq).
  pose proof (load_iterator _ _ _ Hit5) as Hfit. pose proof (ho_load _ _ _ _ _ _ _ _ _ Hh) as Hfuel.
  wp_step. eapply wp_on_view; [eapply (does_clear t fuel Hdoc it l fuel v5); [exact Hit5|lia]|apply Hh|].
  intros [] s6 v6 Hs6 M6 ->. wp_step. right. split; [done|]. split; [done|]. set (v6 := View (v_mem v5) (v_refs v5) (ks_set it [] (v_kernel v5))) in *.
  exists mo, x5, v6, a3. pose proof (load_rest _ _ _ [] Hit5) as Elo. cbn [length] in Elo.
  split; [|split; [cbn; congruence|by split]]. split.
  - eapply holds_items with (rest := []); [exact Hh|exact Hit5|cbn; lia|exact Hs6|done|done|done].
  - eapply keeps_registry_drop; [eapply keeps_registry_frame; [exact K4|]|].
    + by eapply (seen_objects t v3 v6); [apply H4|exact Hs6|].
    + change (v_kernel v6) with (ks_set it [] (v_kernel v5)). cbn in Hl. lia.
Qed.

Lemma made_ended extra rm s : ended rm s -> made extra rm s.
Proof. by left. Qed.

Lemma wp_start extra x v s : raised (total device_classes + (n + extra) + 66) x v s -> dm_notify_port x = 0 ->
  dm_kqfd x = -1 -> dm_port_set x = 0 -> dm_iterators x = [] -> dm_notify_ret x = 0 ->
  wp (start fuel call m) (made extra) s.
Proof.
  intros Hr Ex1 Ex2 Ex3 Ex4 Ex5. unfold start. wp_step.
  eapply wp_on_view; [apply (does_gain_port t _ _ (fun _ => True) (fun p => if p =? 0 then None else Some (NotifyPort p)))|apply Hr|].
  { intros w p w' E. pose proof (pd_create t n Hports _ _ _ E) as Hp. by destruct (p =? 0). }
  intros p s1 v1 Hs1 M1 [_ Ev1]. wp_step.
  eapply wp_set_dm; [rewrite (proj2 M1); apply (holds_found _ _ _ _ _ _ _ _ _ (proj1 Hr))|].
  destruct (Z.eqb_spec p 0) as [->|Hp].
  { subst v1. assert (dm_with_notify_port 0 x = x) as -> by (rewrite <- Ex1; by destruct x).
    eapply wp_mono; [eapply (wp_raised_system _ x v)|apply made_ended]. eapply raised_rest; [exact Hr|done|].
    destruct M1 as [M1 M1']. split; [done|]. cbn. rewrite M1'. apply insert_id, (holds_found _ _ _ _ _ _ _ _ _ (proj1 Hr)). }
  set (x1 := dm_with_notify_port p x). set (s2 := Mst _ _ _). subst v1. set (v1 := v_ports _ v) in *.
  assert (raised (total device_classes + (n + extra) + 66) x1 v1 s2) as Hr1.
  { eapply raised_port; [exact Hr|done| |exact Hs1|exact M1]. unfold ports_of, x1.
    cbn [dm_kqfd dm_port_set dm_notify_port dm_with_notify_port]. rewrite Ex1, Ex2, Ex3, (proj2 (Z.eqb_neq p 0)) by done.
    apply ports_first. }
  wp_step. eapply wp_on_view; [apply (does_gain_port t v1 _ (fun r => match r with Ok fd => 0 <= fd | Err _ => True end)
    (fun r => match r with Ok fd => Some (Kqueue fd) | Err _ => None end))|apply Hr1|].
  { intros w r w' E. pose proof (pd_kqueue t n Hports _ _ _ E) as Hk. by destruct r. }
  intros [fd|e] s3 v3 Hs3 M3 [Hfd ->].
  2:{ eapply wp_mono; [eapply (wp_raised_system _ x1 v1)|apply made_ended]. by eapply raised_rest. }
  wp_step. eapply wp_set_dm; [rewrite (proj2 M3); apply (holds_found _ _ _ _ _ _ _ _ _ (proj1 Hr1))|].
  set (x4 := dm_with_kqfd fd x1). set (s4 := Mst _ _ _). set (v4 := v_ports _ v1) in *.
  assert (raised (total device_classes + (n + extra) + 66) x4 v4 s4) as Hr4.
  { eapply raised_port; [exact Hr1|done| |exact Hs3|exact M3]. unfold ports_of, x4, x1.
    cbn [dm_kqfd dm_port_set dm_notify_port dm_with_notify_port dm_with_kqfd].
    rewrite Ex2, Ex3, (proj2 (Z.eqb_neq fd (-1))), (proj2 (Z.eqb_neq p 0)) by lia. apply ports_second. }
  wp_step. eapply wp_mono; [apply (wp_open_ports _ x4 v4 s4 Hr4); exact Ex3|].
  intros r s5 (Hcase & x5 & v5 & Hr5 & Ei5 & En5). destruct Hcase as [-> | ->].
  - change (0 <? 0) with false. cbv iota. eapply wp_watch; [exact Hr5|by rewrite Ei5|by rewrite En5].
  - change (HS_ERROR_SYSTEM <? 0) with true. cbv iota. eapply wp_mono; [by eapply wp_raised_error|apply made_ended].
Qed.
End Making.

Section New.
Context {W : Type} `{Posix W} `{Allocator W} `{CoreFoundation W} `{IORegistry W} `{IONotification W}.
Variables (t : io_registry W) (fuel n : nat).
Hypothesis Hdoc : registry_documented t fuel.
Hypothesis Hports : ports_documented t n.
Hypothesis allocs : allocator_documented.
Variable call : ptr -> ptr -> ptr -> M (st W) Z.
Variable react : ptr -> ptr -> hs_device -> ptr -> W -> Z * W.
Hypothesis call_react : calm call react.
Hypothesis react_quiet : forall f dev d udata w, same_refs t w (react f dev d udata w).2.
Implicit Types (v : view) (x : darwin_monitor) (s : mst W).

(** The two halves of a struct hs_monitor are allocated together. *)
Definition whole s : Prop :=
  forall m, is_Some (ms_monitors s !! m) -> is_Some (m_mons (s_mem (ms_st s)) !! m).

(** What the library needs to watch the services of [t], with fuel for [extra]
    things more. *)
Record watchable (extra : nat) s : Prop := {
  wa_whole : whole s;
  wa_stack : stack_known t (ms_st s);
  wa_controllers : controllers_ok (ms_controllers s);
  wa_fits : fits_controllers t (ir_matching t (host_class t));
  wa_host : (255 < fuel)%nat;
  wa_fuel : (load (ir_kernel t (s_world (ms_st s))) + (total t device_classes + (n + extra) + 66) < fuel)%nat;
  wa_todo : (length (ks_todo (ir_kernel t (s_world (ms_st s)))) < fuel)%nat
}.

Lemma iterators_only_load v v' : iterators_only v v' -> (load (v_kernel v') <= load (v_kernel v))%nat.
Proof.
  intros (_ & _ & [->|[it ->]]); [done|]. pose proof (load_set (v_kernel v) it []) as El. cbn [length] in El. lia.
Qed.

(** [hs_monitor_free(NULL)] *)
Lemma wp_ended_null s0 cs (r : Z) s : r < 0 -> gone t s0 s -> ms_controllers s = cs ->
  wp (monitor_error fuel r NULL) (ended t s0 cs) s.
Proof. intros Hr Hg Hc. unfold monitor_error, hs_monitor_free. wp_step. change (NULL =? NULL) with true.
  cbv iota. do 2 wp_step. by split_and!. Qed.

(** What a monitor is from its allocation on. *)
Lemma alloc_raised k v s0 s m : seen t v (ms_st s) -> v_refs v = ir_refs t (s_world (ms_st s0)) ->
  ks_ports (v_kernel v) = ks_ports (ir_kernel t (s_world (ms_st s0))) -> same_objects (ms_st s0) (ms_st s) ->
  ms_monitors s = ms_monitors s0 -> whole s0 -> m <> NULL -> ~ in_use (s_mem (ms_st s)) m ->
  (load (v_kernel v) + k < fuel)%nat -> (length (ks_todo (v_kernel v)) < fuel)%nat ->
  wp (alloc_monitor m ;;; set_dm m (dm_with_kqfd (-1))) (fun _ s' => exists v',
    raised t fuel s0 (ms_controllers s) m k (DarwinMonitor 0 [] 0 (-1) 0) v' s') s.
Proof.
  intros Hs Er Ep Ho Em Hw Hm Hu Hl Ht.
  destruct (alloc_idle (ms_st s0) (ms_st s) m Hm Hu Ho) as (y & E & Hi & Ew & Es).
  apply wp_bind. eapply wp_intro with (a := tt).
  { unfold alloc_monitor, on_st, bind, zoom. change (part s) with (ms_st s). rewrite E. reflexivity. }
  eapply wp_set_dm; [cbn; apply lookup_insert_eq|]. exists (View (s_mem y) (v_refs v) (v_kernel v)).
  assert (ms_monitors s0 !! m = None) as Hnew.
  { destruct (ms_monitors s0 !! m) eqn:Ed; [|done]. exfalso. pose proof (id_new _ _ _ Hi) as Hn.
    destruct (Hw m) as [mo Hmo]; [by rewrite Ed|]. congruence. }
  split; [|exact Hi]. split; cbn [ms_st ms_monitors ms_controllers v_kernel v_refs dm_iterators with_part Has_st_mst]; try done.
  - apply (seen_after t v (ms_st s) y Hs); [|done]. by rewrite Ew.
  - rewrite insert_insert_eq, Em. done.
  - rewrite Er. cbn [list_to_set_disj]. symmetry. apply (left_id_L ∅ (⊎)).
  - rewrite Ep. unfold ports_of, unless. cbn [dm_kqfd dm_port_set dm_notify_port].
    rewrite !Z.eqb_refl. by rewrite !(left_id_L ∅ (⊎)).
Qed.

(** How [hs_monitor_new] ends. *)
Definition settled extra s cs (rm : Z * ptr) s' : Prop :=
  ended t s cs rm s' \/ (rm.2 <> NULL /\ made t fuel s cs rm.2 extra rm s').

Lemma wp_darwin_new extra s : watchable extra s ->
  wp (hs_monitor_new fuel call) (fun rm s' => exists r0 cs, populated t (ms_controllers s) r0 cs /\
    settled extra s cs rm s') s.
Proof.
  intros [Hwhole Hst Hc Hfits Hhost Hfuel Htodo].
  set (y0 := ms_st s) in *. set (v0 := View (s_mem y0) (ir_refs t (s_world y0)) (ir_kernel t (s_world y0))).
  assert (Hs0 : seen t v0 y0) by (split; [by destruct (s_mem y0)|done|done|done]).
  unfold hs_monitor_new. wp_step. eapply wp_mono; [by apply (wp_populate t fuel Hdoc v0)|].
  intros r0 s1 (v1 & Hs1 & Hit & Em1 & Hp). set (cs := ms_controllers s1) in *.
  pose proof (populated_ok t _ _ _ Hc Hfits Hp) as Hcs.
  pose proof (iterators_only_load _ _ Hit) as Hle. destruct (iterators_only_kept _ _ Hit) as [Et1 Ep1], Hit as (Ev1 & Er1 & _).
  assert (Hgone : forall s', seen t v1 (ms_st s') -> same_monitors s1 s' -> gone t s s').
  { intros s' Hs' [M1 M2]. split; [by eapply (seen_objects t v0 v1)|congruence| | |apply Hs'].
    - by rewrite (se_refs _ _ _ Hs'), Er1.
    - by rewrite (se_kernel _ _ _ Hs'), Ep1. }
  eapply wp_mono with (P := settled extra s cs); [|intros rm s' Hrm; by exists r0, cs].
  assert (Hnull : forall (r : Z) s', r < 0 -> seen t v1 (ms_st s') -> same_monitors s1 s' ->
    wp (monitor_error fuel r NULL) (settled extra s cs) s').
  { intros r s' Hr Hs' M'. eapply wp_mono; [apply (wp_ended_null s cs); [done|by apply Hgone|apply M']|]. by left. }
  destruct (Z.ltb_spec r0 0) as [Hneg|Hpos]; [by apply Hnull|].
  wp_step. eapply wp_on_view; [by apply (does_new_block t fuel Hdoc v1)|exact Hs1|].
  intros m s2 v2 Hs2 M2 [-> Hm]. destruct Hm as [->|(Hm & _ & Hu & _)].
  { change (NULL =? NULL) with true. cbv iota. wp_step. eapply wp_on_rest; [apply rests_memory_error|exact Hs2|].
    intros r s3 Hs3 M3 ->. apply Hnull; [done|done|by eapply same_monitors_trans]. }
  rewrite (proj2 (Z.eqb_neq m NULL)) by done. pose proof M2 as [M2c M2m].
  apply wp_assoc, wp_bind. eapply wp_mono; [eapply (alloc_raised (total t device_classes + (n + extra) + 66) v1 s s2 m)|].
  { done. } { by rewrite Er1. } { by rewrite Ep1. } { by eapply (seen_objects t v0 v1). } { congruence. } { done. } { done. }
  { by rewrite (se_mem _ _ _ Hs2), in_use_statics. } { cbn [v_kernel v0] in Hle. lia. } { by rewrite Et1. }
  rewrite M2c. fold cs. intros [] s3 (v3 & Hr3).
  eapply wp_mono; [by eapply (wp_start t fuel n Hdoc Hports allocs call react call_react react_quiet s cs Hcs m Hm extra)|].
  intros rm s4 [He|(E1 & E2 & Hmade)]; [by left|right]. rewrite E2. split; [done|]. right. by split_and!.
Qed.
End New.

(** [hs_monitor_new] on macOS makes a monitor that watches every service of its
    classes, in order, and holds exactly its memory, its iterators and its ports,
    or it returns an error and whatever step failed nothing of it is left. *)
Theorem darwin_monitor_new_correct {W} `{Posix W} `{Allocator W} `{CoreFoundation W} `{IORegistry W}
    `{IONotification W} (t : io_registry W) fuel n call react (s : mst W) :
  registry_documented t fuel -> ports_documented t n -> allocator_documented -> calm call react ->
  (forall f dev d udata w, same_refs t w (react f dev d udata w).2) -> watchable t fuel n 0 s ->
  exists r m s', hs_monitor_new fuel call s = Done ((r, m), s') /\ controllers_ok (ms_controllers s') /\
    ((r < 0 /\ m = NULL /\ gone t s s') \/
     (r = 0 /\ m <> NULL /\ exists mo x bs D, owns (ms_st s) (ms_st s') m mo [] bs D /\
        ms_monitors s' = <[m := x]> (ms_monitors s) /\
        watched t (ms_controllers s') m device_classes (∅, m_devs (s_mem (ms_st s))) (D, m_devs (s_mem (ms_st s'))) /\
        ir_refs t (s_world (ms_st s')) = list_to_set_disj (dm_iterators x) ⊎ ir_refs t (s_world (ms_st s)) /\
        ks_ports (ir_kernel t (s_world (ms_st s'))) = ports_of x ⊎ ks_ports (ir_kernel t (s_world (ms_st s))))).
Proof.
  intros Hdoc Hports Hal Hcalm Hquiet Hw. pose proof (wa_controllers _ _ _ _ _ Hw) as Hc. pose proof (wa_fits _ _ _ _ _ Hw) as Hfits.
  pose proof (wp_darwin_new t fuel n Hdoc Hports Hal call react Hcalm Hquiet 0 s Hw) as Hwp.
  apply wp_inv in Hwp as ([r m] & s' & E & r0 & cs & Hp & Hset). exists r, m, s'. split; [done|].
  pose proof (populated_ok t _ _ _ Hc Hfits Hp) as Hcs.
  assert (forall rm, ended t s cs rm s' -> controllers_ok (ms_controllers s') /\ rm.1 < 0 /\ rm.2 = NULL /\ gone t s s') as Hend.
  { intros rm (? & ? & ? & ->). by split_and!. }
  destruct Hset as [He|(Hm & [He|(Er & _ & mo & x & v & a & [Hh Hk] & _ & Hid & Hwt)])]; cbn [fst snd] in *.
  1,2: destruct (Hend _ He) as (? & ? & ? & ?); split; [done|]; left; by split_and!.
  destruct Hk as (cbs & bs & Hrep & Hdevs & _ & Hown). destruct Hh as [[_ E2 E3 _] _ Em Eref Ep _ _ _ Ec].
  split; [by rewrite Ec|]. right. split; [done|]. split; [done|].
  assert (cbs = []) as ->.
  { destruct cbs as [|[cb c] cbs]; [done|]. pose proof (mr_ids _ _ _ _ _ _ Hrep) as (_ & _ & Hids). rewrite Hid in Hids.
    apply Forall_cons in Hids as [Hbad _]. cbn in Hbad. lia. }
  exists mo, x, bs, a.1. split; [by apply Hown|]. split; [done|]. split; [rewrite Hdevs, Ec; by destruct a|].
  rewrite E2, E3. by split.
Qed.

(** ** The Mac of the witnesses *)

Lemma iomac_ports : ports_documented iomac_tree 5.
Proof.
  split.
  - intros port type cls w r w' [= <- <-]. right. cbn [fst snd]. split; [done|]. split; [done|].
    exists (ir_matching iomac_tree cls). split; [unfold ks_set; cbn; by rewrite fmap_insert|].
    destruct type; [done|]. cbn [ir_matching iomac_tree]. unfold iomac_matching. repeat case_bool_decide; cbn; lia.
  - by intros w p w' [= <- <-].
  - by intros p w u w' _ [= <- <-].
  - by intros w r w' [= <- <-].
  - by intros p w u w' _ [= <- <-].
  - by intros w r w' [= <- <-].
  - intros fd w u w' Hne _ [= <- <-]. by rewrite (proj2 (Z.eqb_neq _ _) Hne).
  - by intros w u w' [= <- <-].
  - by intros port set w r w' [= <- <-].
  - by intros fd set w r w' [= <- <-].
Qed.
