(* ===== verification/SessionDarwin.v ===== *)
(** A whole session of a program on macOS: the discovery of src/src/monitor_darwin.c
    keeps the promises of [Session]. At the end the memory, the references to
    objects of the kernel, the notification ports, the sets of ports and the
    kqueues are those from before. *)

From stdpp Require Import gmultiset.
From S2P Require Import Prelude Cstring Common DList Htable State Posix Platform Location Device Heap Monitor MonitorSpec Discovery Lifetime Session CoreFoundation UsbDarwin MonitorDarwin UsbDarwinSpec MonitorDarwinSpec MonitorDarwinLife.

Definition darwin_discovery {W} `{Posix W} `{Allocator W} `{CoreFoundation W} `{IORegistry W} `{IONotification W}
    (fuel : nat) (call : ptr -> ptr -> ptr -> M (st W) Z) : Discovery (mst W) := {|
  monitor_handle := ptr;
  monitor_addr m := m;
  monitor_new :=
    let* rm := hs_monitor_new fuel call in
    ret (rm.1, if rm.2 =? NULL then None else Some rm.2);
  monitor_free m := hs_monitor_free fuel (default NULL m);
  monitor_refresh := hs_monitor_refresh fuel call
|}.

Section Session.
Context {W : Type} `{Posix W} `{Allocator W} `{CoreFoundation W} `{IORegistry W} `{IONotification W}.
Variables (t : io_registry W) (fuel n : nat).
Hypothesis Hdoc : registry_documented t fuel.
Hypothesis Hports : ports_documented t n.
Hypothesis Hnot : notifications_documented t.
Hypothesis allocs : allocator_documented.
Variable call : ptr -> ptr -> ptr -> M (st W) Z.
Variable react : ptr -> ptr -> hs_device -> ptr -> W -> Z * W.
Hypothesis call_react : calm call react.
Hypothesis react_quiet : forall f dev d udata w, same_refs t w (react f dev d udata w).2.
Implicit Types (v : view) (x : darwin_monitor) (s : mst W) (a : registry).

(** The monitor owns its memory and holds its iterators and ports, and there is
    fuel for [k] actions. *)
Definition operates s0 (m : ptr) (k : nat) s : Prop :=
  m <> NULL /\ controllers_ok (ms_controllers s) /\ exists mo x v a,
    raises t fuel s0 (ms_controllers s) m mo k x v a s /\ dm_notify_ret x = 0 /\
    mon_callback_id mo + Z.of_nat k <= INT_MAX.

Definition can_watch (k : nat) s : Prop := watchable t fuel n k s /\ Z.of_nat k <= INT_MAX.

Lemma operates_new k s : can_watch k s -> wp (monitor_new (Discovery := darwin_discovery fuel call))
  (fun rm s' => (0 <= rm.1 /\ exists m, rm.2 = Some m /\ operates s m k s') \/
    (rm.1 < 0 /\ rm.2 = None /\ gone t s s')) s.
Proof.
  intros [Hw Hk]. pose proof (wa_controllers _ _ _ _ _ Hw) as Hc. pose proof (wa_fits _ _ _ _ _ Hw) as Hfits.
  cbn [monitor_new darwin_discovery]. wp_step.
  eapply wp_mono; [by apply (wp_darwin_new t fuel n Hdoc Hports allocs call react call_react react_quiet k s)|].
  intros [r m] s' (r0 & cs & Hp & Hset). wp_step. cbn [fst snd] in *.
  destruct Hset as [(Er & Em & Hg & _)|(Hm & [(_ & Em & Hg & _)|(Er & _ & mo & x & v & a & Hr & Hret & Hid & _)])];
    cbn in *; [subst m; by right|done|].
  left. split; [lia|]. exists m. rewrite (proj2 (Z.eqb_neq m NULL)) by done. split; [done|]. split; [done|].
  rewrite (ho_controllers _ _ _ _ _ _ _ _ _ (proj1 Hr)). split; [by eapply populated_ok|].
  exists mo, x, v, a. split; [done|]. split; [done|]. lia.
Qed.

Lemma operates_free s0 m k s : operates s0 m k s ->
  wp (hs_monitor_free fuel m) (fun _ s' => gone t s0 s') s.
Proof.
  intros (Hm & _ & mo & x & v & a & [Hh (cbs & bs & Hrep & _ & Hroom & Hown)] & _).
  eapply wp_mono; [eapply (wp_darwin_free t fuel n Hdoc Hports); [done|exact Hh|]|by intros [] s' [Hg _]].
  eapply wp_release_owns; [by apply Hown|]. by eapply room_enough.
Qed.

(** A refresh leaves the iterators and the ports. *)
Lemma operates_refresh s0 m k s : operates s0 m (S k) s ->
  wp (hs_monitor_refresh fuel call m) (fun _ s' => operates s0 m k s') s.
Proof.
  intros (Hm & Hc & mo & x & v & a & [Hh Hk] & Hret & Hid). destruct Hh as [Hs Hnew Em Er Ep Hi Hl Ht _].
  assert (dm_with_notify_ret 0 x = x) as Ex by (rewrite <- Hret; by destruct x).
  eapply wp_mono; [eapply (wp_darwin_refresh t fuel Hdoc Hnot allocs call react call_react react_quiet m mo
    (ms_controllers s) Hc (fun y => y = ms_st s0) (S k) (ms_monitors s0) x (a, v_kernel v) v s Hm)|].
  - split; [done|done|exact Hk|by rewrite Ex|done].
  - exact Ht.
  - intros r s' ([a' k'] & v' & [Hs' Ek' Hk' Em' Ec'] & Er' & Href). cbn [fst snd] in *.
    destruct (refreshes_kept _ _ _ _ _ _ Href) as (Hki & Hkp & Hkt). cbn [snd] in *.
    split; [done|]. rewrite Ec'. split; [done|]. exists mo, x, v', a'. split; [|split; [done|lia]].
    assert (keeps_registry fuel m mo (fun y => y = ms_st s0) (load (v_kernel v') + k) a' (ms_st s')) as Hk2.
    { rewrite Ek'. eapply keeps_registry_drop; [exact Hk'|lia]. }
    split; [|exact Hk2]. destruct Hk2 as (cbs & bs & _ & _ & Hroom & _). unfold room in Hroom.
    split; rewrite ?Er', ?Ek'; try done.
    + by rewrite Em', Ex.
    + by rewrite Hkp.
    + eapply Forall_impl; [exact Hi|]. intros it. apply Hki.
    + rewrite <- Ek'. lia.
    + lia.
Qed.

#[local] Instance darwin_promises : Promises (Discovery0 := darwin_discovery fuel call) fuel
  (same_refs t) can_watch operates (gone t).
Proof.
  split.
  - split; [done|]. intros w1 w2 w3 [E1 E2] [E3 E4]. split; congruence.
  - intros w. destruct (malloc_ok w) as [b w'] eqn:E. by eapply (rd_malloc t fuel Hdoc).
  - apply operates_new.
  - done.
  - apply operates_refresh.
  - apply operates_free.
  - intros s0 m k s (Hm & Hc & mo & x & v & a & [Hh (cbs & bs & Hrep & Hdevs & Hroom & Hown)] & Hret & Hid).
    exists mo, cbs, bs, a.1. split; [by apply Hown|]. split; [by eapply room_enough|]. split; [lia|].
    intros y mo' cbs' Ho' Ed Eid Hlen Es Hq. split; [done|]. split; [done|].
    exists mo', x, (View (s_mem y) (v_refs v) (v_kernel v)), (a.1, m_devs (s_mem y)).
    split; [|split; [done|lia]]. split.
    + eapply holds_fewer; [eapply holds_memory; [exact Hh| |done|done|done]|lia].
      by apply (seen_after t v (ms_st s) y (ho_seen _ _ _ _ _ _ _ _ _ Hh)).
    + exists cbs', bs. cbn [fst snd v_kernel]. split; [apply Ho'|]. split; [done|].
      split; [|by intros ? ->]. unfold room in *. rewrite Ed. lia.
Qed.

Lemma wp_darwin_session l s : can_watch (length l) s -> Forall valid l ->
  wp (session (Discovery0 := darwin_discovery fuel call) fuel call l) (fun _ s' => gone t s s') s.
Proof. intros Hl Hv. by eapply (wp_session fuel call react call_react allocs). Qed.
End Session.


(** A process on the Mac that has found its controllers, with the messages that
    will come. *)
Definition dstart : mst iomac :=
  Mst (St (IoMac {[+ 1 +]} ∅ [0; 1; 2]%nat ∅) (common_init false) (Mem (LMem ∅ ∅) (HMem ∅ ∅) ∅ ∅ ∅ ∅))
    iomac_controllers ∅.

(** A callback is registered, messages are received, the callback is deregistered
    and the devices are listed. *)
Definition darwin_actions : list action := [ARegister 7 9; ARefresh; ADeregister 0; AList 7 9; ARefresh].

Lemma dstart_watchable : watchable iomac_tree 300 5 (length darwin_actions) dstart.
Proof.
  split.
  - intros m [x Hx]. cbn [ms_monitors dstart] in Hx. by rewrite lookup_empty in Hx.
  - split; [by left|done].
  - apply iomac_controllers_ok.
  - apply iomac_fits.
  - lia.
  - apply Nat.ltb_lt. vm_compute. reflexivity.
  - apply Nat.ltb_lt. vm_compute. reflexivity.
Qed.


(** The same session, run; and after its first action the monitor holds its three
    iterators, its ports and the modem. *)
Example darwin_demo_session :
  match session (Discovery0 := darwin_discovery 300 iomac_call) 300 iomac_call darwin_actions dstart with
  | Done (r, s) => r = 0 /\ m_devs (s_mem (ms_st s)) = ∅ /\ m_cbs (s_mem (ms_st s)) = ∅ /\
      iw_todo (s_world (ms_st s)) = [] /\ iw_refs (s_world (ms_st s)) = {[+ 1 +]} /\ iw_ports (s_world (ms_st s)) = ∅
  | _ => False
  end.
Proof. vm_compute. by split_and!. Qed.

Example darwin_demo_monitor :
  match hs_monitor_new 300 iomac_call dstart with
  | Done ((r, m), s) => r = 0 /\ size (m_devs (s_mem (ms_st s))) = 1%nat /\
      (dm_iterators <$> ms_monitors s !! m) = Some [500; 501; 502] /\
      iw_refs (s_world (ms_st s)) = {[+ 1; 500; 501; 502 +]} /\
      iw_ports (s_world (ms_st s)) = {[+ Kqueue 13; PortSet 12; NotifyPort 11 +]}
  | _ => False
  end.
Proof. vm_compute. by split_and!. Qed.
