(* ===== verification/Examples.v ===== *)
(** The programs of src/examples/: enumerate_devices.c and monitor_devices.c, over
    the functions of the library, on any system. Their callbacks are calm, so that
    what is proved of the library holds of the programs; monitor_devices ends and
    leaves nothing behind. *)

From S2P Require Import Prelude Cstring Common DList Htable State Posix Platform Device Heap Monitor MonitorSpec Discovery Lifetime Session.

(** What the programs ask of the terminal. *)
Class Console (W : Type) := {
  (** the text [printf] writes *)
  puts : string -> sysc W unit;
  (** [tcflush(STDIN_FILENO, TCIFLUSH)] *)
  tcflush : sysc W unit
}.

Definition line_feed : string := String (chr 10) "".

(** [%04x]: at least four digits. *)
Definition print_04x (n : Z) : string :=
  let digits := print_x n in
  String.string_of_list_ascii (replicate (4 - String.length digits) (chr 48)) +:+ digits.

(** * The callbacks *)

Section Callback.
Context {W : Type} `{Console W}.

Definition printf (text : string) : M (st W) unit := os (puts text).

(** [PRINT_PROPERTY(name, prop)] *)
Definition PRINT_PROPERTY (name : string) (prop : ptr -> M (st W) (option string)) (dev : ptr)
    : M (st W) unit :=
  let* value := prop dev in
  match value with
  | None => ret tt
  | Some _ =>
      let* value := prop dev in
      printf ("  - " +:+ name +:+ " " +:+ str value +:+ line_feed)
  end.

Definition event_name (status : hs_device_status) : string :=
  match status with
  | HS_DEVICE_STATUS_DISCONNECTED => "remove"
  | HS_DEVICE_STATUS_ONLINE => "add"
  end.

Definition type_name (type : hs_device_type) : string :=
  match type with
  | HS_DEVICE_TYPE_HID => "hid"
  | HS_DEVICE_TYPE_SERIAL => "serial"
  end.

(** [device_callback] of both programs: [event] is what the first line starts
    with. *)
Definition print_device (event : M (st W) string) (dev : ptr) : M (st W) Z :=
  let* event := event in
  let* type := hs_device_get_type dev in
  let* location := hs_device_get_location dev in
  let* iface := hs_device_get_interface_number dev in
  let* vid := hs_device_get_vid dev in
  let* pid := hs_device_get_pid dev in
  printf (event +:+ " " +:+ str location +:+ "@" +:+ print_u iface +:+ " " +:+
    print_04x vid +:+ ":" +:+ print_04x pid +:+ " (" +:+ type_name type +:+ ")" +:+ line_feed) ;;;
  PRINT_PROPERTY "device node:  " hs_device_get_path dev ;;;
  PRINT_PROPERTY "manufacturer: " hs_device_get_manufacturer_string dev ;;;
  PRINT_PROPERTY "product:      " hs_device_get_product_string dev ;;;
  PRINT_PROPERTY "serial number:" hs_device_get_serial_number_string dev ;;;
  ret 0.

(** enumerate_devices.c *)
Definition list_device_callback (dev : ptr) : M (st W) Z := print_device (ret "+") dev.

(** monitor_devices.c *)
Definition device_callback (dev : ptr) : M (st W) Z :=
  print_device (let* status := hs_device_get_status dev in ret (event_name status)) dev.

(** The address of [device_callback], the only function the program gives. *)
Definition DEVICE_CALLBACK : ptr := 1.
Definition program_call (f dev udata : ptr) : M (st W) Z := device_callback dev.

(** *** What is printed *)

Definition property_text (name : string) (value : option string) : list string :=
  match value with
  | None => []
  | Some v => ["  - " +:+ name +:+ " " +:+ v +:+ line_feed]
  end.

Definition device_text (event : string) (d : hs_device) : list string :=
  (event +:+ " " +:+ str (dev_location d) +:+ "@" +:+ print_u (dev_iface d) +:+ " " +:+
    print_04x (dev_vid d) +:+ ":" +:+ print_04x (dev_pid d) +:+ " (" +:+ type_name (dev_type d) +:+ ")" +:+
    line_feed)
  :: property_text "device node:  " (dev_path d)
  ++ property_text "manufacturer: " (dev_manufacturer d)
  ++ property_text "product:      " (dev_product d)
  ++ property_text "serial number:" (dev_serial d).

Definition printed (l : list string) (w : W) : W := foldl (fun w text => (puts text w).2) w l.

Definition program_react (f dev : ptr) (d : hs_device) (udata : ptr) (w : W) : Z * W :=
  (0, printed (device_text (event_name (dev_state d)) d) w).

Lemma getter_eq {A} (f : hs_device -> A) dev d (s : st W) :
  dev <> NULL -> m_devs (s_mem s) !! dev = Some d -> getter f dev s = Done (f d, s).
Proof.
  intros Hn Hd. unfold getter, bind, assert_, load_dev.
  rewrite (proj2 (Z.eqb_neq _ _) Hn). cbn. by rewrite Hd.
Qed.

(** The calls print [l] and do nothing else. *)
Definition prints {A} (a : A) (l : list string) (m : M (st W) A) (s : st W) : Prop :=
  m s = Done (a, with_world (printed l) s).

Lemma prints_bind {A B} (m : M (st W) A) (f : A -> M (st W) B) a b l1 l2 s :
  prints a l1 m s -> prints b l2 (f a) (with_world (printed l1) s) -> prints b (l1 ++ l2) (bind m f) s.
Proof.
  unfold prints, bind. intros -> ->. unfold with_world. cbn. unfold printed. by rewrite foldl_app.
Qed.

Lemma prints_ret {A} (a : A) s : prints a [] (ret a) s.
Proof. unfold prints. by destruct s. Qed.

Lemma prints_printf text s : prints tt [text] (printf text) s.
Proof.
  unfold prints, printf, os, with_world. cbn. by destruct (puts text (s_world s)) as [[] w].
Qed.

Lemma prints_getter {A} (f : hs_device -> A) dev d (s : st W) :
  dev <> NULL -> m_devs (s_mem s) !! dev = Some d -> prints (f d) [] (getter f dev) s.
Proof. intros Hn Hd. unfold prints. rewrite (getter_eq f dev d) by done. by destruct s. Qed.

Lemma prints_property name f dev d (s : st W) :
  dev <> NULL -> m_devs (s_mem s) !! dev = Some d ->
  prints tt (property_text name (f d)) (PRINT_PROPERTY name (getter f) dev) s.
Proof.
  intros Hn Hd. unfold PRINT_PROPERTY. apply (prints_bind _ _ (f d) _ []); [by apply prints_getter|].
  destruct (f d) as [v|] eqn:E; cbn [property_text]; [|apply prints_ret].
  apply (prints_bind _ _ (f d) _ []); [by apply prints_getter|]. rewrite E. apply prints_printf.
Qed.

Lemma prints_device event ev dev d (s : st W) :
  dev <> NULL -> m_devs (s_mem s) !! dev = Some d -> (forall s', m_devs (s_mem s') = m_devs (s_mem s) -> prints ev [] event s') ->
  prints 0 (device_text ev d) (print_device event dev) s.
Proof.
  intros Hn Hd Hev. unfold print_device, device_text.
  apply (prints_bind _ _ ev _ []); [by apply Hev|].
  do 5 (eapply (prints_bind _ _ _ _ []); [by apply prints_getter|]).
  eapply (prints_bind _ _ _ _ [_]); [apply prints_printf|].
  do 3 (eapply prints_bind; [by apply prints_property|]).
  rewrite <- (app_nil_r (property_text "serial number:" _)).
  eapply prints_bind; [by apply prints_property|apply prints_ret].
Qed.
End Callback.

(** The callback of monitor_devices shows a device and changes nothing of the
    library: what it prints is a function of the device, and it asks for more. *)
Lemma program_calm {W} `{Console W} : calm (W := W) program_call program_react.
Proof.
  intros f dev udata s d Hn Hd. unfold program_react, program_call, device_callback.
  change (prints 0 (device_text (event_name (dev_state d)) d) (print_device (let* status := hs_device_get_status dev in ret (event_name status)) dev) s).
  apply prints_device; [done|done|]. intros s' Hs'.
  apply (prints_bind _ _ (dev_state d) _ [] []); [apply prints_getter; [done|by rewrite Hs']|apply prints_ret].
Qed.

(** * main of enumerate_devices.c *)

(** With the exit status; [hs_enumerate] is that of the system. *)
Definition enumerate_devices_main {W St} `{Console W} (hs_enumerate : (ptr -> M (st W) Z) -> M St Z) : M St Z :=
  let* r := hs_enumerate list_device_callback in
  if r <? 0 then ret (- r) else ret 0.

(** * main of monitor_devices.c *)

Section MonitorDevices.
Context {W St : Type} `{Posix W} `{Allocator W} `{Console W} `{!Has (st W) St} `{!Discovery St}.
Variable fuel : nat.
(** The build with [_WIN32] defined. *)
Variable win32 : bool.
(** [STDIN_FILENO], or the standard input handle of Windows. *)
Variable stdin : Z.
Variable hs_monitor_get_descriptor : monitor_handle -> M St Z.
Variable hs_poll : hs_descriptor_set -> Z -> M St Z.

(** A function on the descriptor set, a local variable of [main]. *)
Definition on_set (f : M hs_descriptor_set unit) (set : hs_descriptor_set) : M St hs_descriptor_set :=
  fun s => match f set with
           | Done (_, set) => Done (set, s)
           | Fault e => Fault e
           | OutOfFuel => OutOfFuel
           end.

(** [hs_descriptor_set set = {0}] *)
Definition empty_set : hs_descriptor_set := DescSet 0 (replicate 64 0) (replicate 64 0).

(** The [do ... while (r == 1)] loop: the [r] it is left with, by [goto cleanup]
    when it is negative. *)
Fixpoint event_loop (monitor : monitor_handle) (set : hs_descriptor_set) (n : nat) : M St Z :=
  match n with
  | O => out_of_fuel
  | S n =>
      let* r := monitor_refresh monitor in
      if r <? 0 then ret r
      else
        let* r := hs_poll set (-1) in
        if r =? 1 then event_loop monitor set n else ret r
  end.

(** From the first [printf] to [cleanup:]. *)
Definition watch_devices (monitor : monitor_handle) : M St Z :=
  zoom (printf ("Current devices:" +:+ line_feed)) ;;;
  let* r := perform (W := W) fuel program_call monitor (AList DEVICE_CALLBACK NULL) in
  if r <? 0 then ret r
  else
    let* r := perform (W := W) fuel program_call monitor (ARegister DEVICE_CALLBACK NULL) in
    if r <? 0 then ret r
    else
      zoom (printf line_feed) ;;;
      let* desc := hs_monitor_get_descriptor monitor in
      let* set := on_set (hs_descriptor_set_add win32 desc 1) empty_set in
      let* set := on_set (hs_descriptor_set_add win32 stdin 2) set in
      zoom (printf ("Monitoring devices (press RETURN to end):" +:+ line_feed)) ;;;
      let* r := event_loop monitor set fuel in
      if r =? 2 then
        (if win32 then ret tt else zoom (os (W := W) tcflush)) ;;;
        ret 0
      else ret r.

(** [main], with the exit status. *)
Definition monitor_devices_main : M St Z :=
  let* rm := monitor_new in
  let* r :=
    if rm.1 <? 0 then ret rm.1
    else match rm.2 with
         | Some monitor => watch_devices monitor
         | None => fail AssertFailed
         end in
  monitor_free rm.2 ;;;
  ret (- r).

(** What makes the program end: the wait names the monitor [turns] times more at
    most, and a refresh does not make it more; then the terminal is ready, or the
    wait fails. [watched m desc]: [desc] is the descriptor of [m]. *)
Class Waits (works : St -> monitor_handle -> nat -> St -> Prop) (watched : monitor_handle -> Z -> Prop)
    (turns : St -> nat) (bound : nat) : Prop := {
  wt_bound : forall s0 m n s, works s0 m n s -> (turns s <= bound)%nat;
  wt_refresh : forall s0 m n s, works s0 m (S n) s ->
    wp (monitor_refresh m) (fun _ s' => works s0 m n s' /\ (turns s' <= turns s)%nat) s;
  wt_descriptor : forall s0 m n s, works s0 m n s -> exists desc,
    hs_monitor_get_descriptor m s = Done (desc, s) /\ watched m desc /\ desc_valid win32 desc;
  wt_poll : forall s0 m n s set desc, works s0 m (S n) s -> watched m desc -> ds_ok set -> elems set = [(desc, 1); (stdin, 2)] ->
    wp (hs_poll set (-1)) (fun r s' => works s0 m n s' /\ r <= 2 /\ (r = 1 -> (turns s' < turns s)%nat)) s
}.

Context {quiet ready works gone} `{!Promises fuel quiet ready works gone}.
Context {watched turns bound} `{!Waits works watched turns bound}.
Hypothesis allocs : allocator_documented.
Hypothesis puts_quiet : forall text w, quiet w (puts text w).2.
Hypothesis tcflush_quiet : forall w, quiet w (tcflush w).2.
Hypothesis stdin_valid : desc_valid win32 stdin.
Implicit Types (s : St) (m : monitor_handle).

Lemma printed_quiet l w : quiet w (printed l w).
Proof. revert w. induction l as [|text l IH]; intros w; cbn; [done|]. etrans; [apply puts_quiet|apply IH]. Qed.

(** A call of the terminal is an action. *)
Lemma wp_terminal {A} (c : sysc W A) s0 m n s : works s0 m (S n) s -> (forall w, quiet w (c w).2) ->
  wp (zoom (os c)) (fun _ s' => works s0 m n s') s.
Proof.
  intros Hw Hc. apply wp_zoom, wp_os. intros a w E. specialize (Hc (s_world (part s))). rewrite E in Hc.
  by eapply works_less.
Qed.

Lemma wp_device_action s0 m n s a : works s0 m (S n) s -> valid a ->
  wp (perform fuel program_call m a) (fun _ s' => works s0 m n s') s.
Proof.
  intros Hw Ha. eapply (wp_perform fuel program_call program_react program_calm allocs); [|done|done].
  intros f dev d udata w _. apply printed_quiet.
Qed.

Lemma set_added set desc id : ds_ok set -> ds_count set < DESC_MAX -> desc_valid win32 desc ->
  exists set', (forall s, on_set (hs_descriptor_set_add win32 desc id) set s = Done (set', s)) /\
    ds_ok set' /\ ds_count set' = ds_count set + 1 /\ elems set' = elems set ++ [(desc, id)].
Proof.
  intros Hok Hlt Hdesc. destruct (descriptor_set_added win32 set desc id Hok Hlt Hdesc) as (set' & E & Hset').
  exists set'. split; [|exact Hset']. intros s. unfold on_set. by rewrite E.
Qed.

Lemma wp_event_loop s0 m set desc k n s : watched m desc -> ds_ok set -> elems set = [(desc, 1); (stdin, 2)] ->
  works s0 m (S (2 * S k)) s -> (turns s <= k)%nat -> (k < n)%nat ->
  wp (event_loop m set n) (fun r s' => (r = 2 \/ r <= 0) /\ exists k, works s0 m (S k) s') s.
Proof.
  intros Hwd Hok Hset. revert k s. induction n as [|n IH]; intros k s Hw Hk Hn; [lia|]. cbn [event_loop].
  wp_step. replace (2 * S k)%nat with (S (S (2 * k))) in Hw by lia.
  eapply wp_mono; [by apply wt_refresh|]. intros r s1 [Hw1 Ht1].
  destruct (Z.ltb_spec r 0) as [Hr|Hr]; [wp_step; split; [lia|by eexists]|].
  wp_step. eapply wp_mono; [by eapply wt_poll|]. intros r2 s2 (Hw2 & Hr2 & Ht2).
  destruct (Z.eqb_spec r2 1) as [->|Hne]; [|wp_step; split; [lia|by eexists]].
  destruct k as [|k]; [lia|]. apply (IH k); [done|lia|lia].
Qed.

Lemma wp_watch_devices s0 m s : works s0 m (2 * S bound + 6) s -> (bound < fuel)%nat ->
  wp (watch_devices m) (fun r s' => r <= 0 /\ exists k, works s0 m k s') s.
Proof.
  intros Hw Hf. replace (2 * S bound + 6)%nat with (S (S (S (S (S (S (2 * S bound))))))) in Hw by lia.
  unfold watch_devices. wp_step. eapply wp_mono; [by apply wp_terminal|]. intros [] s1 Hw1.
  wp_step. eapply wp_mono; [apply wp_device_action; [exact Hw1|discriminate]|]. intros r2 s2 Hw2. cbv beta in Hw2.
  destruct (Z.ltb_spec r2 0) as [Hr|_]; [wp_step; split; [lia|eexists; exact Hw2]|].
  wp_step. eapply wp_mono; [apply wp_device_action; [exact Hw2|discriminate]|]. intros r3 s3 Hw3. cbv beta in Hw3.
  destruct (Z.ltb_spec r3 0) as [Hr|_]; [wp_step; split; [lia|eexists; exact Hw3]|].
  wp_step. eapply wp_mono; [by apply wp_terminal|]. intros [] s4 Hw4.
  destruct (wt_descriptor _ _ _ _ Hw4) as (desc & Ed & Hwd & Hdesc).
  wp_step. eapply wp_intro; [exact Ed|].
  destruct (set_added empty_set desc 1) as (set1 & E1 & Hok1 & Ec1 & El1); [by split_and!|done|done|].
  wp_step. eapply wp_intro; [apply E1|].
  destruct (set_added set1 stdin 2) as (set2 & E2 & Hok2 & _ & El2); [done|by rewrite Ec1|done|].
  wp_step. eapply wp_intro; [apply E2|]. rewrite El1 in El2.
  wp_step. eapply wp_mono; [by apply wp_terminal|]. intros [] s5 Hw5.
  wp_step. eapply wp_mono; [eapply (wp_event_loop s0 m set2 desc bound); [done|done|done|exact Hw5|by eapply wt_bound|done]|].
  intros r s6 [Hr (k & Hw6)]. destruct (Z.eqb_spec r 2) as [->|Hne]; [|wp_step; split; [lia|by eexists]].
  wp_step. destruct win32.
  - wp_step. wp_step. split; [done|by eexists].
  - eapply wp_mono; [by apply wp_terminal|]. intros [] s7 Hw7. wp_step. split; [done|by eexists].
Qed.

(** The program ends, whatever fails, with a status that is not negative, and leaves
    nothing. *)
Lemma wp_monitor_devices s : ready (2 * S bound + 6) s -> (bound < fuel)%nat ->
  wp monitor_devices_main (fun r s' => 0 <= r /\ gone s s') s.
Proof.
  intros Hr Hf. unfold monitor_devices_main. wp_step. eapply wp_mono; [by apply (pr_new fuel)|].
  intros [r [m|]] s1 [(Hr0 & m' & E & Hw)|(Hr0 & E & Hg)]; cbn [snd fst] in *; try done.
  - injection E as <-. wp_step. rewrite (proj2 (Z.ltb_ge _ _) Hr0).
    eapply wp_mono; [by apply wp_watch_devices|]. intros r1 s2 [Hr1 (k & Hw2)].
    wp_step. eapply wp_mono; [by eapply pr_free|]. intros [] s3 Hg. wp_step. split; [lia|done].
  - wp_step. rewrite (proj2 (Z.ltb_lt _ _) Hr0). wp_step. wp_step.
    eapply wp_intro; [apply (pr_free_null fuel)|]. wp_step. split; [lia|done].
Qed.
End MonitorDevices.
