(* ===== verification/ExamplesLinux.v ===== *)
(** monitor_devices.c on Linux: the program of Examples over the discovery of
    src/src/monitor_linux.c and the [hs_poll] of src/src/platform_posix.c. *)

From S2P Require Import Prelude Cstring Common DList Htable State Posix Platform Device Heap Monitor MonitorSpec World Discovery Lifetime Session MonitorLinux MonitorLinuxSpec SessionLinux Examples.

Definition STDIN_FILENO : Z := 0.

Definition linux_main {W} `{Posix W} `{Allocator W} `{Udev W} `{Console W} (fuel : nat) : M (st W) Z :=
  monitor_devices_main (Discovery0 := linux_discovery fuel program_call) fuel false STDIN_FILENO
    hs_monitor_get_descriptor (Platform.hs_poll fuel).

(** What the program needs of the terminal and of [poll]. [turns] bounds the times
    the monitor will still be ready: neither udev nor the terminal makes it more,
    and a wait that finds it ready makes it less. *)
Record desk_documented {W} `{Posix W} `{Udev W} `{Console W} (live : W -> Z) (turns : W -> nat) : Prop := {
  dk_handles : handles_documented live;
  (** the count of both keeps the documentation: udev leaves [turns] *)
  dk_udev : handles_documented (fun w => live w + Z.of_nat (turns w));
  dk_clock : forall w, live (clock_gettime w).2 = live w /\ (turns (clock_gettime w).2 <= turns w)%nat;
  dk_poll : forall fds t w, live (poll fds t w).2 = live w /\ (turns (poll fds t w).2 <= turns w)%nat;
  dk_ready : forall um t w n x revents w',
    poll [(udev_monitor_get_fd um, POLLIN); (STDIN_FILENO, POLLIN)] t w = (Ok (n, x :: revents), w') ->
    Z.land x POLL_READY <> 0 -> (turns w' < turns w)%nat;
  dk_puts : forall text w, live (puts text w).2 = live w /\ turns (puts text w).2 = turns w;
  dk_tcflush : forall w, live (tcflush w).2 = live w /\ turns (tcflush w).2 = turns w;
  dk_fd : forall um, 0 <= udev_monitor_get_fd um
}.

(** The callback only prints. *)
Lemma program_steady {W X} `{Console W} (g : W -> X) : (forall text w, g (puts text w).2 = g w) ->
  forall f dev udata, steady g (program_call f dev udata).
Proof.
  intros Hg f dev udata. assert (forall text, steady g (printf text)) by (intros text; by apply steady_os).
  assert (forall A (x : hs_device -> A) dev, steady g (getter (W := W) x dev)) by (intros; unfold getter; steady).
  unfold program_call, device_callback, print_device, PRINT_PROPERTY,
    hs_device_get_status, hs_device_get_type, hs_device_get_location, hs_device_get_interface_number,
    hs_device_get_vid, hs_device_get_pid, hs_device_get_path, hs_device_get_manufacturer_string,
    hs_device_get_product_string, hs_device_get_serial_number_string.
  steady.
Qed.

Section Desk.
Context {W : Type} `{Posix W} `{Allocator W} `{Udev W} `{Console W}.
Variable fuel : nat.
Hypothesis devpaths : devpath_documented.
Hypothesis allocs : allocator_documented.
Variable pending : udev_monitor -> W -> list udev_device.
Hypothesis sockets : forall um, socket_documented program_call um (pending um).
Variable backlog : nat.
Hypothesis bounded : forall um w, (length (pending um w) <= backlog)%nat.
Variable n : nat.
Hypothesis plugged_in : enumerable n.
Variable live : W -> Z.
Variable turns : W -> nat.
Hypothesis documented : desk_documented live turns.
Variable bound : nat.
Hypothesis polls : poll_documented.
Hypothesis clock : clock_documented.
Variable signals : W -> nat.
Hypothesis interrupted : finite_signals signals.
Hypothesis few_signals : forall w, (signals w < fuel)%nat.
Implicit Types (s : st W) (w : W).

#[local] Instance discovery : Discovery (st W) := linux_discovery fuel program_call.

Definition both w : Z := live w + Z.of_nat (turns w).

Lemma call_live f dev udata : steady live (program_call f dev udata).
Proof. apply program_steady. apply documented. Qed.

Lemma call_both f dev udata : steady both (program_call f dev udata).
Proof. apply program_steady. intros text w. unfold both. destruct (dk_puts _ _ documented text w) as [-> ->]. done. Qed.

(** [working], with the turns that are left. *)
Definition waiting s0 (m : linux_monitor W) (k : nat) s : Prop :=
  working fuel backlog live s0 m k s /\ (turns (s_world s) <= bound)%nat.

Definition ready_to_wait (k : nat) s : Prop :=
  enough_for fuel backlog n k s /\ (turns (s_world s) <= bound)%nat.

Definition undisturbed w w' : Prop := live w' = live w /\ turns w' = turns w.

Lemma turns_kept w w' : live w' = live w -> both w' = both w -> turns w' = turns w.
Proof. unfold both. lia. Qed.

Lemma waiting_refresh s0 m k s : waiting s0 m (S k) s ->
  wp (hs_monitor_refresh fuel program_call m)
    (fun _ s' => waiting s0 m k s' /\ turns (s_world s') = turns (s_world s)) s.
Proof.
  intros [Hw Ht]. eapply wp_mono; [eapply (wp_steady both);
    [|apply (steady_refresh both (dk_udev _ _ documented) program_call call_both fuel)]|].
  { eapply (working_refresh fuel program_call program_react program_calm devpaths allocs pending sockets backlog bounded
      live (dk_handles _ _ documented) call_live); exact Hw. }
  intros r s' [Hw' Hb]. pose proof (proj1 (proj2 Hw)) as E1. pose proof (proj1 (proj2 Hw')) as E2.
  assert (turns (s_world s') = turns (s_world s)) as E by (apply turns_kept; [congruence|exact Hb]).
  split; [|done]. split; [done|lia].
Qed.

Lemma waiting_new k s : ready_to_wait k s -> wp (hs_monitor_new fuel program_call) (fun rm s' =>
  (0 <= rm.1 /\ exists m, rm.2 = Some m /\ waiting s m k s') \/ (rm.1 < 0 /\ rm.2 = None /\ given_back live s s')) s.
Proof.
  intros [Hr Ht]. eapply wp_mono; [eapply (wp_counts both);
    [|apply (counts_new both (dk_udev _ _ documented) program_call call_both fuel)]|].
  { eapply (working_new fuel program_call program_react program_calm devpaths allocs backlog n plugged_in
      live (dk_handles _ _ documented) call_live); exact Hr. }
  intros [r m] s' [[(Hr0 & m' & E & Hw)|(Hr0 & E & Hg)] Hb]; cbn [fst snd] in *; subst m; [left|by right].
  split; [done|]. exists m'. split; [done|]. split; [done|].
  destruct Hw as ([um Eum] & Hl & _). unfold handle in Hb. rewrite Eum in Hb. unfold both in Hb. lia.
Qed.

#[local] Instance desk_promises : Promises (Discovery0 := discovery) fuel undisturbed ready_to_wait waiting (given_back live).
Proof.
  pose proof (linux_promises fuel program_call program_react program_calm devpaths allocs pending sockets backlog bounded
    n plugged_in live (dk_handles _ _ documented) call_live) as Hp.
  split.
  - unfold undisturbed. split; [done|]. intros w1 w2 w3. intuition congruence.
  - intros w. assert (live (malloc_ok w).2 = live w) as E by apply (ha_malloc _ (dk_handles _ _ documented)).
    split; [done|]. apply turns_kept; [done|]. apply (ha_malloc _ (dk_udev _ _ documented)).
  - apply waiting_new.
  - done.
  - intros s0 m k s Hw. eapply wp_mono; [by apply waiting_refresh|]. by intros r s' [Hw' _].
  - intros s0 m k s [Hw _]. by eapply (working_free fuel backlog live (dk_handles _ _ documented)).
  - intros s0 m k s [Hw Ht]. destruct Hp as [_ _ _ _ _ _ Hreg]. destruct (Hreg _ _ _ _ Hw) as (mo & cbs & bs & D & Ho & Hf & Hid & Hkeep).
    exists mo, cbs, bs, D. split_and!; [done..|]. intros y mo' cbs' Ho' Ed Eid Hlen Es [El Et].
    split; [by eapply Hkeep|]. cbn. cbn in Et. lia.
Qed.
Definition watches (m : linux_monitor W) (desc : Z) : Prop :=
  exists um, lm_monitor m = Some um /\ desc = udev_monitor_get_fd um.

Definition goes_on w w' : Prop := live w' = live w /\ (turns w' <= turns w)%nat.

Lemma poll_goes_on : poll_keeps goes_on.
Proof.
  split; unfold goes_on; [|apply documented..].
  split; [done|]. intros w1 w2 w3 [E1 L1] [E2 L2]. split; [congruence|lia].
Qed.

Lemma waiting_same s0 m k s s' : waiting s0 m (S k) s -> s_mem s' = s_mem s -> goes_on (s_world s) (s_world s') ->
  waiting s0 m k s'.
Proof.
  intros [(Hm & Hl & mo & cbs & bs & D & Ho & Hroom & Hid) Ht] Em [El Et]. split; [|lia].
  split; [done|]. split; [congruence|]. exists mo, cbs, bs, D.
  split; [eapply owns_same; [exact Ho|by apply same_objects_mem]|]. unfold room in *. cbn [Nat.mul] in Hroom. split; lia.
Qed.

Lemma waiting_poll s0 m k s set desc : waiting s0 m (S k) s -> watches m desc -> ds_ok set ->
  elems set = [(desc, 1); (STDIN_FILENO, 2)] ->
  wp (Platform.hs_poll fuel set (-1)) (fun r s' => waiting s0 m k s' /\ r <= 2 /\
    (r = 1 -> (turns (s_world s') < turns (s_world s))%nat)) s.
Proof.
  intros Hw (um & Eum & ->) Hok Hel.
  assert (0 < ds_count set) as Hpos.
  { apply (f_equal length) in Hel. rewrite elems_length in Hel by done. cbn in Hel. lia. }
  eapply wp_mono; [by apply (wp_hs_poll signals goes_on); [| | |apply poll_goes_on|..]|].
  intros r s' (res & t & w & Ep & [El Et] & _ & Em & Hres). rewrite Hel in Ep, Hres. cbn in Ep.
  pose proof (dk_poll _ _ documented [(udev_monitor_get_fd um, POLLIN); (STDIN_FILENO, POLLIN)] t w) as [El2 Et2].
  rewrite Ep in El2, Et2. cbn in El2, Et2.
  split; [eapply waiting_same; [done|done|split; [congruence|lia]]|].
  destruct res as [[c revents]|e]; [|destruct Hres as [_ ->]; unfold HS_ERROR_SYSTEM; split; [lia|done]].
  destruct (c =? 0); [subst r; split; [lia|done]|].
  destruct revents as [|x revents]; [done|]. cbn [first_ready] in Hres.
  destruct (Z.eqb_spec (Z.land x POLL_READY) 0) as [E|E].
  - destruct revents as [|y revents]; [done|]. destruct (Z.land y POLL_READY =? 0); [done|].
    injection Hres as <-. split; [lia|done].
  - injection Hres as <-. split; [lia|]. intros _. pose proof (dk_ready _ _ documented _ _ _ _ _ _ _ Ep E). lia.
Qed.

#[local] Instance desk_waits : Waits (Discovery0 := discovery) false STDIN_FILENO hs_monitor_get_descriptor
  (Platform.hs_poll fuel) waiting watches (fun s => turns (s_world s)) bound.
Proof.
  split.
  - by intros s0 m k s [_ Ht].
  - intros s0 m k s Hw. eapply wp_mono; [by apply waiting_refresh|]. intros r s' [Hw' E]. split; [done|]. by rewrite E.
  - intros s0 m k s [([um Eum] & _) _]. exists (udev_monitor_get_fd um). split_and!.
    + unfold hs_monitor_get_descriptor. by rewrite Eum.
    + by exists um.
    + apply documented.
  - intros s0 m k s set desc Hw Hd Hok Hel. by apply waiting_poll with desc.
Qed.

Lemma wp_linux_main s : ready_to_wait (2 * S bound + 6) s -> (bound < fuel)%nat ->
  wp (linux_main fuel) (fun r s' => 0 <= r /\ given_back live s s') s.
Proof.
  intros Hr Hf. unfold linux_main. eapply (wp_monitor_devices (Discovery0 := discovery) fuel false STDIN_FILENO
    hs_monitor_get_descriptor (Platform.hs_poll fuel) allocs);
    [|apply documented|done|exact Hr|exact Hf].
  intros text w. apply documented.
Qed.
End Desk.

(** C9: monitor_devices on Linux. Whatever fails on the way, the program ends: its
    loop turns as long as the monitor is what is ready, every call returns without
    fault, and the exit status is not negative. At the end the memory of the
    library and the number of handles of udev are what they were. *)
Theorem monitor_devices_leaves_nothing {W} `{Posix W} `{Allocator W} `{Udev W} `{Console W} pending backlog live turns
    bound signals fuel n (s : st W) :
  devpath_documented -> allocator_documented -> (forall um, socket_documented program_call um (pending um)) ->
  (forall um w, (length (pending um w) <= backlog)%nat) -> enumerable n -> desk_documented live turns ->
  poll_documented -> clock_documented -> finite_signals signals -> (forall w, (signals w < fuel)%nat) ->
  (turns (s_world s) <= bound)%nat -> (n + (2 * S bound + 6) * S backlog + 66 < fuel)%nat -> Z.of_nat (2 * S bound + 6) <= INT_MAX ->
  exists r s', linux_main fuel s = Done (r, s') /\ 0 <= r /\
    same_objects s s' /\ live (s_world s') = live (s_world s).
Proof.
  intros Hdev Hal Hsock Hback Hn Hdesk Hpoll Hclock Hsig Hfew Ht Hf Hmax.
  assert (ready_to_wait fuel backlog n turns bound (2 * S bound + 6) s) as Hr by done.
  destruct (wp_inv _ _ _ (wp_linux_main fuel Hdev Hal pending Hsock backlog Hback n Hn live turns Hdesk bound Hpoll Hclock
    signals Hsig Hfew s Hr ltac:(lia))) as (r & s' & E & Hr0 & Hs & Hl).
  by exists r, s'.
Qed.

(** ** The computer of MonitorLinux, with a terminal *)

#[export] Instance linuxw_console : Console linuxw := {|
  puts text w := (tt, LinuxW (lw_live w) (lw_now w) (lw_later w) (lw_out w ++ [text]) (lw_patience w));
  tcflush w := (tt, w)
|}.

Lemma linuxw_program_socket : socket_documented (H1 := linuxw_udev) program_call tt lw_queue.
Proof.
  split; try done.
  - intros [n [| | |] l o k]; cbn; eauto.
  - by apply program_steady.
Qed.

Lemma linuxw_desk : desk_documented (H0 := linuxw_udev) lw_live lw_turns.
Proof.
  split; try done.
  - exact linuxw_handles.
  - destruct linuxw_handles as [Hd Hr Hu He Heu Hm Hmu _ _ _ _ _ _ _ _ _ _]. split; try done.
    + intros udev name w. rewrite Hd. replace (lw_turns _) with (lw_turns w) by by cbn; case_bool_decide. lia.
    + intros um w. rewrite Hr. replace (lw_turns (_ _ _).2) with (lw_turns w) by by destruct w as [? [] ? ? ?]. lia.
    + intros d w. rewrite Hu. change (lw_turns (_ _ _).2) with (lw_turns w). lia.
    + intros udev w. rewrite He. change (lw_turns (_ _ _).2) with (lw_turns w). lia.
    + intros en w. rewrite Heu. change (lw_turns (_ _ _).2) with (lw_turns w). lia.
    + intros udev name w. rewrite Hm. change (lw_turns (_ _ _ _).2) with (lw_turns w). lia.
    + intros um w. rewrite Hmu. change (lw_turns (_ _ _).2) with (lw_turns w). lia.
  - intros fds t w. cbn. destruct (lw_queue w), (lw_turns w) as [|k] eqn:Ek; cbn; split; try lia.
    unfold lw_turns. cbn. case_match; lia.
  - intros um t w n x revents w' E Hx. cbn in E. destruct (lw_queue w), (lw_turns w) as [|k] eqn:Ek;
      injection E as <- <- <- <-; try done. unfold lw_turns. cbn. case_match; lia.
Qed.

Lemma linuxw_poll : poll_documented (W := linuxw).
Proof.
  assert (forall fd fds, Exists (fun x => Z.land x POLL_READY <> 0) (lw_ready fd fds) \/ count_ready (lw_ready fd fds) = 0) as Hx.
  { intros fd fds. induction fds as [|[x ev] fds IH]; [by right|]. unfold lw_ready, count_ready in *. cbn.
    destruct (x =? fd); [by left; left|]. destruct IH as [IH|IH]; [by left; right|by right]. }
  intros descs t w r revents w' E. set (fds := (fun d => (d, POLLIN)) <$> descs) in *.
  assert (forall fd, length (lw_ready fd fds) = length descs) as Hl.
  { intros fd. unfold lw_ready, fds. by rewrite !length_fmap. }
  cbn in E. destruct (lw_queue w), (lw_turns w) as [|k]; injection E as <- <- <-;
    (split; [apply Hl|intros Hr; by edestruct Hx]).
Qed.

Lemma linuxw_clock : clock_documented (W := linuxw).
Proof. intros w. by exists 0, 0, w. Qed.

Lemma linuxw_signals : finite_signals (W := linuxw) (fun _ => 0%nat).
Proof.
  split; try (intros; lia); try (intros; split; [lia|]; intros ->; done).
  intros fds t w r w' E. split; [lia|]. intros ->. cbn in E. by destruct (lw_queue w), (lw_turns w).
Qed.

Lemma monitor_devices_leaves_nothing_witness :
  exists r s', linux_main (H0 := bump) (H1 := linuxw_udev) 200 lstart = Done (r, s') /\ 0 <= r /\
    same_objects lstart s' /\ lw_live (s_world s') = 0.
Proof.
  apply (@monitor_devices_leaves_nothing linuxw linuxw_posix bump linuxw_udev linuxw_console (fun _ => lw_queue) 3
    lw_live lw_turns 3 (fun _ => 0%nat) 200 2 lstart).
  - exact linuxw_devpaths.
  - exact bump_documented.
  - intros []. exact linuxw_program_socket.
  - intros um [n [| | |] l o k]; apply Nat.leb_le; reflexivity.
  - exact linuxw_enumerable.
  - exact linuxw_desk.
  - exact linuxw_poll.
  - exact linuxw_clock.
  - exact linuxw_signals.
  - intros w. apply Nat.ltb_lt. reflexivity.
  - apply Nat.leb_le. by vm_compute.
  - apply Nat.ltb_lt. by vm_compute.
  - apply Z.leb_le. by vm_compute.
Defined.

(** What it prints: the keyboard as the monitor finds it, then its removals and
    arrivals as the user waits. *)
Definition keyboard_text (event : string) : string :=
  event +:+ " usb-1-4-2@0 16c0:0486 (hid)" +:+ line_feed +:+
  "  - device node:   /dev/hidraw0" +:+ line_feed +:+
  "  - product:       Keyboard" +:+ line_feed.

Example linux_main_output :
  match linux_main (H0 := bump) (H1 := linuxw_udev) 200 lstart with
  | Done (r, s) => r = 0 /\ String.concat "" (lw_out (s_world s)) =
      "Current devices:" +:+ line_feed +:+ keyboard_text "add" +:+ line_feed +:+
      "Monitoring devices (press RETURN to end):" +:+ line_feed +:+
      keyboard_text "remove" +:+ keyboard_text "add" +:+ keyboard_text "remove" +:+ keyboard_text "add"
  | _ => False
  end.
Proof. vm_compute. by split. Qed.

(** ** enumerate_devices on Linux *)

(** The program prints the devices there are and gives the library back as it was;
    its status is 0, or the number of the error of the enumeration. *)
Theorem enumerate_devices_leaves_nothing {W} `{Posix W} `{Allocator W} `{Udev W} `{Console W} (s : st W) :
  devpath_documented -> allocator_documented ->
  exists r s', enumerate_devices_main hs_enumerate s = Done (r, s') /\ same_objects s s' /\ 0 <= r.
Proof.
  intros Hdev Hal. apply wp_inv. unfold enumerate_devices_main. wp_step.
  destruct (hs_enumerate_balanced list_device_callback (fun r => r = 0) s Hdev Hal) as (r & s' & E & Hs & Hr).
  - intros p d agg s1 Hp Hn Hd. eexists 0, _. split; [by apply (prints_device (ret "+") "+" p d); [..|intros; apply prints_ret]|].
    by repeat split.
  - eapply wp_intro; [exact E|]. destruct (Z.ltb_spec r 0); wp_step; (split; [done|lia]).
Qed.

Example enumerate_devices_output :
  match enumerate_devices_main (hs_enumerate (H0 := bump) (H1 := linuxw_udev)) lstart with
  | Done (r, s) => r = 0 /\ String.concat "" (lw_out (s_world s)) = keyboard_text "+"
  | _ => False
  end.
Proof. vm_compute. by split. Qed.
