(* ===== verification/UsbWin32.v ===== *)
(** What the configuration manager of Windows says of a USB device: the first
    part of src/src/monitor_win32.c, up to [process_win32_device]. Paths and
    identifiers are strings; a wide string is the list of its bytes. *)

From Stdlib Require Import Ascii.
From S2P Require Import Prelude Cstring Common DList Htable State Posix Platform Device Heap Monitor Location Win32.

Record GUID := Guid { Data1 : Z; Data2 : Z; Data3 : Z; Data4 : list Z }.

(** USB_NODE_CONNECTION_INFORMATION_EX: whether the status is DeviceConnected,
    and the string indices of the device descriptor. *)
Record usb_node := UsbNode {
  un_connected : bool;
  iManufacturer : Z;
  iProduct : Z;
  iSerialNumber : Z
}.

(** What IOCTL_USB_GET_DESCRIPTOR_FROM_NODE_CONNECTION stores: the length of
    the request and the answer, and the fields of the string descriptor. *)
Record usb_string := UsbString {
  us_len : Z;
  us_bLength : Z;
  us_bDescriptorType : Z;
  us_bString : list Z
}.

(** The configuration manager, the registry, the hubs and the HID driver. A
    device instance, a set, a registry key and a handle are integers. *)
Class Cfgmgr (W : Type) := {
  GUID_DEVINTERFACE_USB_DEVICE : GUID;
  GUID_DEVINTERFACE_USB_HUB : GUID;
  GUID_DEVINTERFACE_USB_HOST_CONTROLLER : GUID;
  hid_guid : GUID;
  (** CM_Get_Device_ID(inst, buf, size, 0) *)
  CM_Get_Device_ID : Z -> Z -> sysc W (wsys string);
  CM_Get_Parent : Z -> sysc W (wsys Z);
  CM_Get_Child : Z -> sysc W (wsys Z);
  CM_Locate_DevNode : string -> sysc W (wsys Z);
  (** CM_Get_DevNode_Registry_Property of CM_DRP_LOCATION_INFORMATION and
      CM_DRP_DRIVER *)
  CM_location_information : Z -> sysc W (wsys string);
  CM_driver : Z -> sysc W (wsys string);
  CM_Open_DevNode_Key : Z -> sysc W (wsys Z);
  RegQueryValueEx_PortName : Z -> sysc W (wsys string);
  RegCloseKey : Z -> sysc W unit;
  (** DeviceIoControl on a hub: the number of ports; a port; the length of the
      driver key of a port, then its length and its bytes for a buffer of a
      size; a string descriptor. [None] when it fails. *)
  ioctl_NODE_INFORMATION : Z -> sysc W (option Z);
  ioctl_NODE_CONNECTION_INFORMATION : Z -> Z -> sysc W (option usb_node);
  ioctl_DRIVERKEY_LENGTH : Z -> Z -> sysc W (option Z);
  ioctl_DRIVERKEY_NAME : Z -> Z -> Z -> sysc W (option (Z * list Z));
  ioctl_DESCRIPTOR : Z -> Z -> Z -> sysc W (option usb_string);
  (** WideCharToMultiByte of a wide string: the length it needs, and the
      string for a buffer of that length *)
  WideCharToMultiByte_length : list Z -> sysc W (wsys Z);
  WideCharToMultiByte : list Z -> Z -> sysc W (wsys string);
  (** the 512 bytes of the buffer *)
  HidD_GetManufacturerString : Z -> sysc W (option (list Z));
  HidD_GetProductString : Z -> sysc W (option (list Z));
  HidD_GetSerialNumberString : Z -> sysc W (option (list Z));
  (** INVALID_HANDLE_VALUE on failure *)
  SetupDiGetClassDevs : GUID -> sysc W Z;
  SetupDiEnumDeviceInfo : Z -> Z -> sysc W (option Z);
  SetupDiDestroyDeviceInfoList : Z -> sysc W unit
}.

Definition MAX_USB_DEPTH : Z := 8.
Definition HS_WIN32_VERSION_VISTA : Z := 600.
Definition USB_STRING_DESCRIPTOR_TYPE : Z := 3.

(** * Paths and identifiers *)

Definition backslash : ascii := "\"%char.

Definition slash_to_hash (c : ascii) : ascii := if Ascii.eqb c backslash then "#"%char else c.

Definition hex_bytes (l : list Z) : string := foldr (fun b s => pad0 2 (print_x b) +:+ s) "" l.

(** "{%08lx-%04x-%04x-%02x%02x-%02x%02x%02x%02x%02x%02x}" *)
Definition print_guid (g : GUID) : string :=
  "{" +:+ pad0 8 (print_x (Data1 g)) +:+ "-" +:+ pad0 4 (print_x (Data2 g)) +:+ "-" +:+
  pad0 4 (print_x (Data3 g)) +:+ "-" +:+ hex_bytes (take 2 (Data4 g)) +:+ "-" +:+
  hex_bytes (take 6 (drop 2 (Data4 g))) +:+ "}".

(** The path of the interface [guid] of the device [id]. *)
Definition device_path (id : string) (guid : GUID) : string :=
  "\\.\" +:+ string_map slash_to_hash id +:+ "#" +:+ print_guid guid.

(** [toupper] in the C locale. *)
Definition toupper (c : ascii) : ascii :=
  if (97 <=? code c) && (code c <=? 122) then chr (code c - 32) else c.

(** The loop that ends [extract_device_id]. *)
Definition id_char (c : ascii) : ascii :=
  let c := toupper c in if Ascii.eqb c "#"%char then backslash else c.

(** [strncmp(s, p, strlen(p)) == 0] *)
Definition starts_with (p s : string) : bool := String.prefix p s.

Definition strip (n : nat) (s : string) : string := String.substring n (String.length s - n) s.

(** The prefix of a path that is not part of the identifier. *)
Definition skip_prefix (key : string) : string :=
  if starts_with "\\?\" key || starts_with "\\.\" key ||
     starts_with "##.#" key || starts_with "##?#" key
  then strip 4 key else key.

(** Without the class at the end, when there is one. *)
Definition cut_class (id : string) : string :=
  match strrpbrk id "\#" with
  | Some i =>
      if bool_decide (String.get (S i) id = Some "{"%char)
      then String.substring 0 i id else id
  | None => id
  end.

Definition device_id_of (key : string) : string :=
  string_map id_char (cut_class (skip_prefix key)).

(** ** Reading with [sscanf] *)

(** A literal of the format: what follows it. *)
Definition scan_literal (p s : string) : option string :=
  if starts_with p s then Some (strip (String.length p) s) else None.

(** "%<w>u" and "%<w>x": at most [w] characters after spaces. *)
Definition scan_width (base : Z) (w : nat) (s : string) : option (Z * string) :=
  let s := skip_spaces s in
  let '(neg, pre) := scan_sign (String.substring 0 w s) in
  let pre := skip_0x base pre in
  if starts_digit base pre then
    let '(v, rest) := scan_digits base 0 pre in
    Some (if neg : bool then - v else v, rest +:+ strip w s)
  else None.

(** [sscanf(buf, "Port_#%04hhu", &port)] with [port] 0 before. *)
Definition scan_port (buf : string) : Z :=
  match scan_literal "Port_#" buf with
  | Some rest => match scan_width 10 4 rest with Some (v, _) => u8 v | None => 0 end
  | None => 0
  end.

(** [sscanf(buf, "USB\\VID_%04hx&PID_%04hx&MI_%02hhu", ...)]: the values that
    are stored. *)
Definition scan_usb_id (buf : string) : list Z :=
  match scan_literal "USB\VID_" buf with
  | None => []
  | Some s =>
      match scan_width 16 4 s with
      | None => []
      | Some (vid, s) =>
          match scan_literal "&PID_" s with
          | None => [u16 vid]
          | Some s =>
              match scan_width 16 4 s with
              | None => [u16 vid]
              | Some (pid, s) =>
                  match scan_literal "&MI_" s with
                  | None => [u16 vid; u16 pid]
                  | Some s =>
                      match scan_width 10 2 s with
                      | None => [u16 vid; u16 pid]
                      | Some (mi, _) => [u16 vid; u16 pid; u8 mi]
                      end
                  end
              end
          end
      end
  end.

(** [wcslen] of a wide string, in bytes; without a null character it runs past
    the end. *)
Fixpoint wcslen2 (wide : list Z) : option Z :=
  match wide with
  | a :: b :: wide =>
      if (a =? 0) && (b =? 0) then Some 0 else Z.add 2 <$> wcslen2 wide
  | _ => None
  end.

(** struct usb_controller and the state of the discovery: the list
    [controllers] as the sequence of its elements, with the library. *)
Record usb_controller := UsbController { uc_index : Z; uc_roothub_id : string }.

Section UsbWin32.
Context {W : Type} `{Win32 W} `{Cfgmgr W}.
Variable fuel : nat.

Definition log (level : hs_log_level) (msg : string) : M (st W) unit := zoom (hs_log level msg).

(** [strdup] and [asprintf]: [None] without memory. *)
Definition win_strdup (s : string) : M (st W) (option string) :=
  let* ok := os heap_ok in
  ret (if ok : bool then Some s else None).

(** GetLastError() after a call that failed, for a message. *)
Definition last_error {A} (r : wsys A) : string :=
  match r with WErr e => hs_win32_strerror e | WOk _ => hs_win32_strerror 0 end.

Definition build_device_path (id : string) (guid : GUID) : M (st W) (Z * option string) :=
  let* path := win_strdup (device_path id guid) in
  match path with
  | None =>
      let* r := memory_error in
      ret (r, None)
  | Some path => ret (0, Some path)
  end.

Definition extract_device_id (key : string) : M (st W) (Z * option string) :=
  let* id := win_strdup (device_id_of key) in
  match id with
  | None =>
      let* r := memory_error in
      ret (r, None)
  | Some id => ret (0, Some id)
  end.

Definition hex_cret (cret : Z) : string := "0x" +:+ print_x cret.

Definition find_device_port_vista (inst : Z) : M (st W) Z :=
  let* buf := os (CM_location_information inst) in
  match buf with
  | WErr _ =>
      log HS_LOG_DEBUG "No location information on this device node" ;;;
      ret 0
  | WOk buf => ret (scan_port buf)
  end.

Definition build_location_string (ports : list Z) (depth : Z) : M (st W) (Z * option string) :=
  let* buf := location_loop ports 0 (Z.to_nat depth) "usb" (256 - 3) in
  let* path := win_strdup buf in
  match path with
  | None =>
      let* r := memory_error in
      ret (r, None)
  | Some path => ret (0, Some path)
  end.

(** [size] bytes of [wide], as a string. *)
Definition wide_to_cstring (wide : list Z) (size : Z) : M (st W) (Z * option string) :=
  let* ok := os heap_ok in
  if negb ok then
    let* r := memory_error in
    ret (r, None)
  else if (size <? 0) || (Z.of_nat (length wide) <? size) then fail OutOfBounds
  else
    let tmp := take (Z.to_nat size) wide ++ [0; 0] in
    let* len := os (WideCharToMultiByte_length tmp) in
    match len with
    | WErr e =>
        let* r := error HS_ERROR_SYSTEM
          ("Failed to convert UTF-16 string to local codepage: " +:+ hs_win32_strerror e) in
        ret (r, None)
    | WOk len =>
        let* ok := os heap_ok in
        if negb ok then
          let* r := memory_error in
          ret (r, None)
        else
          let* s := os (WideCharToMultiByte tmp len) in
          match s with
          | WErr e =>
              let* r := error HS_ERROR_SYSTEM
                ("Failed to convert UTF-16 string to local codepage: " +:+ hs_win32_strerror e) in
              ret (r, None)
          | WOk s => ret (0, Some s)
          end
    end.

Definition ioctl_failed (name : string) : M (st W) (Z * option string) :=
  log HS_LOG_WARNING ("DeviceIoControl(" +:+ name +:+ ") failed") ;;;
  ret (0, None).

(** The result and [*rkey]. The size of [pseudo] is 10 bytes. *)
Definition get_port_driverkey (hub port : Z) : M (st W) (Z * option string) :=
  let* ok := os heap_ok in
  if negb ok then
    let* r := memory_error in
    ret (r, None)
  else
    let* node := os (ioctl_NODE_CONNECTION_INFORMATION hub port) in
    match node with
    | None => ioctl_failed "IOCTL_USB_GET_NODE_CONNECTION_INFORMATION_EX"
    | Some node =>
        if negb (un_connected node) then ret (0, None)
        else
          let* length := os (ioctl_DRIVERKEY_LENGTH hub port) in
          match length with
          | None => ioctl_failed "IOCTL_USB_GET_NODE_CONNECTION_DRIVERKEY_NAME"
          | Some length =>
              let* ok := os heap_ok in
              if negb ok then
                let* r := memory_error in
                ret (r, None)
              else
                let* wide := os (ioctl_DRIVERKEY_NAME hub port length) in
                match wide with
                | None => ioctl_failed "IOCTL_USB_GET_NODE_CONNECTION_DRIVERKEY_NAME"
                | Some (len, name) =>
                    let* rk := wide_to_cstring name (u64 (u64 (len - 10) + 1)) in
                    if rk.1 <? 0 then ret (rk.1, None) else ret (1, rk.2)
                end
          end
    end.

(** The value of the handle CreateFile returns, with its error. *)
Definition handle_of (r : wsys Z) : Z :=
  match r with WOk h => h | WErr _ => INVALID_HANDLE_VALUE end.

(** The loop over the ports, from [port] with the result [r] of the last one;
    [port] is an [uint8_t]. *)
Fixpoint port_loop (fuel : nat) (h : Z) (child_key : string) (nports port r : Z) : M (st W) Z :=
  match fuel with
  | O => out_of_fuel
  | S fuel =>
      if negb (port <=? nports) then ret r
      else
        let* rk := get_port_driverkey h port in
        let '(r, key) := rk in
        if r <? 0 then ret r
        else if r =? 0 then port_loop fuel h child_key nports (u8 (port + 1)) r
        else
          match key with
          | None => fail BadAccess
          | Some key =>
              if bool_decide (key = child_key) then ret port
              else port_loop fuel h child_key nports (u8 (port + 1)) r
          end
  end.

Definition find_device_port_xp (hub_id child_key : string) : M (st W) Z :=
  let* rp := build_device_path hub_id GUID_DEVINTERFACE_USB_HUB in
  let '(r, path) := rp in
  if r <? 0 then ret r
  else
    let* created := os (CreateFile (str path)) in
    let h := handle_of created in
    if h =? 0 then
      error HS_ERROR_SYSTEM
        ("Failed to open USB hub '" +:+ str path +:+ "': " +:+ last_error created)
    else
      log HS_LOG_DEBUG
        ("Asking HUB at '" +:+ str path +:+ "' for port information (XP code path)") ;;;
      let* node := os (ioctl_NODE_INFORMATION h) in
      let* r := (match node with
                 | None =>
                     log HS_LOG_WARNING "DeviceIoControl(IOCTL_USB_GET_NODE_INFORMATION) failed" ;;;
                     ret 0
                 | Some nports => port_loop fuel h child_key nports 1 r
                 end) in
      os (CloseHandle h) ;;;
      ret r.

(** * The location of a device *)

(** [find_controller]: the index of the controller with this root hub, or 0. *)
Fixpoint find_controller (controllers : list usb_controller) (id : string) : Z :=
  match controllers with
  | [] => 0
  | controller :: controllers =>
      if bool_decide (uc_roothub_id controller = id) then uc_index controller
      else find_controller controllers id
  end.

Definition log_cret (what : string) (cret : Z) : M (st W) unit :=
  log HS_LOG_WARNING (what +:+ " failed: " +:+ hex_cret cret).

(** The first loop: the USB node, its identifier and its parent; [None] for
    [return 0]. *)
Fixpoint skip_to_usb (fuel : nat) (parent : Z) : M (st W) (option (Z * string * Z)) :=
  match fuel with
  | O => out_of_fuel
  | S fuel =>
      let inst := parent in
      let* id := os (CM_Get_Device_ID inst 256) in
      match id with
      | WErr cret =>
          log_cret "CM_Get_Device_ID()" cret ;;;
          ret None
      | WOk id =>
          log HS_LOG_DEBUG ("Going through device parents to find USB node: '" +:+ id +:+ "'") ;;;
          let* parent := os (CM_Get_Parent inst) in
          match parent with
          | WErr _ => ret None
          | WOk parent =>
              if starts_with "USB\" id then ret (Some (inst, id, parent))
              else skip_to_usb fuel parent
          end
      end
  end.

(** The port of [inst] on the hub [id]; [None] for [return 0]. *)
Definition find_device_port (inst : Z) (id : string) : M (st W) (option Z) :=
  let* version := hs_win32_version in
  if HS_WIN32_VERSION_VISTA <=? version then
    let* r := find_device_port_vista inst in
    ret (Some r)
  else
    let* child_key := os (CM_driver inst) in
    match child_key with
    | WErr cret =>
        log_cret "Failed to get device driver key" cret ;;;
        ret None
    | WOk child_key =>
        let* r := find_device_port_xp id child_key in
        ret (Some r)
    end.

(** [strstr(id, "\\ROOT_HUB")] *)
Definition is_root_hub (id : string) : bool :=
  match String.index 0 "\ROOT_HUB" id with Some _ => true | None => false end.

(** The port of [inst] on the hub [id], added to the array: [inl r] for
    [return r]. *)
Definition store_port (inst : Z) (id : string) (ports : list Z) (depth : Z)
    : M (st W) (Z + list Z * Z) :=
  let* r := find_device_port inst id in
  match r with
  | None => ret (inl 0)
  | Some r =>
      if r <? 0 then ret (inl r)
      else if negb (r =? 0) then
        let* ports := arr_set ports depth (u8 r) in
        log HS_LOG_DEBUG ("Found port number: " +:+ print_u r) ;;;
        ret (inr (ports, depth + 1))
      else ret (inr (ports, depth))
  end.

(** The second loop: [inl r] for [return r], or the array and the depth with
    which it ends. *)
Fixpoint ports_loop (fuel : nat) (controllers : list usb_controller) (inst parent : Z)
    (id : string) (ports : list Z) (depth : Z) : M (st W) (Z + list Z * Z) :=
  match fuel with
  | O => out_of_fuel
  | S fuel =>
      log HS_LOG_DEBUG ("Going through device parents to resolve USB location: '" +:+ id +:+ "'") ;;;
      if depth =? MAX_USB_DEPTH then
        log HS_LOG_WARNING "Excessive USB location depth, ignoring device" ;;;
        ret (inl 0)
      else
        let* id := os (CM_Get_Device_ID parent 256) in
        match id with
        | WErr cret =>
            log_cret "CM_Get_Device_ID()" cret ;;;
            ret (inl 0)
        | WOk id =>
            let* pd := store_port inst id ports depth in
            match pd with
            | inl r => ret (inl r)
            | inr (ports, depth) =>
                if is_root_hub id then
                  if depth =? 0 then ret (inl 0)
                  else
                    let* ports := arr_set ports depth (find_controller controllers id) in
                    if find_controller controllers id =? 0 then
                      log HS_LOG_WARNING ("Unknown USB host controller '" +:+ id +:+ "'") ;;;
                      ret (inl 0)
                    else ret (inr (ports, depth + 1))
                else
                  let inst := parent in
                  let* up := os (CM_Get_Parent parent) in
                  match up with
                  | WErr _ => ret (inr (ports, depth))
                  | WOk parent => ports_loop fuel controllers inst parent id ports depth
                  end
            end
        end
  end.

(** The result and the array. *)
Definition resolve_device_location (controllers : list usb_controller) (inst : Z)
    (ports : list Z) : M (st W) (Z * list Z) :=
  let* usb := skip_to_usb fuel inst in
  match usb with
  | None => ret (0, ports)
  | Some (inst, id, parent) =>
      let* r := ports_loop fuel controllers inst parent id ports 0 in
      match r with
      | inl r => ret (r, ports)
      | inr (ports, depth) =>
          let* ports := swap_loop ports depth 0 (Z.to_nat (depth / 2)) in
          ret (depth, ports)
      end
  end.
End UsbWin32.
