(* ===== verification/UsbWin32Spec.v ===== *)
(** What the first part of monitor_win32.c promises: paths and identifiers are
    inverse to each other, the location of a device is the path of ports from
    its controller, and locations tell devices apart. *)

From Stdlib Require Import Ascii.
From S2P Require Import Prelude Cstring Common DList Htable State Posix Platform Device Heap Monitor Location Win32 UsbWin32.

(** * Strings *)

Section Strings.
Implicit Types (p s g : string) (c : ascii).

Fixpoint string_forall (P : ascii -> bool) s : bool :=
  match s with
  | EmptyString => true
  | String c s => P c && string_forall P s
  end.

Lemma string_forall_app P s g : string_forall P (s +:+ g) = string_forall P s && string_forall P g.
Proof. induction s as [|c s IH]; [done|]. cbn. rewrite <- andb_assoc, <- IH. done. Qed.

Lemma string_forall_get P s n c :
  string_forall P s = true -> String.get n s = Some c -> P c = true.
Proof.
  revert n. induction s as [|c' s IH]; intros [|n]; cbn; try done; intros [Hc Hs]%andb_prop.
  - by intros [= <-].
  - by apply IH.
Qed.

Lemma str_get_app p s n : String.get (String.length p + n) (p +:+ s) = String.get n s.
Proof. induction p as [|c p IH]; [done|]. cbn. apply IH. Qed.

Lemma substring_all s : String.substring 0 (String.length s) s = s.
Proof. induction s as [|c s IH]; [done|]. cbn. by rewrite IH. Qed.

Lemma substring_prefix p s : String.substring 0 (String.length p) (p +:+ s) = p.
Proof. induction p as [|c p IH]; [by destruct s|]. rewrite append_cons. cbn. f_equal. apply IH. Qed.

Lemma strip_app p s : strip (String.length p) (p +:+ s) = s.
Proof.
  unfold strip. rewrite str_length_app, Nat.add_comm, Nat.add_sub.
  induction p as [|c p IH]; [apply substring_all|]. cbn. apply IH.
Qed.

Lemma str_prefix_app p s : String.prefix p (p +:+ s) = true.
Proof. induction p as [|c p IH]; [by destruct s|]. rewrite append_cons. cbn. by destruct (ascii_dec c c). Qed.

Lemma str_map_app f p s : string_map f (p +:+ s) = string_map f p +:+ string_map f s.
Proof. induction p as [|c p IH]; [done|]. rewrite append_cons. cbn. by rewrite IH. Qed.

Lemma str_map_map (f g : ascii -> ascii) s : string_map f (string_map g s) = string_map (fun c => f (g c)) s.
Proof. induction s as [|c s IH]; [done|]. cbn. by rewrite IH. Qed.

Lemma str_map_ext P (f g : ascii -> ascii) s :
  string_forall P s = true -> (forall c, P c = true -> f c = g c) -> string_map f s = string_map g s.
Proof.
  intros Hs He. induction s as [|c s IH]; [done|]. cbn in *. apply andb_prop in Hs as [Hc Hs].
  by rewrite (He c Hc), IH.
Qed.

(** The last character of [accept] is [c] when none follows. *)
Lemma strrpbrk_last accept p c g :
  accepts accept c = true -> string_forall (fun c => negb (accepts accept c)) g = true ->
  strrpbrk (p +:+ String c g) accept = Some (String.length p).
Proof.
  intros Hc Hg. unfold strrpbrk. rewrite str_length_app. cbn [String.length].
  assert (H : forall n, (n <= String.length g)%nat ->
    strrpbrk_loop (p +:+ String c g) accept (String.length p + S n) = Some (String.length p)).
  { induction n as [|n IH]; intros Hn; rewrite Nat.add_succ_r; cbn [strrpbrk_loop]; rewrite str_get_app.
    - cbn. by rewrite Hc, Nat.add_0_r.
    - cbn [String.get]. destruct (String.get n g) as [c'|] eqn:E; [|by apply IH; lia].
      pose proof (string_forall_get _ _ _ _ Hg E) as Hc'. apply negb_true_iff in Hc'.
      rewrite Hc'. apply IH. lia. }
  apply (H (String.length g)). lia.
Qed.
End Strings.

(** * Numbers *)

Lemma print_digits_forall P base fuel n acc :
  2 <= base <= 16 -> (forall d, 0 <= d < base -> P (digit_chr d) = true) ->
  string_forall P (print_digits base fuel n acc) = string_forall P acc.
Proof.
  intros Hb HP. revert n acc. induction fuel as [|fuel IH]; intros n acc; [done|].
  cbn [print_digits]. pose proof (Z.mod_pos_bound n base ltac:(lia)).
  destruct (n <? base); [|rewrite IH]; cbn; by rewrite HP by lia.
Qed.

Lemma print_x_forall P n :
  (forall d, 0 <= d < 16 -> P (lower (digit_chr d)) = true) -> string_forall P (print_x n) = true.
Proof.
  intros HP. unfold print_x, print_X.
  assert (E : forall s, string_forall P (string_map lower s) = string_forall (fun c => P (lower c)) s).
  { induction s as [|c s IH]; [done|]. cbn. by rewrite IH. }
  by rewrite E, print_digits_forall.
Qed.

Lemma zeros_forall P n : P "0"%char = true -> string_forall P (zeros n) = true.
Proof. intros HP. induction n as [|n IH]; [done|]. cbn. by rewrite HP. Qed.

Lemma pad0_forall P w n :
  P "0"%char = true -> (forall d, 0 <= d < 16 -> P (lower (digit_chr d)) = true) ->
  string_forall P (pad0 w (print_x n)) = true.
Proof. intros H0 HP. unfold pad0. by rewrite string_forall_app, zeros_forall, print_x_forall. Qed.

Lemma pad0_length w n : (1 <= w)%nat -> 0 <= n < 16 ^ Z.of_nat w ->
  String.length (pad0 w (print_x n)) = w.
Proof.
  intros Hw Hn. unfold pad0. rewrite str_length_app.
  assert (Hz : forall k, String.length (zeros k) = k) by (induction k; cbn; congruence).
  pose proof (print_x_length w n Hw Hn).
  rewrite Hz. lia.
Qed.

(** * Paths and identifiers *)

(** The fields of a GUID at their width. *)
Record guid_ok (g : GUID) : Prop := {
  go_1 : 0 <= Data1 g < 2 ^ 32;
  go_2 : 0 <= Data2 g < 2 ^ 16;
  go_3 : 0 <= Data3 g < 2 ^ 16;
  go_4 : Forall (fun b => 0 <= b < 2 ^ 8) (Data4 g) /\ length (Data4 g) = 8%nat
}.

(** A character that is not a separator of paths. *)
Definition plain (c : ascii) : bool := negb (accepts "\#" c).

Lemma digits_plain d : 0 <= d < 16 -> plain (lower (digit_chr d)) = true.
Proof.
  intros Hd. assert (d ∈ seqZ 0 16) as Hin by (apply elem_of_seqZ; lia).
  clear Hd. revert d Hin. apply Forall_forall. repeat constructor.
Qed.

Lemma hex_bytes_cons b l : hex_bytes (b :: l) = pad0 2 (print_x b) +:+ hex_bytes l.
Proof. done. Qed.

Lemma print_guid_plain g : string_forall plain (print_guid g) = true.
Proof.
  assert (Hhex : forall l, string_forall plain (hex_bytes l) = true).
  { induction l as [|b l IH]; [done|]. rewrite hex_bytes_cons, string_forall_app, IH.
    by rewrite pad0_forall by first [exact digits_plain|done]. }
  unfold print_guid. rewrite !string_forall_app, !Hhex, !pad0_forall by first [exact digits_plain|done].
  done.
Qed.

Lemma hex_bytes_length l : Forall (fun b => 0 <= b < 2 ^ 8) l ->
  String.length (hex_bytes l) = (2 * length l)%nat.
Proof.
  induction 1 as [|b l Hb _ IH]; [done|].
  rewrite hex_bytes_cons, str_length_app, pad0_length, IH by (lia || done). cbn. lia.
Qed.

Lemma print_guid_length g : guid_ok g -> String.length (print_guid g) = 38%nat.
Proof.
  intros [H1 H2 H3 [H4 H5]]. unfold print_guid. rewrite !str_length_app, !pad0_length, !hex_bytes_length.
  all: try lia; try done.
  - rewrite !length_take, length_drop, H5. done.
  - by apply Forall_take, Forall_drop.
  - by apply Forall_take.
Qed.

(** An identifier comes back from its path in upper case. *)
Lemma device_id_of_path id g :
  string_forall (fun c => negb (Ascii.eqb c "#"%char)) id = true ->
  device_id_of (device_path id g) = string_map toupper id.
Proof.
  intros Hid. unfold device_id_of, device_path. set (p := string_map slash_to_hash id).
  assert (Hskip : skip_prefix ("\\.\" +:+ p +:+ "#" +:+ print_guid g) = p +:+ "#" +:+ print_guid g).
  { unfold skip_prefix, starts_with. rewrite (str_prefix_app "\\.\"), orb_true_r. cbn [orb].
    apply (strip_app "\\.\"). }
  rewrite Hskip. clear Hskip. change ("#" +:+ print_guid g) with (String "#"%char (print_guid g)).
  unfold cut_class. rewrite strrpbrk_last by (done || apply print_guid_plain).
  rewrite bool_decide_true, substring_prefix.
  - unfold p. rewrite str_map_map. eapply str_map_ext; [exact Hid|]. intros c Hc.
    apply negb_true_iff in Hc. unfold slash_to_hash. destruct (Ascii.eqb_spec c backslash) as [->|Hne]; [done|].
    unfold id_char. destruct (Ascii.eqb_spec (toupper c) "#"%char) as [E|]; [|done].
    exfalso. revert Hc E. clear. unfold toupper. destruct c as [[] [] [] [] [] [] [] []]; done.
  - rewrite <- Nat.add_1_r, str_get_app. done.
Qed.

(** * Locations *)

Section Location.
Context {W : Type} `{Win32 W} `{Cfgmgr W}.
Implicit Types s : st W.

Lemma build_location_string_eq ports depth s b w :
  Forall (fun p => 0 <= p < 256) ports -> 0 <= depth <= MAX_USB_DEPTH ->
  depth <= Z.of_nat (length ports) -> heap_ok (s_world s) = (b, w) ->
  exists s', build_location_string ports depth s =
    Done (if b : bool then (0, Some (location_text (take (Z.to_nat depth) ports)))
          else (HS_ERROR_MEMORY, None), s') /\ s_mem s' = s_mem s.
Proof.
  intros Hp Hd Hl Hw. unfold MAX_USB_DEPTH in Hd. unfold build_location_string, bind.
  rewrite (location_loop_eq ports (Z.to_nat depth) 0) by (done || lia || by apply Forall_take). rewrite drop_0.
  unfold win_strdup, bind, os. rewrite Hw. destruct b; cbn; [by eexists|]. rewrite memory_error_eq. by eexists.
Qed.
End Location.

(** * The ports of a device *)

(** A tree of devices: identifiers, parents and locations on the hub. *)
Record usb_tree := UsbTree {
  ut_id : Z -> option string;
  ut_parent : Z -> option Z;
  ut_info : Z -> option string
}.

Definition answers {A} (r : wsys A) (o : option A) : Prop :=
  match o with Some a => r = WOk a | None => exists e, r = WErr e end.

(** The configuration manager tells of the tree [t]; the system is Windows
    Vista or later. *)
Record tree_documented {W} `{Win32 W} `{Cfgmgr W} (t : usb_tree) : Prop := {
  td_id : forall i n w, answers (CM_Get_Device_ID i n w).1 (ut_id t i);
  td_parent : forall i w, answers (CM_Get_Parent i w).1 (ut_parent t i);
  td_info : forall i w, answers (CM_location_information i w).1 (ut_info t i);
  td_version : forall w, HS_WIN32_VERSION_VISTA <=
    u32 (u32 ((RtlGetVersion w).1.1 * 100) + (RtlGetVersion w).1.2)
}.

(** The port of a device on its hub, none for the interfaces of a device. *)
Definition port_of (t : usb_tree) (inst : Z) : list Z :=
  match ut_info t inst with
  | None => []
  | Some buf => if scan_port buf =? 0 then [] else [scan_port buf]
  end.

(** [climbs t n inst ports rid]: [n] steps above [inst] is the root hub [rid],
    and [ports] are the ports from it down to [inst]. *)
Inductive climbs (t : usb_tree) : nat -> Z -> list Z -> string -> Prop :=
  | climb_root inst hub rid :
      ut_parent t inst = Some hub -> ut_id t hub = Some rid -> is_root_hub rid = true ->
      climbs t 1 inst (port_of t inst) rid
  | climb_hub n inst hub id ports rid :
      ut_parent t inst = Some hub -> ut_id t hub = Some id -> is_root_hub id = false ->
      climbs t n hub ports rid -> climbs t (S n) inst (ports ++ port_of t inst) rid.

(** [n] steps above [inst] is its first USB node. *)
Inductive usb_above (t : usb_tree) : nat -> Z -> Z -> Prop :=
  | usb_here inst id :
      ut_id t inst = Some id -> starts_with "USB\" id = true -> is_Some (ut_parent t inst) ->
      usb_above t 0 inst inst
  | usb_up n inst id up usb :
      ut_id t inst = Some id -> starts_with "USB\" id = false -> ut_parent t inst = Some up ->
      usb_above t n up usb -> usb_above t (S n) inst usb.

Section Resolve.
Context {W : Type} `{Win32 W} `{Cfgmgr W}.
Variable t : usb_tree.
Hypothesis Ht : tree_documented t.
Implicit Types (s : st W) (P : st W -> Prop).

Lemma wp_log (P : unit -> st W -> Prop) level msg s :
  (forall s', s_mem s' = s_mem s -> P tt s') -> wp (log level msg) P s.
Proof. intros HP. unfold log. apply wp_zoom, wp_hs_log. by apply HP. Qed.

Lemma wp_answer {A} (c : sysc W (wsys A)) o (P : wsys A -> st W -> Prop) s :
  (forall w, answers (c w).1 o) ->
  (forall r s', answers r o -> s_mem s' = s_mem s -> P r s') -> wp (os c) P s.
Proof.
  intros Hc HP. apply wp_os. intros r w E. apply HP; [|done]. specialize (Hc (s_world s)). by rewrite E in Hc.
Qed.

Lemma wp_find_device_port (P : option Z -> st W -> Prop) fuel inst id s :
  (forall s', s_mem s' = s_mem s -> P (Some (default 0 (head (port_of t inst)))) s') ->
  wp (find_device_port fuel inst id) P s.
Proof.
  intros HP. unfold find_device_port, hs_win32_version. wp_step. wp_step. apply wp_os.
  intros info w E. wp_step. pose proof (td_version t Ht (s_world s)) as Hv. rewrite E in Hv. cbn in Hv.
  apply Z.leb_le in Hv as ->. wp_step. unfold find_device_port_vista. wp_step.
  eapply wp_answer; [intros; apply (td_info t Ht)|]. intros r s' Hr Hm. cbn in Hm. unfold port_of in HP.
  destruct (ut_info t inst) as [buf|]; cbn in Hr.
  - subst r. wp_steps. destruct (Z.eqb_spec (scan_port buf) 0) as [Ez|]; cbn in HP; [rewrite Ez|]; by apply HP.
  - destruct Hr as [e ->]. wp_step. apply wp_log. intros s2 Hm2. wp_steps. apply HP. congruence.
Qed.

Lemma port_of_cases inst : port_of t inst = [] \/ exists p, port_of t inst = [p] /\ 0 < p < 256.
Proof.
  unfold port_of. destruct (ut_info t inst) as [buf|]; [|by left].
  assert (0 <= scan_port buf < 256).
  { unfold scan_port. repeat case_match; try lia; apply u8_bound. }
  destruct (Z.eqb_spec (scan_port buf) 0); [by left|right]. eexists. split; [done|lia].
Qed.

(** Storing a value after those that are there. *)
Lemma wp_push (P : list Z -> st W -> Prop) (arr acc : list Z) v s :
  take (length acc) arr = acc -> (length acc < length arr)%nat ->
  (forall arr', length arr' = length arr -> take (length (acc ++ [v])) arr' = acc ++ [v] -> P arr' s) ->
  wp (arr_set arr (Z.of_nat (length acc)) v) P s.
Proof.
  intros Ht' Hl HP. eapply wp_intro; [by apply arr_set_eq|]. apply HP; [by rewrite length_insert|].
  rewrite length_app, Nat.add_1_r. erewrite take_S_r; [|by apply list_lookup_insert_eq].
  rewrite take_insert_ge by lia. by rewrite Ht'.
Qed.

Variable controllers : list usb_controller.

Variable gas : nat.

Lemma wp_store_port (P : Z + list Z * Z -> st W -> Prop) inst id arr acc s :
  length arr = 8%nat -> take (length acc) arr = acc ->
  (length (acc ++ port_of t inst) <= 8)%nat ->
  (forall arr' s', length arr' = 8%nat -> s_mem s' = s_mem s ->
     take (length (acc ++ port_of t inst)) arr' = acc ++ port_of t inst ->
     P (inr (arr', Z.of_nat (length (acc ++ port_of t inst)))) s') ->
  wp (store_port gas inst id arr (Z.of_nat (length acc))) P s.
Proof.
  intros Hl Hacc Hle HP. unfold store_port. wp_step. apply wp_find_device_port. intros s1 E1.
  destruct (port_of_cases inst) as [Ep|(p & Ep & Hp)]; rewrite Ep in *.
  - change (default 0 (head [])) with 0. change (0 <? 0) with false. change (0 =? 0) with true. cbn [negb].
    cbv iota. wp_step. rewrite app_nil_r in HP. by apply HP.
  - change (default 0 (head [p])) with p. rewrite length_app in Hle. cbn in Hle.
    rewrite (proj2 (Z.ltb_ge p 0)), (proj2 (Z.eqb_neq p 0)) by lia. cbn [negb].
    wp_step. rewrite u8_small by lia. apply wp_push; [done|lia|]. intros arr' Hl' Ht'.
    wp_step. apply wp_log. intros s2 E2. wp_step.
    replace (Z.of_nat (length acc) + 1) with (Z.of_nat (length (acc ++ [p]))) by (rewrite length_app; cbn; lia).
    apply HP; [lia|congruence|done].
Qed.

Lemma wp_ports_loop (P : Z + list Z * Z -> st W -> Prop) n inst ports rid :
  climbs t n inst ports rid -> find_controller controllers rid <> 0 ->
  forall fuel parent id arr acc s,
  ut_parent t inst = Some parent -> (n <= fuel)%nat -> length arr = 8%nat ->
  take (length acc) arr = acc -> (length acc + length ports <= 7)%nat -> acc ++ ports <> [] ->
  (forall arr' s', length arr' = 8%nat -> s_mem s' = s_mem s ->
     take (length acc + length ports + 1) arr' =
       acc ++ reverse ports ++ [find_controller controllers rid] ->
     P (inr (arr', Z.of_nat (length acc + length ports + 1))) s') ->
  wp (ports_loop gas fuel controllers inst parent id arr (Z.of_nat (length acc))) P s.
Proof.
  intros Hc Hrid. induction Hc as [inst hub rid Hp Hid Hroot|n inst hub hid ports rid Hp Hid Hroot Hc IH];
    intros fuel parent id arr acc s Hpar Hf Hl Hacc Hle Hne HP; (destruct fuel as [|fuel]; [lia|]);
    cbn [ports_loop]; assert (parent = hub) as -> by congruence.
  all: rewrite ?length_app in Hle.
  all: wp_step; apply wp_log; intros s1 E1; unfold MAX_USB_DEPTH;
    rewrite (proj2 (Z.eqb_neq (Z.of_nat (length acc)) 8)) by lia.
  all: wp_step; (eapply wp_answer; [intros; apply (td_id t Ht)|]); intros r s2 Hr E2;
    rewrite Hid in Hr; cbn in Hr; subst r.
  all: wp_step; apply wp_store_port; [done|done|rewrite length_app; lia|]; intros arr' s3 Hl' E3 Ht'.
  all: rewrite Hroot.
  - rewrite (proj2 (Z.eqb_neq _ 0)).
    2:{ destruct (acc ++ port_of t inst) eqn:E; [done|cbn; lia]. }
    wp_step. apply wp_push; [done|rewrite length_app; lia|]. intros arr2 Hl2 Ht2.
    rewrite (proj2 (Z.eqb_neq _ _) Hrid). wp_step. rewrite !length_app in Ht2. cbn in Ht2.
    rewrite length_app. replace (Z.of_nat (length acc + length (port_of t inst)) + 1) with
      (Z.of_nat (length acc + length (port_of t inst) + 1)) by lia.
    apply HP; [lia|congruence|]. rewrite Ht2, <- app_assoc.
    destruct (port_of_cases inst) as [->|(p & -> & _)]; done.
  - wp_step. eapply wp_answer; [intros; apply (td_parent t Ht)|]. intros r s4 Hr E4.
    assert (exists up, ut_parent t hub = Some up) as [up Hup].
    { inversion Hc; subst; eauto. }
    rewrite Hup in Hr. cbn in Hr. subst r.
    apply IH; [done|done|lia|done|done|rewrite length_app; lia| |].
    + rewrite <- app_assoc. intros E. apply Hne. apply app_eq_nil in E as [-> E].
      apply app_eq_nil in E as [-> ->]. done.
    + intros arr2 s5 Hl2 E5 Ht2. rewrite !length_app in *.
      replace (length acc + length (port_of t inst) + length ports + 1)%nat with
        (length acc + (length ports + length (port_of t inst)) + 1)%nat in * by lia.
      apply HP; [done|congruence|]. rewrite Ht2, reverse_app, <- !app_assoc.
      destruct (port_of_cases inst) as [->|(p & -> & _)]; done.
Qed.

Lemma wp_skip_to_usb (P : option (Z * string * Z) -> st W -> Prop) n inst usb :
  usb_above t n inst usb -> forall fuel s, (n < fuel)%nat ->
  (forall id parent s', ut_parent t usb = Some parent -> s_mem s' = s_mem s ->
     P (Some (usb, id, parent)) s') ->
  wp (skip_to_usb fuel inst) P s.
Proof.
  intros Hu. induction Hu as [inst id Hid Husb [up Hup]|n inst id up usb Hid Husb Hup _ IH];
    intros fuel s Hf HP; (destruct fuel as [|fuel]; [lia|]); cbn [skip_to_usb].
  all: wp_step; (eapply wp_answer; [intros; apply (td_id t Ht)|]); intros r s1 Hr E1;
    rewrite Hid in Hr; cbn in Hr; subst r.
  all: wp_step; apply wp_log; intros s2 E2.
  all: wp_step; (eapply wp_answer; [intros; apply (td_parent t Ht)|]); intros r s3 Hr E3;
    rewrite Hup in Hr; cbn in Hr; subst r; rewrite Husb.
  - wp_step. apply HP; [done|congruence].
  - apply IH; [lia|]. intros id' parent s' Hpar E. apply HP; [done|congruence].
Qed.

Lemma wp_resolve (P : Z * list Z -> st W -> Prop) n m inst usb ports rid arr s :
  usb_above t n inst usb -> climbs t m usb ports rid -> find_controller controllers rid <> 0 ->
  ports <> [] -> (length ports <= 7)%nat -> length arr = 8%nat -> (n < gas)%nat -> (m <= gas)%nat ->
  (forall arr' s', take (S (length ports)) arr' = find_controller controllers rid :: ports ->
     length arr' = 8%nat -> s_mem s' = s_mem s -> P (Z.of_nat (S (length ports)), arr') s') ->
  wp (resolve_device_location gas controllers inst arr) P s.
Proof.
  intros Hu Hc Hrid Hne Hle Hl Hn Hm HP. unfold resolve_device_location. wp_step.
  eapply wp_skip_to_usb; [done|done|]. intros id parent s1 Hpar E1. wp_step.
  eapply (wp_ports_loop _ m usb ports rid Hc Hrid gas parent id arr []); try done.
  intros arr1 s2 Hl1 E2 Ht1. cbn [length app Nat.add] in *. rewrite Nat.add_1_r in *.
  set (k := length ports) in *. set (c := find_controller controllers rid) in *.
  destruct (swap_loop_reverse arr1 (S k) s2) as (arr2 & E & Hl2 & Ht2); [lia|].
  wp_step. eapply wp_intro; [exact E|]. wp_step. apply HP; [|lia|congruence].
  rewrite Ht2, Ht1, reverse_app, reverse_involutive. done.
Qed.
End Resolve.

(** * A Windows system, for the witnesses *)

(** The devices of [t]; [hosts] are the host controllers and [plugged] the USB
    devices, each with the string indices of its descriptor. *)
Definition tree_cfgmgr (t : usb_tree) (hosts plugged : list Z) : Cfgmgr windows :=
  let ask {A} (o : option A) : wsys A := match o with Some a => WOk a | None => WErr 13 end in {|
  GUID_DEVINTERFACE_USB_DEVICE := Guid 0xA5DCBF10 0x6530 0x11D2 [0x90; 0x1F; 0; 0xC0; 0x4F; 0xB9; 0x51; 0xED];
  GUID_DEVINTERFACE_USB_HUB := Guid 0xF18A0E88 0xC30C 0x11D0 [0x88; 0x15; 0; 0xA0; 0xC9; 6; 0xBE; 0xD8];
  GUID_DEVINTERFACE_USB_HOST_CONTROLLER := Guid 0x3ABF6F2D 0x71C4 0x462A [0x8A; 0x92; 0x1E; 0x68; 0x61; 0xE6; 0xAF; 0x27];
  hid_guid := Guid 0x4D1E55B2 0xF16F 0x11CF [0x88; 0xCB; 0; 0x11; 0x11; 0; 0; 0x30];
  CM_Get_Device_ID i _ w := (ask (ut_id t i), w);
  CM_Get_Parent i w := (ask (ut_parent t i), w);
  CM_Get_Child i w := (WOk (i + 1), w);
  CM_Locate_DevNode key w := (ask (head (filter (fun i => ut_id t i = Some key) plugged)), w);
  CM_location_information i w := (ask (ut_info t i), w);
  CM_driver i w := (WOk (print_u i), w);
  CM_Open_DevNode_Key i w := (WOk i, w);
  RegQueryValueEx_PortName _ w := (WOk "COM3", w);
  RegCloseKey _ w := (tt, w);
  ioctl_NODE_INFORMATION _ w := (Some 4, w);
  ioctl_NODE_CONNECTION_INFORMATION _ port w := (Some (UsbNode (2 <? port) 0 0 0), w);
  ioctl_DRIVERKEY_LENGTH _ _ w := (Some 12, w);
  ioctl_DRIVERKEY_NAME _ _ _ w := (Some (12, [65; 0; 0; 0]), w);
  ioctl_DESCRIPTOR _ _ _ w := (None, w);
  WideCharToMultiByte_length b w := (WOk 2, w);
  WideCharToMultiByte b _ w := (WOk "A", w);
  HidD_GetManufacturerString _ w := (None, w);
  HidD_GetProductString _ w := (None, w);
  HidD_GetSerialNumberString _ w := (None, w);
  SetupDiGetClassDevs g w := (if Data1 g =? 0x3ABF6F2D then 1 else if Data1 g =? 0xA5DCBF10 then 2 else 3, w);
  SetupDiEnumDeviceInfo set i w :=
    (if set =? 1 then hosts !! Z.to_nat i else if set =? 2 then plugged !! Z.to_nat i else None, w);
  SetupDiDestroyDeviceInfoList _ w := (tt, w)
|}.

(** A device on port 4 of a hub on port 3 of the root hub. *)
Definition demo_tree : usb_tree := {|
  ut_id i := if i =? 10 then Some "PCI\VEN_8086" else if i =? 11 then Some "USB\ROOT_HUB20\4&1"
             else if i =? 12 then Some "USB\VID_05E3&PID_0608\5&2"
             else if i =? 13 then Some "USB\VID_16C0&PID_0483\12345" else None;
  ut_parent i := if (10 <? i) && (i <=? 13) then Some (i - 1) else None;
  ut_info i := if i =? 12 then Some "Port_#0003.Hub_#0001"
               else if i =? 13 then Some "Port_#0004.Hub_#0002" else None
|}.

Lemma tree_cfgmgr_documented t hosts plugged : (HS_WIN32_VERSION_VISTA <=? 601) = true ->
  tree_documented (W := windows) (H0 := tree_cfgmgr t hosts plugged) t.
Proof.
  intros _. split; intros; cbn.
  - destruct (ut_id t i); [done|by eexists].
  - destruct (ut_parent t i); [done|by eexists].
  - destruct (ut_info t i); [done|by eexists].
  - done.
Qed.

Lemma demo_climbs : climbs demo_tree 2 13 [3; 4] "USB\ROOT_HUB20\4&1".
Proof.
  assert ([3; 4] = port_of demo_tree 12 ++ port_of demo_tree 13) as -> by by vm_compute.
  eapply climb_hub; [done|done|done|]. by eapply climb_root.
Qed.

(** * Properties *)



(** C15: the location of a device is its path of ports. Below a known controller
    and at most seven ports deep, [resolve_device_location] finds the first USB
    node above the device, climbs to the root hub through any mix of hubs and
    interfaces, and gives the index of the controller followed by the ports from
    the root hub down to the device. *)
Theorem device_location_correct {W} `{Win32 W} `{Cfgmgr W} t fuel controllers n m inst usb ports rid
    arr (s : st W) :
  tree_documented t -> usb_above t n inst usb -> climbs t m usb ports rid ->
  find_controller controllers rid <> 0 -> ports <> [] -> (length ports <= 7)%nat ->
  length arr = 8%nat -> (n < fuel)%nat -> (m <= fuel)%nat ->
  exists arr' s', resolve_device_location fuel controllers inst arr s =
      Done ((Z.of_nat (S (length ports)), arr'), s') /\
    take (S (length ports)) arr' = find_controller controllers rid :: ports /\
    length arr' = 8%nat /\ s_mem s' = s_mem s.
Proof.
  intros Ht Hu Hc Hrid Hne Hle Hl Hn Hm.
  assert (HP : wp (resolve_device_location fuel controllers inst arr)
    (fun ra s' => ra.1 = Z.of_nat (S (length ports)) /\
       take (S (length ports)) ra.2 = find_controller controllers rid :: ports /\
       length ra.2 = 8%nat /\ s_mem s' = s_mem s) s).
  { eapply (wp_resolve t Ht controllers fuel); eauto. }
  apply wp_inv in HP as ([r arr'] & s' & E & Hr & HP). cbn in Hr, HP. subst r. by exists arr', s'.
Qed.

Definition demo_controllers : list usb_controller := [UsbController 1 "USB\ROOT_HUB20\4&1"].

Lemma device_location_correct_witness :
  exists arr' s',
    resolve_device_location (H0 := tree_cfgmgr demo_tree [] []) 5 demo_controllers 13 (replicate 8 0)
      (windowed (Windows [] None [] ∅)) = Done ((3, arr'), s') /\
    take 3 arr' = [1; 3; 4] /\ length arr' = 8%nat /\
    s_mem s' = s_mem (windowed (Windows [] None [] ∅)).
Proof.
  apply (device_location_correct (H0 := tree_cfgmgr demo_tree [] []) demo_tree 5 demo_controllers 0 2 13 13
           [3; 4] "USB\ROOT_HUB20\4&1" (replicate 8 0) (windowed (Windows [] None [] ∅)));
    [by apply tree_cfgmgr_documented| |apply demo_climbs|discriminate|discriminate|cbn; lia|reflexivity|lia|lia].
  by eapply usb_here.
Defined.



(** * Three defects *)

(** A chain of eight ports: the eighth is stored in the last element of the
    array, and the index of the controller after it. The check of the depth
    comes before the port and not before the controller. *)
Definition deep_tree : usb_tree := {|
  ut_id i := if i =? 11 then Some "USB\ROOT_HUB20\4&1"
             else if (11 <? i) && (i <=? 19) then Some "USB\VID_05E3&PID_0608\5&2" else Some "PCI";
  ut_parent i := if (10 <? i) && (i <=? 19) then Some (i - 1) else None;
  ut_info i := Some "Port_#0001.Hub_#0001"
|}.

Example deep_location_overflows :
  resolve_device_location (H0 := tree_cfgmgr deep_tree [] []) 20 demo_controllers 19 (replicate 8 0)
    (windowed (Windows [] None [] ∅)) = Fault OutOfBounds.
Proof. by vm_compute. Qed.

(** On Windows XP the ports of the hub are compared by driver key. When none has
    the key of the device but the last one is connected, the result of the last
    look-up is returned as if it was port 1. *)
Example missing_port_is_port_1 :
  match find_device_port_xp (H0 := tree_cfgmgr demo_tree [] []) 10 "USB\ROOT_HUB20\4&1" "B"
          (windowed (Windows [] None [] ∅)) with
  | Done (r, _) => r = 1
  | _ => False
  end.
Proof. by vm_compute. Qed.

(** The loop over the ports never ends on a hub that says it has 255: the
    counter is an [uint8_t]. *)
Theorem port_loop_255 {W} `{Win32 W} `{Cfgmgr W} fuel h key port r (s : st W) :
  0 <= port <= 255 ->
  (forall p s, get_port_driverkey h p s = Done ((0, None), s)) ->
  port_loop fuel h key 255 port r s = OutOfFuel.
Proof.
  intros Hp Hk. revert port r Hp. induction fuel as [|fuel IH]; intros port r Hp; [done|].
  cbn [port_loop]. rewrite (proj2 (Z.leb_le _ _)) by lia. cbn [negb]. unfold bind. rewrite Hk.
  cbn. apply IH. pose proof (u8_bound (port + 1)). lia.
Qed.
