(* ===== verification/EnumWin32.v ===== *)
(** The devices of Windows and their enumeration: src/src/monitor_win32.c from
    [read_hid_properties] to [hs_enumerate]. *)

From Stdlib Require Import Ascii.
From S2P Require Import Prelude Cstring Common DList Htable State Posix Platform Device Heap Monitor Win32 UsbWin32.

(** The state of the discovery: the list [controllers], as the sequence of its
    elements, with the library. *)
Record enum_state (W : Type) := EnumState {
  es_st : st W;
  es_controllers : list usb_controller
}.
Arguments EnumState {W}.
Arguments es_st {W}.
Arguments es_controllers {W}.

#[export] Instance Has_st_enum W : Has (st W) (enum_state W).
Proof.
  refine {| part := es_st; with_part := fun t s => EnumState t (es_controllers s) |};
    by try intros [].
Defined.

Section EnumWin32.
Context {W : Type} `{Win32 W} `{Cfgmgr W} `{Allocator W}.
Variable fuel : nat.

(** * Device properties *)

(** READ_HID_PROPERTY: negative for [goto cleanup]. *)
Definition read_hid_property (dev h index : Z) (func : Z -> sysc W (option (list Z)))
    (name : string) (field : option string -> hs_device -> hs_device) : M (st W) Z :=
  if index =? 0 then ret 0
  else
    let* wbuf := os (func h) in
    match wbuf with
    | None =>
        log HS_LOG_WARNING ("Function " +:+ name +:+ "() failed despite non-zero string index") ;;;
        ret 0
    | Some wbuf =>
        let wbuf := take 510 wbuf ++ [0; 0] in
        match wcslen2 wbuf with
        | None => fail OutOfBounds
        | Some size =>
            let* rs := wide_to_cstring wbuf size in
            if rs.1 <? 0 then ret rs.1
            else
              set_dev dev (field rs.2) ;;;
              ret 0
        end
    end.

Definition read_hid_properties (dev : ptr) (desc : usb_node) : M (st W) Z :=
  let* d := load_dev dev in
  let* created := os (CreateFile (str (dev_path d))) in
  let h := handle_of created in
  if h =? 0 then
    log HS_LOG_WARNING ("Cannot open HID device '" +:+ str (dev_path d) +:+ "': " +:+
                        last_error created) ;;;
    ret 0
  else
    let* r :=
      (let* r := read_hid_property dev h (iManufacturer desc) HidD_GetManufacturerString
                   "HidD_GetManufacturerString" dev_with_manufacturer in
       if r <? 0 then ret r
       else
         let* r := read_hid_property dev h (iProduct desc) HidD_GetProductString
                     "HidD_GetProductString" dev_with_product in
         if r <? 0 then ret r
         else
           let* r := read_hid_property dev h (iSerialNumber desc) HidD_GetSerialNumberString
                       "HidD_GetSerialNumberString" dev_with_serial in
           if r <? 0 then ret r else ret 1) in
    os (CloseHandle h) ;;;
    ret r.

(** The result and [*rs]. The request takes 12 bytes of the structure. *)
Definition get_string_descriptor (h port index : Z) : M (st W) (Z * option string) :=
  let* string := os (ioctl_DESCRIPTOR h port index) in
  match string with
  | None =>
      log HS_LOG_WARNING
        ("DeviceIoControl(IOCTL_USB_GET_DESCRIPTOR_FROM_NODE_CONNECTION) failed: " +:+
         hs_win32_strerror 0) ;;;
      ret (0, None)
  | Some string =>
      if (us_len string <? 2) ||
         negb (us_bDescriptorType string =? USB_STRING_DESCRIPTOR_TYPE) ||
         negb (us_bLength string =? u64 (us_len string - 12)) ||
         negb (us_bLength string mod 2 =? 0) then
        log HS_LOG_WARNING "Malformed or corrupt string descriptor" ;;;
        ret (0, None)
      else
        let* rs := wide_to_cstring (us_bString string) (u64 (us_len string - 12)) in
        if rs.1 <? 0 then ret (rs.1, None) else ret (0, rs.2)
  end.

(** READ_STRING_DESCRIPTOR *)
Definition read_string_descriptor (dev h port index : Z)
    (field : option string -> hs_device -> hs_device) : M (st W) Z :=
  if index =? 0 then ret 0
  else
    let* rs := get_string_descriptor h port index in
    match rs with
    | (r, Some s) => set_dev dev (field (Some s)) ;;; ret r
    | (r, None) => ret r
    end.

(** The first loop of [read_device_properties]: the instance of the USB device
    or interface and its identifier; [None] for [return 0] and [cleanup]. *)
Fixpoint find_usb (fuel : nat) (inst : Z) : M (st W) (option (Z * string)) :=
  match fuel with
  | O => out_of_fuel
  | S fuel =>
      let* buf := os (CM_Get_Device_ID inst 256) in
      match buf with
      | WErr cret =>
          log_cret "CM_Get_Device_ID()" cret ;;;
          ret None
      | WOk buf =>
          if starts_with "USB\" buf then ret (Some (inst, buf))
          else
            let* parent := os (CM_Get_Parent inst) in
            match parent with
            | WErr cret =>
                log_cret "CM_Get_Parent()" cret ;;;
                ret None
            | WOk inst => find_usb fuel inst
            end
      end
  end.

(** The parent of the device, above the parent of the interface when [n] is 2:
    the hub. *)
Fixpoint parents (n : nat) (inst : Z) : M (st W) (option Z) :=
  match n with
  | O => ret (Some inst)
  | S n =>
      let* parent := os (CM_Get_Parent inst) in
      match parent with
      | WErr cret =>
          log_cret "CM_Get_Parent()" cret ;;;
          ret None
      | WOk inst => parents n inst
      end
  end.

(** The three string descriptors. *)
Definition read_descriptors (dev h port : Z) (node : usb_node) : M (st W) Z :=
  let* r := read_string_descriptor dev h port (iManufacturer node) dev_with_manufacturer in
  if r <? 0 then ret r
  else
    let* r := read_string_descriptor dev h port (iProduct node) dev_with_product in
    if r <? 0 then ret r
    else
      let* r := read_string_descriptor dev h port (iSerialNumber node) dev_with_serial in
      if r <? 0 then ret r else ret 1.

(** From CreateFile of the hub on, until [cleanup:]. *)
Definition read_from_hub (dev port : Z) (path : string) : M (st W) Z :=
  let* d := load_dev dev in
  let* created := os (CreateFile path) in
  let h := handle_of created in
  if h =? 0 then
    log HS_LOG_WARNING ("Cannot open parent hub device at '" +:+ path +:+
      "', ignoring device properties for '" +:+ str (dev_key d) +:+ "'") ;;;
    ret 1
  else
    let* ok := os heap_ok in
    let* r :=
      (if negb ok then memory_error
       else
         let* node := os (ioctl_NODE_CONNECTION_INFORMATION h port) in
         match node with
         | None =>
             log HS_LOG_WARNING ("Failed to interrogate hub device at '" +:+ path +:+
               "' for device '" +:+ str (dev_key d) +:+ "'") ;;;
             ret 1
         | Some node =>
             if bool_decide (dev_type d = HS_DEVICE_TYPE_HID) then read_hid_properties dev node
             else read_descriptors dev h port node
         end) in
    os (CloseHandle h) ;;;
    ret r.

(** The identifiers in [scan_usb_id], stored one after the other. *)
Definition store_usb_id (dev : ptr) (ids : list Z) : M (st W) unit :=
  (match ids with vid :: _ => set_dev dev (dev_with_vid vid) | _ => ret tt end) ;;;
  (match ids with _ :: pid :: _ => set_dev dev (dev_with_pid pid) | _ => ret tt end) ;;;
  match ids with _ :: _ :: mi :: _ => set_dev dev (dev_with_iface mi) | _ => ret tt end.

Definition read_device_properties (dev : ptr) (inst port : Z) : M (st W) Z :=
  let* usb := find_usb fuel inst in
  match usb with
  | None => ret 0
  | Some (inst, buf) =>
      set_dev dev (dev_with_iface 0) ;;;
      let ids := scan_usb_id buf in
      store_usb_id dev ids ;;;
      if (length ids <? 2)%nat then
        log HS_LOG_WARNING ("Failed to parse USB properties from '" +:+ buf +:+ "'") ;;;
        ret 0
      else
        let* hub := parents (if (length ids =? 3)%nat then 2 else 1) inst in
        match hub with
        | None => ret 0
        | Some inst =>
            let* buf := os (CM_Get_Device_ID inst 256) in
            match buf with
            | WErr cret =>
                log_cret "CM_Get_Device_ID()" cret ;;;
                ret 0
            | WOk buf =>
                let* rp := build_device_path buf GUID_DEVINTERFACE_USB_HUB in
                match rp with
                | (r, None) => ret r
                | (_, Some path) => read_from_hub dev port path
                end
            end
        end
  end.

(** * The device node *)

(** The result and [*rnode]. *)
Definition get_device_comport (inst : Z) : M (st W) (Z * option string) :=
  let* key := os (CM_Open_DevNode_Key inst) in
  match key with
  | WErr cret =>
      log HS_LOG_WARNING ("CM_Open_DevNode_Key() failed: 0x" +:+ print_u cret) ;;;
      ret (0, None)
  | WOk key =>
      let* buf := os (RegQueryValueEx_PortName key) in
      os (RegCloseKey key) ;;;
      match buf with
      | WErr e =>
          (if negb (e =? ERROR_FILE_NOT_FOUND) then
             log HS_LOG_WARNING ("RegQueryValue() failed: " +:+ print_u e)
           else ret tt) ;;;
          ret (0, None)
      | WOk buf =>
          let* node := win_strdup ("\\.\" +:+ buf) in
          match node with
          | None =>
              let* r := memory_error in
              ret (r, None)
          | Some node => ret (1, Some node)
          end
      end
  end.

Definition find_device_node (inst : Z) (dev : ptr) : M (st W) Z :=
  let* d := load_dev dev in
  let key := str (dev_key d) in
  if starts_with "USB\" key then
    let* rn := get_device_comport inst in
    match rn with
    | (r, None) =>
        (if r =? 0 then
           log HS_LOG_DEBUG ("Device '" +:+ key +:+ "' has no 'PortName' registry property")
         else ret tt) ;;;
        ret r
    | (_, Some node) =>
        set_dev dev (dev_with_path (Some node)) ;;;
        set_dev dev (dev_with_type HS_DEVICE_TYPE_SERIAL) ;;;
        ret 1
    end
  else if starts_with "HID\" key then
    let* rp := build_device_path key hid_guid in
    match rp with
    | (r, None) => ret r
    | (_, Some path) =>
        set_dev dev (dev_with_path (Some path)) ;;;
        set_dev dev (dev_with_type HS_DEVICE_TYPE_HID) ;;;
        ret 1
    end
  else
    log HS_LOG_DEBUG ("Unknown device type for '" +:+ key +:+ "'") ;;;
    ret 0.

(** Whether the identifier is a collection of a HID device after the first. *)
Definition later_collection (key : string) : bool :=
  starts_with "HID\" key &&
  match String.index 0 "&COL" key with
  | Some i => negb (starts_with "&COL01\" (strip i key))
  | None => false
  end.

(** [calloc(1, sizeof(struct hs_device))] *)
Definition calloc_dev : M (st W) ptr :=
  let* ok := os heap_ok in
  if ok : bool then
    let* s := get in
    let dev := block_address (s_world s) (s_mem s) in
    alloc_dev dev ;;;
    ret dev
  else ret NULL.

(** The key of the device: [inl r] for [goto cleanup]. *)
Definition device_key (inst : Z) (id : option string) : M (st W) (Z + option string) :=
  match id with
  | Some id =>
      let* key := win_strdup id in
      ret (inr key)
  | None =>
      let* buf := os (CM_Get_Device_ID inst 256) in
      match buf with
      | WErr cret =>
          log_cret "CM_Get_Device_ID()" cret ;;;
          ret (inl 0)
      | WOk buf =>
          let* key := win_strdup buf in
          ret (inr key)
      end
  end.

(** From the look at the key on, until [cleanup:]. *)
Definition fill_win32_device (controllers : list usb_controller) (inst : Z) (dev : ptr)
    (key : string) : M (st W) Z :=
  if later_collection key then
    log HS_LOG_DEBUG ("Ignoring duplicate HID collection device '" +:+ key +:+ "'") ;;;
    ret 0
  else
    log HS_LOG_DEBUG ("Examining device node '" +:+ key +:+ "'") ;;;
    let* r := find_device_node inst dev in
    if r <=? 0 then ret r
    else
      let* rp := resolve_device_location fuel controllers inst (replicate 8 0) in
      let '(r, ports) := rp in
      if r <=? 0 then ret r
      else
        let depth := r in
        let* port := arr_get ports (depth - 1) in
        let* r := read_device_properties dev inst port in
        if r <=? 0 then ret r
        else
          let* rl := build_location_string ports depth in
          match rl with
          | (r, None) => ret r
          | (_, Some location) =>
              set_dev dev (dev_with_location (Some location)) ;;;
              set_dev dev (dev_with_vtable _hs_win32_device_vtable) ;;;
              ret 1
          end.

(** The result and [*rdev], NULL when it is not stored. *)
Definition process_win32_device (controllers : list usb_controller) (inst : Z)
    (id : option string) : M (st W) (Z * ptr) :=
  let* dev := calloc_dev in
  if dev =? NULL then
    let* r := memory_error in
    hs_device_unref NULL ;;;
    ret (r, NULL)
  else
    set_dev dev (dev_with_refcount 1) ;;;
    let* key := device_key inst id in
    let* r :=
      (match key with
       | inl r => ret r
       | inr key =>
           set_dev dev (dev_with_key key) ;;;
           match key with
           | None => memory_error
           | Some key => fill_win32_device controllers inst dev key
           end
       end) in
    if r =? 1 then ret (1, dev)
    else
      hs_device_unref dev ;;;
      ret (r, NULL).

(** * Enumeration *)

Definition lib {A} (m : M (st W) A) : M (enum_state W) A := zoom m.

Definition load_controllers : M (enum_state W) (list usb_controller) :=
  fun s => Done (es_controllers s, s).

Definition add_controller (inst index : Z) : M (enum_state W) Z :=
  let* child := lib (os (CM_Get_Child inst)) in
  match child with
  | WErr _ =>
      lib (log HS_LOG_WARNING "Found USB Host controller without a root hub") ;;;
      ret 0
  | WOk roothub =>
      let* id := lib (os (CM_Get_Device_ID roothub 512)) in
      match id with
      | WErr cret =>
          lib (log_cret "CM_Get_Device_ID()" cret) ;;;
          ret 0
      | WOk id =>
          if negb (is_root_hub id) then
            lib (log HS_LOG_WARNING ("Unsupported root HUB at '" +:+ id +:+ "'")) ;;;
            ret 0
          else
            let* ok := lib (os heap_ok) in
            if negb ok then lib memory_error
            else
              lib (log HS_LOG_DEBUG
                ("Found USB root hub '" +:+ id +:+ "' with ID " +:+ print_u index)) ;;;
              modify (fun s => EnumState (es_st s) (es_controllers s ++ [UsbController index id])) ;;;
              ret 1
      end
  end.

(** The loop over the host controllers, from [i]. *)
Fixpoint controllers_loop (fuel : nat) (set i : Z) : M (enum_state W) Z :=
  match fuel with
  | O => out_of_fuel
  | S fuel =>
      let* info := lib (os (SetupDiEnumDeviceInfo set i)) in
      match info with
      | None => ret 0
      | Some inst =>
          if i + 1 =? UINT8_MAX then
            lib (log HS_LOG_WARNING "Reached maximum controller ID 255, ignoring") ;;;
            ret 0
          else
            let* r := add_controller inst (u8 (i + 1)) in
            if r <? 0 then ret r else controllers_loop fuel set (i + 1)
      end
  end.

(** The critical section on [controllers_lock] is one step. *)
Definition populate_controllers : M (enum_state W) Z :=
  let* controllers := load_controllers in
  match controllers with
  | _ :: _ => ret 0
  | [] =>
      let* set := lib (os (SetupDiGetClassDevs GUID_DEVINTERFACE_USB_HOST_CONTROLLER)) in
      if set =? 0 then
        lib (error HS_ERROR_SYSTEM
          ("SetupDiGetClassDevs() failed: " +:+ hs_win32_strerror 0))
      else
        let* r := controllers_loop fuel set 0 in
        lib (os (SetupDiDestroyDeviceInfoList set)) ;;;
        ret r
  end.

(** The callback applied to its [udata]. *)
Variable f : ptr -> M (st W) Z.

Fixpoint class_loop (n : nat) (set i : Z) : M (enum_state W) Z :=
  match n with
  | O => out_of_fuel
  | S n =>
      let* info := lib (os (SetupDiEnumDeviceInfo set i)) in
      match info with
      | None => ret 0
      | Some inst =>
          let* controllers := load_controllers in
          let* rd := lib (process_win32_device controllers inst None) in
          let '(r, dev) := rd in
          if r <? 0 then ret r
          else if r =? 0 then class_loop n set (i + 1)
          else
            let* r := lib (f dev) in
            lib (hs_device_unref dev) ;;;
            if negb (r =? 0) then ret r else class_loop n set (i + 1)
      end
  end.

Definition enumerate_class (guid : GUID) : M (enum_state W) Z :=
  let* set := lib (os (SetupDiGetClassDevs guid)) in
  if set =? 0 then
    lib (error HS_ERROR_SYSTEM ("SetupDiGetClassDevs() failed: " +:+ hs_win32_strerror 0))
  else
    let* r := class_loop fuel set 0 in
    lib (os (SetupDiDestroyDeviceInfoList set)) ;;;
    ret r.

Definition device_classes : list GUID := [GUID_DEVINTERFACE_USB_DEVICE; hid_guid].

(** The classes, until one gives a result that is not 0. *)
Fixpoint classes_loop (l : list GUID) : M (enum_state W) Z :=
  match l with
  | [] => ret 0
  | guid :: l =>
      let* r := enumerate_class guid in
      if negb (r =? 0) then ret r else classes_loop l
  end.

Definition hs_enumerate : M (enum_state W) Z :=
  let* r := populate_controllers in
  if r <? 0 then ret r else classes_loop device_classes.
End EnumWin32.
