(* ===== verification/EnumWin32Spec.v ===== *)
(** What the discovery of Windows promises: a device that is found is described
    by what the system says of it and its parents, whatever fails the memory is
    given back, and an enumeration shows every device once to its callback. *)

From Stdlib Require Import Ascii.
From S2P Require Import Prelude Cstring Common DList Htable State Posix Platform Device Heap Monitor Discovery Location Win32 UsbWin32 UsbWin32Spec EnumWin32.

(** [shallow t n k inst]: [inst] has [n] ancestors, and its path has at most [k]
    ports. *)
Inductive shallow (t : usb_tree) : nat -> nat -> Z -> Prop :=
  | shallow_top k inst : ut_parent t inst = None -> shallow t 0 k inst
  | shallow_up n k inst hub :
      ut_parent t inst = Some hub -> shallow t n k hub ->
      shallow t (S n) (k + length (port_of t inst)) inst.

Definition bytes (l : list Z) : Prop := Forall (fun b => 0 <= b < 256) l.

(** What the code relies on: the tree of the devices is finite and at most
    seven ports deep, as the USB standard has it; a HID string is stored with
    the size of the buffer, and a string descriptor holds the bytes it
    announces; a class has fewer devices than [fuel]. *)
Record discovery_documented {W} `{Win32 W} `{Cfgmgr W} `{Allocator W} (t : usb_tree) (fuel : nat)
    : Prop := {
  dd_tree : tree_documented t;
  dd_alloc : allocator_documented;
  dd_shallow : forall i, exists n, (n < fuel)%nat /\ shallow t n 7 i;
  dd_manufacturer : forall h w b w', HidD_GetManufacturerString h w = (Some b, w') -> length b = 512%nat;
  dd_product : forall h w b w', HidD_GetProductString h w = (Some b, w') -> length b = 512%nat;
  dd_serial : forall h w b w', HidD_GetSerialNumberString h w = (Some b, w') -> length b = 512%nat;
  dd_descriptor : forall h port index w d w', ioctl_DESCRIPTOR h port index w = (Some d, w') ->
    0 <= us_bLength d <= Z.of_nat (length (us_bString d));
  dd_class : forall set, exists n, (n < fuel)%nat /\
    forall w, (SetupDiEnumDeviceInfo set (Z.of_nat n) w).1 = None
}.

(** The results of a command that can fail. *)
Definition failure (r : Z) : Prop := r = HS_ERROR_MEMORY \/ r = HS_ERROR_SYSTEM.

Lemma failure_neg r : failure r -> r < 0.
Proof. unfold failure, HS_ERROR_MEMORY, HS_ERROR_SYSTEM. lia. Qed.

(** A result and a string that is there when the result is [ok]. *)
Definition maybe {A} (ok : Z) (P : A -> Prop) (rs : Z * option A) : Prop :=
  (exists x, rs = (ok, Some x) /\ P x) \/ (failure rs.1 /\ rs.2 = None).

(** * Commands without devices *)

Section Keeps.
Context {W : Type} `{Win32 W} `{Cfgmgr W} `{Allocator W}.
Variable (t : usb_tree) (fuel : nat).
Hypothesis Hdoc : discovery_documented t fuel.

Lemma keeps_wlog level msg : keeps (W := W) (log level msg) (fun _ => True).
Proof. apply keeps_log. Qed.

Lemma keeps_log_cret what cret : keeps (W := W) (log_cret what cret) (fun _ => True).
Proof. apply keeps_log. Qed.

Lemma keeps_answer {A} (c : sysc W (wsys A)) o :
  (forall w, answers (c w).1 o) -> keeps (os c) (fun r => answers r o).
Proof. intros Hc. apply keeps_os. intros w r w' E. specialize (Hc w). by rewrite E in Hc. Qed.

Lemma keeps_win_strdup x : keeps (W := W) (win_strdup x) (fun o => o = None \/ o = Some x).
Proof.
  unfold win_strdup. eapply keeps_bind; [apply keeps_call|]. intros [] _; apply keeps_ret; auto.
Qed.

Lemma keeps_build_device_path id guid :
  keeps (W := W) (build_device_path id guid) (maybe 0 (eq (device_path id guid))).
Proof.
  unfold build_device_path. eapply keeps_bind; [apply keeps_win_strdup|]. intros o [-> | ->].
  - eapply keeps_bind; [apply keeps_memory_error|]. intros r ->. apply keeps_ret. right. split; [by left|done].
  - apply keeps_ret. left. eauto.
Qed.

Lemma keeps_build_location_string ports depth : bytes ports -> 0 <= depth <= MAX_USB_DEPTH ->
  depth <= Z.of_nat (length ports) ->
  keeps (W := W) (build_location_string ports depth)
    (maybe 0 (eq (location_text (take (Z.to_nat depth) ports)))).
Proof.
  intros Hp Hd Hl s. destruct (heap_ok (s_world s)) as [b w] eqn:Ew.
  destruct (build_location_string_eq ports depth s b w Hp Hd Hl Ew) as (s' & E & Em).
  eapply wp_intro; [exact E|]. split; [done|]. destruct b; [left; eauto|right; split; [by left|done]].
Qed.

Lemma keeps_wide_to_cstring wide size : 0 <= size <= Z.of_nat (length wide) ->
  keeps (W := W) (wide_to_cstring wide size) (maybe 0 (fun _ => True)).
Proof.
  intros Hs. unfold wide_to_cstring. eapply keeps_bind; [apply keeps_call|]. intros [] _; cbn [negb].
  2:{ eapply keeps_bind; [apply keeps_memory_error|]. intros r ->. apply keeps_ret. right. split; [by left|done]. }
  rewrite (proj2 (orb_false_iff _ _)) by (split; apply Z.ltb_ge; lia).
  eapply keeps_bind; [apply keeps_call|]. intros [len|e] _.
  2:{ eapply keeps_bind; [apply keeps_error|]. intros r ->. apply keeps_ret. right. split; [by right|done]. }
  eapply keeps_bind; [apply keeps_call|]. intros [] _; cbn [negb].
  2:{ eapply keeps_bind; [apply keeps_memory_error|]. intros r ->. apply keeps_ret. right. split; [by left|done]. }
  eapply keeps_bind; [apply keeps_call|]. intros [x|e] _.
  - apply keeps_ret. left. eauto.
  - eapply keeps_bind; [apply keeps_error|]. intros r ->. apply keeps_ret. right. split; [by right|done].
Qed.

(** ** The location *)

Lemma keeps_arr_set (l : list Z) i v : 0 <= i < Z.of_nat (length l) -> bytes l -> 0 <= v < 256 ->
  keeps (W := W) (arr_set l i v) (fun l' => length l' = length l /\ bytes l').
Proof.
  intros Hi Hl Hv s. eapply wp_intro; [by apply arr_setZ_eq|]. split; [done|].
  rewrite length_insert. split; [done|]. by apply Forall_insert.
Qed.

(** The array of the ports, filled up to [depth]. *)
Definition port_array (l : list Z) (depth : Z) : Prop :=
  length l = 8%nat /\ bytes l /\ 0 <= depth <= 8.

Lemma keeps_store_port inst id arr depth : port_array arr depth ->
  depth + Z.of_nat (length (port_of t inst)) <= 8 ->
  keeps (store_port fuel inst id arr depth) (fun x => exists arr', x = inr (arr',
    depth + Z.of_nat (length (port_of t inst))) /\ port_array arr' (depth + Z.of_nat (length (port_of t inst)))).
Proof.
  intros (Hl & Hb & Hd) Hle. unfold store_port.
  eapply keeps_bind with (P := fun o => o = Some (default 0 (head (port_of t inst)))).
  { intros s. apply (wp_find_device_port t (dd_tree _ _ Hdoc)). done. }
  intros o ->. destruct (port_of_cases t inst) as [Ep|(p & Ep & Hp)]; rewrite Ep in *.
  - change (default 0 (head [])) with 0. cbn [length] in *. rewrite Z.add_0_r. apply keeps_ret. eexists. by split.
  - change (default 0 (head [p])) with p. cbn [length] in *.
    rewrite (proj2 (Z.ltb_ge p 0)), (proj2 (Z.eqb_neq p 0)) by lia. cbn [negb].
    eapply keeps_bind; [apply keeps_arr_set; [lia|done|apply u8_bound]|]. intros arr' [Hl' Hb'].
    eapply keeps_bind; [apply keeps_wlog|]. intros _ _. apply keeps_ret. eexists. split; [done|].
    split; [by rewrite Hl'|]. split; [done|lia].
Qed.

(** The indices of the controllers are those of an [uint8_t]. *)
Definition controllers_ok (controllers : list usb_controller) : Prop :=
  Forall (fun c => 0 <= uc_index c < 256) controllers.

Lemma find_controller_byte controllers id : controllers_ok controllers ->
  0 <= find_controller controllers id < 256.
Proof. induction 1; cbn; [lia|]. by case_bool_decide. Qed.

Lemma keeps_ports_loop controllers n k inst : shallow t n k inst -> controllers_ok controllers ->
  forall gas parent id arr depth, ut_parent t inst = Some parent -> (n <= gas)%nat ->
  port_array arr depth -> depth + Z.of_nat k <= 7 ->
  keeps (ports_loop fuel gas controllers inst parent id arr depth) (fun x =>
    x = inl 0 \/ exists arr' depth', x = inr (arr', depth') /\ port_array arr' depth').
Proof.
  intros Hs Hc. induction Hs as [k inst Hp|n k inst hub Hp Hs IH]; intros gas parent id arr depth Hpar Hg Harr Hk;
    [congruence|]. assert (parent = hub) as -> by congruence.
  destruct gas as [|gas]; [lia|]. cbn [ports_loop]. pose proof Harr as (Hl & Hb & Hd). unfold MAX_USB_DEPTH.
  eapply keeps_bind; [apply keeps_wlog|]. intros _ _. rewrite (proj2 (Z.eqb_neq depth 8)) by lia.
  eapply keeps_bind; [apply keeps_answer; intros; apply (td_id t (dd_tree _ _ Hdoc))|]. intros r Hr.
  destruct (ut_id t hub) as [hid|]; cbn in Hr; [subst r|destruct Hr as [e ->]].
  2:{ eapply keeps_bind; [apply keeps_log_cret|]. intros _ _. apply keeps_ret. by left. }
  eapply keeps_bind; [apply keeps_store_port; [done|lia]|]. intros x (arr' & -> & Harr').
  destruct (is_root_hub hid).
  - case_match; [apply keeps_ret; by left|].
    eapply keeps_bind; [apply keeps_arr_set; [destruct Harr'; lia|apply Harr'|by apply find_controller_byte]|].
    intros arr2 [Hl2 Hb2]. case_match.
    + eapply keeps_bind; [apply keeps_wlog|]. intros _ _. apply keeps_ret. by left.
    + apply keeps_ret. right. eexists _, _. split; [done|]. destruct Harr' as (? & ? & ?).
      split; [congruence|]. split; [done|lia].
  - eapply keeps_bind; [apply keeps_answer; intros; apply (td_parent t (dd_tree _ _ Hdoc))|]. intros r Hr.
    destruct (ut_parent t hub) as [up|] eqn:Eup; cbn in Hr; [subst r|destruct Hr as [e ->]].
    + apply IH; [done|lia|done|lia].
    + apply keeps_ret. right. eauto.
Qed.

Lemma keeps_skip_to_usb n k inst : shallow t n k inst -> forall gas, (n < gas)%nat ->
  keeps (skip_to_usb gas inst) (fun x => x = None \/ exists n' k' usb id parent,
    x = Some (usb, id, parent) /\ shallow t n' k' usb /\ (n' <= n)%nat /\ (k' <= k)%nat /\
    ut_parent t usb = Some parent).
Proof.
  induction 1 as [k inst Hp|n k inst hub Hp Hs IH]; intros gas Hg; (destruct gas as [|gas]; [lia|]);
    cbn [skip_to_usb].
  all: eapply keeps_bind; [apply keeps_answer; intros; apply (td_id t (dd_tree _ _ Hdoc))|]; intros r Hr.
  all: destruct (ut_id t inst) as [id|]; cbn in Hr; [subst r|destruct Hr as [e ->]];
    [|eapply keeps_bind; [apply keeps_log_cret|]; intros _ _; apply keeps_ret; by left].
  all: eapply keeps_bind; [apply keeps_wlog|]; intros _ _.
  all: eapply keeps_bind; [apply keeps_answer; intros; apply (td_parent t (dd_tree _ _ Hdoc))|]; intros r Hr;
    rewrite Hp in Hr; cbn in Hr.
  { destruct Hr as [e ->]. apply keeps_ret. by left. }
  subst r. case_match.
  - apply keeps_ret. right. exists (S n), (k + length (port_of t inst))%nat, inst, id, hub.
    split; [done|]. split; [by eapply shallow_up|auto].
  - eapply keeps_weaken; [apply IH; lia|]. intros x [->|(n' & k' & usb & id' & parent & -> & Hu & ? & ? & ?)];
      [by left|]. right. exists n', k', usb, id', parent. split; [done|]. split; [done|]. split; [lia|]. split; [lia|done].
Qed.

Lemma keeps_swap_loop arr depth n i : bytes arr -> length arr = 8%nat -> 0 <= depth <= 8 ->
  0 <= i -> 2 * (i + Z.of_nat n) <= depth ->
  keeps (W := W) (swap_loop arr depth i n) (fun arr' => length arr' = 8%nat /\ bytes arr').
Proof.
  intros Hb Hl Hd. revert arr i Hb Hl. induction n as [|n IH]; intros arr i Hb Hl Hi Hn; cbn [swap_loop];
    [by apply keeps_ret|].
  assert (forall j, 0 <= j < 8 -> keeps (W := W) (arr_get arr j) (fun b => 0 <= b < 256)) as Hget.
  { intros j Hj s. destruct (lookup_lt_is_Some_2 arr (Z.to_nat j)) as [b Eb]; [lia|].
    eapply wp_intro; [rewrite <- (Z2Nat.id j) by lia; by apply arr_get_eq|].
    split; [done|]. by apply (Forall_lookup_1 _ _ _ _ Hb Eb). }
  eapply keeps_bind; [apply Hget; lia|]. intros a Ha. eapply keeps_bind; [apply Hget; lia|]. intros b Hb2.
  eapply keeps_bind; [apply keeps_arr_set; [lia|done|done]|]. intros arr1 [Hl1 Hb1].
  eapply keeps_bind; [apply keeps_arr_set; [lia|done|done]|]. intros arr2 [Hl2 Hb3].
  apply IH; [done|lia|lia|lia].
Qed.

Lemma keeps_resolve controllers inst : controllers_ok controllers ->
  keeps (resolve_device_location fuel controllers inst (replicate 8 0)) (fun rp =>
    rp.1 = 0 \/ (0 < rp.1 <= 8 /\ length rp.2 = 8%nat /\ bytes rp.2)).
Proof.
  intros Hc. unfold resolve_device_location. destruct (dd_shallow _ _ Hdoc inst) as (n & Hn & Hs).
  eapply keeps_bind; [by eapply keeps_skip_to_usb|].
  intros x [->|(n' & k' & usb & id & parent & -> & Hu & Hn' & Hk' & Hp)]; [apply keeps_ret; by left|].
  eapply keeps_bind.
  { eapply keeps_ports_loop; [exact Hu|done|exact Hp|lia| |lia].
    split; [done|]. split; [|lia]. repeat constructor; lia. }
  intros y [->|(arr & depth & -> & Hl & Hb & Hd)]; [apply keeps_ret; by left|].
  eapply keeps_bind; [apply keeps_swap_loop; [done|done|done|lia|]|].
  { rewrite Z2Nat.id by (apply Z.div_pos; lia). pose proof (Z.mul_div_le depth 2). lia. }
  intros arr' [Hl' Hb']. apply keeps_ret. cbn. destruct (Z.eq_dec depth 0); [by left|right]. split; [lia|done].
Qed.
End Keeps.

(** * The description of a device *)

(** [up] is the first USB node from [inst] up, and [id] its identifier. *)
Inductive usb_node_of (t : usb_tree) : Z -> Z -> string -> Prop :=
  | usb_node_here inst id :
      ut_id t inst = Some id -> starts_with "USB\" id = true -> usb_node_of t inst inst id
  | usb_node_up inst id hub up uid :
      ut_id t inst = Some id -> starts_with "USB\" id = false -> ut_parent t inst = Some hub ->
      usb_node_of t hub up uid -> usb_node_of t inst up uid.

(** The type and the node of the device [key]. *)
Definition node_of (hid : GUID) (key : string) (type : hs_device_type) (path : option string) : Prop :=
  (starts_with "USB\" key = true /\ type = HS_DEVICE_TYPE_SERIAL /\
     exists port, path = Some ("\\.\" +:+ port)) \/
  (starts_with "USB\" key = false /\ starts_with "HID\" key = true /\ type = HS_DEVICE_TYPE_HID /\
     path = Some (device_path key hid)).

(** The identifiers read from the USB node. *)
Definition with_ids (ids : list Z) (d : hs_device) : hs_device :=
  match ids with
  | [vid; pid] => dev_with_pid pid (dev_with_vid vid (dev_with_iface 0 d))
  | [vid; pid; mi] => dev_with_iface mi (dev_with_pid pid (dev_with_vid vid (dev_with_iface 0 d)))
  | _ => d
  end.

(** Only the strings of the device differ. *)
Definition same_but_strings (d d' : hs_device) : Prop :=
  exists a b c, d' = dev_with_serial c (dev_with_product b (dev_with_manufacturer a d)).

(** What [process_win32_device] finds out of the device [inst]. *)
Record described (hid : GUID) (t : usb_tree) (id : option string) (inst : Z) (d : hs_device) : Prop := {
  ds_key : exists key, dev_key d = Some key /\
    match id with Some k => key = k | None => ut_id t inst = Some key end /\
    later_collection key = false /\ node_of hid key (dev_type d) (dev_path d);
  ds_usb : exists up uid, usb_node_of t inst up uid /\
    match scan_usb_id uid with
    | [vid; pid] => dev_vid d = vid /\ dev_pid d = pid /\ dev_iface d = 0
    | [vid; pid; mi] => dev_vid d = vid /\ dev_pid d = pid /\ dev_iface d = mi
    | _ => False
    end;
  ds_location : exists ports, bytes ports /\ dev_location d = Some (location_text ports);
  ds_new : dev_monitor d = NULL /\ dev_refcount d = 1 /\ dev_state d = HS_DEVICE_STATUS_DISCONNECTED;
  ds_vtable : dev_vtable d = _hs_win32_device_vtable
}.

(** The outcome of a stage: what it made of the device when it succeeds; it can
    also find that the device is not for the library, or fail. *)
Definition stage (Good : hs_device -> Prop) (r : Z) (d : hs_device) : Prop :=
  dev_refcount d = 1 /\ ((r = 1 /\ Good d) \/ r = 0 \/ failure r).

Lemma same_strings_refl d : same_but_strings d d.
Proof. exists (dev_manufacturer d), (dev_product d), (dev_serial d). by destruct d. Qed.

Lemma same_strings_trans d1 d2 d3 : same_but_strings d1 d2 -> same_but_strings d2 d3 -> same_but_strings d1 d3.
Proof. intros (a & b & c & ->) (a' & b' & c' & ->). by exists a', b', c'. Qed.

Lemma same_strings_refcount d d' : same_but_strings d d' -> dev_refcount d' = dev_refcount d.
Proof. by intros (a & b & c & ->). Qed.

Definition string_field (field : option string -> hs_device -> hs_device) : Prop :=
  forall x d, same_but_strings d (field x d).

Lemma manufacturer_field : string_field dev_with_manufacturer.
Proof. intros x d. by exists x, (dev_product d), (dev_serial d). Qed.
Lemma product_field : string_field dev_with_product.
Proof. intros x d. by exists (dev_manufacturer d), x, (dev_serial d). Qed.
Lemma serial_field : string_field dev_with_serial.
Proof. intros x d. by exists (dev_manufacturer d), (dev_product d), x. Qed.

(** A string that ends. *)
Lemma wcslen2_ends n : forall l, length l = (2 * n)%nat ->
  exists size, wcslen2 (l ++ [0; 0]) = Some size /\ 0 <= size <= 2 * Z.of_nat n.
Proof.
  induction n as [|n IH]; intros l Hl.
  - destruct l; [|done]. exists 0. cbn. split; [done|lia].
  - destruct l as [|a [|b l]]; cbn in Hl; [lia..|]. cbn [app wcslen2].
    case_match; [exists 0; split; [done|lia]|].
    destruct (IH l) as (size & -> & Hs); [lia|]. exists (2 + size). split; [done|lia].
Qed.

Section Describe.
Context {W : Type} `{Win32 W} `{Cfgmgr W} `{Allocator W}.
Variable (t : usb_tree) (fuel : nat).
Hypothesis Hdoc : discovery_documented t fuel.
Variable (p : ptr) (m0 : mem).

(** A string that is read, or not. *)
Definition string_read (d : hs_device) (r : Z) (d' : hs_device) : Prop :=
  same_but_strings d d' /\ (r = 0 \/ failure r).

Lemma fills_read_hid_property h index func name field d :
  (forall w b w', func h w = (Some b, w') -> length b = 512%nat) -> string_field field ->
  fills p m0 (read_hid_property (W := W) p h index func name field) d (string_read d).
Proof.
  intros Hf Hfield. unfold read_hid_property.
  case_match; [apply fills_ret; split; [apply same_strings_refl|by left]|].
  eapply fills_then; [apply (keeps_os _ (fun o => forall b, o = Some b -> length b = 512%nat))|].
  { intros w o w' E b ->. by eapply Hf. }
  intros [wbuf|] Hb.
  2:{ eapply fills_then; [apply keeps_wlog|]. intros _ _. apply fills_ret.
      split; [apply same_strings_refl|by left]. }
  specialize (Hb wbuf eq_refl).
  destruct (wcslen2_ends 255 (take 510 wbuf)) as (size & -> & Hs); [rewrite length_take; lia|].
  eapply fills_then; [apply keeps_wide_to_cstring; rewrite length_app, length_take, Hb; change (length [0; 0]) with 2%nat; lia|].
  intros rs [(x & -> & _)|[Hr _]].
  - cbn. change (0 <? 0) with false. cbv iota. apply fills_set. apply fills_ret.
    split; [apply Hfield|by left].
  - pose proof (failure_neg _ Hr). rewrite (proj2 (Z.ltb_lt _ _)) by lia. apply fills_ret.
    split; [apply same_strings_refl|by right].
Qed.

(** The three strings, one after the other. *)
Lemma fills_three (c1 c2 c3 : M (st W) Z) d :
  (forall d, fills p m0 c1 d (string_read d)) -> (forall d, fills p m0 c2 d (string_read d)) ->
  (forall d, fills p m0 c3 d (string_read d)) ->
  fills p m0 (let* r := c1 in if r <? 0 then ret r else
              let* r := c2 in if r <? 0 then ret r else
              let* r := c3 in if r <? 0 then ret r else ret 1) d
    (fun r d' => same_but_strings d d' /\ (r = 1 \/ failure r)).
Proof.
  intros H1' H2' H3'. eapply fills_bind; [apply H1'|]. intros r d1 [E1 Hr].
  destruct (Z.ltb_spec r 0).
  { apply fills_ret. split; [done|]. destruct Hr; [lia|by right]. }
  eapply fills_bind; [apply H2'|]. intros r2 d2 [E2 Hr2].
  pose proof (same_strings_trans _ _ _ E1 E2) as E12. destruct (Z.ltb_spec r2 0).
  { apply fills_ret. split; [done|]. destruct Hr2; [lia|by right]. }
  eapply fills_bind; [apply H3'|]. intros r3 d3 [E3 Hr3].
  pose proof (same_strings_trans _ _ _ E12 E3) as E13. destruct (Z.ltb_spec r3 0).
  { apply fills_ret. split; [done|]. destruct Hr3; [lia|by right]. }
  apply fills_ret. split; [done|by left].
Qed.

(** The strings of a device, or the reason there are none. *)
Definition strings_read (d : hs_device) (r : Z) (d' : hs_device) : Prop :=
  same_but_strings d d' /\ (r = 1 \/ r = 0 \/ failure r).

Lemma fills_read_hid_properties node d :
  fills p m0 (read_hid_properties (W := W) p node) d (strings_read d).
Proof.
  unfold read_hid_properties. apply fills_load. eapply fills_then; [apply keeps_call|]. intros created _.
  case_match.
  { eapply fills_then; [apply keeps_wlog|]. intros _ _. apply fills_ret.
    split; [apply same_strings_refl|by right; left]. }
  eapply fills_bind.
  { apply fills_three; intros; apply fills_read_hid_property.
    - intros w b w'. apply (dd_manufacturer _ _ Hdoc).
    - apply manufacturer_field.
    - intros w b w'. apply (dd_product _ _ Hdoc).
    - apply product_field.
    - intros w b w'. apply (dd_serial _ _ Hdoc).
    - apply serial_field. }
  intros r d' [E Hr]. eapply fills_then; [apply keeps_call|]. intros _ _. apply fills_ret.
  split; [done|]. destruct Hr; auto.
Qed.

Lemma keeps_get_string_descriptor h port index :
  keeps (W := W) (get_string_descriptor h port index) (fun rs => rs.1 = 0 \/ (failure rs.1 /\ rs.2 = None)).
Proof.
  unfold get_string_descriptor.
  eapply keeps_bind; [apply (keeps_os _ (fun o => forall x, o = Some x ->
    0 <= us_bLength x <= Z.of_nat (length (us_bString x))))|].
  { intros w o w' E x ->. by eapply (dd_descriptor _ _ Hdoc). }
  intros [x|] Hx.
  2:{ eapply keeps_bind; [apply keeps_wlog|]. intros _ _. apply keeps_ret. by left. }
  specialize (Hx x eq_refl). destruct (_ || _) eqn:E.
  { eapply keeps_bind; [apply keeps_wlog|]. intros _ _. apply keeps_ret. by left. }
  apply orb_false_iff in E as [[[_ _]%orb_false_iff Hl]%orb_false_iff _].
  apply negb_false_iff, Z.eqb_eq in Hl.
  eapply keeps_bind; [apply keeps_wide_to_cstring; lia|]. intros rs [(y & -> & _)|[Hr Hn]].
  - cbn. change (0 <? 0) with false. apply keeps_ret. by left.
  - pose proof (failure_neg _ Hr). rewrite (proj2 (Z.ltb_lt _ _)) by lia. apply keeps_ret. by right.
Qed.

Lemma fills_read_string_descriptor h port index field d : string_field field ->
  fills p m0 (read_string_descriptor (W := W) p h port index field) d (string_read d).
Proof.
  intros Hfield. unfold read_string_descriptor.
  case_match; [apply fills_ret; split; [apply same_strings_refl|by left]|].
  eapply fills_then; [apply keeps_get_string_descriptor|]. intros [r [s|]] Hr; cbn in Hr.
  - apply fills_set. apply fills_ret. split; [apply Hfield|]. destruct Hr as [|[? ?]]; [by left|done].
  - apply fills_ret. split; [apply same_strings_refl|]. destruct Hr as [|[? ?]]; [by left|by right].
Qed.

Lemma fills_read_from_hub port path d :
  fills p m0 (read_from_hub (W := W) p port path) d (strings_read d).
Proof.
  unfold read_from_hub. apply fills_load. eapply fills_then; [apply keeps_call|]. intros created _.
  case_match.
  { eapply fills_then; [apply keeps_wlog|]. intros _ _. apply fills_ret.
    split; [apply same_strings_refl|by left]. }
  eapply fills_then; [apply keeps_call|]. intros ok _. eapply fills_bind with (P := strings_read d).
  { destruct ok; cbn [negb].
    2:{ eapply fills_mono; [apply fills_keeps, keeps_memory_error|]. intros r d' [-> ->].
        split; [apply same_strings_refl|]. right. right. by left. }
    eapply fills_then; [apply keeps_call|]. intros [node|] _.
    2:{ eapply fills_then; [apply keeps_wlog|]. intros _ _. apply fills_ret.
        split; [apply same_strings_refl|by left]. }
    case_bool_decide; [apply fills_read_hid_properties|]. unfold read_descriptors.
    eapply fills_mono; [apply fills_three; intros; apply fills_read_string_descriptor|].
    - apply manufacturer_field.
    - apply product_field.
    - apply serial_field.
    - intros r d' [E Hr]. split; [done|]. destruct Hr; auto. }
  intros r d' Hr. eapply fills_then; [apply keeps_call|]. intros _ _. by apply fills_ret.
Qed.

Lemma keeps_find_usb n k inst : shallow t n k inst -> forall gas, (n < gas)%nat ->
  keeps (find_usb gas inst) (fun x => x = None \/ exists up id, x = Some (up, id) /\ usb_node_of t inst up id).
Proof.
  induction 1 as [k inst Hp|n k inst hub Hp Hs IH]; intros gas Hg; (destruct gas as [|gas]; [lia|]);
    cbn [find_usb].
  all: eapply keeps_bind; [apply keeps_answer; intros; apply (td_id t (dd_tree _ _ Hdoc))|]; intros r Hr.
  all: destruct (ut_id t inst) as [id|] eqn:Eid; cbn in Hr; [subst r|destruct Hr as [e ->]];
    [|eapply keeps_bind; [apply keeps_log_cret|]; intros _ _; apply keeps_ret; by left].
  all: destruct (starts_with "USB\" id) eqn:Eu;
    [apply keeps_ret; right; exists inst, id; split; [done|by apply usb_node_here]|].
  all: eapply keeps_bind; [apply keeps_answer; intros; apply (td_parent t (dd_tree _ _ Hdoc))|]; intros r Hr;
    rewrite Hp in Hr; cbn in Hr.
  - destruct Hr as [e ->]. eapply keeps_bind; [apply keeps_log_cret|]. intros _ _. apply keeps_ret. by left.
  - subst r. eapply keeps_weaken; [apply IH; lia|]. intros x [->|(up & uid & -> & Hu)]; [by left|].
    right. exists up, uid. split; [done|]. by eapply usb_node_up.
Qed.

Lemma keeps_parents n inst : keeps (W := W) (parents n inst) (fun _ => True).
Proof.
  revert inst. induction n as [|n IH]; intros inst; cbn [parents]; [by apply keeps_ret|].
  eapply keeps_bind; [apply keeps_call|]. intros [up|e] _; [apply IH|].
  eapply keeps_bind; [apply keeps_log_cret|]. intros _ _. by apply keeps_ret.
Qed.

(** A scan stores at most three values. *)
Lemma scan_usb_id_length buf : (length (scan_usb_id buf) <= 3)%nat.
Proof. unfold scan_usb_id. repeat case_match; cbn; lia. Qed.

(** What the properties of the device [inst] are made of. *)
Definition ids_read (inst : Z) (d d' : hs_device) : Prop :=
  exists up uid, usb_node_of t inst up uid /\ (2 <= length (scan_usb_id uid))%nat /\
    same_but_strings (with_ids (scan_usb_id uid) d) d'.

Lemma stage_drop Good r d : dev_refcount d = 1 -> r = 0 \/ failure r -> stage Good r d.
Proof. intros Hd Hr. split; [done|]. tauto. Qed.

Lemma fills_read_device_properties inst port d : dev_refcount d = 1 ->
  fills p m0 (read_device_properties fuel p inst port) d (stage (ids_read inst d)).
Proof.
  intros Hd. unfold read_device_properties. destruct (dd_shallow _ _ Hdoc inst) as (n & Hn & Hs).
  eapply fills_then; [by eapply keeps_find_usb|]. intros x [->|(up & uid & -> & Hu)].
  { apply fills_ret. apply stage_drop; auto. }
  apply fills_set. pose proof (scan_usb_id_length uid) as Hlen. unfold store_usb_id.
  eapply fills_bind with (P := fun _ d' => dev_refcount d' = 1 /\
    ((2 <= length (scan_usb_id uid))%nat -> d' = with_ids (scan_usb_id uid) d)).
  { destruct (scan_usb_id uid) as [|vid [|pid [|mi [|? ?]]]]; cbn in Hlen; try lia.
    - eapply fills_then; [by apply keeps_ret with (P := fun _ => True)|]. intros _ _.
      eapply fills_then; [by apply keeps_ret with (P := fun _ => True)|]. intros _ _.
      apply fills_ret. split; [done|cbn; lia].
    - apply fills_set. eapply fills_then; [by apply keeps_ret with (P := fun _ => True)|]. intros _ _.
      apply fills_ret. split; [done|cbn; lia].
    - apply fills_set, fills_set. apply fills_ret. by split.
    - apply fills_set, fills_set.
      intros s Es. eapply wp_set_new; [done|]. intros s' Es' _. eexists. split; [exact Es'|]. by split. }
  intros [] d1 [Hd1 E1]. destruct (Nat.ltb_spec (length (scan_usb_id uid)) 2) as [|Hge].
  { eapply fills_then; [apply keeps_wlog|]. intros _ _. apply fills_ret. apply stage_drop; auto. }
  specialize (E1 Hge). eapply fills_then; [apply keeps_parents|].
  intros [hub|] _; [|apply fills_ret; apply stage_drop; auto].
  eapply fills_then; [apply keeps_call|]. intros [hid|e] _.
  2:{ eapply fills_then; [apply keeps_log_cret|]. intros _ _. apply fills_ret. apply stage_drop; auto. }
  eapply fills_then; [apply keeps_build_device_path|]. intros rp [(path & -> & _)|[Hr Hnone]].
  - eapply fills_mono; [apply fills_read_from_hub|]. intros r d2 [E2 Hr].
    pose proof (same_strings_refcount _ _ E2). split; [congruence|].
    destruct Hr as [->|Hr]; [left|right; done]. split; [done|]. exists up, uid. by rewrite <- E1.
  - destruct rp as [r o]. cbn in Hr, Hnone. subst o. apply fills_ret. apply stage_drop; auto.
Qed.
End Describe.

(** * A device *)

Section Process.
Context {W : Type} `{Win32 W} `{Cfgmgr W} `{Allocator W}.
Variable (t : usb_tree) (fuel : nat).
Hypothesis Hdoc : discovery_documented t fuel.
Implicit Types (s : st W) (p : ptr).

Lemma keeps_get_device_comport inst :
  keeps (W := W) (get_device_comport inst) (fun rn =>
    (exists port, rn = (1, Some ("\\.\" +:+ port))) \/ ((rn.1 = 0 \/ failure rn.1) /\ rn.2 = None)).
Proof.
  unfold get_device_comport. eapply keeps_bind; [apply keeps_call|]. intros [key|e] _.
  2:{ eapply keeps_bind; [apply keeps_wlog|]. intros _ _. apply keeps_ret. right. cbn. auto. }
  eapply keeps_bind; [apply keeps_call|]. intros buf _. eapply keeps_bind; [apply keeps_call|]. intros _ _.
  destruct buf as [buf|e].
  - eapply keeps_bind; [apply keeps_win_strdup|]. intros o [-> | ->].
    + eapply keeps_bind; [apply keeps_memory_error|]. intros r ->. apply keeps_ret. right.
      split; [right; by left|done].
    + apply keeps_ret. left. eauto.
  - eapply keeps_bind with (P := fun _ => True).
    { case_match; [apply keeps_wlog|by apply keeps_ret]. }
    intros _ _. apply keeps_ret. right. cbn. auto.
Qed.

(** The device with its node. *)
Definition node_found (key : string) (d d' : hs_device) : Prop :=
  exists type path, node_of hid_guid key type path /\ d' = dev_with_type type (dev_with_path path d).

Lemma fills_find_device_node p m0 inst key d : dev_key d = Some key -> dev_refcount d = 1 ->
  fills p m0 (find_device_node (W := W) inst p) d (stage (node_found key d)).
Proof.
  intros Hk Hd. unfold find_device_node. apply fills_load. rewrite Hk. change (str (Some key)) with key.
  destruct (starts_with "USB\" key) eqn:Eu.
  - eapply fills_then; [apply keeps_get_device_comport|]. intros rn [(port & ->)|[Hr Hn]].
    + apply fills_set, fills_set. apply fills_ret. split; [done|]. left. split; [done|].
      exists HS_DEVICE_TYPE_SERIAL, (Some ("\\.\" +:+ port)). split; [|done]. left. eauto.
    + destruct rn as [r o]. cbn in Hr, Hn. subst o.
      eapply fills_then with (P := fun _ => True).
      { case_match; [apply keeps_wlog|by apply keeps_ret]. }
      intros _ _. apply fills_ret. by apply stage_drop.
  - destruct (starts_with "HID\" key) eqn:Eh.
    + eapply fills_then; [apply keeps_build_device_path|]. intros rp [(path & -> & Epath)|[Hr Hn]].
      * apply fills_set, fills_set. apply fills_ret. split; [done|]. left. split; [done|].
        exists HS_DEVICE_TYPE_HID, (Some path). split; [|done]. right. by subst path.
      * destruct rp as [r o]. cbn in Hr, Hn. subst o. apply fills_ret. apply stage_drop; auto.
    + eapply fills_then; [apply keeps_wlog|]. intros _ _. apply fills_ret. apply stage_drop; auto.
Qed.

Lemma with_ids_fields ids d : (2 <= length ids <= 3)%nat -> dev_iface d = 0 ->
  dev_key (with_ids ids d) = dev_key d /\ dev_type (with_ids ids d) = dev_type d /\
  dev_path (with_ids ids d) = dev_path d /\ dev_monitor (with_ids ids d) = dev_monitor d /\
  dev_state (with_ids ids d) = dev_state d /\
  match ids with
  | [vid; pid] => dev_vid (with_ids ids d) = vid /\ dev_pid (with_ids ids d) = pid /\ dev_iface (with_ids ids d) = 0
  | [vid; pid; mi] => dev_vid (with_ids ids d) = vid /\ dev_pid (with_ids ids d) = pid /\ dev_iface (with_ids ids d) = mi
  | _ => False
  end.
Proof. destruct ids as [|? [|? [|? [|? ?]]]]; cbn; intros ? ?; try lia; by repeat split. Qed.

(** The device [process_win32_device] starts from. *)
Definition keyed (key : string) : hs_device :=
  dev_with_key (Some key) (dev_with_refcount 1 device_zero).

Lemma fills_fill p m0 controllers inst key id : controllers_ok controllers ->
  match id with Some k => key = k | None => ut_id t inst = Some key end ->
  fills p m0 (fill_win32_device fuel controllers inst p key) (keyed key)
    (stage (described hid_guid t id inst)).
Proof.
  intros Hc Hid. unfold fill_win32_device. destruct (later_collection key) eqn:El.
  { eapply fills_then; [apply keeps_wlog|]. intros _ _. apply fills_ret. apply stage_drop; auto. }
  eapply fills_then; [apply keeps_wlog|]. intros _ _.
  eapply fills_bind; [by apply fills_find_device_node|]. intros r d1 [Hd1 Hr].
  destruct Hr as [[-> (type & path & Hnode & E1)]|Hr].
  2:{ rewrite (proj2 (Z.leb_le r 0)) by (destruct Hr as [->|Hr]; [lia|pose proof (failure_neg _ Hr); lia]).
      apply fills_ret. by apply stage_drop. }
  change (1 <=? 0) with false. cbv iota.
  eapply fills_then; [by apply keeps_resolve with (t := t)|]. intros [depth ports] Hp. cbn in Hp.
  destruct (Z.leb_spec depth 0) as [Hle|Hgt].
  { apply fills_ret. apply stage_drop; [done|]. left. destruct Hp as [|[? _]]; lia. }
  destruct Hp as [|(Hdep & Hl & Hb)]; [lia|].
  destruct (lookup_lt_is_Some_2 ports (Z.to_nat (depth - 1))) as [port Eport]; [lia|].
  eapply fills_then with (P := fun b => b = port).
  { intros s. eapply wp_intro; [rewrite <- (Z2Nat.id (depth - 1)) by lia; by apply arr_get_eq|]. done. }
  intros ? ->. eapply fills_bind; [by apply (fills_read_device_properties t fuel Hdoc)|].
  intros r d2 [Hd2 Hr].
  destruct Hr as [[-> (up & uid & Hu & Hlen & Hsame)]|Hr].
  2:{ rewrite (proj2 (Z.leb_le r 0)) by (destruct Hr as [->|Hr]; [lia|pose proof (failure_neg _ Hr); lia]).
      apply fills_ret. by apply stage_drop. }
  change (1 <=? 0) with false. cbv iota.
  eapply fills_then; [by apply keeps_build_location_string; [|unfold MAX_USB_DEPTH; lia|lia]|].
  intros rl [(location & -> & Eloc)|[Hr Hn]].
  2:{ destruct rl as [r o]. cbn in Hr, Hn. subst o. apply fills_ret. apply stage_drop; auto. }
  apply fills_set, fills_set. apply fills_ret. split; [done|]. left. split; [done|].
  pose proof (with_ids_fields (scan_usb_id uid) d1
    (conj Hlen (scan_usb_id_length uid)) ltac:(by rewrite E1)) as (F1 & F2 & F3 & F4 & F5 & F6).
  destruct Hsame as (sa & sb & sc & ->). rewrite E1 in F1, F2, F3, F4, F5. split; cbn in *.
  - exists key. rewrite E1. cbn. rewrite F1, F2, F3. done.
  - exists up, uid. done.
  - exists (take (Z.to_nat depth) ports). split; [by apply Forall_take|]. by rewrite Eloc.
  - rewrite E1. cbn. rewrite F4, F5. split; [done|]. split; [|done]. by rewrite E1 in Hd2.
  - done.
Qed.

Lemma wp_device_key (Q : Z + option string -> st W -> Prop) inst id s :
  (forall s', s_mem s' = s_mem s -> Q (inl 0) s') ->
  (forall s', s_mem s' = s_mem s -> Q (inr None) s') ->
  (forall s' key, s_mem s' = s_mem s ->
     match id with Some k => key = k | None => ut_id t inst = Some key end -> Q (inr (Some key)) s') ->
  wp (device_key inst id) Q s.
Proof.
  intros Hl Hn Hs. unfold device_key. destruct id as [id|].
  - wp_step. eapply wp_mono; [apply keeps_win_strdup|]. intros o s' [E [-> | ->]]; wp_step; auto.
  - wp_step. eapply wp_mono; [eapply (keeps_answer _ (ut_id t inst)); intros; apply (td_id t (dd_tree _ _ Hdoc))|].
    intros r s1 [E1 Hr]. destruct (ut_id t inst) as [key|]; cbn in Hr; [subst r|destruct Hr as [e ->]].
    + wp_step. eapply wp_mono; [apply keeps_win_strdup|]. intros o s2 [E2 [-> | ->]]; wp_step.
      * apply Hn. congruence.
      * apply Hs; [congruence|done].
    + wp_step. eapply wp_mono; [apply keeps_log_cret|]. intros [] s2 [E2 _]. wp_step. apply Hl. congruence.
Qed.

(** What [process_win32_device] leaves. *)
Definition win32_processed (id : option string) (inst : Z) (m : mem) (rp : Z * ptr) (s' : st W) : Prop :=
  let '(r, p) := rp in
  (r = 1 /\ exists d, described hid_guid t id inst d /\ p <> NULL /\ ~ in_use m p /\
     ~ in_use m (hnode_of p) /\ hnode_of p <> NULL /\ s_mem s' = with_new_dev p d m) \/
  (r = 0 /\ p = NULL /\ s_mem s' = m) \/
  (failure r /\ p = NULL /\ s_mem s' = m).

Lemma wp_process controllers inst id s : controllers_ok controllers ->
  wp (process_win32_device fuel controllers inst id) (win32_processed id inst (s_mem s)) s.
Proof.
  intros Hc. unfold process_win32_device, calloc_dev. wp_step. wp_step. apply wp_os. intros [] w Ew.
  2:{ wp_step. change (NULL =? NULL) with true. cbv iota. wp_step. apply wp_memory_error_mem. intros s1 E1.
      wp_step. apply wp_intro with (a := tt) (s' := s1); [done|]. wp_step. right. right.
      split; [by left|done]. }
  wp_step. wp_step. cbv zeta. cbn [s_world s_mem with_world]. set (p := block_address w (s_mem s)).
  destruct (dd_alloc _ _ Hdoc w (s_mem s)) as [Hp Hfree]. fold p in Hp, Hfree. unfold NULL in Hp.
  assert (~ in_use (s_mem s) p) as Hu by (apply Hfree; lia).
  assert (~ in_use (s_mem s) (hnode_of p)) as Hn by (apply Hfree; unfold hnode_of, HNODE_OFFSET; lia).
  assert (p <> NULL) as Hne by (unfold NULL; lia).
  assert (hnode_of p <> NULL) as Hne2 by (unfold hnode_of, HNODE_OFFSET, NULL; lia).
  wp_step. destruct (alloc_dev_eq p (with_world (fun _ => w) s)) as (s1 & E1 & Hm1 & _).
  eapply wp_intro; [exact E1|]. wp_step. rewrite (proj2 (Z.eqb_neq _ _)) by done. wp_step.
  eapply wp_set_new; [exact Hm1|]. intros s2 Hm2 _. wp_step.
  (* the end: the device is given, or freed *)
  assert (Hend : forall r d s3, s_mem s3 = with_new_dev p d (s_mem s) -> stage (described hid_guid t id inst) r d ->
    wp (if r =? 1 then ret (1, p) else hs_device_unref p ;;; ret (r, NULL))
      (win32_processed id inst (s_mem s)) s3).
  { intros r d s3 Hm3 [Hd Hr]. destruct (Z.eqb_spec r 1) as [->|Hr1].
    - wp_step. left. split; [done|]. destruct Hr as [[_ Hr]|[Hr|Hr]]; [by exists d|done|].
      by apply failure_neg in Hr.
    - wp_step. destruct (unref_new_dev p d (s_mem s) s3 Hne Hu Hn Hd Hm3) as (s4 & E4 & Hm4 & _).
      eapply wp_intro; [exact E4|]. wp_step. right. destruct Hr as [[? _]|[->|Hr]]; [done|left; auto|right; auto]. }
  apply wp_device_key.
  - intros s3 E3. wp_step. wp_step. eapply Hend; [rewrite E3; exact Hm2|]. apply stage_drop; auto.
  - intros s3 E3. wp_step. wp_step. eapply wp_set_new; [by rewrite E3|]. intros s4 Hm4 _.
    apply wp_memory_error_mem. intros s5 E5. eapply Hend; [rewrite E5; exact Hm4|].
    apply stage_drop; [done|]. right. by left.
  - intros s3 key E3 Hkey. wp_step. wp_step. eapply wp_set_new; [by rewrite E3|]. intros s4 Hm4 _.
    eapply wp_mono; [by eapply fills_fill|]. intros r s5 (d & Hm5 & Hst). by eapply Hend.
Qed.
End Process.

(** * Enumeration *)

Section Enumerate.
Context {W : Type} `{Win32 W} `{Cfgmgr W} `{Allocator W}.
Variable (t : usb_tree) (limit fuel : nat).
Hypothesis Hlimit : discovery_documented t limit.
Hypothesis Hle : (limit <= fuel)%nat.
Implicit Types s : enum_state W.

Lemma documented_mono : discovery_documented t fuel.
Proof.
  destruct Hlimit as [D1 D2 D3 D4 D5 D6 D7 D8]. split; try done.
  - intros inst. destruct (D3 inst) as (n & Hn & Hs). exists n. split; [lia|done].
  - intros set. destruct (D8 set) as (n & Hn & He). exists n. split; [lia|done].
Qed.

Lemma wp_lib {A} (m : M (st W) A) (P : A -> Prop) (Q : A -> enum_state W -> Prop) s : keeps m P ->
  (forall a s', s_mem (es_st s') = s_mem (es_st s) -> es_controllers s' = es_controllers s -> P a -> Q a s') ->
  wp (lib m) Q s.
Proof.
  intros Hm HQ. unfold lib. apply wp_zoom. eapply wp_mono; [apply Hm|]. intros a s' [E Ha]. by apply HQ.
Qed.

Lemma wp_load_controllers (Q : list usb_controller -> enum_state W -> Prop) s :
  Q (es_controllers s) s -> wp load_controllers Q s.
Proof. done. Qed.

(** The memory is the same, and the controllers are good. *)
Definition populated s (r : Z) s' : Prop :=
  s_mem (es_st s') = s_mem (es_st s) /\ controllers_ok (es_controllers s') /\ (0 <= r \/ failure r).

Lemma wp_add_controller inst index s : 0 <= index < 256 -> controllers_ok (es_controllers s) ->
  wp (add_controller inst index) (populated s) s.
Proof.
  intros Hi Hc. unfold add_controller. wp_step.
  eapply wp_lib; [apply keeps_call|]. intros [root|e] s1 E1 C1 _.
  2:{ wp_step. eapply wp_lib; [apply keeps_wlog|]. intros _ s2 E2 C2 _. wp_step.
      split; [congruence|]. rewrite C2, C1. split; [done|]. left. lia. }
  wp_step. eapply wp_lib; [apply keeps_call|]. intros [id|e] s2 E2 C2 _.
  2:{ wp_step. eapply wp_lib; [apply keeps_log_cret|]. intros _ s3 E3 C3 _. wp_step.
      split; [congruence|]. rewrite C3, C2, C1. split; [done|]. left. lia. }
  destruct (is_root_hub id); cbn [negb].
  2:{ wp_step. eapply wp_lib; [apply keeps_wlog|]. intros _ s3 E3 C3 _. wp_step.
      split; [congruence|]. rewrite C3, C2, C1. split; [done|]. left. lia. }
  wp_step. eapply wp_lib; [apply keeps_call|]. intros [] s3 E3 C3 _; cbn [negb].
  - wp_step. eapply wp_lib; [apply keeps_wlog|]. intros _ s4 E4 C4 _. wp_step. wp_step. wp_step.
    cbn. split; [cbn; congruence|]. split; [|left; lia]. cbn. rewrite C4, C3, C2, C1.
    apply Forall_app. split; [done|]. by apply Forall_singleton.
  - eapply wp_lib; [apply keeps_memory_error|]. intros r s4 E4 C4 ->.
    split; [congruence|]. rewrite C4, C3, C2, C1. split; [done|]. right. by left.
Qed.

Lemma wp_controllers_loop set n : (forall w, (SetupDiEnumDeviceInfo set (Z.of_nat n) w).1 = None) ->
  forall gas i s, (i <= n)%nat -> (n - i < gas)%nat -> controllers_ok (es_controllers s) ->
  wp (controllers_loop gas set (Z.of_nat i)) (populated s) s.
Proof.
  intros Hn. induction gas as [|gas IH]; intros i s Hi Hg Hc; [lia|]. cbn [controllers_loop]. wp_step.
  eapply wp_lib; [apply (keeps_os _ (fun o => i = n -> o = None))|].
  { intros w o w' E ->. specialize (Hn w). by rewrite E in Hn. }
  intros [inst|] s1 E1 C1 Hnone.
  2:{ wp_step. split; [done|]. rewrite C1. split; [done|left; lia]. }
  destruct (decide (i = n)) as [->|]; [by specialize (Hnone eq_refl)|].
  case_match.
  { wp_step. eapply wp_lib; [apply keeps_wlog|]. intros _ s2 E2 C2 _. wp_step.
    split; [congruence|]. rewrite C2, C1. split; [done|left; lia]. }
  wp_step. eapply wp_mono; [apply wp_add_controller; [apply u8_bound|by rewrite C1]|].
  intros r s2 (E2 & C2 & Hr). destruct (Z.ltb_spec r 0).
  - wp_step. split; [congruence|]. by split.
  - replace (Z.of_nat i + 1) with (Z.of_nat (S i)) by lia.
    eapply wp_mono; [apply IH; [lia|lia|done]|]. intros r2 s3 (E3 & C3 & Hr2). split; [congruence|]. by split.
Qed.

Lemma wp_populate_controllers s : controllers_ok (es_controllers s) ->
  wp (populate_controllers fuel) (populated s) s.
Proof.
  intros Hc. unfold populate_controllers. wp_step. apply wp_load_controllers.
  destruct (es_controllers s) as [|c l] eqn:El; [|wp_step; split; [done|]; rewrite El; split; [done|left; lia]].
  wp_step. eapply wp_lib; [apply keeps_call|]. intros set s1 E1 C1 _. case_match.
  { eapply wp_lib; [apply keeps_error|]. intros r s2 E2 C2 ->. split; [congruence|].
    rewrite C2, C1, El. split; [done|]. right. by right. }
  destruct (dd_class _ _ Hlimit set) as (n & Hn & Hend).
  wp_step. eapply wp_mono; [apply (wp_controllers_loop set n Hend fuel 0); [lia|lia|by rewrite C1, El]|].
  intros r s2 (E2 & C2 & Hr). wp_step. eapply wp_lib; [apply keeps_call|]. intros _ s3 E3 C3 _. wp_step.
  split; [congruence|]. rewrite C3. by split.
Qed.

(** A callback [f] on a new device: [I] holds of the library between its calls,
    with the number of devices it may still be called on. *)
Variable (f : ptr -> M (st W) Z) (P : Z -> Prop) (I : nat -> st W -> Prop).
Hypothesis I_less : forall k x, I (S k) x -> I k x.
Hypothesis I_quiet : forall k x y, I k x -> s_mem y = s_mem x -> I k y.
Hypothesis I_new : forall k p d inst x y, I (S k) x -> described hid_guid t None inst d ->
  p <> NULL -> hnode_of p <> NULL -> ~ in_use (s_mem x) p -> ~ in_use (s_mem x) (hnode_of p) ->
  s_mem y = with_new_dev p d (s_mem x) ->
  wp (let* r := f p in hs_device_unref p ;;; ret r) (fun r z => I k z /\ P r) y.

Definition enumerated (k : nat) (r : Z) s' : Prop :=
  I k (es_st s') /\ controllers_ok (es_controllers s') /\ enumerate_result P r.

Lemma enumerate_failure r : failure r -> enumerate_result P r.
Proof. unfold failure, enumerate_result. tauto. Qed.

Lemma I_drop n k x : I (n + k) x -> I k x.
Proof. induction n as [|n IH]; [done|]. intros Hx. by apply IH, I_less. Qed.

Lemma wp_class_loop set n k : (forall w, (SetupDiEnumDeviceInfo set (Z.of_nat n) w).1 = None) ->
  forall gas i s, (i <= n)%nat -> (n - i < gas)%nat -> controllers_ok (es_controllers s) ->
  I (n - i + k) (es_st s) ->
  wp (class_loop fuel f gas set (Z.of_nat i)) (enumerated k) s.
Proof.
  intros Hn. induction gas as [|gas IH]; intros i s Hi Hg Hc HI; [lia|]. cbn [class_loop]. wp_step.
  eapply wp_lib; [apply (keeps_os _ (fun o => i = n -> o = None))|].
  { intros w o w' E ->. specialize (Hn w). by rewrite E in Hn. }
  intros [inst|] s1 E1 C1 Hnone.
  2:{ wp_step. split; [eapply I_quiet; [by eapply I_drop|done]|]. rewrite C1. split; [done|by left]. }
  destruct (decide (i = n)) as [->|]; [by specialize (Hnone eq_refl)|].
  assert (HI1 : I (S (n - S i + k)) (es_st s1)).
  { replace (S (n - S i + k)) with (n - i + k)%nat by lia. by eapply I_quiet. }
  assert (Hgo : forall s2, I (n - S i + k) (es_st s2) -> es_controllers s2 = es_controllers s1 ->
    wp (class_loop fuel f gas set (Z.of_nat i + 1)) (enumerated k) s2).
  { intros s2 Hs2 C2. replace (Z.of_nat i + 1) with (Z.of_nat (S i)) by lia.
    apply IH; [lia|lia|by rewrite C2, C1|done]. }
  wp_step. apply wp_load_controllers. wp_step. unfold lib. wp_step.
  eapply wp_mono; [apply (wp_process t fuel documented_mono); by rewrite C1|].
  intros [r p] s2 Hi2. change (part s1) with (es_st s1) in Hi2.
  destruct Hi2 as [(-> & d & Hd & Hp & Hu & Hnu & Hpn & Hm)|[(-> & -> & Hm)|(Hr & -> & Hm)]].
  - change (1 <? 0) with false. change (1 =? 0) with false. cbv iota.
    pose proof (I_new _ p d inst _ s2 HI1 Hd Hp Hpn Hu Hnu Hm) as Hwp.
    unfold wp, bind, zoom, ret in Hwp |- *.
    change (part (with_part s2 s1)) with s2. destruct (f p s2) as [[r x3]| |]; [|done..].
    change (part (with_part x3 (with_part s2 s1))) with x3.
    destruct (hs_device_unref p x3) as [[[] x4]| |]; [|done..]. destruct Hwp as [HI4 Hr].
    destruct (Z.eqb_spec r 0) as [->|Hne]; cbn [negb].
    + by apply (Hgo (with_part x4 (with_part x3 (with_part s2 s1)))).
    + split; [cbn; by eapply I_drop|]. split; [cbn; by rewrite C1|]. right. by left.
  - change (0 <? 0) with false. change (0 =? 0) with true. cbv iota. apply Hgo; [|done].
    cbn. eapply I_quiet; [by apply I_less|done].
  - rewrite (proj2 (Z.ltb_lt _ _)) by by apply failure_neg. wp_step.
    split; [cbn; eapply I_quiet; [by eapply (I_drop (S (n - S i)))|done]|]. split; [cbn; by rewrite C1|].
    by apply enumerate_failure.
Qed.

Lemma wp_enumerate_class guid k s : controllers_ok (es_controllers s) -> I (limit + k) (es_st s) ->
  wp (enumerate_class fuel f guid) (enumerated k) s.
Proof.
  intros Hc HI. unfold enumerate_class. wp_step. eapply wp_lib; [apply keeps_call|]. intros set s1 E1 C1 _.
  case_match.
  { eapply wp_lib; [apply keeps_error|]. intros r s2 E2 C2 ->.
    split; [eapply I_quiet; [by eapply I_drop|congruence]|].
    rewrite C2, C1. split; [done|]. apply enumerate_failure. by right. }
  destruct (dd_class _ _ Hlimit set) as (n & Hn & Hend). wp_step.
  eapply wp_mono; [apply (wp_class_loop set n k Hend fuel 0); [lia|lia|by rewrite C1|]|].
  { eapply I_quiet; [|exact E1]. apply (I_drop (limit - n)). by replace (limit - n + (n - 0 + k))%nat with (limit + k)%nat by lia. }
  intros r s2 (E2 & C2 & Hr). wp_step. eapply wp_lib; [apply keeps_call|]. intros _ s3 E3 C3 _. wp_step.
  split; [|rewrite C3; by split]. by eapply I_quiet.
Qed.

Lemma wp_classes_loop l s : controllers_ok (es_controllers s) -> I (length l * limit) (es_st s) ->
  wp (classes_loop fuel f l) (enumerated 0) s.
Proof.
  revert s. induction l as [|guid l IH]; intros s Hc HI; cbn [classes_loop].
  { wp_step. split; [done|]. split; [done|by left]. }
  cbn [length Nat.mul] in HI. wp_step. eapply wp_mono; [by eapply wp_enumerate_class|].
  intros r s1 (E1 & C1 & Hr). case_match; [|by apply IH].
  wp_step. split; [|done]. eapply (I_drop (length l * limit)). by rewrite Nat.add_0_r.
Qed.

Lemma wp_enumerate s : controllers_ok (es_controllers s) -> I (2 * limit) (es_st s) ->
  wp (hs_enumerate fuel f) (enumerated 0) s.
Proof.
  intros Hc HI. unfold hs_enumerate. wp_step. eapply wp_mono; [by apply wp_populate_controllers|].
  intros r s1 (E1 & C1 & Hr). destruct (Z.ltb_spec r 0).
  - wp_step. split; [eapply I_quiet; [|exact E1]|].
    { apply (I_drop (2 * limit)). by rewrite Nat.add_0_r. }
    split; [done|]. apply enumerate_failure. destruct Hr; [lia|done].
  - apply wp_classes_loop; [done|]. by eapply I_quiet.
Qed.
End Enumerate.

(** A callback that leaves the objects of the library as they are: it is only
    called on a device just described. [P] holds of its results. *)
Definition win32_callback {W} `{Win32 W} `{Cfgmgr W} t (f : ptr -> M (st W) Z) (P : Z -> Prop) : Prop :=
  forall p d inst (x : st W), described hid_guid t None inst d -> m_devs (s_mem x) !! p = Some d ->
    exists r y, f p x = Done (r, y) /\ same_objects x y /\ P r.

Lemma win32_callback_new {W} `{Win32 W} `{Cfgmgr W} t (f : ptr -> M (st W) Z) (P : Z -> Prop) :
  win32_callback t f P ->
  forall (x0 : st W) p d inst x y, same_objects x0 x -> described hid_guid t None inst d ->
  p <> NULL -> ~ in_use (s_mem x) p -> ~ in_use (s_mem x) (hnode_of p) ->
  s_mem y = with_new_dev p d (s_mem x) ->
  wp (let* r := f p in hs_device_unref p ;;; ret r) (fun r z => same_objects x0 z /\ P r) y.
Proof.
  intros Hf x0 p d inst x y Hx Hd Hp Hu Hn Hm.
  destruct (Hf p d inst y Hd) as (r & z & E & Hz & Hr); [rewrite Hm; apply lookup_insert_eq|].
  wp_step. eapply wp_intro; [exact E|]. wp_step.
  destruct (unref_shown p d (s_mem x) y z Hp Hu Hn) as (z2 & sts & E2 & _ & Hm2);
    [by apply (ds_new _ _ _ _ _ Hd)|done|done|].
  eapply wp_intro; [exact E2|]. wp_step. split; [|done]. eapply same_objects_trans; [exact Hx|].
  unfold same_objects. by rewrite Hm2.
Qed.

(** * A system with one device, for the witnesses *)

Definition demo_cfgmgr : Cfgmgr windows := tree_cfgmgr demo_tree [10] [13].

Lemma demo_shallow i : exists n, (n < 10)%nat /\ shallow demo_tree n 7 i.
Proof.
  assert (H10 : forall k, shallow demo_tree 0 k 10) by (intros k; by apply shallow_top).
  assert (H11 : forall k, shallow demo_tree 1 k 11).
  { intros k. rewrite <- (Nat.add_0_r k). change 0%nat with (length (port_of demo_tree 11)).
    by eapply shallow_up. }
  assert (H12 : forall k, shallow demo_tree 2 (k + 1) 12).
  { intros k. change 1%nat with (length (port_of demo_tree 12)). by eapply shallow_up. }
  assert (H13 : forall k, shallow demo_tree 3 (k + 1 + 1) 13).
  { intros k. change (k + 1 + 1)%nat with (k + 1 + length (port_of demo_tree 13))%nat. by eapply shallow_up. }
  destruct (decide (i = 11)) as [->|]; [exists 1%nat; split; [lia|done]|].
  destruct (decide (i = 12)) as [->|]; [exists 2%nat; split; [lia|apply (H12 6%nat)]|].
  destruct (decide (i = 13)) as [->|]; [exists 3%nat; split; [lia|apply (H13 5%nat)]|].
  exists 0%nat. split; [lia|]. apply shallow_top. cbn.
  destruct (Z.ltb_spec 10 i); [|done]. destruct (Z.leb_spec i 13); [lia|done].
Qed.

Lemma demo_documented : discovery_documented (H0 := demo_cfgmgr) (H1 := bump) demo_tree 10.
Proof.
  split; try by intros.
  - by apply tree_cfgmgr_documented.
  - exact bump_documented.
  - exact demo_shallow.
  - intros set. cbn. destruct (Z.eqb_spec set 1); [exists 1%nat; by split; [lia|]|].
    destruct (Z.eqb_spec set 2); [exists 1%nat; by split; [lia|]|]. exists 0%nat. by split; [lia|].
Qed.

Definition win32_quiet : st windows := windowed (Windows [] None [] ∅).

(** * Properties *)



Example demo_process :
  match process_win32_device (H0 := demo_cfgmgr) (H1 := bump) 10 demo_controllers 13 None win32_quiet with
  | Done ((1, p), s) =>
      (fun d => (dev_type d, dev_path d, dev_location d, dev_vid d)) <$> (m_devs (s_mem s) !! p) =
      Some (HS_DEVICE_TYPE_SERIAL, Some "\\.\COM3", Some "usb-1-3-4", 0x16C0)
  | _ => False
  end.
Proof. vm_compute. reflexivity. Qed.



Example win32_enumerates :
  match hs_enumerate (H0 := demo_cfgmgr) (H1 := bump) 10 (fun _ => ret 7) (EnumState win32_quiet []) with
  | Done (r, s) => (r, es_controllers s) = (7, demo_controllers)
  | _ => False
  end.
Proof. vm_compute. reflexivity. Qed.
