(* ===== verification/MonitorWin32.v ===== *)
(** The monitor of Windows: the rest of src/src/monitor_win32.c. A background
    thread owns a window that gets the device messages; it queues them for
    [hs_monitor_refresh], and an event object tells the reader that the queue
    has something.

    A critical section of [mutex] is one step. The two threads meet where the
    code has them meet: the thread starts while [hs_monitor_new] waits for the
    event, and ends while [hs_monitor_free] waits for the thread; what it does
    in between is the sequence of messages it handles. *)

From S2P Require Import Prelude Common DList Htable State Posix Platform Device Heap Monitor Win32 UsbWin32 EnumWin32.

Inductive device_event := DEVICE_EVENT_ADDED | DEVICE_EVENT_REMOVED.

(** struct device_notification; its list node is its first field. *)
Record device_notification := Notification { dn_event : device_event; dn_key : option string }.

(** struct hs_monitor without _HS_MONITOR. The mutex is [None] until
    [InitializeCriticalSection], then the number of times it was entered;
    [wm_set] says whether the event object is set. The list head
    [notifications] is a cell at [notifications_of]. *)
Record win32_monitor := Win32Monitor {
  wm_mutex : option Z;
  wm_ret : Z;
  wm_event : Z;
  wm_set : bool;
  wm_thread : Z;
  wm_hwnd : Z
}.

Definition wm_with_mutex (x : option Z) (m : win32_monitor) : win32_monitor :=
  Win32Monitor x (wm_ret m) (wm_event m) (wm_set m) (wm_thread m) (wm_hwnd m).
Definition wm_with_ret (x : Z) (m : win32_monitor) : win32_monitor :=
  Win32Monitor (wm_mutex m) x (wm_event m) (wm_set m) (wm_thread m) (wm_hwnd m).
Definition wm_with_event (x : Z) (m : win32_monitor) : win32_monitor :=
  Win32Monitor (wm_mutex m) (wm_ret m) x (wm_set m) (wm_thread m) (wm_hwnd m).
Definition wm_with_set (x : bool) (m : win32_monitor) : win32_monitor :=
  Win32Monitor (wm_mutex m) (wm_ret m) (wm_event m) x (wm_thread m) (wm_hwnd m).
Definition wm_with_thread (x : Z) (m : win32_monitor) : win32_monitor :=
  Win32Monitor (wm_mutex m) (wm_ret m) (wm_event m) (wm_set m) x (wm_hwnd m).
Definition wm_with_hwnd (x : Z) (m : win32_monitor) : win32_monitor :=
  Win32Monitor (wm_mutex m) (wm_ret m) (wm_event m) (wm_set m) (wm_thread m) x.

(** [calloc(1, sizeof(struct hs_monitor))] *)
Definition win32_monitor_zero : win32_monitor := Win32Monitor None 0 0 false 0 0.

(** The head [notifications] in a monitor. *)
Definition notifications_of (m : ptr) : ptr := m + 80.

(** The state of the discovery, with the monitors and notifications. *)
Record nst (W : Type) := Nst {
  nw_es : enum_state W;
  nw_monitors : gmap ptr win32_monitor;
  nw_notes : gmap ptr device_notification
}.
Arguments Nst {W}.
Arguments nw_es {W}.
Arguments nw_monitors {W}.
Arguments nw_notes {W}.

#[export] Instance Has_es_nst W : Has (enum_state W) (nst W).
Proof.
  refine {| part := nw_es; with_part := fun t s => Nst t (nw_monitors s) (nw_notes s) |};
    by try intros [].
Defined.

#[export] Instance Has_st_nst W : Has (st W) (nst W).
Proof.
  refine {| part := fun s => es_st (nw_es s); with_part := fun t s => with_part (with_part t (nw_es s)) s |};
    by try intros [[]].
Defined.

#[export] Instance Has_lmem_nst W : Has lmem (nst W).
Proof.
  refine {| part := fun s => part (es_st (nw_es s));
            with_part := fun l s => with_part (with_part l (es_st (nw_es s))) s |};
    by try intros [[[? ? []]]].
Defined.

(** A message of the window: WM_DEVICECHANGE with its [wparam] and the name in
    the structure [lparam] points to, WM_CLOSE, or another one. *)
Inductive window_message :=
  | WM_DEVICECHANGE (wparam : Z) (dbcc_name : string)
  | WM_CLOSE
  | WM_OTHER.

Definition DBT_DEVICEARRIVAL : Z := 0x8000.
Definition DBT_DEVICEREMOVECOMPLETE : Z := 0x8004.
Definition MONITOR_CLASS_NAME : string := "hs_monitor".

(** Windows and threads. A handle is an integer, 0 for NULL. *)
Class Win32Window (W : Type) := {
  GetModuleHandle : sysc W Z;
  RegisterClassEx : string -> sysc W Z;
  CreateWindow : string -> sysc W Z;
  (** SetLastError(0), SetWindowLongPtr(hwnd, GWLP_USERDATA, data) and GetLastError() *)
  SetWindowLongPtr : Z -> ptr -> sysc W Z;
  RegisterDeviceNotification : Z -> sysc W Z;
  UnregisterDeviceNotification : Z -> sysc W unit;
  DestroyWindow : Z -> sysc W unit;
  UnregisterClass : string -> sysc W unit;
  (** the result, and the message when it is positive *)
  GetMessage : sysc W (Z * window_message);
  TranslateMessage : window_message -> sysc W unit;
  PostMessage_close : Z -> sysc W unit;
  PostQuitMessage : sysc W unit;
  DefWindowProc : window_message -> sysc W unit;
  _beginthreadex : sysc W Z;
  (** the result of WaitForSingleObject(handle, INFINITE) *)
  wait_infinite : Z -> sysc W Z
}.

Section MonitorWin32.
Context {W : Type} `{Win32 W} `{Cfgmgr W} `{Win32Window W} `{Allocator W}.
Variable fuel : nat.

Definition on_st {A} (m : M (st W) A) : M (nst W) A := zoom m.
Definition on_es {A} (m : M (enum_state W) A) : M (nst W) A := zoom m.
Definition on_nodes {A} (m : M lmem A) : M (nst W) A := zoom m.

(** [monitor->field] and [monitor->field = v] *)
Definition load_wm (m : ptr) : M (nst W) win32_monitor :=
  fun s => match nw_monitors s !! m with
           | Some x => Done (x, s)
           | None => Fault BadAccess
           end.
Definition set_wm (m : ptr) (f : win32_monitor -> win32_monitor) : M (nst W) unit :=
  fun s => match nw_monitors s !! m with
           | Some x => Done (tt, Nst (nw_es s) (<[m := f x]> (nw_monitors s)) (nw_notes s))
           | None => Fault BadAccess
           end.
Definition load_note (p : ptr) : M (nst W) device_notification :=
  fun s => match nw_notes s !! p with
           | Some x => Done (x, s)
           | None => Fault BadAccess
           end.
Definition store_note (p : ptr) (x : device_notification) : M (nst W) unit :=
  fun s => match nw_notes s !! p with
           | Some _ => Done (tt, Nst (nw_es s) (nw_monitors s) (<[p := x]> (nw_notes s)))
           | None => Fault BadAccess
           end.

(** The result of [malloc] or [calloc]. *)
Definition win_block : M (st W) ptr :=
  let* ok := os heap_ok in
  if ok : bool then
    let* s := get in
    ret (block_address (s_world s) (s_mem s))
  else ret NULL.

(** [calloc] and [free] of a notification and of a monitor. *)
Definition alloc_note (p : ptr) : M (nst W) unit :=
  modify (fun s => Nst (nw_es s) (nw_monitors s)
                     (<[p := Notification DEVICE_EVENT_ADDED None]> (nw_notes s))) ;;;
  on_nodes (list_alloc p).
Definition free_note (p : ptr) : M (nst W) unit :=
  let* _ := load_note p in
  modify (fun s => Nst (nw_es s) (nw_monitors s) (delete p (nw_notes s))) ;;;
  on_nodes (list_free p).
Definition alloc_monitor (m : ptr) : M (nst W) unit :=
  on_st (alloc_mon m) ;;;
  modify (fun s => Nst (nw_es s) (<[m := win32_monitor_zero]> (nw_monitors s)) (nw_notes s)) ;;;
  on_nodes (list_alloc (notifications_of m)).
Definition free_monitor (m : ptr) : M (nst W) unit :=
  let* _ := load_wm m in
  modify (fun s => Nst (nw_es s) (delete m (nw_monitors s)) (nw_notes s)) ;;;
  on_nodes (list_free (notifications_of m)) ;;;
  on_st (free_mon m).

(** [&monitor->mutex]; entering and leaving are balanced in every step. *)
Definition InitializeCriticalSection (m : ptr) : M (nst W) unit :=
  set_wm m (wm_with_mutex (Some 0)).
Definition EnterCriticalSection (m : ptr) : M (nst W) unit :=
  let* x := load_wm m in
  match wm_mutex x with
  | None => fail BadAccess
  | Some n => set_wm m (wm_with_mutex (Some (n + 1)))
  end.
Definition LeaveCriticalSection (m : ptr) : M (nst W) unit :=
  let* x := load_wm m in
  match wm_mutex x with
  | None => fail BadAccess
  | Some n => assert_ (0 <? n) ;;; set_wm m (wm_with_mutex (Some (n - 1)))
  end.
Definition DeleteCriticalSection (m : ptr) : M (nst W) unit :=
  set_wm m (wm_with_mutex None).

(** [SetEvent(monitor->event)] and [ResetEvent(monitor->event)] *)
Definition SetEvent (m : ptr) : M (nst W) unit := set_wm m (wm_with_set true).
Definition ResetEvent (m : ptr) : M (nst W) unit := set_wm m (wm_with_set false).

Definition free_notification (notification : ptr) : M (nst W) unit :=
  if notification =? NULL then ret tt else free_note notification.

(** * The background thread *)

(** The critical section of [post_device_event]. *)
Definition post_locked (m notification : ptr) : M (nst W) unit :=
  EnterCriticalSection m ;;;
  on_nodes (_hs_list_add_tail (notifications_of m) notification) ;;;
  SetEvent m ;;;
  LeaveCriticalSection m.

Definition post_device_event (m : ptr) (event : device_event) (dbcc_name : string) : M (nst W) Z :=
  let* notification := on_st win_block in
  if notification =? NULL then on_st memory_error
  else
    alloc_note notification ;;;
    store_note notification (Notification event None) ;;;
    let* rk := on_st (extract_device_id dbcc_name) in
    match rk with
    | (r, Some key) =>
        store_note notification (Notification event (Some key)) ;;;
        post_locked m notification ;;;
        ret 0
    | (r, None) =>
        free_notification notification ;;;
        ret r
    end.

(** The critical section of [window_proc]. *)
Definition fail_locked (m : ptr) (r : Z) : M (nst W) unit :=
  EnterCriticalSection m ;;;
  set_wm m (wm_with_ret r) ;;;
  SetEvent m ;;;
  LeaveCriticalSection m.

Definition window_proc (m : ptr) (msg : window_message) : M (nst W) unit :=
  (match msg with
   | WM_DEVICECHANGE wparam dbcc_name =>
       let* r :=
         (if wparam =? DBT_DEVICEARRIVAL then post_device_event m DEVICE_EVENT_ADDED dbcc_name
          else if wparam =? DBT_DEVICEREMOVECOMPLETE then
            post_device_event m DEVICE_EVENT_REMOVED dbcc_name
          else ret 0) in
       if r <? 0 then fail_locked m r else ret tt
   | WM_CLOSE => on_st (os PostQuitMessage)
   | WM_OTHER => ret tt
   end) ;;;
  on_st (os (DefWindowProc msg)).

(** From the start of [monitor_thread] to the loop on the messages: negative
    for [goto cleanup], with [notify]. *)
Definition monitor_thread_start (m : ptr) : M (nst W) (Z * Z) :=
  let* _ := on_st (os GetModuleHandle) in
  let* atom := on_st (os (RegisterClassEx MONITOR_CLASS_NAME)) in
  if atom =? 0 then
    let* r := on_st (error HS_ERROR_SYSTEM ("RegisterClass() failed: " +:+ hs_win32_strerror 0)) in
    ret (r, 0)
  else
    let* hwnd := on_st (os (CreateWindow MONITOR_CLASS_NAME)) in
    set_wm m (wm_with_hwnd hwnd) ;;;
    if hwnd =? 0 then
      let* r := on_st (error HS_ERROR_SYSTEM ("CreateWindow() failed: " +:+ hs_win32_strerror 0)) in
      ret (r, 0)
    else
      let* e := on_st (os (SetWindowLongPtr hwnd m)) in
      if negb (e =? 0) then
        let* r := on_st (error HS_ERROR_SYSTEM
          ("SetWindowLongPtr() failed: " +:+ hs_win32_strerror 0)) in
        ret (r, 0)
      else
        let* notify := on_st (os (RegisterDeviceNotification hwnd)) in
        if notify =? 0 then
          let* r := on_st (error HS_ERROR_SYSTEM
            ("RegisterDeviceNotification() failed: " +:+ hs_win32_strerror 0)) in
          ret (r, 0)
        else
          SetEvent m ;;;
          ret (0, notify).

(** The loop on the messages: the [r] with which [cleanup:] is reached. *)
Fixpoint message_loop (n : nat) (m : ptr) : M (nst W) Z :=
  match n with
  | O => out_of_fuel
  | S n =>
      let* rm := on_st (os GetMessage) in
      let '(ret', msg) := rm in
      if ret' =? 0 then ret 0
      else if ret' <? 0 then
        on_st (error HS_ERROR_SYSTEM ("GetMessage() failed: " +:+ hs_win32_strerror 0))
      else
        on_st (os (TranslateMessage msg)) ;;;
        window_proc m msg ;;;
        message_loop n m
  end.

(** [cleanup:] of [monitor_thread]. *)
Definition monitor_thread_end (m : ptr) (r notify : Z) : M (nst W) unit :=
  (if negb (notify =? 0) then on_st (os (UnregisterDeviceNotification notify)) else ret tt) ;;;
  let* x := load_wm m in
  (if negb (wm_hwnd x =? 0) then on_st (os (DestroyWindow (wm_hwnd x))) else ret tt) ;;;
  on_st (os (UnregisterClass MONITOR_CLASS_NAME)) ;;;
  if r <? 0 then
    set_wm m (wm_with_ret r) ;;;
    SetEvent m
  else ret tt.

Definition monitor_thread (m : ptr) : M (nst W) unit :=
  let* rn := monitor_thread_start m in
  let '(r, notify) := rn in
  let* r := (if r <? 0 then ret r else message_loop fuel m) in
  monitor_thread_end m r notify.

(** * The monitor *)

(** The functions registered by the user. *)
Variable call : ptr -> ptr -> ptr -> M (st W) Z.

Definition wait_event (event : Z) : M (nst W) Z :=
  let* r := on_st (os (wait_infinite event)) in
  if negb (r =? WAIT_OBJECT_0) then
    on_st (error HS_ERROR_SYSTEM ("WaitForSingleObject() failed: " +:+ hs_win32_strerror 0))
  else ret 0.

Definition monitor_enumerate_callback (m dev : ptr) : M (st W) Z :=
  _hs_monitor_add call fuel m dev.

(** The loop over the notifications that frees them. *)
Definition free_notifications (m : ptr) : M (nst W) unit :=
  let* _ := _hs_list_foreach (R := unit) (ret (notifications_of m)) (fun cur =>
    free_notification cur ;;;
    ret Next) fuel in
  ret tt.

(** The thread ends before [WaitForSingleObject] returns: [last] is what it
    still does. *)
Definition stop_thread (m : ptr) (last : M (nst W) unit) : M (nst W) unit :=
  let* x := load_wm m in
  if negb (wm_thread x =? 0) then
    (if negb (wm_hwnd x =? 0) then
       on_st (os (PostMessage_close (wm_hwnd x))) ;;;
       last ;;;
       let* _ := on_st (os (wait_infinite (wm_thread x))) in
       ret tt
     else ret tt) ;;;
    on_st (os (CloseHandle (wm_thread x)))
  else ret tt.

Definition hs_monitor_free (m : ptr) (last : M (nst W) unit) : M (nst W) unit :=
  if m =? NULL then ret tt
  else
    on_st (_hs_monitor_release fuel m) ;;;
    stop_thread m last ;;;
    DeleteCriticalSection m ;;;
    let* x := load_wm m in
    (if negb (wm_event x =? 0) then on_st (os (CloseHandle (wm_event x))) else ret tt) ;;;
    free_notifications m ;;;
    free_monitor m.

(** [error:] of [hs_monitor_new]. *)
Definition monitor_error (r : Z) (m : ptr) : M (nst W) (Z * ptr) :=
  hs_monitor_free m (ret tt) ;;;
  ret (r, NULL).

(** The messages that are dispatched, in order. *)
Fixpoint handle_messages (m : ptr) (l : list window_message) : M (nst W) unit :=
  match l with
  | [] => ret tt
  | msg :: l => window_proc m msg ;;; handle_messages m l
  end.

(** Between the first wait and the end of [hs_monitor_new], the thread has set
    the event, and may have handled the messages [early]. *)
Definition thread_runs (m : ptr) (early : list window_message) : M (nst W) unit :=
  let* rn := monitor_thread_start m in
  let '(r, notify) := rn in
  if r <? 0 then monitor_thread_end m r notify
  else
    handle_messages m early.

(** The second half of [hs_monitor_new]: the result and [*rmonitor], NULL when
    it is not stored. *)
Definition start_thread (m : ptr) (early : list window_message) : M (nst W) (Z * ptr) :=
  let* thread := on_st (os _beginthreadex) in
  set_wm m (wm_with_thread thread) ;;;
  if thread =? 0 then
    let* r := on_st (error HS_ERROR_SYSTEM ("_beginthreadex() failed: " +:+ hs_win32_strerror 0)) in
    ret (r, NULL)
  else
    thread_runs m early ;;;
    let* x := load_wm m in
    let* r := wait_event (wm_event x) in
    if r <? 0 then monitor_error r m
    else
      let* x := load_wm m in
      if wm_ret x <? 0 then monitor_error (wm_ret x) m
      else
        ResetEvent m ;;;
        ret (0, m).

Definition hs_monitor_new (early : list window_message) : M (nst W) (Z * ptr) :=
  let* m := on_st win_block in
  if m =? NULL then
    let* r := on_st memory_error in
    monitor_error r NULL
  else
    alloc_monitor m ;;;
    on_nodes (_hs_list_init (notifications_of m)) ;;;
    InitializeCriticalSection m ;;;
    let* event := on_st (os CreateEvent) in
    match event with
    | WErr e =>
        let* r := on_st (error HS_ERROR_SYSTEM ("CreateEvent() failed: " +:+ hs_win32_strerror e)) in
        monitor_error r m
    | WOk event =>
        set_wm m (wm_with_event event) ;;;
        let* heads := on_st win_block in
        let* r := on_st (_hs_monitor_init heads m) in
        if r <? 0 then monitor_error r m
        else
          let* r := on_es (hs_enumerate fuel (monitor_enumerate_callback m)) in
          if r <? 0 then monitor_error r m
          else start_thread m early
    end.

Definition hs_monitor_get_descriptor (m : ptr) : M (nst W) Z :=
  assert_ (negb (m =? NULL)) ;;;
  let* x := load_wm m in
  ret (wm_event x).

(** * Refreshing *)

(** When the node does not exist, the message needs [dev->key] of a device that
    is NULL. *)
Definition process_arrival_notification (m : ptr) (key : string) : M (nst W) Z :=
  let* inst := on_st (os (CM_Locate_DevNode key)) in
  match inst with
  | WErr _ => fail BadAccess
  | WOk inst =>
      let* controllers := on_es load_controllers in
      let* rd := on_st (process_win32_device fuel controllers inst (Some key)) in
      let '(r, dev) := rd in
      if r <=? 0 then ret r
      else
        on_st (let* r := _hs_monitor_add call fuel m dev in
               hs_device_unref dev ;;;
               ret r)
  end.

(** The first critical section of [hs_monitor_refresh]; [list] is its local
    list. *)
Definition take_notifications (m list : ptr) : M (nst W) Z :=
  EnterCriticalSection m ;;;
  on_nodes (_hs_list_splice list (notifications_of m)) ;;;
  let* x := load_wm m in
  set_wm m (wm_with_ret 0) ;;;
  LeaveCriticalSection m ;;;
  ret (wm_ret x).

(** The [switch] on a notification. *)
Definition process_notification (m : ptr) (note : device_notification) : M (nst W) Z :=
  match dn_key note with
  | None => fail BadAccess
  | Some key =>
      match dn_event note with
      | DEVICE_EVENT_ADDED =>
          on_st (log HS_LOG_DEBUG ("Received arrival notification for device '" +:+ key +:+ "'")) ;;;
          process_arrival_notification m key
      | DEVICE_EVENT_REMOVED =>
          on_st (log HS_LOG_DEBUG ("Received removal notification for device '" +:+ key +:+ "'")) ;;;
          on_st (_hs_monitor_remove call fuel m key) ;;;
          ret 0
      end
  end.

(** The body of the loop. *)
Definition refresh_body (m cur : ptr) : M (nst W) (flow Z) :=
  let* notification := load_note cur in
  let* r := process_notification m notification in
  on_nodes (_hs_list_remove cur) ;;;
  free_notification cur ;;;
  if r <? 0 then ret (Return r) else ret Next.

(** The second critical section. *)
Definition put_back (m list : ptr) : M (nst W) unit :=
  EnterCriticalSection m ;;;
  on_nodes (_hs_list_splice (notifications_of m) list) ;;;
  let* empty := on_nodes (_hs_list_is_empty (notifications_of m)) in
  (if empty : bool then ResetEvent m else ret tt) ;;;
  LeaveCriticalSection m.

(** [list] is the address of the local list head, on the stack. *)
Definition hs_monitor_refresh (list m : ptr) : M (nst W) Z :=
  assert_ (negb (m =? NULL)) ;;;
  on_nodes (_hs_list_init list) ;;;
  let* r := take_notifications m list in
  let* r :=
    (if r <? 0 then ret r
     else
       let* r := _hs_list_foreach (ret list) (refresh_body m) fuel in
       ret (default 0 r)) in
  put_back m list ;;;
  ret r.
End MonitorWin32.
