(* ===== verification/MonitorWin32Spec.v ===== *)
(** What the monitor of Windows promises: whatever order the background thread
    and the reader run in, no notification is lost, they are handled in the
    order they came, and the event is set while some wait; a refresh handles
    them until one fails, and keeps the rest. *)

From S2P Require Import Prelude Common DList Htable State Posix Platform Device Heap Monitor MonitorSpec Discovery Win32 UsbWin32 UsbWin32Spec EnumWin32 EnumWin32Spec MonitorWin32.

(** A notification with its key. *)
Definition event : Type := device_event * string.
Definition note_of (e : event) : device_notification := Notification e.1 (Some e.2).

Section Rep.
Context {W : Type}.
Implicit Types (s : nst W) (m frame p : ptr) (pend : list (ptr * event))
  (cbs : list (ptr * callback)) (bs : list (list ptr)) (D : gmap (string * Z) ptr).

(** The library in the state of a monitor, and its lists. *)
Definition lib_of s : st W := es_st (nw_es s).
Definition nodes_of s : lmem := m_lists (s_mem (lib_of s)).

(** The nodes of the lists of a monitor: the callbacks, the notifications that
    are queued and, in a refresh, those that were taken. *)
Definition cells m frame cbs pend (local : list (ptr * event)) : list ptr :=
  (m :: cbs.*1) ++ (notifications_of m :: pend.*1) ++ frame :: local.*1.

Lemma cells_reg m frame cbs pend local p : p ∈ m :: cbs.*1 -> p ∈ cells m frame cbs pend local.
Proof. intros Hp. apply elem_of_app. by left. Qed.
Lemma cells_pend m frame cbs pend local p :
  p ∈ notifications_of m :: pend.*1 -> p ∈ cells m frame cbs pend local.
Proof. intros Hp. apply elem_of_app. right. apply elem_of_app. by left. Qed.
Lemma cells_local m frame cbs pend local p : p ∈ frame :: local.*1 -> p ∈ cells m frame cbs pend local.
Proof. intros Hp. apply elem_of_app. right. apply elem_of_app. by right. Qed.
Lemma cells_notes m frame cbs pend local p : p ∈ (pend ++ local).*1 -> p ∈ cells m frame cbs pend local.
Proof.
  rewrite fmap_app. intros [Hp|Hp]%elem_of_app; [apply cells_pend|apply cells_local]; by right.
Qed.

(** The notifications [pend] are queued and the reader, when it is in a
    refresh, has [local] still to handle. *)
Record queue_rep s m frame (x : win32_monitor) mo cbs bs D pend (local : option (list (ptr * event)))
    : Prop := {
  qr_monitor : nw_monitors s !! m = Some x;
  qr_mutex : wm_mutex x = Some 0;
  qr_reg : mon_rep (lib_of s) m mo cbs bs D;
  qr_controllers : controllers_ok (es_controllers (nw_es s));
  qr_nodup : NoDup (cells m frame cbs pend (default [] local));
  qr_null : NULL ∉ cells m frame cbs pend (default [] local);
  qr_pend : dlist (nodes_of s) (notifications_of m) pend.*1;
  qr_local : match local with
             | Some l => dlist (nodes_of s) frame l.*1
             | None => list_node (nodes_of s) frame
             end;
  qr_notes : Forall (fun pe => nw_notes s !! pe.1 = Some (note_of pe.2)) (pend ++ default [] local)
}.

(** The memory but its lists and statics. *)
Definition same_but_lists (a b : st W) : Prop :=
  m_nodes (s_mem b) = m_nodes (s_mem a) /\ m_devs (s_mem b) = m_devs (s_mem a) /\
  m_cbs (s_mem b) = m_cbs (s_mem a) /\ m_mons (s_mem b) = m_mons (s_mem a).

Lemma mon_rep_lists (a b : st W) m mo cbs bs D :
  mon_rep a m mo cbs bs D -> same_but_lists a b ->
  (forall p, p ∈ m :: cbs.*1 -> l_prev (m_lists (s_mem b)) !! p = l_prev (m_lists (s_mem a)) !! p /\
     l_next (m_lists (s_mem b)) !! p = l_next (m_lists (s_mem a)) !! p) ->
  mon_rep b m mo cbs bs D.
Proof.
  intros [G1 G2 [G3 G3'] G4 G5] (E1 & E2 & E3 & E4) Hl. split; [done|by rewrite E4| |done|].
  - split; [by eapply dlist_frame|by rewrite E3].
  - by eapply table_rep_frame.
Qed.

Lemma same_but_lists_mem a b : s_mem b = s_mem a -> same_but_lists a b.
Proof. intros E. unfold same_but_lists. by rewrite E. Qed.

(** What a change of the lists outside the cells leaves. *)
Lemma queue_rep_frame s s' m frame x mo cbs bs D pend local :
  queue_rep s m frame x mo cbs bs D pend local ->
  nw_monitors s' = nw_monitors s -> same_but_lists (lib_of s) (lib_of s') ->
  es_controllers (nw_es s') = es_controllers (nw_es s) ->
  (forall p, p ∈ cells m frame cbs pend (default [] local) ->
     l_prev (nodes_of s') !! p = l_prev (nodes_of s) !! p /\
     l_next (nodes_of s') !! p = l_next (nodes_of s) !! p) ->
  (forall p, p ∈ (pend ++ default [] local).*1 -> nw_notes s' !! p = nw_notes s !! p) ->
  queue_rep s' m frame x mo cbs bs D pend local.
Proof.
  intros [G1 G2 G3 G4 G5 G6 G7 G8 G9] Em Es Ec El En. unfold cells in El. split; try done.
  - by rewrite Em.
  - eapply mon_rep_lists; [done|done|]. intros p Hp. apply El. set_solver.
  - by rewrite Ec.
  - eapply dlist_frame; [|done]. intros p Hp. by apply El, cells_pend.
  - destruct local as [l|]; cbn in *.
    + eapply dlist_frame; [|done]. intros p Hp. by apply El, cells_local.
    + destruct (El frame) as [E1 E2]; [set_solver|]. unfold list_node. by rewrite E1, E2.
  - apply Forall_forall. intros pe Hpe. rewrite En by by apply list_elem_of_fmap_2.
    rewrite Forall_forall in G9. by apply G9.
Qed.

(** A command of the library that leaves its memory. *)
Lemma wp_on_st {A} (c : M (st W) A) (P : A -> Prop) (Q : A -> nst W -> Prop) s :
  keeps c P ->
  (forall a s', s_mem (lib_of s') = s_mem (lib_of s) -> nw_monitors s' = nw_monitors s ->
     nw_notes s' = nw_notes s -> es_controllers (nw_es s') = es_controllers (nw_es s) -> P a -> Q a s') ->
  wp (on_st c) Q s.
Proof.
  intros Hc HQ. unfold on_st. apply wp_zoom. eapply wp_mono; [apply Hc|]. intros a y [E Ha]. by apply HQ.
Qed.

Lemma queue_rep_quiet s s' m frame x mo cbs bs D pend local :
  queue_rep s m frame x mo cbs bs D pend local ->
  s_mem (lib_of s') = s_mem (lib_of s) -> nw_monitors s' = nw_monitors s ->
  nw_notes s' = nw_notes s -> es_controllers (nw_es s') = es_controllers (nw_es s) ->
  queue_rep s' m frame x mo cbs bs D pend local.
Proof.
  intros Hq E1 E2 E3 E4. eapply queue_rep_frame; [done|done|by apply same_but_lists_mem|done| |].
  - intros p _. unfold nodes_of. by rewrite E1.
  - intros p _. by rewrite E3.
Qed.

(** A list operation. *)
Lemma wp_on_nodes {A} (c : M lmem A) (Q : A -> nst W -> Prop) s :
  wp c (fun a l => forall s', nodes_of s' = l -> same_but_lists (lib_of s) (lib_of s') ->
     s_world (lib_of s') = s_world (lib_of s) ->
     nw_monitors s' = nw_monitors s -> nw_notes s' = nw_notes s ->
     es_controllers (nw_es s') = es_controllers (nw_es s) -> Q a s') (nodes_of s) ->
  wp (on_nodes c) Q s.
Proof.
  intros Hc. unfold on_nodes. apply wp_zoom. eapply wp_mono; [exact Hc|]. intros a l HQ. by apply HQ.
Qed.

Lemma wp_set_wm (Q : unit -> nst W -> Prop) s m x f :
  nw_monitors s !! m = Some x ->
  Q tt (Nst (nw_es s) (<[m := f x]> (nw_monitors s)) (nw_notes s)) -> wp (set_wm m f) Q s.
Proof. intros Hx HQ. unfold wp, set_wm. by rewrite Hx. Qed.

Lemma wp_load_wm (Q : win32_monitor -> nst W -> Prop) s m x :
  nw_monitors s !! m = Some x -> Q x s -> wp (load_wm m) Q s.
Proof. intros Hx HQ. unfold wp, load_wm. by rewrite Hx. Qed.

Lemma wp_load_note (Q : device_notification -> nst W -> Prop) s p n :
  nw_notes s !! p = Some n -> Q n s -> wp (load_note p) Q s.
Proof. intros Hx HQ. unfold wp, load_note. by rewrite Hx. Qed.

(** Entering the critical section and leaving it. *)
Lemma wp_enter (Q : unit -> nst W -> Prop) s m x n :
  nw_monitors s !! m = Some x -> wm_mutex x = Some n ->
  Q tt (Nst (nw_es s) (<[m := wm_with_mutex (Some (n + 1)) x]> (nw_monitors s)) (nw_notes s)) ->
  wp (EnterCriticalSection m) Q s.
Proof.
  intros Hx Hm HQ. unfold EnterCriticalSection. wp_step. eapply wp_load_wm; [done|]. rewrite Hm.
  by eapply wp_set_wm.
Qed.

Lemma wp_leave (Q : unit -> nst W -> Prop) s m x n :
  nw_monitors s !! m = Some x -> wm_mutex x = Some n -> 0 < n ->
  Q tt (Nst (nw_es s) (<[m := wm_with_mutex (Some (n - 1)) x]> (nw_monitors s)) (nw_notes s)) ->
  wp (LeaveCriticalSection m) Q s.
Proof.
  intros Hx Hm Hn HQ. unfold LeaveCriticalSection. wp_step. eapply wp_load_wm; [done|]. rewrite Hm.
  wp_step. wp_step; [by apply Z.ltb_lt|]. by eapply wp_set_wm.
Qed.
End Rep.

(** * The steps of the background thread *)

Section Thread.
Context {W : Type} `{Win32 W} `{Cfgmgr W} `{Win32Window W} `{Allocator W}.
Implicit Types (s : nst W) (p : ptr) (pend : list (ptr * event)).
Variables (m frame : ptr) (mo : hs_monitor) (cbs : list (ptr * callback)) (bs : list (list ptr))
  (D : gmap (string * Z) ptr).

(** Every cell is a node. *)
Lemma cell_node s x pend local p : queue_rep s m frame x mo cbs bs D pend local ->
  p ∈ cells m frame cbs pend (default [] local) -> list_node (nodes_of s) p.
Proof.
  intros [_ _ [_ _ [G3 _] _ _] _ _ _ G7 G8 _] Hp. unfold cells in Hp.
  rewrite !elem_of_app in Hp. destruct Hp as [Hp|[Hp|Hp]].
  - by apply (dlist_node _ _ _ _ G3).
  - by apply (dlist_node _ _ _ _ G7).
  - destruct local as [l|]; [by apply (dlist_node _ _ _ _ G8)|]. apply elem_of_cons in Hp as [->|Hp]; [done|].
    by apply elem_of_nil in Hp.
Qed.

Lemma fresh_cell s x pend local p : queue_rep s m frame x mo cbs bs D pend local ->
  ~ in_use (s_mem (lib_of s)) p -> p ∉ cells m frame cbs pend (default [] local).
Proof.
  intros Hq Hu Hp. destruct (cell_node _ _ _ _ _ Hq Hp) as [Hn _]. apply Hu. unfold in_use. tauto.
Qed.

(** The cells when a notification is queued. *)
Lemma cells_post pend local p e :
  cells m frame cbs (pend ++ [(p, e)]) local ≡ₚ p :: cells m frame cbs pend local.
Proof.
  unfold cells. rewrite fmap_app. cbn [fmap list_fmap fst].
  change (notifications_of m :: pend.*1 ++ [p]) with ((notifications_of m :: pend.*1) ++ [p]).
  solve_Permutation.
Qed.

Lemma wp_post_locked (Q : unit -> nst W -> Prop) s x pend local p e :
  queue_rep s m frame x mo cbs bs D pend local ->
  list_node (nodes_of s) p -> p <> NULL -> p ∉ cells m frame cbs pend (default [] local) ->
  nw_notes s !! p = Some (note_of e) ->
  (forall s', queue_rep s' m frame (wm_with_set true x) mo cbs bs D (pend ++ [(p, e)]) local -> Q tt s') ->
  wp (post_locked m p) Q s.
Proof.
  intros Hq Hnode Hp Hfresh Hnote HQ. pose proof Hq as [G1 G2 G3 G4 G5 G6 G7 G8 G9]. unfold post_locked.
  assert (Hcells := G5). assert (Hfresh2 := Hfresh). unfold cells in G5, Hfresh2.
  wp_step. eapply wp_enter; [done|done|]. wp_step. apply wp_on_nodes.
  eapply wp_list_add_tail; [exact G7|exact Hnode|set_solver|done|]. intros l Hl Hsame s1 El Es _ Em En Ec.
  wp_step. eapply wp_set_wm; [by rewrite Em; cbn; rewrite lookup_insert_eq|].
  eapply wp_leave; [by cbn; rewrite lookup_insert_eq|done|done|].
  assert (Hout : forall q, q ∈ cells m frame cbs pend (default [] local) -> q ∉ notifications_of m :: pend.*1 ->
    l_prev l !! q = l_prev (nodes_of s) !! q /\ l_next l !! q = l_next (nodes_of s) !! q).
  { intros q Hq1 Hq2. apply Hsame. intros [->|Hq3]%elem_of_cons; [|done]. unfold cells in Hq1. set_solver. }
  pose proof (NoDup_app (m :: cbs.*1) ((notifications_of m :: pend.*1) ++ frame :: (default [] local).*1)) as Hnd.
  apply Hnd in G5 as (N1 & N12 & N2). clear Hnd. apply NoDup_app in N2 as (N2 & N23 & N3).
  cbn [nw_es nw_monitors nw_notes wm_with_mutex wm_mutex wm_with_set]. match goal with |- Q tt ?x => set (s2 := x) end.
  assert (El2 : nodes_of s2 = l) by exact El.
  apply HQ. split.
  - cbn. rewrite Em. cbn. rewrite !insert_insert_eq, lookup_insert_eq. f_equal. destruct x. cbn in *. by rewrite G2.
  - done.
  - eapply mon_rep_lists; [exact G3|exact Es|]. intros q Hq1. change (m_lists (s_mem (lib_of s2))) with (nodes_of s2).
    rewrite El2. apply Hout; [by apply cells_reg|]. intros Hq2. apply (N12 q Hq1). set_solver.
  - cbn. by rewrite Ec.
  - rewrite cells_post. apply NoDup_cons. split; [|done]. unfold cells. set_solver.
  - intros Hz. rewrite cells_post in Hz. apply elem_of_cons in Hz as [Hz|Hz]; [by subst|done].
  - rewrite El2, fmap_app. exact Hl.
  - rewrite El2. destruct local as [lo|]; cbn in *.
    + eapply dlist_frame; [|exact G8]. intros q Hq1. apply Hout; [by apply cells_local|].
      intros Hq2. by apply (N23 q Hq2).
    + destruct (Hout frame) as [E1 E2]; [exact (cells_local m frame cbs pend [] _ (list_elem_of_here _ _))|intros Hq2; apply (N23 frame Hq2); by left|].
      unfold list_node. by rewrite E1, E2.
  - cbn. rewrite En. cbn. rewrite <- app_assoc. apply Forall_app. apply Forall_app in G9 as [G9 G9'].
    split; [done|]. by apply Forall_cons.
Qed.

Lemma keeps_extract_device_id name :
  keeps (W := W) (extract_device_id name) (fun rk =>
    rk = (0, Some (device_id_of name)) \/ rk = (HS_ERROR_MEMORY, None)).
Proof.
  unfold extract_device_id. eapply keeps_bind; [apply keeps_win_strdup|]. intros o [-> | ->].
  - eapply keeps_bind; [apply keeps_memory_error|]. intros r ->. apply keeps_ret. by right.
  - apply keeps_ret. by left.
Qed.

(** A message of the system about a device: it is queued, or memory is short. *)
Lemma wp_post (Q : Z -> nst W -> Prop) s x pend local ev name :
  allocator_documented -> queue_rep s m frame x mo cbs bs D pend local ->
  (forall p s', queue_rep s' m frame (wm_with_set true x) mo cbs bs D
     (pend ++ [(p, (ev, device_id_of name))]) local -> Q 0 s') ->
  (forall s', queue_rep s' m frame x mo cbs bs D pend local -> Q HS_ERROR_MEMORY s') ->
  wp (post_device_event m ev name) Q s.
Proof.
  intros Hal Hq Hok Hfail. unfold post_device_event, win_block. wp_step. unfold on_st at 1. wp_step.
  wp_step. apply wp_os. intros [] w Ew.
  2:{ wp_step. change (NULL =? NULL) with true. cbv iota.
      eapply wp_on_st; [apply keeps_memory_error|]. intros r s1 E1 E2 E3 E4 ->.
      apply Hfail. by eapply queue_rep_quiet. }
  wp_step. wp_step. wp_step. cbn [s_world s_mem with_world part].
  set (p := block_address w _). destruct (Hal w (s_mem (lib_of s))) as [Hp Hfree].
  change (block_address w (s_mem (lib_of s))) with p in Hp, Hfree. unfold NULL in Hp.
  assert (~ in_use (s_mem (lib_of s)) p) as Hu by (apply Hfree; lia).
  pose proof (fresh_cell _ _ _ _ _ Hq Hu) as Hnew.
  rewrite (proj2 (Z.eqb_neq p NULL)) by (unfold NULL; lia).
  unfold alloc_note. wp_step. wp_step. wp_step. apply wp_on_nodes. unfold list_alloc. wp_step.
  intros s1 El1 Es1 _ Em1 En1 Ec1. cbn in Em1, En1, Ec1. cbn [l_prev l_next] in El1.
  set (l := LMem _ _) in El1.
  assert (Hl : forall q, q <> p -> l_prev l !! q = l_prev (nodes_of s) !! q /\
                                   l_next l !! q = l_next (nodes_of s) !! q).
  { intros q Hqp. cbn. by rewrite !lookup_insert_ne by done. }
  assert (Hq1 : queue_rep s1 m frame x mo cbs bs D pend local).
  { eapply queue_rep_frame; [exact Hq|done|done|done| |].
    - intros q Hq1. rewrite El1. apply Hl. by intros ->.
    - intros q Hq1. rewrite En1, lookup_insert_ne; [done|]. intros <-. apply Hnew.
      by apply cells_notes. }
  assert (Hp1 : list_node (nodes_of s1) p) by (rewrite El1; split; cbn; rewrite lookup_insert_eq; eauto).
  wp_step. eapply wp_intro.
  { unfold store_note. by rewrite En1, lookup_insert_eq. }
  set (s2 := Nst _ _ _).
  assert (Hq2 : forall n s3, nw_es s3 = nw_es s1 -> nw_monitors s3 = nw_monitors s1 ->
    nw_notes s3 = <[p := n]> (nw_notes s1) -> queue_rep s3 m frame x mo cbs bs D pend local).
  { intros n s3 E1 E2 E3. eapply queue_rep_frame; [exact Hq1|done| | | |].
    - by unfold lib_of; rewrite E1.
    - by rewrite E1.
    - intros q _. unfold nodes_of, lib_of. by rewrite E1.
    - intros q Hq2. rewrite E3, lookup_insert_ne; [done|]. intros <-. apply Hnew.
      by apply cells_notes. }
  wp_step. eapply wp_on_st; [apply keeps_extract_device_id|]. intros rk s3 E1 E2 E3 E4 [-> | ->].
  - (* queued *)
    wp_step. eapply wp_intro.
    { unfold store_note. by rewrite E3; cbn; rewrite lookup_insert_eq. }
    wp_step. eapply wp_post_locked with (e := (ev, device_id_of name)) (pend := pend).
    + eapply (queue_rep_quiet (Nst (nw_es s1) (nw_monitors s1) (<[p := note_of (ev, device_id_of name)]> (nw_notes s1))));
        [by eapply Hq2| | | |]; cbn; [exact E1|exact E2| |exact E4].
      by rewrite En1, !insert_insert_eq.
    + unfold nodes_of, lib_of in *. cbn. rewrite E1. exact Hp1.
    + unfold NULL. lia.
    + done.
    + cbn. by rewrite lookup_insert_eq.
    + intros s4 Hs4. wp_step. by eapply Hok.
  - (* not enough memory for the key *)
    unfold free_notification. rewrite (proj2 (Z.eqb_neq p NULL)) by (unfold NULL; lia).
    wp_step. unfold free_note. wp_step. eapply wp_load_note; [rewrite E3; cbn; by rewrite lookup_insert_eq|].
    wp_step. wp_step. apply wp_on_nodes. unfold list_free. wp_step.
    intros s4 El4 Es4 _ Em4 En4 Ec4. cbn in Em4, En4, Ec4. wp_step. apply Hfail.
    eapply queue_rep_frame; [exact Hq1| | | | |].
    + by rewrite Em4, E2.
    + unfold same_but_lists, lib_of in *. cbn in *. rewrite E1 in Es4. exact Es4.
    + by rewrite Ec4, E4.
    + intros q Hq3. rewrite El4. unfold nodes_of, lib_of in *. cbn. rewrite E1.
      rewrite !lookup_delete_ne by (intros <-; by apply Hnew). done.
    + intros q Hq3. rewrite En4, E3. cbn.
      assert (p <> q) as Hpq. { intros <-. apply Hnew. by apply cells_notes. }
      by rewrite lookup_delete_ne, En1, !lookup_insert_ne.
Qed.

Lemma wp_fail_locked (Q : unit -> nst W -> Prop) s x pend local r :
  queue_rep s m frame x mo cbs bs D pend local ->
  (forall s', queue_rep s' m frame (wm_with_set true (wm_with_ret r x)) mo cbs bs D pend local -> Q tt s') ->
  wp (fail_locked m r) Q s.
Proof.
  intros Hq HQ. pose proof Hq as [G1 G2 G3 G4 G5 G6 G7 G8 G9]. unfold fail_locked.
  wp_step. eapply wp_enter; [done|done|]. wp_step. eapply wp_set_wm; [by cbn; rewrite lookup_insert_eq|].
  wp_step. eapply wp_set_wm; [by cbn; rewrite lookup_insert_eq|].
  eapply wp_leave; [by cbn; rewrite lookup_insert_eq|done|done|]. cbn.
  apply HQ. split; try done. cbn. rewrite !insert_insert_eq, lookup_insert_eq. f_equal.
  destruct x. cbn in *. by rewrite G2.
Qed.

(** What the thread makes of a message. *)
Definition queued_by (msg : window_message) : option event :=
  match msg with
  | WM_DEVICECHANGE wparam name =>
      if wparam =? DBT_DEVICEARRIVAL then Some (DEVICE_EVENT_ADDED, device_id_of name)
      else if wparam =? DBT_DEVICEREMOVECOMPLETE then Some (DEVICE_EVENT_REMOVED, device_id_of name)
      else None
  | _ => None
  end.

Lemma wp_window_proc (Q : unit -> nst W -> Prop) s x pend local msg :
  allocator_documented -> queue_rep s m frame x mo cbs bs D pend local ->
  (forall s', queued_by msg = None -> queue_rep s' m frame x mo cbs bs D pend local -> Q tt s') ->
  (forall e p s', queued_by msg = Some e ->
     queue_rep s' m frame (wm_with_set true x) mo cbs bs D (pend ++ [(p, e)]) local -> Q tt s') ->
  (forall e s', queued_by msg = Some e ->
     queue_rep s' m frame (wm_with_set true (wm_with_ret HS_ERROR_MEMORY x)) mo cbs bs D pend local -> Q tt s') ->
  wp (window_proc m msg) Q s.
Proof.
  intros Hal Hq Hnone Hok Hfail. unfold window_proc.
  assert (Hdef : forall (P : nst W -> Prop) s1, (forall s2, P s2 -> Q tt s2) ->
    (forall s2, s_mem (lib_of s2) = s_mem (lib_of s1) -> nw_monitors s2 = nw_monitors s1 ->
       nw_notes s2 = nw_notes s1 -> es_controllers (nw_es s2) = es_controllers (nw_es s1) -> P s2) ->
    wp (on_st (os (DefWindowProc msg))) Q s1).
  { intros P s1 HPQ HP. eapply wp_on_st; [apply keeps_call|]. intros [] s2 E1 E2 E3 E4 _. auto. }
  wp_step. destruct msg as [wparam name| |].
  - cbn [queued_by] in *. wp_step.
    assert (Hpost : forall ev, (if wparam =? DBT_DEVICEARRIVAL then Some (DEVICE_EVENT_ADDED, device_id_of name)
        else if wparam =? DBT_DEVICEREMOVECOMPLETE then Some (DEVICE_EVENT_REMOVED, device_id_of name)
        else None) = Some (ev, device_id_of name) ->
      wp (post_device_event m ev name) (fun r => wp (if r <? 0 then fail_locked m r else ret tt)
        (fun _ => wp (on_st (os (DefWindowProc (WM_DEVICECHANGE wparam name)))) Q)) s).
    { intros ev Eev. eapply wp_post; [done|exact Hq| |].
      - intros p s1 Hs1. change (0 <? 0) with false. cbv iota. wp_step.
        eapply Hdef; [intros s2; by apply (Hok _ p s2 Eev)|]. intros s2 E1 E2 E3 E4. by eapply queue_rep_quiet.
      - intros s1 Hs1. change (HS_ERROR_MEMORY <? 0) with true. cbv iota.
        eapply wp_fail_locked; [exact Hs1|]. intros s2 Hs2.
        eapply Hdef; [intros s3; by apply (Hfail _ s3 Eev)|]. intros s3 E1 E2 E3 E4. by eapply queue_rep_quiet. }
    destruct (wparam =? DBT_DEVICEARRIVAL); [by apply Hpost|].
    destruct (wparam =? DBT_DEVICEREMOVECOMPLETE); [by apply Hpost|].
    wp_step. change (0 <? 0) with false. cbv iota. wp_step.
    eapply Hdef; [intros s2; by apply (Hnone s2 eq_refl)|]. intros s2 E1 E2 E3 E4. by eapply queue_rep_quiet.
  - eapply wp_on_st; [apply keeps_call|]. intros [] s1 E1 E2 E3 E4 _.
    eapply Hdef; [intros s2; by apply (Hnone s2 eq_refl)|]. intros s2 E1' E2' E3' E4'.
    eapply queue_rep_quiet; [by eapply queue_rep_quiet|done..].
  - wp_step. eapply Hdef; [intros s2; by apply (Hnone s2 eq_refl)|]. intros s2 E1 E2 E3 E4.
    by eapply queue_rep_quiet.
Qed.
End Thread.

(** * The steps of the reader *)

Section Reader.
Context {W : Type} `{Win32 W} `{Cfgmgr W} `{Win32Window W} `{Allocator W}.
Implicit Types (s : nst W) (p : ptr) (pend local : list (ptr * event)).
Variables (m frame : ptr) (mo : hs_monitor).

(** The change of a few cells. *)
Lemma cells_disjoint cbs pend local : NoDup (cells m frame cbs pend local) ->
  (m :: cbs.*1) ## (notifications_of m :: pend.*1) /\ (m :: cbs.*1) ## (frame :: local.*1) /\
  (notifications_of m :: pend.*1) ## (frame :: local.*1).
Proof. unfold cells. intros (N1 & N2 & (N3 & N4 & N5)%NoDup_app)%NoDup_app. set_solver. Qed.

(** The two lists after a list operation on them. *)
Lemma queue_rep_lists s s' x y cbs bs D pend local pend' (local' : option (list (ptr * event))) :
  queue_rep s m frame x mo cbs bs D pend (Some local) ->
  lmem_same_outside (notifications_of m :: frame :: pend.*1 ++ local.*1) (nodes_of s) (nodes_of s') ->
  same_but_lists (lib_of s) (lib_of s') -> es_controllers (nw_es s') = es_controllers (nw_es s) ->
  nw_monitors s' !! m = Some y -> wm_mutex y = Some 0 ->
  pend' ++ default [] local' ≡ₚ pend ++ local ->
  dlist (nodes_of s') (notifications_of m) pend'.*1 ->
  match local' with
  | Some l => dlist (nodes_of s') frame l.*1
  | None => list_node (nodes_of s') frame
  end ->
  (forall p, p ∈ (pend ++ local).*1 -> nw_notes s' !! p = nw_notes s !! p) ->
  queue_rep s' m frame y mo cbs bs D pend' local'.
Proof.
  intros [G1 G2 G3 G4 G5 G6 G7 G8 G9] Hout Es Ec Ey Hy Hperm Hp Hl Hn.
  cbn [default] in *. destruct (cells_disjoint _ _ _ G5) as (N1 & N2 & N3).
  assert (Hc : cells m frame cbs pend' (default [] local') ≡ₚ cells m frame cbs pend local).
  { unfold cells. apply (fmap_Permutation fst) in Hperm. rewrite !fmap_app in Hperm.
    change (notifications_of m :: pend'.*1) with ([notifications_of m] ++ pend'.*1).
    change (notifications_of m :: pend.*1) with ([notifications_of m] ++ pend.*1).
    rewrite <- !app_assoc. f_equiv. f_equiv. rewrite <- !Permutation_middle. by f_equiv. }
  split; try done.
  - eapply mon_rep_lists; [exact G3|exact Es|]. intros q Hq. apply Hout.
    specialize (N1 q Hq). specialize (N2 q Hq). set_solver.
  - by rewrite Ec.
  - by rewrite Hc.
  - by rewrite Hc.
  - rewrite Hperm. apply Forall_forall. intros pe Hpe. rewrite Hn by by apply list_elem_of_fmap_2.
    rewrite Forall_forall in G9. by apply G9.
Qed.

Lemma wp_open_list (Q : unit -> nst W -> Prop) s x cbs bs D pend :
  queue_rep s m frame x mo cbs bs D pend None ->
  (forall s', queue_rep s' m frame x mo cbs bs D pend (Some []) -> Q tt s') ->
  wp (on_nodes (_hs_list_init frame)) Q s.
Proof.
  intros Hq HQ. pose proof Hq as [G1 G2 G3 G4 G5 G6 G7 G8 G9]. apply wp_on_nodes.
  apply wp_list_init; [exact G8|unfold cells in G6; set_solver|].
  intros l Hl Hout s1 El Es _ Em En Ec. apply HQ. cbn [default] in *.
  destruct (cells_disjoint _ _ _ G5) as (N1 & N2 & N3). cbn in N2, N3.
  split; try done; cbn [default].
  - by rewrite Em.
  - eapply mon_rep_lists; [exact G3|exact Es|]. intros q Hq1.
    change (m_lists (s_mem (lib_of s1))) with (nodes_of s1). rewrite El. apply Hout. set_solver.
  - by rewrite Ec.
  - rewrite El. eapply dlist_frame; [|exact G7]. intros q Hq1. apply Hout. set_solver.
  - by rewrite El.
  - by rewrite En.
Qed.

Lemma wp_take (Q : Z -> nst W -> Prop) s x cbs bs D pend :
  queue_rep s m frame x mo cbs bs D pend (Some []) ->
  (forall s', queue_rep s' m frame (wm_with_ret 0 x) mo cbs bs D [] (Some pend) -> Q (wm_ret x) s') ->
  wp (take_notifications m frame) Q s.
Proof.
  intros Hq HQ. pose proof Hq as [G1 G2 G3 G4 G5 G6 G7 G8 G9]. unfold take_notifications.
  destruct (cells_disjoint _ _ _ G5) as (N1 & N2 & N3).
  wp_step. eapply wp_enter; [done|done|]. wp_step. apply wp_on_nodes.
  eapply wp_list_splice; [exact G8|exact G7|set_solver|]. intros l Hl1 Hl2 Hout s1 El Es _ Em En Ec.
  wp_step. eapply wp_load_wm; [by rewrite Em; cbn; rewrite lookup_insert_eq|].
  wp_step. eapply wp_set_wm; [by rewrite Em; cbn; rewrite lookup_insert_eq|].
  wp_step. eapply wp_leave; [by cbn; rewrite lookup_insert_eq|done|done|]. wp_step.
  cbn [wm_ret wm_with_mutex]. apply HQ.
  eapply (queue_rep_lists s); [exact Hq| |exact Es|exact Ec|..].
  - change (nodes_of (Nst _ _ _)) with (nodes_of s1). rewrite El. intros q Hq1. apply Hout. set_solver.
  - cbn. rewrite Em. cbn. rewrite !insert_insert_eq, lookup_insert_eq. f_equal. destruct x. cbn in *. by rewrite G2.
  - done.
  - by rewrite app_nil_r.
  - change (nodes_of (Nst _ _ _)) with (nodes_of s1). by rewrite El.
  - change (nodes_of (Nst _ _ _)) with (nodes_of s1). rewrite El. cbn in Hl1. by rewrite app_nil_r in Hl1.
  - intros q _. cbn. by rewrite En.
Qed.

Lemma wp_put_back (Q : unit -> nst W -> Prop) s x cbs bs D pend local :
  queue_rep s m frame x mo cbs bs D pend (Some local) ->
  (forall s', queue_rep s' m frame (if decide (local ++ pend = []) then wm_with_set false x else x)
     mo cbs bs D (local ++ pend) None -> Q tt s') ->
  wp (put_back m frame) Q s.
Proof.
  intros Hq HQ. pose proof Hq as [G1 G2 G3 G4 G5 G6 G7 G8 G9]. unfold put_back.
  destruct (cells_disjoint _ _ _ G5) as (N1 & N2 & N3).
  wp_step. eapply wp_enter; [done|done|]. wp_step. apply wp_on_nodes.
  eapply wp_list_splice; [exact G7|exact G8|set_solver|]. intros l Hl1 Hl2 Hout s1 El Es _ Em En Ec.
  rewrite <- fmap_app in Hl1. wp_step. apply wp_on_nodes. rewrite El.
  eapply wp_list_is_empty; [exact Hl1|]. intros s2 El2 Es2 _ Em2 En2 Ec2.
  assert (bool_decide ((local ++ pend).*1 = []) = bool_decide (local ++ pend = [])) as ->.
  { apply bool_decide_ext. split; [apply fmap_nil_inv|by intros ->]. }
  assert (Hend : forall s3 y, nw_es s3 = nw_es s2 -> nw_notes s3 = nw_notes s2 ->
    nw_monitors s3 !! m = Some (wm_with_mutex (Some (0 + 1)) y) -> wm_mutex y = Some 0 ->
    (if decide (local ++ pend = []) then wm_with_set false x else x) = y ->
    wp (LeaveCriticalSection m) Q s3).
  { intros s3 y E1 E2 E3 Hy Ey. eapply wp_leave; [exact E3|done|done|]. apply HQ.
    eapply (queue_rep_lists s); [exact Hq| | | |..].
    - unfold nodes_of, lib_of in *. cbn. rewrite E1, El2. intros q Hq1. apply Hout. set_solver.
    - unfold same_but_lists, lib_of in *. cbn. rewrite E1. destruct Es as (?&?&?&?), Es2 as (?&?&?&?).
      by repeat split; etransitivity.
    - cbn. by rewrite E1, Ec2, Ec.
    - cbn. rewrite lookup_insert_eq. f_equal. rewrite Ey. destruct y. cbn in *. by rewrite Hy.
    - by rewrite Ey.
    - cbn. rewrite app_nil_r. apply Permutation_app_comm.
    - unfold nodes_of, lib_of in *. cbn. by rewrite E1, El2.
    - unfold nodes_of, lib_of in *. cbn. rewrite E1, El2. by apply (dlist_node _ _ _ _ Hl2); left.
    - intros q _. cbn. by rewrite E2, En2, En. }
  assert (Hm2 : nw_monitors s2 !! m = Some (wm_with_mutex (Some (0 + 1)) x)).
  { rewrite Em2, Em. cbn. by rewrite lookup_insert_eq. }
  wp_step. case_bool_decide as Hnil.
  - eapply wp_set_wm; [exact Hm2|]. apply (Hend _ (wm_with_set false x)); [done|done| |done|by rewrite decide_True].
    cbn. by rewrite lookup_insert_eq.
  - wp_step. apply (Hend s2 x); [done|done|done|done|by rewrite decide_False].
Qed.
End Reader.

(** * Handling a notification *)

Section Handle.
Context {W : Type} `{Win32 W} `{Cfgmgr W} `{Win32Window W} `{Allocator W}.
Variable call : ptr -> ptr -> ptr -> M (st W) Z.
Variable react : ptr -> ptr -> hs_device -> ptr -> W -> Z * W.
Hypothesis call_react : calm call react.
Variable (t : usb_tree) (fuel : nat).
Hypothesis Hdoc : discovery_documented t fuel.
Implicit Types (s : nst W) (p : ptr) (pend : list (ptr * event)).
Variables (m frame : ptr) (mo : hs_monitor).

(** A device that arrived is still there when its notification is handled. *)
Definition still_there (e : event) : Prop :=
  e.1 = DEVICE_EVENT_ADDED -> forall w, exists inst w', CM_Locate_DevNode e.2 w = (WOk inst, w').

(** What an event does to the registry, with the result [r]: an arrival adds at
    most one device under its key, and a removal removes every device of its
    key. *)
Definition event_effect (e : event) (r : Z) (D D' : gmap (string * Z) ptr) : Prop :=
  match e.1 with
  | DEVICE_EVENT_ADDED =>
      (D' = D /\ (r = 0 \/ failure r)) \/
      exists i p, D !! (e.2, i) = None /\ D' = <[(e.2, i) := p]> D
  | DEVICE_EVENT_REMOVED => r = 0 /\ D' = filter (fun k => k.1.1 <> e.2) D
  end.

Lemma effect_size e r D D' : event_effect e r D D' -> (size D' <= S (size D))%nat.
Proof.
  unfold event_effect. destruct e.1.
  - intros [[-> _]|(i & p & HD & ->)]; [lia|]. rewrite map_size_insert_None by done. lia.
  - intros [_ ->]. etrans; [apply map_size_filter|]. lia.
Qed.

Lemma room_effect cbs cbs' e r D D' k :
  room fuel mo cbs D (S k) -> sublist cbs' cbs -> event_effect e r D D' -> room fuel mo cbs' D' k.
Proof.
  intros Hr Hs He. pose proof (effect_size _ _ _ _ He). pose proof (sublist_length _ _ Hs).
  unfold room in *. lia.
Qed.

(** The queue is not part of what the library changes. *)
Lemma queue_rep_library s s' x cbs cbs' bs bs' D D' pend local :
  queue_rep s m frame x mo cbs bs D pend local ->
  mon_rep (lib_of s') m mo cbs' bs' D' -> sublist cbs' cbs ->
  lmem_same_outside (m :: cbs.*1) (nodes_of s) (nodes_of s') ->
  nw_monitors s' = nw_monitors s -> nw_notes s' = nw_notes s ->
  es_controllers (nw_es s') = es_controllers (nw_es s) ->
  queue_rep s' m frame x mo cbs' bs' D' pend local.
Proof.
  intros [G1 G2 G3 G4 G5 G6 G7 G8 G9] Hrep Hsub Hl Em En Ec.
  destruct (cells_disjoint _ _ _ _ _ G5) as (N1 & N2 & _).
  assert (Hs : sublist (cells m frame cbs' pend (default [] local)) (cells m frame cbs pend (default [] local))).
  { unfold cells. apply sublist_app; [|done]. apply sublist_skip. by apply fmap_sublist. }
  split; try done.
  - by rewrite Em.
  - by rewrite Ec.
  - by eapply sublist_NoDup.
  - intros Hz. apply G6. by eapply sublist_subseteq.
  - eapply dlist_frame; [|exact G7]. intros q Hq. apply Hl. intros Hq2. by apply (N1 q Hq2).
  - destruct local as [l|]; cbn in *.
    + eapply dlist_frame; [|exact G8]. intros q Hq. apply Hl. intros Hq2. by apply (N2 q Hq2).
    + destruct (Hl frame) as [E1 E2]; [intros Hq2; apply (N2 frame Hq2); by left|].
      unfold list_node. by rewrite E1, E2.
  - by rewrite En.
Qed.

(** What handling an event leaves. *)
Definition handled x cbs D pend (local : option (list (ptr * event))) (e : event) (r : Z) s' : Prop :=
  exists cbs' bs' D', queue_rep s' m frame x mo cbs' bs' D' pend local /\ sublist cbs' cbs /\
    event_effect e r D D'.

Lemma wp_win32_arrival s x cbs bs D pend local key :
  queue_rep s m frame x mo cbs bs D pend local -> room fuel mo cbs D 0 ->
  still_there (DEVICE_EVENT_ADDED, key) ->
  wp (process_arrival_notification fuel call m key)
    (handled x cbs D pend local (DEVICE_EVENT_ADDED, key)) s.
Proof.
  intros Hq Hroom Hthere. unfold process_arrival_notification.
  assert (Hsame : forall s1 r, queue_rep s1 m frame x mo cbs bs D pend local -> r = 0 \/ failure r ->
    handled x cbs D pend local (DEVICE_EVENT_ADDED, key) r s1).
  { intros s1 r Hs1 Hr. exists cbs, bs, D. split; [done|split; [done|]]. by left. }
  wp_step. unfold on_st at 1. wp_step. apply wp_os. intros loc w Ew.
  destruct (Hthere eq_refl (s_world (part s))) as (inst & w' & Et). cbn [snd] in Et. rewrite Et in Ew. injection Ew as <- <-.
  match goal with |- wp _ _ ?x => set (s1 := x) end.
  assert (Hq1 : queue_rep s1 m frame x mo cbs bs D pend local) by by eapply queue_rep_quiet.
  wp_step. unfold on_es. wp_step. apply wp_load_controllers. wp_step. unfold on_st at 1. wp_step.
  eapply wp_mono; [apply (wp_process t fuel Hdoc); apply Hq1|]. intros [r p] y Hy.
  match goal with |- wp _ _ ?x => set (s2 := x) end.
  change (s_mem (part (with_part (part s1) s1))) with (s_mem (lib_of s1)) in Hy.
  change y with (lib_of s2) in Hy.
  destruct Hy as [(-> & d & Hd & Hp & Hu & Hn & Hpn & Hm)|[(-> & -> & Hm)|(Hr & -> & Hm)]].
  - change (1 <=? 0) with false. cbv iota. unfold on_st. wp_step.
    pose proof (ds_key _ _ _ _ _ Hd) as (k & Hk & -> & _). destruct (ds_new _ _ _ _ _ Hd) as (_ & Hrc & _).
    eapply (wp_add_new call react call_react fuel _ (lib_of s1)); [exact (qr_reg _ _ _ _ _ _ _ _ _ _ Hq1)|
      eapply room_enough; [exact (qr_reg _ _ _ _ _ _ _ _ _ _ Hq1)|exact Hroom]|exact Hm|done..| |].
    + intros dev y2 _ Hm2 _. apply Hsame; [|by left]. by eapply queue_rep_quiet.
    + intros r kept y2 bs' HD _ Hrep' _ Hsub [[_ _ _ _ _ Hl] _] _.
      exists kept, bs', (<[(key, dev_iface d) := p]> D). split; [|split; [done|]].
      * eapply (queue_rep_library s1); [exact Hq1|exact Hrep'|done| |done..].
        intros q Hq2. destruct (Hl q Hq2) as [E1 E2]. change (part s2) with (lib_of s2) in E1, E2.
        rewrite Hm in E1, E2. done.
      * right. by exists (dev_iface d), p.
  - change (0 <=? 0) with true. cbv iota. wp_step. apply Hsame; [|by left]. by eapply (queue_rep_quiet s1).
  - pose proof (failure_neg _ Hr). rewrite (proj2 (Z.leb_le _ _)) by lia. wp_step.
    apply Hsame; [|by right]. by eapply (queue_rep_quiet s1).
Qed.

Lemma wp_handle s x cbs bs D pend local e :
  queue_rep s m frame x mo cbs bs D pend local -> room fuel mo cbs D 0 -> still_there e ->
  wp (process_notification fuel call m (note_of e)) (handled x cbs D pend local e) s.
Proof.
  intros Hq Hroom Hthere. unfold process_notification. destruct e as [[] key]; cbn [note_of dn_key dn_event fst snd].
  - wp_step. eapply wp_on_st; [apply keeps_wlog|]. intros [] s1 E1 E2 E3 E4 _.
    eapply wp_win32_arrival; [|done|done]. by eapply queue_rep_quiet.
  - wp_step. eapply wp_on_st; [apply keeps_wlog|]. intros [] s1 E1 E2 E3 E4 _.
    assert (Hq1 : queue_rep s1 m frame x mo cbs bs D pend local) by by eapply queue_rep_quiet.
    pose proof (qr_reg _ _ _ _ _ _ _ _ _ _ Hq1) as Hrep.
    wp_step. unfold on_st. wp_step.
    eapply (wp_monitor_remove call react call_react); [exact Hrep|by eapply room_enough|].
    intros y bs' cbs' gone Hrep' _ Hsub _ _ _ [[_ _ _ _ _ Hl] _] _. wp_step.
    exists cbs', bs', (filter (fun k => k.1.1 <> key) D). split; [|by split].
    by eapply (queue_rep_library s1).
Qed.

(** The first notification of the local list is handled and freed. *)
Lemma wp_refresh_body s x cbs bs D pend local p e :
  queue_rep s m frame x mo cbs bs D pend (Some ((p, e) :: local)) -> room fuel mo cbs D 0 -> still_there e ->
  wp (refresh_body fuel call m p) (fun fl s' => exists r, fl = (if r <? 0 then Return r else Next) /\
    handled x cbs D pend (Some local) e r s') s.
Proof.
  intros Hq Hroom Hthere. unfold refresh_body.
  pose proof (qr_notes _ _ _ _ _ _ _ _ _ _ Hq) as Hn. cbn [default] in Hn.
  apply Forall_app in Hn as [Hn1 [Hn2 Hn3]%Forall_cons].
  wp_step. eapply wp_load_note; [exact Hn2|]. cbn [snd]. wp_step.
  eapply wp_mono; [by eapply wp_handle|]. intros r s1 (cbs1 & bs1 & D1 & Hq1 & Hsub & He).
  pose proof Hq1 as [G1 G2 G3 G4 G5 G6 G7 G8 G9]. cbn [default] in *.
  destruct (cells_disjoint _ _ _ _ _ G5) as (N1 & N2 & N3).
  wp_step. apply wp_on_nodes. eapply (wp_list_remove _ _ _ []); [exact G8|].
  intros l Hl Hp1 Hp2 Hout s2 El Es _ Em En Ec.
  apply Forall_app in G9 as [G9 [G9' G9'']%Forall_cons]. cbn [fst] in G9'.
  assert (p <> NULL) as Hp0 by (intros ->; apply G6, cells_local; by right; left).
  wp_step. unfold free_notification. rewrite (proj2 (Z.eqb_neq _ _) Hp0).
  unfold free_note. wp_step. eapply wp_load_note; [by rewrite En|]. wp_step. wp_step. apply wp_on_nodes.
  unfold list_free. wp_step. intros s3 El3 Es3 _ Em3 En3 Ec3. cbn in Em3, En3, Ec3.
  assert (Hq3 : queue_rep s3 m frame x mo cbs1 bs1 D1 pend (Some local)).
  { assert (cells m frame cbs1 pend ((p, e) :: local) ≡ₚ p :: cells m frame cbs1 pend local) as Hperm.
    { unfold cells. cbn [fmap list_fmap fst]. solve_Permutation. }
    assert (p ∉ cells m frame cbs1 pend local) as Hpc.
    { rewrite Hperm in G5. by apply NoDup_cons in G5 as [? _]. }
    assert (Hcell : forall q, q <> p -> l_prev (nodes_of s3) !! q = l_prev l !! q /\ l_next (nodes_of s3) !! q = l_next l !! q).
    { intros q Hqp. rewrite El3. unfold nodes_of, lib_of in *. cbn. rewrite El. by rewrite !lookup_delete_ne. }
    assert (Hother : forall q, q ∈ (m :: cbs1.*1) ++ (notifications_of m :: pend.*1) ->
      l_prev (nodes_of s3) !! q = l_prev (nodes_of s1) !! q /\ l_next (nodes_of s3) !! q = l_next (nodes_of s1) !! q).
    { intros q Hq2. destruct (Hcell q) as [-> ->]; [intros ->; apply Hpc; apply elem_of_app in Hq2 as [?|?]; [by apply cells_reg|by apply cells_pend]|].
      apply Hout. apply elem_of_app in Hq2 as [Hq2|Hq2]; intros Hq4; [by apply (N2 q Hq2)|by apply (N3 q Hq2)]. }
    split; try done; cbn [default].
    - by rewrite Em3, Em.
    - eapply mon_rep_lists; [exact G3| |].
      + unfold same_but_lists, lib_of in *. cbn in *. destruct Es as (?&?&?&?), Es3 as (?&?&?&?).
        by repeat split; etransitivity.
      + intros q Hq2. apply Hother. apply elem_of_app. by left.
    - by rewrite Ec3, Ec.
    - rewrite Hperm in G5. by apply NoDup_cons in G5 as [_ ?].
    - intros Hz. apply G6. change (NULL ∈ cells m frame cbs1 pend ((p, e) :: local)). rewrite Hperm. by right.
    - eapply dlist_frame; [|exact G7]. intros q Hq2. apply Hother. apply elem_of_app. by right.
    - eapply dlist_frame; [|exact Hl]. intros q Hq2. apply Hcell. intros ->. by apply Hpc, cells_local.
    - rewrite En3, En. apply Forall_forall. intros pe Hpe.
      rewrite lookup_delete_ne.
      + apply elem_of_app in Hpe as [Hpe|Hpe]; [rewrite Forall_forall in G9; by apply G9|].
        rewrite Forall_forall in G9''. by apply G9''.
      + intros ->. apply Hpc. apply cells_notes. exact (list_elem_of_fmap_2 fst _ _ Hpe). }
  destruct (r <? 0) eqn:Er; wp_step; exists r; (split; [by rewrite Er|]); by exists cbs1, bs1, D1.
Qed.
(** The events of a refresh, in order, until one fails; the result is that of
    the last one. *)
Inductive events_run : list event -> Z -> gmap (string * Z) ptr -> gmap (string * Z) ptr -> Prop :=
  | events_done D : events_run [] 0 D D
  | events_next e es r0 r D1 D2 D3 :
      event_effect e r0 D1 D2 -> 0 <= r0 -> events_run es r D2 D3 -> events_run (e :: es) r D1 D3
  | events_fail e r D1 D2 : event_effect e r D1 D2 -> r < 0 -> events_run [e] r D1 D2.

Lemma events_run_snoc es D1 D2 e r D3 :
  events_run es 0 D1 D2 -> event_effect e r D2 D3 ->
  events_run (es ++ [e]) (if r <? 0 then r else 0) D1 D3.
Proof.
  intros Hr. revert D3.
  enough (forall z, events_run es z D1 D2 -> z = 0 -> forall D3, event_effect e r D2 D3 ->
    events_run (es ++ [e]) (if r <? 0 then r else 0) D1 D3) as Hgo by eauto.
  clear Hr. intros z Hr.
  induction Hr as [D|e0 es r0 r1 D1 D2 D2' He0 Hr0 _ IH|e0 r1 D1 D2 _ Hneg]; intros Ez D3 He; cbn [app].
  - destruct (Z.ltb_spec r 0); [by apply events_fail|]. eapply events_next; [exact He|done|apply events_done].
  - eapply events_next; [exact He0|done|]. by apply IH.
  - lia.
Qed.

(** In the loop of a refresh: [todo] is still to be handled. *)
Definition refresh_inv x cbs D (all todo : list (ptr * event)) s : Prop :=
  exists cbs' bs' D' done, queue_rep s m frame x mo cbs' bs' D' [] (Some todo) /\ sublist cbs' cbs /\
    all = done ++ todo /\ events_run done.*2 0 D D' /\ room fuel mo cbs' D' (length todo).

Lemma wp_refresh_loop (Q : option Z -> nst W -> Prop) s x cbs bs D all :
  queue_rep s m frame x mo cbs bs D [] (Some all) -> room fuel mo cbs D (length all) -> (length all < fuel)%nat ->
  Forall still_there all.*2 ->
  (forall s' cbs' bs' D', queue_rep s' m frame x mo cbs' bs' D' [] (Some []) ->
     events_run all.*2 0 D D' -> Q None s') ->
  (forall r s' cbs' bs' D' done rest, queue_rep s' m frame x mo cbs' bs' D' [] (Some rest) ->
     all = done ++ rest -> events_run done.*2 r D D' -> r < 0 -> Q (Some r) s') ->
  wp (_hs_list_foreach (ret frame) (refresh_body fuel call m) fuel) Q s.
Proof.
  intros Hq Hroom Hf Hthere Hend Hfail.
  apply wp_list_foreach with (h := frame) (xs := all.*1)
    (Inv := fun ps s => exists todo, ps = todo.*1 /\ refresh_inv x cbs D all todo s).
  - intros ps s1 (todo & -> & cbs1 & bs1 & D1 & done & Hq1 & _).
    pose proof (qr_local _ _ _ _ _ _ _ _ _ _ Hq1) as Hd. apply rest_ring; apply Hd.
  - done.
  - intros p ps s1 (todo & E & cbs1 & bs1 & D1 & done & Hq1 & Hsub & Hall & Hrun & Hroom1).
    destruct todo as [|[p' e] todo]; [done|]. cbn in E. injection E as <- ->.
    eapply wp_mono; [eapply wp_refresh_body; [exact Hq1|unfold room in *; cbn in *; lia|]|].
    { rewrite Hall, fmap_app in Hthere. by apply Forall_app in Hthere as [_ [? _]%Forall_cons]. }
    intros fl s2 (r & -> & cbs2 & bs2 & D2 & Hq2 & Hsub2 & He).
    pose proof (events_run_snoc _ _ _ _ _ _ Hrun He) as Hrun2.
    change [e] with ([(p, e)].*2) in Hrun2. rewrite <- fmap_app in Hrun2.
    destruct (Z.ltb_spec r 0).
    + eapply Hfail; [exact Hq2| |exact Hrun2|done]. by rewrite Hall, <- app_assoc.
    + exists todo. split; [done|]. exists cbs2, bs2, D2, (done ++ [(p, e)]). split; [done|].
      split; [by etrans|]. split; [by rewrite Hall, <- app_assoc|]. split; [done|].
      eapply room_effect; [exact Hroom1|done|exact He].
  - intros s1 (todo & E & cbs1 & bs1 & D1 & done & Hq1 & _ & Hall & Hrun & _).
    symmetry in E. apply fmap_nil_inv in E as ->. rewrite app_nil_r in Hall. subst. by eapply Hend.
  - exists all. split; [done|]. exists cbs, bs, D, []. split; [done|]. split; [done|]. split; [done|].
    split; [apply events_done|done].
  - exact (qr_local _ _ _ _ _ _ _ _ _ _ Hq).
  - by rewrite length_fmap.
Qed.

(** After a refresh: the queue has [rest], and the event is reset when nothing
    is left. *)
Definition refreshed (x : win32_monitor) (rest : list (ptr * event)) : win32_monitor :=
  if decide (rest = []) then wm_with_set false (wm_with_ret 0 x) else wm_with_ret 0 x.

Lemma wp_refresh (Q : Z -> nst W -> Prop) s x cbs bs D pend :
  queue_rep s m frame x mo cbs bs D pend None -> room fuel mo cbs D (length pend) -> (length pend < fuel)%nat ->
  Forall still_there pend.*2 ->
  (forall s', wm_ret x < 0 -> queue_rep s' m frame (refreshed x pend) mo cbs bs D pend None ->
     Q (wm_ret x) s') ->
  (forall r s' cbs' bs' D' done rest, 0 <= wm_ret x -> pend = done ++ rest -> events_run done.*2 r D D' ->
     (0 <= r -> r = 0 /\ rest = []) ->
     queue_rep s' m frame (refreshed x rest) mo cbs' bs' D' rest None -> Q r s') ->
  wp (hs_monitor_refresh fuel call frame m) Q s.
Proof.
  intros Hq Hroom Hf Hthere Herr Hok. unfold hs_monitor_refresh.
  pose proof (mr_null _ _ _ _ _ _ (qr_reg _ _ _ _ _ _ _ _ _ _ Hq)) as Hm.
  wp_step. wp_step; [by rewrite (proj2 (Z.eqb_neq _ _) Hm)|]. wp_step. eapply wp_open_list; [exact Hq|].
  intros s1 Hq1. wp_step. eapply wp_take; [exact Hq1|]. intros s2 Hq2. wp_step.
  destruct (Z.ltb_spec (wm_ret x) 0) as [Hneg|Hpos].
  - wp_step. wp_step. eapply wp_put_back; [exact Hq2|]. intros s3 Hq3. wp_step.
    apply Herr; [done|]. by rewrite app_nil_r in Hq3.
  - wp_step. eapply wp_refresh_loop; [exact Hq2|done|done|done| |].
    + intros s3 cbs3 bs3 D3 Hq3 Hrun. wp_step. wp_step. eapply wp_put_back; [exact Hq3|]. intros s4 Hq4. wp_step.
      eapply (Hok 0 s4 cbs3 bs3 D3 pend []); [done|by rewrite app_nil_r|done|done|exact Hq4].
    + intros r s3 cbs3 bs3 D3 done rest Hq3 Hall Hrun Hneg. wp_step. wp_step.
      eapply wp_put_back; [exact Hq3|]. intros s4 Hq4. wp_step. rewrite app_nil_r in Hq4.
      eapply (Hok r s4 cbs3 bs3 D3 done rest); [done|done|done|cbn; lia|exact Hq4].
Qed.
End Handle.

(** * The two threads *)

(** Where the reader is: outside of a refresh, in its loop, or after it. *)
Inductive reader := Idle | Looping | Closing.

(** The state of the process, with the history: the events that were queued and
    those that were handled. *)
Record run_state (W : Type) := RunState {
  r_st : nst W;
  r_reader : reader;
  r_posted : list event;
  r_handled : list event
}.
Arguments RunState {W}.
Arguments r_st {W}.
Arguments r_reader {W}.
Arguments r_posted {W}.
Arguments r_handled {W}.

Section Turns.
Context {W : Type} `{Win32 W} `{Cfgmgr W} `{Win32Window W} `{Allocator W}.
Variable call : ptr -> ptr -> ptr -> M (st W) Z.
Variable fuel : nat.
Variables (m frame : ptr) (mo : hs_monitor).

Definition roomy (s : nst W) : Prop :=
  exists x cbs bs D pend local, queue_rep s m frame x mo cbs bs D pend local /\ room fuel mo cbs D 0.

(** The turns of the background thread, which queues an event, fails to, or
    records the failure, and of the reader, which runs its refresh one critical
    section and one notification at a time. *)
Inductive turn : run_state W -> run_state W -> Prop :=
  | T_post ev name s s' rd posted handled :
      post_device_event m ev name s = Done (0, s') ->
      turn (RunState s rd posted handled)
           (RunState s' rd (posted ++ [(ev, device_id_of name)]) handled)
  | T_short ev name r s s' rd posted handled :
      post_device_event m ev name s = Done (r, s') -> r < 0 ->
      turn (RunState s rd posted handled) (RunState s' rd posted handled)
  | T_fail r s s' rd posted handled :
      r < 0 -> fail_locked m r s = Done (tt, s') ->
      turn (RunState s rd posted handled) (RunState s' rd posted handled)
  | R_take r s s' posted handled :
      (on_nodes (_hs_list_init frame) ;;; take_notifications m frame) s = Done (r, s') ->
      turn (RunState s Idle posted handled)
           (RunState s' (if r <? 0 then Closing else Looping) posted handled)
  | R_handle p e fl s s' posted handled :
      l_next (nodes_of s) !! frame = Some p -> p <> frame -> nw_notes s !! p = Some (note_of e) ->
      still_there e -> roomy s -> refresh_body fuel call m p s = Done (fl, s') ->
      turn (RunState s Looping posted handled)
           (RunState s' (match fl with Next => Looping | _ => Closing end) posted (handled ++ [e]))
  | R_end s posted handled :
      l_next (nodes_of s) !! frame = Some frame ->
      turn (RunState s Looping posted handled) (RunState s Closing posted handled)
  | R_put_back s s' posted handled :
      put_back m frame s = Done (tt, s') ->
      turn (RunState s Closing posted handled) (RunState s' Idle posted handled).

(** What holds between two turns. *)
Definition run_inv (c : run_state W) : Prop :=
  exists x cbs bs D pend local, queue_rep (r_st c) m frame x mo cbs bs D pend local /\
    (local = None <-> r_reader c = Idle) /\
    r_posted c = r_handled c ++ (default [] local).*2 ++ pend.*2 /\
    (default [] local ++ pend <> [] -> wm_set x = true).

Variable react : ptr -> ptr -> hs_device -> ptr -> W -> Z * W.
Hypothesis call_react : calm call react.
Variable t : usb_tree.
Hypothesis Hdoc : discovery_documented t fuel.

Lemma mon_rep_fun (y : st W) cbs bs D cbs' bs' D' :
  mon_rep y m mo cbs bs D -> mon_rep y m mo cbs' bs' D' -> cbs = cbs' /\ D = D'.
Proof.
  intros R1 R2. pose proof (mr_tab _ _ _ _ _ _ R1) as T1. pose proof (mr_tab _ _ _ _ _ _ R2) as T2.
  split; [exact (cbs_rep_fun _ _ _ _ (mr_cbs _ _ _ _ _ _ R1) (mr_cbs _ _ _ _ _ _ R2))|].
  rewrite (htable_rep_fun _ _ _ _ (tr_rep _ _ _ _ _ T2) (tr_rep _ _ _ _ _ T1)) in T2.
  apply map_eq. intros ki. apply option_eq. intros dev.
  split; [eapply registry_incl; [exact T1|exact T2]|eapply registry_incl; [exact T2|exact T1]].
Qed.

Lemma wp_done {A} (c : M (nst W) A) (Q : A -> nst W -> Prop) s a s' :
  wp c Q s -> c s = Done (a, s') -> Q a s'.
Proof. unfold wp. by intros Hwp E; rewrite E in Hwp. Qed.

Lemma turn_post ev name s s' rd posted handled :
  run_inv (RunState s rd posted handled) -> post_device_event m ev name s = Done (0, s') ->
  run_inv (RunState s' rd (posted ++ [(ev, device_id_of name)]) handled).
Proof.
  intros (x & cbs & bs & D & pend & local & Hq & Hrd & Hh & Hset) E. cbn in *.
  eapply (wp_done _ (fun r s' => r = 0 -> run_inv (RunState s' rd (posted ++ [(ev, device_id_of name)]) handled)));
    [|exact E|done].
  eapply wp_post; [exact (dd_alloc _ _ Hdoc)|exact Hq| |done]. intros p s1 Hq1 _.
  exists (wm_with_set true x), cbs, bs, D, (pend ++ [(p, (ev, device_id_of name))]), local.
  split; [exact Hq1|]. split; [done|]. split; [|done].
  cbn. by rewrite Hh, !fmap_app, <- !app_assoc.
Qed.

Lemma turn_short ev name r s s' rd posted handled :
  run_inv (RunState s rd posted handled) -> post_device_event m ev name s = Done (r, s') -> r < 0 ->
  run_inv (RunState s' rd posted handled).
Proof.
  intros (x & cbs & bs & D & pend & local & Hq & Hrd & Hh & Hset) E Hr. cbn in *.
  eapply (wp_done _ (fun r s' => r < 0 -> run_inv (RunState s' rd posted handled))); [|exact E|done].
  eapply wp_post; [exact (dd_alloc _ _ Hdoc)|exact Hq|lia|]. intros s1 Hq1 _. by exists x, cbs, bs, D, pend, local.
Qed.

Lemma turn_take r s s' posted handled :
  run_inv (RunState s Idle posted handled) ->
  (on_nodes (_hs_list_init frame) ;;; take_notifications m frame) s = Done (r, s') ->
  run_inv (RunState s' (if r <? 0 then Closing else Looping) posted handled).
Proof.
  intros (x & cbs & bs & D & pend & local & Hq & Hrd & Hh & Hset) E. cbn in *.
  destruct local as [l|]; [by apply proj2 in Hrd; discriminate Hrd|].
  eapply (wp_done _ (fun r s' => run_inv (RunState s' (if r <? 0 then Closing else Looping) posted handled)));
    [|exact E].
  wp_step. eapply wp_open_list; [exact Hq|]. intros s1 Hq1. eapply wp_take; [exact Hq1|]. intros s2 Hq2.
  exists (wm_with_ret 0 x), cbs, bs, D, [], (Some pend). split; [exact Hq2|]. split; [by case_match|].
  cbn in *. split; [by rewrite app_nil_r|]. by rewrite app_nil_r.
Qed.

(** The node after the head of the local list. *)
Lemma local_head (s : nst W) x cbs bs D pend local p :
  queue_rep s m frame x mo cbs bs D pend (Some local) -> l_next (nodes_of s) !! frame = Some p ->
  p = hdp frame local.*1.
Proof. intros Hq E. rewrite (dlist_head_next _ _ _ (qr_local _ _ _ _ _ _ _ _ _ _ Hq)) in E. congruence. Qed.

Lemma turn_handle p e fl s s' posted handled :
  run_inv (RunState s Looping posted handled) ->
  l_next (nodes_of s) !! frame = Some p -> p <> frame -> nw_notes s !! p = Some (note_of e) ->
  still_there e -> roomy s -> refresh_body fuel call m p s = Done (fl, s') ->
  run_inv (RunState s' (match fl with Next => Looping | _ => Closing end) posted (handled ++ [e])).
Proof.
  intros (x & cbs & bs & D & pend & local & Hq & Hrd & Hh & Hset) Hnext Hpf Hnote Hthere Hroomy E. cbn in *.
  destruct local as [l|]; [|by apply proj1 in Hrd; specialize (Hrd eq_refl)].
  pose proof (local_head _ _ _ _ _ _ _ _ Hq Hnext) as Hp.
  destruct l as [|[p' e'] l]; [done|]. cbn in Hp. subst p'.
  assert (e' = e) as ->.
  { pose proof (qr_notes _ _ _ _ _ _ _ _ _ _ Hq) as Hn. cbn [default] in Hn.
    apply Forall_app in Hn as [_ [Hn _]%Forall_cons]. cbn in Hn. rewrite Hnote in Hn.
    destruct e, e'. unfold note_of in Hn. cbn in Hn. congruence. }
  destruct Hroomy as (x2 & cbs2 & bs2 & D2 & pend2 & local2 & Hq2 & Hroom).
  destruct (mon_rep_fun _ _ _ _ _ _ _ (qr_reg _ _ _ _ _ _ _ _ _ _ Hq2) (qr_reg _ _ _ _ _ _ _ _ _ _ Hq)) as [-> ->].
  destruct (wp_done _ _ _ _ _ (wp_refresh_body call react call_react t fuel Hdoc m frame mo _ _ _ _ _ _ _ _ _ Hq Hroom Hthere) E)
    as (r & -> & cbs1 & bs1 & D1 & Hq1 & Hsub & _).
  exists x, cbs1, bs1, D1, pend, (Some l). split; [exact Hq1|].
  split; [destruct (r <? 0); done|]. split; [cbn; by rewrite Hh, <- app_assoc|]. by intros _; apply Hset.
Qed.

Lemma turn_put_back s s' posted handled :
  run_inv (RunState s Closing posted handled) -> put_back m frame s = Done (tt, s') ->
  run_inv (RunState s' Idle posted handled).
Proof.
  intros (x & cbs & bs & D & pend & local & Hq & Hrd & Hh & Hset) E. cbn in *.
  destruct local as [l|]; [|by apply proj1 in Hrd; specialize (Hrd eq_refl)].
  eapply (wp_done _ (fun _ s' => run_inv (RunState s' Idle posted handled))); [|exact E].
  eapply wp_put_back; [exact Hq|]. intros s1 Hq1.
  eexists _, cbs, bs, D, (l ++ pend), None. split; [exact Hq1|]. split; [done|].
  cbn in *. split; [by rewrite fmap_app|]. intros Hne. rewrite decide_False by done. by apply Hset.
Qed.

Lemma turn_keeps c c' : turn c c' -> run_inv c -> run_inv c'.
Proof.
  intros Ht Hinv. destruct Ht.
  - by eapply turn_post.
  - by eapply turn_short.
  - destruct Hinv as (x & cbs & bs & D & pend & local & Hq & Hrd & Hh & Hset). cbn in *.
    eapply (wp_done _ (fun _ s' => run_inv (RunState s' rd posted handled0))); [|done].
    eapply wp_fail_locked; [exact Hq|]. intros s1 Hq1. by eexists _, cbs, bs, D, pend, local.
  - by eapply turn_take.
  - by eapply turn_handle.
  - destruct Hinv as (x & cbs & bs & D & pend & local & Hq & Hrd & Hh & Hset). cbn in *.
    exists x, cbs, bs, D, pend, local. split; [done|]. cbn. split; [|done].
    split; [|done]. intros ->. by apply proj1 in Hrd; specialize (Hrd eq_refl).
  - by eapply turn_put_back.
Qed.

Lemma turns_keep c c' : rtc turn c c' -> run_inv c -> run_inv c'.
Proof. induction 1 as [|c1 c2 c3 Ht _ IH]; [done|]. intros Hinv. by eapply IH, turn_keeps. Qed.
End Turns.

(** * A monitor, for the witnesses *)

#[export] Instance demo_window : Win32Window windows := {|
  GetModuleHandle w := (1, w);
  RegisterClassEx _ w := (1, w);
  CreateWindow _ w := (8, w);
  SetWindowLongPtr _ _ w := (0, w);
  RegisterDeviceNotification _ w := (9, w);
  UnregisterDeviceNotification _ w := (tt, w);
  DestroyWindow _ w := (tt, w);
  UnregisterClass _ w := (tt, w);
  GetMessage w := ((0, WM_OTHER), w);
  TranslateMessage _ w := (tt, w);
  PostMessage_close _ w := (tt, w);
  PostQuitMessage w := (tt, w);
  DefWindowProc _ w := (tt, w);
  _beginthreadex w := (7, w);
  wait_infinite _ w := (WAIT_OBJECT_0, w)
|}.

(** A user whose callbacks only return 0. *)
Definition idle_call (f dev udata : ptr) : M (st windows) Z := ret 0.
Definition idle_react (f dev : ptr) (d : hs_device) (udata : ptr) (w : windows) : Z * windows := (0, w).

Lemma idle_calm : calm idle_call idle_react.
Proof. intros f dev udata [] d _. reflexivity. Qed.

Definition WMON : ptr := 4096.
Definition FRAME : ptr := 16384.

Definition win32_boot : st windows :=
  St (Windows [] None [] ∅) (common_init false)
    (Mem (LMem {[WMON := NULL; notifications_of WMON := notifications_of WMON; FRAME := NULL]}
               {[WMON := NULL; notifications_of WMON := notifications_of WMON; FRAME := NULL]})
       (HMem ∅ ∅) ∅ ∅ {[WMON := Monitor 0 (Htable 0 NULL)]} ∅).

Definition wmon0 : win32_monitor := Win32Monitor (Some 0) 0 5 false 7 8.
Definition wmo0 : hs_monitor := Monitor 0 (Htable 64 HEADS).

(** An idle monitor without devices. *)
Definition wdemo0 : nst windows :=
  Nst (EnumState (after (_hs_monitor_init HEADS WMON) win32_boot) demo_controllers)
    {[WMON := wmon0]} ∅.

Lemma wdemo0_rep : queue_rep wdemo0 WMON FRAME wmon0 wmo0 [] (replicate 64 []) ∅ [] None.
Proof.
  assert (wp (_hs_monitor_init HEADS WMON) (fun _ s => mon_rep s WMON wmo0 [] (replicate 64 []) ∅) win32_boot)
    as (r & s & E & Hs)%wp_inv.
  { eapply wp_monitor_init with (mo := Monitor 0 (Htable 0 NULL)).
    - split; [done|done|split; by eexists|unfold INT_MAX; cbn; lia].
    - done.
    - intros _ s' H1 _ _ _ _. exact H1. }
  assert (lib_of wdemo0 = s) as El by (unfold lib_of, wdemo0, after; cbn [nw_es es_st]; by rewrite E).
  split.
  - by vm_compute.
  - reflexivity.
  - by rewrite El.
  - repeat constructor; cbn; lia.
  - apply (bool_decide_unpack _). by vm_compute.
  - apply (bool_decide_unpack _). by vm_compute.
  - apply dlist_empty; [done|by vm_compute..].
  - split; [exists NULL|exists NULL]; by vm_compute.
  - constructor.
Qed.

(** The device of demo_tree arrives. *)
Definition arrival_name : string := "\\?\usb#vid_16c0&pid_0483#12345#{a5dcbf10-6530-11d2-901f-00c04fb951ed}".
Definition arrival : event := (DEVICE_EVENT_ADDED, "USB\VID_16C0&PID_0483\12345").

Example arrival_id : device_id_of arrival_name = arrival.2.
Proof. vm_compute. reflexivity. Qed.

Definition after_n {W A} (c : M (nst W) A) (s : nst W) : nst W :=
  match c s with Done (_, s) => s | _ => s end.

Definition wdemo1 : nst windows :=
  after_n (post_device_event (H2 := bump) WMON DEVICE_EVENT_ADDED arrival_name) wdemo0.

Lemma done_inj {S A} (a b : A) (s s' : S) : Done (a, s) = Done (b, s') -> a = b /\ s = s'.
Proof. by intros [=]. Qed.

Lemma wdemo1_rep : exists p, queue_rep wdemo1 WMON FRAME (wm_with_set true wmon0) wmo0 [] (replicate 64 []) ∅
  [(p, arrival)] None.
Proof.
  assert (wp (post_device_event (H := windows_win32) (H2 := bump) WMON DEVICE_EVENT_ADDED arrival_name)
    (fun r s => r = 0 -> exists p, queue_rep s WMON FRAME (wm_with_set true wmon0) wmo0 [] (replicate 64 []) ∅
       [(p, arrival)] None) wdemo0) as (r & s & E & Hs)%wp_inv.
  { eapply wp_post; [exact bump_documented|exact wdemo0_rep| |done].
    intros p s Hs _. rewrite arrival_id in Hs. exists p. exact Hs. }
  assert (post_device_event (H := windows_win32) (H2 := bump) WMON DEVICE_EVENT_ADDED arrival_name wdemo0 =
    Done (0, wdemo1)) as E1 by (vm_compute; reflexivity).
  rewrite E1 in E. destruct (done_inj _ _ _ _ E) as [<- <-]. by apply Hs.
Qed.

Lemma arrival_there : still_there (H0 := demo_cfgmgr) arrival.
Proof. intros _ w. exists 13, w. vm_compute. reflexivity. Qed.

Lemma wdemo_room k : (k < 100)%nat -> room 200 wmo0 [] ∅ k.
Proof. unfold room. rewrite map_size_empty. cbn. lia. Qed.

Lemma demo_documented_200 : discovery_documented (H0 := demo_cfgmgr) (H1 := bump) demo_tree 200.
Proof. apply (documented_mono demo_tree 10 200); [exact demo_documented|lia]. Qed.

(** * Properties *)



(** C3: no notification is lost. Whatever the order in which the background
    thread queues notifications or fails, and the reader takes, handles and
    puts back, the events queued so far are those handled, followed by those
    the reader took and those in the queue, in order; and the event is set as
    long as one of them waits. *)
Theorem win32_notifications_kept {W} `{Win32 W} `{Cfgmgr W} `{Win32Window W} `{Allocator W} call react t fuel
    m frame mo (s : nst W) x cbs bs D c :
  calm call react -> discovery_documented t fuel ->
  queue_rep s m frame x mo cbs bs D [] None ->
  rtc (turn call fuel m frame mo) (RunState s Idle [] []) c ->
  exists x cbs bs D pend local, queue_rep (r_st c) m frame x mo cbs bs D pend local /\
    (local = None <-> r_reader c = Idle) /\
    r_posted c = r_handled c ++ (default [] local).*2 ++ pend.*2 /\
    (default [] local ++ pend <> [] -> wm_set x = true).
Proof.
  intros Hcalm Hdoc Hq Hrun. eapply turns_keep; [exact Hcalm|exact Hdoc|exact Hrun|].
  exists x, cbs, bs, D, [], None. done.
Qed.

Definition wdemo2 : nst windows :=
  after_n (on_nodes (_hs_list_init FRAME) ;;; take_notifications WMON FRAME) wdemo1.
Definition wdemo3 : nst windows :=
  after_n (refresh_body (H0 := demo_cfgmgr) (H2 := bump) 200 idle_call WMON (FRAME + 1)) wdemo2.

(** The arrival is queued, taken and handled. *)
Lemma win32_notifications_kept_witness :
  exists x cbs bs D pend local, queue_rep wdemo3 WMON FRAME x wmo0 cbs bs D pend local /\
    (local = None <-> Looping = Idle) /\
    [arrival] = [arrival] ++ (default [] local).*2 ++ pend.*2 /\
    (default [] local ++ pend <> [] -> wm_set x = true).
Proof.
  assert (roomy 200 WMON FRAME wmo0 wdemo2) as Hroomy.
  { destruct wdemo1_rep as [p Hq].
    assert (wp (on_nodes (_hs_list_init FRAME) ;;; take_notifications WMON FRAME)
      (fun _ s => queue_rep s WMON FRAME (wm_with_ret 0 (wm_with_set true wmon0)) wmo0 [] (replicate 64 []) ∅
         [] (Some [(p, arrival)])) wdemo1) as (r & s & E & Hs)%wp_inv.
    { wp_step. eapply wp_open_list; [exact Hq|]. intros s1 Hq1. by eapply wp_take; [exact Hq1|]. }
    unfold wdemo2, after_n. rewrite E. eexists _, _, _, _, _, _. split; [exact Hs|]. apply wdemo_room. lia. }
  apply (@win32_notifications_kept windows windows_win32 demo_cfgmgr demo_window bump idle_call idle_react demo_tree
    200 WMON FRAME wmo0 wdemo0 wmon0 [] (replicate 64 []) ∅ (RunState wdemo3 Looping [arrival] [arrival])).
  - exact idle_calm.
  - exact demo_documented_200.
  - exact wdemo0_rep.
  - eapply rtc_l; [apply (T_post _ _ _ _ _ DEVICE_EVENT_ADDED arrival_name wdemo0 wdemo1); vm_compute; reflexivity|].
    eapply rtc_l; [apply (R_take _ _ _ _ _ 0 wdemo1 wdemo2); vm_compute; reflexivity|].
    eapply rtc_l; [|apply rtc_refl].
    apply (R_handle _ _ _ _ _ (FRAME + 1) arrival Next wdemo2 wdemo3 [arrival] []);
      [vm_compute; reflexivity|done|vm_compute; reflexivity|exact arrival_there|exact Hroomy|vm_compute; reflexivity].
Defined.

(** * Runs of the whole monitor *)

Definition fresh_process : nst windows := Nst (EnumState win32_quiet []) ∅ ∅.

(** A monitor is made, with the device of the tree; a removal is refreshed; the
    monitor is freed, with the notification that came too late. *)
Example win32_session :
  match hs_monitor_new (H0 := demo_cfgmgr) (H2 := bump) 100 idle_call [] fresh_process with
  | Done ((r, m), s) =>
      r = 0 /\ size (m_devs (s_mem (lib_of s))) = 1%nat /\ (wm_set <$> nw_monitors s !! m) = Some false /\
      let remove := window_proc (H2 := bump) m (WM_DEVICECHANGE DBT_DEVICEREMOVECOMPLETE arrival_name) in
      match (remove ;;; on_nodes (list_alloc FRAME) ;;;
             let* r := hs_monitor_refresh (H0 := demo_cfgmgr) (H2 := bump) 100 idle_call FRAME m in
             on_nodes (list_free FRAME) ;;; ret r) s with
      | Done (r, s) =>
          r = 0 /\ size (m_devs (s_mem (lib_of s))) = 0%nat /\
          match hs_monitor_free 100 m remove s with
          | Done (_, s) =>
              nw_monitors s = ∅ /\ nw_notes s = ∅ /\ s_mem (lib_of s) = s_mem (lib_of fresh_process)
          | _ => False
          end
      | _ => False
      end
  | _ => False
  end.
Proof. vm_compute. repeat split. Qed.

(** * Four defects *)

(** A device that is unplugged before its notification is handled: the message
    that says so reads the key of a device that is still NULL. *)
Theorem gone_device_faults {W} `{Win32 W} `{Cfgmgr W} `{Allocator W} call fuel m key (s : nst W) e w :
  CM_Locate_DevNode key (s_world (lib_of s)) = (WErr e, w) ->
  process_arrival_notification fuel call m key s = Fault BadAccess.
Proof.
  intros E. unfold process_arrival_notification, bind, on_st, zoom, os.
  change (part s) with (lib_of s). by rewrite E.
Qed.

(** The thread sets the event when it is ready, and [hs_monitor_new] resets it
    afterwards: a notification that came in between waits with the event reset. *)
Example new_loses_wakeup :
  match hs_monitor_new (H0 := demo_cfgmgr) (H2 := bump) 100 idle_call
          [WM_DEVICECHANGE DBT_DEVICEREMOVECOMPLETE arrival_name] fresh_process with
  | Done ((r, m), s) =>
      r = 0 /\ size (nw_notes s) = 1%nat /\ (wm_set <$> nw_monitors s !! m) = Some false
  | _ => False
  end.
Proof. vm_compute. by split_and!. Qed.

(** An error of the thread that comes during a refresh: the end of the refresh
    sees an empty queue and resets the event, with the error still to be
    returned. *)
Example error_wakeup_lost :
  let refresh_around (c : M (nst windows) unit) :=
    (on_nodes (_hs_list_init FRAME) ;;;
     let* _ := take_notifications WMON FRAME in
     c ;;;
     put_back WMON FRAME) in
  match refresh_around (fail_locked WMON HS_ERROR_MEMORY) wdemo0 with
  | Done (_, s) =>
      (fun x => (wm_ret x, wm_set x)) <$> nw_monitors s !! WMON = Some (HS_ERROR_MEMORY, false)
  | _ => False
  end.
Proof. vm_compute. reflexivity. Qed.

(** When the thread cannot be created, [hs_monitor_new] returns without
    freeing the monitor. *)
Definition threadless : Win32Window windows := {|
  GetModuleHandle := GetModuleHandle;
  RegisterClassEx := RegisterClassEx;
  CreateWindow := CreateWindow;
  SetWindowLongPtr := SetWindowLongPtr;
  RegisterDeviceNotification := RegisterDeviceNotification;
  UnregisterDeviceNotification := UnregisterDeviceNotification;
  DestroyWindow := DestroyWindow;
  UnregisterClass := UnregisterClass;
  GetMessage := GetMessage;
  TranslateMessage := TranslateMessage;
  PostMessage_close := PostMessage_close;
  PostQuitMessage := PostQuitMessage;
  DefWindowProc := DefWindowProc;
  _beginthreadex w := (0, w);
  wait_infinite := wait_infinite
|}.

Example new_leaks_monitor :
  match hs_monitor_new (H0 := demo_cfgmgr) (H1 := threadless) (H2 := bump) 100 idle_call [] fresh_process with
  | Done ((r, m), s) => (r, m) = (HS_ERROR_SYSTEM, NULL) /\ size (nw_monitors s) = 1%nat /\
      size (m_devs (s_mem (lib_of s))) = 1%nat
  | _ => False
  end.
Proof. vm_compute. by split_and!. Qed.
